(* ===== verification/_CoqProject ===== *)
-Q . S2P
Prelude.v
Threads.v
Text.v
Errors.v
Borsh.v
SolanaTypes.v
Health.v
Guardrails.v
Harness.v
World.v
Concrete.v
Aes.v
Crypto.v
Jwt.v
Notification.v
Auth.v
AuthFacts.v
OAuth.v
User.v
Sealed.v
AccountFacts.v
Ws.v
Storage.v
Upload.v
Startup.v
DraftData.v
Routes.v
Solana.v
Agreement.v
Draft.v
Wire.v
Invite.v
InviteFacts.v
Amounts.v
Payments.v
PaymentLifecycle.v
EventListener.v
LogStream.v
Expiry.v
Keeper.v
PaymentFacts.v
System.v
Api.v
Steps.v
Sessions.v
Workflow.v
Ownership.v
Records.v
Concurrent.v
Races.v
Response.v
Completion.v
Secrecy.v
Reference.v
UnitTests.v
EndpointTests.v
