(* ===== verification/Prelude.v ===== *)
(** * Pactum backend: verification library (root file)

    This library models the Rust backend of Pactum (crate root src/src, tables
    in src/migrations) and proves what its handlers and background workers do.
    Users sign in with a wallet or through OAuth and keep encrypted contacts;
    the backend keeps drafts of agreements, stores their documents on IPFS or
    Arweave, invites parties by email, takes a platform fee, hands out Solana
    transactions to sign, and follows the chain with workers that update
    tables, notify users, expire agreements and refund payments.

    ** How the program is modelled

    Handlers and workers are computations [M World E A]: a function from the
    world to a result and the world left behind.  The world (World.v) holds the
    thirteen tables as lists of typed rows, the process health, the connected
    users, the invite rate limiter, the deliveries made to the outside, and a
    tick that every access to the environment advances.  The environment is the
    class [Env]: what the database, the clocks, the random source, the RPC node
    and the email API do at each tick.  A theorem about a handler therefore
    holds for every behaviour of its environment, in particular when the
    connection to the database is lost before or after any single statement.
    The third-party crates are the class [Ext]: base58, borsh, AES-GCM, HMAC,
    SHA-256, program addresses, transaction encoding, tokens, signatures, JSON.
    What a theorem needs of them is a named hypothesis ([uuid_text],
    [aes_correct], [jwt_correct], [matchit_spec], the laws of [Codec]), and
    Concrete.v has instances under which every hypothesis of every theorem
    holds; [aes_correct] is also proved of the standard's cipher (Aes.v).

    A SQL statement is an atomic function of the tables that may be rejected: a
    statement that names a column the migrations do not create, or an INSERT
    that leaves out a required one, is rejected ([prepared], [insert_prepared]).
    A transaction undoes its body when the body fails.  Integers are [Z] with
    the wrap-around of the code's width written out; strings are byte strings.

    ** The files

    - Prelude.v: results, the monad, two-state invariants ([keeps]), growing
      tables ([grows]), machine integers.  Text.v: bytes, UTF-8 and the string
      functions of the standard library.  Borsh.v: codecs and their laws.
    - Errors.v: error.rs.  Health.v: state.rs, workers/policy.rs,
      workers/supervisor.rs and the health response of router.rs; the supervisor
      is a step relation over any interleaving of its tasks.  Guardrails.v:
      workers/guardrails.rs.  Harness.v: tests/support/worker_harness.rs and
      tests/integration_test.rs.
    - SolanaTypes.v, Solana.v: solana_types.rs and services/solana.rs.
    - World.v: tables, configuration, environment and primitives.  Concrete.v:
      a concrete borsh format, services and environment for the witnesses.
    - Crypto.v: services/crypto.rs and services/hash.rs.  Notification.v:
      services/notification.rs and workers/notification_worker.rs.
    - Jwt.v: services/jwt.rs and both extractors of middleware/.  Auth.v and
      AuthFacts.v: the wallet handlers of handlers/auth.rs; OAuth.v: its OAuth
      handlers; User.v: handlers/user.rs; Sealed.v: what a stored contact is, how
      the handlers make one and what the keys make of it; AccountFacts.v: the
      theorems on OAuth and contacts.
    - Ws.v: handlers/ws.rs, the connections as a step relation.  LogStream.v:
      services/solana_logs.rs and the receiving loop of the event listener, two
      tasks and the bounded channel between them as a step relation.
    - Storage.v: services/storage.rs over the class [StorageHttpClient] and
      services/metadata.rs.  Upload.v: handlers/upload.rs.
    - Startup.v: [from_env] of config.rs, services/keypair_security.rs and main.rs
      over the class [StartupEnv].  Routes.v: the route table of router.rs, with
      the caller each handler demands.  Wire.v: the bodies and queries of the
      API with the conversions serde derives.  Api.v: a request from its route
      through its extractors to its answer ([api]).  Response.v: the JSON and
      the HTTP response of every answer, and sessions across requests.
    - DraftData.v, Agreement.v, Draft.v, Invite.v, InviteFacts.v: the handlers
      of agreements, drafts and invitations.
    - Payments.v, PaymentLifecycle.v, Amounts.v, PaymentFacts.v:
      handlers/payment.rs, services/solana_pay.rs, services/refund.rs,
      workers/refund_worker.rs and the payment scans of workers/keeper.rs.
    - EventListener.v: services/program_log.rs and workers/event_listener.rs.
      Expiry.v: workers/expiry_worker.rs.  Keeper.v: workers/keeper.rs.
    - System.v: the operations of all components as one type [op], and the
      class [WritesKeep], the interface between a relation on the tables and the
      handlers, which promise to store a display name that passed its check and
      contacts encrypted and indexed under the configured keys.  Its instances:
      Sessions.v for nonces, refresh tokens, wallets, display names, contacts and
      the keys of the account tables; Workflow.v for drafts
      and invitations; Records.v for party rows and notification jobs.
    - Threads.v: computations as sequences of atomic steps ([Prog]) and pools of
      them.  Steps.v: every operation of System.v cut at its atomic steps.
      Concurrent.v: the life cycles and credentials under any interleaving of
      these steps.  Races.v: schedules in which the code misbehaves.
    - Completion.v: with its services up, the program takes an agreement from its
      last invitation to its transaction.  Ownership.v: whose requests change a
      draft.  Secrecy.v: the flow of stored ciphertexts, as a relation between two
      runs ([agree], [blind]).
    - Aes.v and Reference.v: AES-256-GCM, SHA-256, HMAC, base58, program addresses
      and a JSON reader as executable definitions.  UnitTests.v and
      EndpointTests.v: the unit tests of the sources, evaluated on the
      definitions.

    A definition has the name of the function it models; the statements of a
    handler are definitions of their own ([.._stmt]), and the body of a worker's
    loop is a definition of its own ([process_job], [expire_one], ..).

    ** What is proved

    - Life cycles, as refinements: whatever operations run, however their
      statements interleave and whatever fails, payments, drafts, invitations,
      party rows and jobs change only along the abstract transitions of their
      table (System.v, Workflow.v, Records.v, Concurrent.v).  Two consequences
      cross components: a renewed invitation is never accepted, and parties who
      join by invitation are not in the instruction that is submitted.
    - Completion: with database and node up, the last acceptance, a free payment
      and the submission are answered, the last with a transaction
      (Completion.v).
    - Sign-in: what an answer of [verify] implies, that nonces and refresh tokens
      are good once under every interleaving of statements, that a wallet
      stays with its user, whom an OAuth callback signs in, how long a token is
      valid, and that stored contacts stay readable under the configured keys and
      findable by their index.
    - Races: overrunning the free tier, and sign-ins that are answered with the
      tokens of two users (Races.v).
    - Requests: every request of the API leaves the tables alone or is one
      operation for the caller its token names; without a token only sign-in
      changes; a session can always be continued; who may change a draft, a
      profile or contacts; and stored ciphertexts reach no answer and no table but
      through the notification worker (Api.v, Response.v, Ownership.v, Secrecy.v).
    - Entry: what a request must show to reach a handler, that the route table is
      unambiguous, and what [main] has checked before it serves.
    - Uploads: the endpoint equals a reference with single checks, stores the file
      whose hash it answers, and refuses with six errors.
    - WebSocket connections: a second connection of a user ends both, in a
      bounded number of steps; who is reached and who may connect.
    - Handlers: who gets a transaction and what it contains, what creating an
      agreement stores, that acceptance is all or nothing, the gates of a
      submission, paging, the rate limit.
    - Chain data: every builder's transaction, the round trip of its arguments,
      the accounts it addresses, and how accounts are read.
    - Payments: the free path, the failure of the paid path, amounts and links,
      what a refund cycle sends.
    - The log stream: order, the bound of the channel, and that both tasks end.
    - Workers: the expiry lock, the account offset of the expiry worker, the
      circuit breaker of the keeper, redelivery of notifications, the log parser
      and the signature event, and the supervisor's health.
    - Round trips of encryption, contacts, hashes and draft columns.
    - The unit tests of the sources and the integration tests hold of the
      definitions; the harness of the latter judges as the program's supervisor
      does; and what the guardrails guarantee of the sources of the workers.

    Several theorems state that the code does not do what it means to do; their
    comments say so.

    ** Bounds and fuel

    Recursion is structural except for [trim_start_matches], [trim] and the
    UTF-8 check, whose fuel is the length of the string and each step of which
    consumes at least one byte.  Unbounded loops of workers are single cycles
    ([keeper_cycle], ..) and their iteration a recursion on the number of cycles
    or a list of operations; theorems quantify over it.  The connections of
    Ws.v run as long as their relation allows; [ws_measure] bounds them.  The
    channel of LogStream.v holds a hundred logs, as the code creates it.  In
    Reference.v, which no theorem about the program uses, the JSON reader has
    twice the length of its text as fuel, base58 64 digits where a key has 44 at
    most, and the curve test 2000 steps where it takes at most 1020.

    ** What is not modelled

    Logging, process exit, the HTTP server and its layers (CORS, the rate
    limiter, tracing).  What the HTTP library reads of a request, such as the
    JSON value of its body, is part of a [Request], and the text of a rejection
    and of an answer's JSON is the library's.  Operations interleave at their
    statements, calls and clock readings, but three pieces of code are one step
    (Steps.v): the transaction of an acceptance, which locks the rows it reads,
    and drawing a nonce or a token with the statement that stores it.  The life
    cycle of payments is for one listener and one keeper task, which is what
    [main] starts.  In [op] the set of connected users changes arbitrarily; Ws.v
    relates it to the connections.  The probing window of Harness.v passes only
    while the harness waits.  The unit tests UnitTests.v names have no model. *)

From Stdlib Require Import ZArith Lia.
From Stdlib Require Import Strings.Byte.
From stdpp Require Import base tactics decidable option list strings.

(** ** Fallible computations with state

    [result E A] is Rust's [Result<A, E>].  [M W E A] is a computation of a
    handler or worker: it takes the world [W] it acts on and returns a result
    together with the world it leaves behind.  An early return with [?] keeps
    the effects performed before it, as the code does. *)

Inductive result (E A : Type) : Type :=
| Ok (a : A)
| Err (e : E).
Arguments Ok {E A} _.
Arguments Err {E A} _.

#[export] Instance result_eq_dec {E A} `{EqDecision E, EqDecision A} :
  EqDecision (result E A).
Proof. solve_decision. Defined.

(** [opt.ok_or(e)] *)
Definition ok_or {E A} (o : option A) (e : E) : result E A :=
  match o with Some a => Ok a | None => Err e end.

(** [res.ok()] *)
Definition res_ok {E A} (r : result E A) : option A :=
  match r with Ok a => Some a | Err _ => None end.

Definition is_ok {E A} (r : result E A) : bool :=
  match r with Ok _ => true | Err _ => false end.

Definition M (W E A : Type) : Type := W -> result E A * W.

Definition ret {W E A} (a : A) : M W E A := fun w => (Ok a, w).
Definition throw {W E A} (e : E) : M W E A := fun w => (Err e, w).
Definition bind {W E A B} (m : M W E A) (k : A -> M W E B) : M W E B :=
  fun w => match m w with
           | (Ok a, w') => k a w'
           | (Err e, w') => (Err e, w')
           end.
Definition get {W E} : M W E W := fun w => (Ok w, w).
Definition modify {W E} (f : W -> W) : M W E unit := fun w => (Ok tt, f w).
Definition of_result {W E A} (r : result E A) : M W E A := fun w => (r, w).

(** [fut.await.map_err(f)] *)
Definition map_err {W E F A} (f : E -> F) (m : M W E A) : M W F A :=
  fun w => match m w with
           | (Ok a, w') => (Ok a, w')
           | (Err e, w') => (Err (f e), w')
           end.

(** [match fut.await { Ok(..) => .., Err(..) => .. }]: the outcome becomes a
    value and the computation goes on. *)
Definition attempt {W E F A} (m : M W E A) : M W F (result E A) :=
  fun w => let '(r, w') := m w in (Ok r, w').

Declare Scope mon_scope.
Delimit Scope mon_scope with mon.
Notation "'let*' x ':=' m 'in' k" := (bind m (fun x => k))
  (at level 10, x pattern, m at level 100, k at level 200,
   format "'[v' 'let*'  x  ':='  m  'in' '/' k ']'") : mon_scope.
Notation "m ;;; k" := (bind m (fun _ => k))
  (at level 199, right associativity) : mon_scope.
Open Scope mon_scope.

(** [for x in xs { body }] with no [break]. *)
Fixpoint for_each {W E A} (xs : list A) (body : A -> M W E unit) : M W E unit :=
  match xs with
  | [] => ret tt
  | x :: xs' => body x ;;; for_each xs' body
  end.

(** [if c { body }] *)
Definition when {W E} (c : bool) (body : M W E unit) : M W E unit :=
  if c then body else ret tt.

(** ** Weakest preconditions *)

Definition wp {W E A} (m : M W E A) (Q : result E A -> W -> Prop) (w : W) : Prop :=
  Q (fst (m w)) (snd (m w)).

(** ** Evaluation and inversion of sequences *)

Lemma bind_step {W E A B} (m : M W E A) (k : A -> M W E B) w a w1 :
  m w = (Ok a, w1) -> bind m k w = k a w1.
Proof. intros Hm. unfold bind. by rewrite Hm. Qed.

Lemma bind_fail {W E A B} (m : M W E A) (k : A -> M W E B) w e w1 :
  m w = (Err e, w1) -> bind m k w = (Err e, w1).
Proof. intros Hm. unfold bind. by rewrite Hm. Qed.

Lemma bind_Ok {W E A B} (m : M W E A) (k : A -> M W E B) w b w2 :
  bind m k w = (Ok b, w2) -> exists a w1, m w = (Ok a, w1) /\ k a w1 = (Ok b, w2).
Proof. unfold bind. destruct (m w) as [[a|e] w1]; intros Hk; [eauto | discriminate]. Qed.

Lemma map_err_step {W E F A} (f : E -> F) (m : M W E A) w a w1 :
  m w = (Ok a, w1) -> map_err f m w = (Ok a, w1).
Proof. intros Hm. unfold map_err. by rewrite Hm. Qed.

Lemma map_err_Ok {W E F A} (f : E -> F) (m : M W E A) w a w1 :
  map_err f m w = (Ok a, w1) -> m w = (Ok a, w1).
Proof. unfold map_err. destruct (m w) as [[x|e] w2]; intros [=]; by subst. Qed.

Lemma of_result_Ok {W E A} (r : result E A) (w : W) a w1 :
  of_result r w = (Ok a, w1) -> r = Ok a /\ w1 = w.
Proof. unfold of_result. by intros [= -> ->]. Qed.

Lemma ok_or_Ok {E A} (o : option A) (e : E) a : ok_or o e = Ok a -> o = Some a.
Proof. destruct o; cbn; [by intros [= ->] | discriminate]. Qed.

(** [run_inv]: from a run that returned [Ok], the intermediate values of every
    step. *)
Ltac run_inv :=
  repeat match goal with
  | Hr : bind _ _ _ = (Ok _, _) |- _ =>
      let a := fresh "a" in let w := fresh "w" in let Hs := fresh "Hs" in
      apply bind_Ok in Hr as (a & w & Hs & Hr)
  | Hr : map_err _ _ _ = (Ok _, _) |- _ => apply map_err_Ok in Hr
  | Hr : of_result _ _ = (Ok _, _) |- _ => apply of_result_Ok in Hr as [? ->]
  | Hr : ok_or _ _ = Ok _ |- _ => apply ok_or_Ok in Hr
  | Hr : ret _ _ = (Ok _, _) |- _ => injection Hr as ? ?
  | Hr : throw _ _ = (Ok _, _) |- _ => discriminate Hr
  end.

(** ** Two-state invariants

    [keeps R m]: whatever the result, the world after [m] is related by [R] to
    the world before it.  For a preorder [R] this composes, which is how every
    handler and worker is shown to move the tables only along the steps of an
    abstract life cycle. *)

Definition keeps {W E A} (R : W -> W -> Prop) (m : M W E A) : Prop :=
  forall w, R w (snd (m w)).

Create HintDb keeps discriminated.
#[export] Hint Variables Opaque : keeps.
#[export] Hint Constants Opaque : keeps.

Section Keeps.
Context {W : Type} (R : W -> W -> Prop) `{!PreOrder R}.

Lemma keeps_ret {E A} (a : A) : keeps R (ret (E:=E) a).
Proof. intros w; cbn; reflexivity. Qed.

Lemma keeps_throw {E A} (e : E) : keeps R (throw (A:=A) e).
Proof. intros w; cbn; reflexivity. Qed.

Lemma keeps_get {E} : keeps R (get (E:=E)).
Proof. intros w; cbn; reflexivity. Qed.

Lemma keeps_of_result {E A} (r : result E A) : keeps R (of_result r).
Proof. intros w; cbn; reflexivity. Qed.

Lemma keeps_modify {E} (f : W -> W) :
  (forall w, R w (f w)) -> keeps R (modify (E:=E) f).
Proof. intros H w; cbn; auto. Qed.

Lemma keeps_bind {E A B} (m : M W E A) (k : A -> M W E B) :
  keeps R m -> (forall a, keeps R (k a)) -> keeps R (bind m k).
Proof.
  intros Hm Hk w. unfold bind. specialize (Hm w).
  destruct (m w) as [[a|e] w'] eqn:Em; cbn in *; [|done].
  etransitivity; [exact Hm | apply Hk].
Qed.

(** A checked value: the continuation may use that the check succeeded. *)
Lemma keeps_bind_result {E A B} (r : result E A) (k : A -> M W E B) :
  (forall a, r = Ok a -> keeps R (k a)) -> keeps R (bind (of_result r) k).
Proof.
  intros Hk w. unfold bind, of_result. destruct r as [a|e]; cbn; [|reflexivity].
  by apply (Hk a).
Qed.

(** A computed value: the continuation may use that it was computed. *)
Lemma keeps_bind_run {E A B} (m : M W E A) (k : A -> M W E B) :
  keeps R m -> (forall a w w', m w = (Ok a, w') -> keeps R (k a)) -> keeps R (bind m k).
Proof.
  intros Hm Hk w. unfold bind. specialize (Hm w).
  destruct (m w) as [[a|e] w'] eqn:Em; cbn in *; [|done].
  etransitivity; [exact Hm | by eapply Hk].
Qed.

Lemma keeps_map_err {E F A} (f : E -> F) (m : M W E A) :
  keeps R m -> keeps R (map_err f m).
Proof.
  intros Hm w. unfold map_err. specialize (Hm w).
  by destruct (m w) as [[a|e] w'].
Qed.

Lemma keeps_attempt {E F A} (m : M W E A) :
  keeps R m -> keeps R (attempt (F:=F) m).
Proof.
  intros Hm w. unfold attempt. specialize (Hm w). by destruct (m w).
Qed.

Lemma keeps_for_each {E A} (xs : list A) (body : A -> M W E unit) :
  (forall x, keeps R (body x)) -> keeps R (for_each xs body).
Proof.
  intros Hb. induction xs as [|x xs IH]; cbn.
  - apply keeps_ret.
  - by apply keeps_bind.
Qed.

Lemma keeps_when {E} (c : bool) (m : M W E unit) :
  keeps R m -> keeps R (when c m).
Proof. intros Hm. destruct c; cbn; [done | apply keeps_ret]. Qed.

Lemma keeps_if {E A} (c : bool) (m1 m2 : M W E A) :
  keeps R m1 -> keeps R m2 -> keeps R (if c then m1 else m2).
Proof. by destruct c. Qed.

Lemma keeps_option {E A B} (o : option A) (f : A -> M W E B) (n : M W E B) :
  (forall a, keeps R (f a)) -> keeps R n ->
  keeps R (match o with Some a => f a | None => n end).
Proof. by destruct o. Qed.

Lemma keeps_result {E E' A B} (r : result E' A) (f : A -> M W E B)
    (g : E' -> M W E B) :
  (forall a, keeps R (f a)) -> (forall e, keeps R (g e)) ->
  keeps R (match r with Ok a => f a | Err e => g e end).
Proof. by destruct r. Qed.
End Keeps.

(** A loop under an invariant of the items still to come. *)
Lemma for_each_inv {W E A} (R : W -> W -> Prop) `{!PreOrder R}
    (I : list A -> W -> Prop) (body : A -> M W E unit) (xs : list A) (w : W) :
  (forall x xs w, I (x :: xs) w ->
     R w (snd (body x w)) /\ I xs (snd (body x w))) ->
  I xs w -> R w (snd (for_each xs body w)).
Proof.
  intros Hb. revert w. induction xs as [|x xs IH]; intros w HI; cbn; [reflexivity|].
  destruct (Hb x xs w HI) as [Hx HI']. unfold bind.
  destruct (body x w) as [[[]|e] w']; cbn in *; [|done].
  etransitivity; [exact Hx | by apply IH].
Qed.

#[export] Hint Resolve keeps_ret keeps_throw keeps_get keeps_of_result
  keeps_bind keeps_map_err keeps_attempt keeps_for_each keeps_when keeps_if
  keeps_option keeps_result : keeps.

(** [keeps_auto] walks through a handler: it splits binds, loops and branches
    and closes the leaves with the statement lemmas of the database. *)
Ltac keeps_step :=
  lazymatch goal with
  | |- forall _, _ => intro
  | |- keeps _ (bind _ _) => apply keeps_bind; [typeclasses eauto | |]
  | |- keeps _ (ret _) => apply keeps_ret; typeclasses eauto
  | |- keeps _ (throw _) => apply keeps_throw; typeclasses eauto
  | |- keeps _ get => apply keeps_get; typeclasses eauto
  | |- keeps _ (of_result _) => apply keeps_of_result; typeclasses eauto
  | |- keeps _ (map_err _ _) => apply keeps_map_err
  | |- keeps _ (attempt _) => apply keeps_attempt
  | |- keeps _ (for_each _ _) => apply keeps_for_each; [typeclasses eauto |]
  | |- keeps _ (when _ _) => apply keeps_when; [typeclasses eauto |]
  | |- keeps _ (match ?x with _ => _ end) => destruct x
  | |- keeps _ (let '(_, _) := ?x in _) => destruct x
  end.
Ltac keeps_auto := repeat first [ keeps_step | solve [eauto with keeps] ].

(** ** Reflexive transitive closure *)

Section Star.
Context {A : Type} (R : A -> A -> Prop).

Inductive star : A -> A -> Prop :=
| star_refl a : star a a
| star_step a b c : R a b -> star b c -> star a c.

Lemma star_one a b : R a b -> star a b.
Proof. intros H. eapply star_step; [exact H | apply star_refl]. Qed.

Lemma star_trans a b c : star a b -> star b c -> star a c.
Proof. induction 1; eauto using star_step. Qed.

(** Rule induction on a reachable state: an invariant of the initial state
    kept by every step holds at the end. *)
Lemma star_invariant (I : A -> Prop) a b :
  (forall x y, I x -> R x y -> I y) -> star a b -> I a -> I b.
Proof. intros Hstep. induction 1; eauto. Qed.
End Star.

#[export] Instance star_preorder {A} (R : A -> A -> Prop) : PreOrder (star R).
Proof. split; [intros a; apply star_refl | intros a b c; apply star_trans]. Qed.

(** ** Machine integers

    Values of Rust's integer types are [Z]; the operations below are the ones
    the code uses on them, with the wrap-around of a release build written
    out. *)

Definition two64 : Z := 18446744073709551616.
Definition in_u64 (z : Z) : Prop := (0 <= z < two64)%Z.
Definition in_i64 (z : Z) : Prop := (- 9223372036854775808 <= z < 9223372036854775808)%Z.
Definition in_u32 (z : Z) : Prop := (0 <= z < 4294967296)%Z.

Definition u64_wrap (z : Z) : Z := (z mod two64)%Z.
Definition i64_wrap (z : Z) : Z :=
  ((z + 9223372036854775808) mod two64 - 9223372036854775808)%Z.
Definition i32_wrap (z : Z) : Z :=
  ((z + 2147483648) mod 4294967296 - 2147483648)%Z.
(** [a.saturating_sub(b)] on unsigned integers *)
Definition u_sat_sub (a b : Z) : Z := Z.max 0 (a - b).
(** [a.saturating_mul(b)] on [u32] *)
Definition u32_sat_mul (a b : Z) : Z := Z.min 4294967295 (a * b).
(** [i64::try_from(u64)] *)
Definition i64_try_from (z : Z) : option Z :=
  if (z <? 9223372036854775808)%Z then Some z else None.

Lemma u64_wrap_id z : in_u64 z -> u64_wrap z = z.
Proof. unfold in_u64, u64_wrap. apply Z.mod_small. Qed.

Lemma u64_wrap_range z : in_u64 (u64_wrap z).
Proof. unfold in_u64, u64_wrap, two64. apply Z.mod_pos_bound. lia. Qed.

Lemma i64_wrap_id z : in_i64 z -> i64_wrap z = z.
Proof. unfold in_i64, i64_wrap, two64. intros. rewrite Z.mod_small; lia. Qed.

Lemma i64_wrap_range z : in_i64 (i64_wrap z).
Proof.
  unfold in_i64, i64_wrap, two64.
  pose proof (Z.mod_pos_bound (z + 9223372036854775808) 18446744073709551616).
  lia.
Qed.

(** ** Growing tables

    [grows R N t t']: every row of [t] is still there, in its place, changed
    only along [R]; the rows added since satisfy [N]. *)

Section Grows.
Context {A : Type} (R : A -> A -> Prop) (N : A -> Prop) `{!PreOrder R}.

Definition grows (t t' : list A) : Prop :=
  exists t1 t2, t' = t1 ++ t2 /\ Forall2 R t t1 /\ Forall N t2.

Lemma grows_refl t : grows t t.
Proof. exists t, []. rewrite app_nil_r. split; [done|]. split; [reflexivity | constructor]. Qed.

Lemma grows_append t t2 : Forall N t2 -> grows t (t ++ t2).
Proof. intros Hn. exists t, t2. split; [done|]. split; [reflexivity | done]. Qed.

Lemma grows_forall2 t t' : Forall2 R t t' -> grows t t'.
Proof. intros Hf. exists t', []. rewrite app_nil_r. split; [done|]. split; [done | constructor]. Qed.

Lemma grows_trans (Hclosed : forall x y, N x -> R x y -> N y) t1 t2 t3 :
  grows t1 t2 -> grows t2 t3 -> grows t1 t3.
Proof.
  intros (a & b & -> & Ha & Hb) (c & d & -> & Hc & Hd).
  apply Forall2_app_inv_l in Hc as (c1 & c2 & H1 & H2 & ->).
  exists c1, (c2 ++ d). split; [by rewrite app_assoc|]. split.
  - etransitivity; eassumption.
  - apply Forall_app. split; [|done]. clear -Hclosed Hb H2.
    induction H2 as [|x y l l' Hxy _ IH]; [constructor|].
    apply Forall_cons in Hb as [Hx Hb]. constructor; eauto.
Qed.

(** An old row and what became of it. *)
Lemma grows_lookup t t' i x : grows t t' -> t !! i = Some x ->
  exists y, t' !! i = Some y /\ R x y.
Proof.
  intros (t1 & t2 & -> & Hf & _) Hx.
  destruct (Forall2_lookup_l _ _ _ _ _ Hf Hx) as (y & Hy & Hr).
  exists y. split; [|done]. by apply lookup_app_l_Some.
Qed.
End Grows.

(** Rows with the same key are the same row. *)
Lemma NoDup_map_eq {A B} (f : A -> B) t x y :
  NoDup (map f t) -> x ∈ t -> y ∈ t -> f x = f y -> x = y.
Proof.
  induction t as [|r t IH]; intros Hn Hx Hy Hf; [by apply not_elem_of_nil in Hx|].
  cbn in Hn. apply NoDup_cons in Hn as [Hnot Hn].
  apply elem_of_cons in Hx as [->|Hx]; apply elem_of_cons in Hy as [->|Hy].
  - done.
  - exfalso. apply Hnot. rewrite Hf. by apply list_elem_of_fmap_2.
  - exfalso. apply Hnot. rewrite <-Hf. by apply list_elem_of_fmap_2.
  - by apply IH.
Qed.

Lemma Forall2_update {A} (R : A -> A -> Prop) `{!Reflexive R} (p : A -> bool) f t :
  (forall r, r ∈ t -> p r = true -> R r (f r)) ->
  Forall2 R t (map (fun r => if p r then f r else r) t).
Proof.
  intros Hf. induction t as [|r t IH]; cbn; [constructor|]. constructor.
  - destruct (p r) eqn:E; [apply Hf; [left | done] | reflexivity].
  - apply IH. intros x Hx. apply Hf. by right.
Qed.
