(* ===== verification/Threads.v ===== *)
(** * Threads: computations as sequences of atomic steps, and their interleavings

    The tokio runtime interleaves the requests and workers at every wait.  A
    [Prog] is a computation cut at its atomic steps; [run] puts it together
    again.  [Steps m] is a decomposition of the computation [m], with the proof
    that its steps in a row are [m].  A pool is a list of programs over one
    world; [pool_step] lets any of them take its next step, or the outside
    change the world. *)

From Stdlib Require Import ZArith Lia.
From stdpp Require Import base tactics decidable option list.
From S2P Require Import Prelude.

Open Scope list_scope.
Open Scope nat_scope.

(** ** Programs *)

Inductive Prog (W E A : Type) : Type :=
| Done (r : result E A)
| Act {B : Type} (m : M W E B) (k : B -> Prog W E A).
Arguments Done {W E A} r.
Arguments Act {W E A B} m k.

Section Prog.
Context {W : Type}.

(** All steps in a row. *)
Fixpoint run {E A} (p : Prog W E A) : M W E A :=
  match p with
  | Done r => of_result r
  | Act m k => bind m (fun b => run (k b))
  end.

Definition act {E A} (m : M W E A) : Prog W E A := Act m (fun a => Done (Ok a)).

Fixpoint pbind {E A B} (p : Prog W E A) (k : A -> Prog W E B) : Prog W E B :=
  match p with
  | Done (Ok a) => k a
  | Done (Err e) => Done (Err e)
  | Act m k' => Act m (fun b => pbind (k' b) k)
  end.

Fixpoint pmap_err {E F A} (f : E -> F) (p : Prog W E A) : Prog W F A :=
  match p with
  | Done (Ok a) => Done (Ok a)
  | Done (Err e) => Done (Err (f e))
  | Act m k => Act (map_err f m) (fun b => pmap_err f (k b))
  end.

Fixpoint pattempt {E F A} (p : Prog W E A) : Prog W F (result E A) :=
  match p with
  | Done r => Done (Ok r)
  | Act m k => Act (attempt m) (fun r => match r with
                                         | Ok b => pattempt (k b)
                                         | Err e => Done (Ok (Err e))
                                         end)
  end.

(** The answer seen through [f], the error forgotten. *)
Fixpoint pview {E A B} (f : A -> B) (p : Prog W E A) : Prog W unit B :=
  match p with
  | Done (Ok a) => Done (Ok (f a))
  | Done (Err _) => Done (Err tt)
  | Act m k => Act (map_err (fun _ => tt) m) (fun b => pview f (k b))
  end.

Lemma run_act {E A} (m : M W E A) w : run (act m) w = m w.
Proof. cbn. unfold bind, of_result. by destruct (m w) as [[a|e] w']. Qed.

Lemma run_pbind {E A B} (p : Prog W E A) (k : A -> Prog W E B) w :
  run (pbind p k) w = bind (run p) (fun a => run (k a)) w.
Proof.
  revert w. induction p as [[a|e]|B' m k' IH]; intros w; [done..|]. cbn. unfold bind.
  destruct (m w) as [[b|e] w']; [|done]. by rewrite IH.
Qed.

Lemma run_pmap_err {E F A} (f : E -> F) (p : Prog W E A) w :
  run (pmap_err f p) w = map_err f (run p) w.
Proof.
  revert w. induction p as [[a|e]|B' m k' IH]; intros w; [done..|].
  cbn. unfold bind, map_err. destruct (m w) as [[b|e] w']; [|done]. by rewrite IH.
Qed.

Lemma run_pattempt {E F A} (p : Prog W E A) w :
  run (pattempt (F:=F) p) w = attempt (run p) w.
Proof.
  revert w. induction p as [r|B' m k' IH]; intros w; [done|].
  cbn. unfold bind, attempt. destruct (m w) as [[b|e] w']; [|done]. by rewrite IH.
Qed.

(** A result seen through [f]. *)
Definition viewed {E A B} (f : A -> B) (r : result E A) : result unit B :=
  match r with Ok a => Ok (f a) | Err _ => Err tt end.

Lemma run_pview {E A B} (f : A -> B) (p : Prog W E A) w :
  run (pview f p) w = (viewed f (fst (run p w)), snd (run p w)).
Proof.
  revert w. induction p as [[a|e]|B' m k' IH]; intros w; [done..|].
  cbn. unfold bind, map_err. destruct (m w) as [[b|e] w']; [|done]. by apply IH.
Qed.

(** ** Decompositions *)

Record Steps {E A} (m : M W E A) : Type := mkSteps {
  steps : Prog W E A;
  steps_run : forall w, run steps w = m w;
}.
Arguments steps {E A m} _.
Arguments steps_run {E A m} _ _.

Definition steps_atom {E A} (m : M W E A) : Steps m := mkSteps _ _ m (act m) (run_act m).

Definition steps_ret {E A} (a : A) : Steps (ret (E:=E) a) :=
  mkSteps _ _ (ret a) (Done (Ok a)) (fun _ => eq_refl).
Definition steps_throw {E A} (e : E) : Steps (throw (A:=A) e) :=
  mkSteps _ _ (throw e) (Done (Err e)) (fun _ => eq_refl).
Definition steps_of_result {E A} (r : result E A) : Steps (of_result r) :=
  mkSteps _ _ (of_result r) (Done r) (fun _ => eq_refl).

Definition steps_bind {E A B} (m : M W E A) (k : A -> M W E B) (s : Steps m)
    (sk : forall a, Steps (k a)) : Steps (bind m k).
Proof.
  refine (mkSteps _ _ _ (pbind (steps s) (fun a => steps (sk a))) _).
  intros w. rewrite run_pbind. unfold bind. rewrite (steps_run s).
  destruct (m w) as [[a|e] w']; [apply steps_run | done].
Defined.

Definition steps_map_err {E F A} (f : E -> F) (m : M W E A) (s : Steps m) : Steps (map_err f m).
Proof.
  refine (mkSteps _ _ _ (pmap_err f (steps s)) _).
  intros w. rewrite run_pmap_err. unfold map_err. by rewrite (steps_run s).
Defined.

Definition steps_attempt {E F A} (m : M W E A) (s : Steps m) : Steps (attempt (F:=F) m).
Proof.
  refine (mkSteps _ _ _ (pattempt (steps s)) _).
  intros w. rewrite run_pattempt. unfold attempt. by rewrite (steps_run s).
Defined.

Fixpoint pfor_each {E A} (xs : list A) (body : A -> Prog W E unit) : Prog W E unit :=
  match xs with
  | [] => Done (Ok tt)
  | x :: xs' => pbind (body x) (fun _ => pfor_each xs' body)
  end.

Definition steps_for_each {E A} (xs : list A) (body : A -> M W E unit)
    (s : forall x, Steps (body x)) : Steps (for_each xs body).
Proof.
  refine (mkSteps _ _ _ (pfor_each xs (fun x => steps (s x))) _).
  induction xs as [|x xs IH]; intros w; [done|]. cbn. rewrite run_pbind. unfold bind.
  rewrite (steps_run (s x)). by destruct (body x w) as [[[]|e] w'].
Defined.

Definition steps_when {E} (c : bool) (m : M W E unit) (s : Steps m) : Steps (when c m) :=
  match c return Steps (when c m) with true => s | false => steps_ret tt end.
End Prog.
Arguments Steps {W E A} m.
Arguments steps {W E A m} _.
Arguments steps_run {W E A m} _ _.

Create HintDb steps discriminated.
#[export] Hint Variables Opaque : steps.
#[export] Hint Constants Opaque : steps.

(** [steps_auto] cuts a computation at every computation that [atom] accepts;
    the decompositions of its parts are hints. *)
Ltac steps_step atom :=
  lazymatch goal with
  | |- forall _, _ => intro
  | |- Steps (bind _ _) => apply steps_bind
  | |- Steps (ret _) => apply steps_ret
  | |- Steps (throw _) => apply steps_throw
  | |- Steps (of_result _) => apply steps_of_result
  | |- Steps (map_err _ _) => apply steps_map_err
  | |- Steps (attempt _) => apply steps_attempt
  | |- Steps (for_each _ _) => apply steps_for_each
  | |- Steps (when _ _) => apply steps_when
  | |- Steps (let _ := _ in _) => cbv zeta
  | |- Steps (match ?x with _ => _ end) => destruct x
  | |- Steps ?m => first [ atom m; exact (steps_atom m) | solve [auto with steps] ]
  end.
Ltac steps_auto atom := repeat steps_step atom.

(** ** Every step keeps a relation

    [pkeeps R p]: whatever worlds its steps meet, each moves along [R].  [yields p
    a]: [p] may end with [a], its steps having met some worlds. *)

Section Keeps.
Context {W : Type} (R : W -> W -> Prop).

Fixpoint pkeeps {E A} (p : Prog W E A) : Prop :=
  match p with
  | Done _ => True
  | Act m k => keeps R m /\ forall w b w', m w = (Ok b, w') -> pkeeps (k b)
  end.

Fixpoint yields {E A} (p : Prog W E A) (a : A) : Prop :=
  match p with
  | Done r => r = Ok a
  | Act m k => exists w b w', m w = (Ok b, w') /\ yields (k b) a
  end.

Lemma pkeeps_act {E A} (m : M W E A) : keeps R m -> pkeeps (act m).
Proof. by split. Qed.

Lemma pkeeps_pbind_yields {E A B} (p : Prog W E A) (k : A -> Prog W E B) :
  pkeeps p -> (forall a, yields p a -> pkeeps (k a)) -> pkeeps (pbind p k).
Proof.
  intros Hp Hk. induction p as [[a|e]|B' m k' IH]; cbn in *; [by apply Hk | done|].
  destruct Hp as [Hm Hp]. split; [done|]. intros w b w' Hb. apply IH; [by eapply Hp|].
  intros a Ha. apply Hk. by exists w, b, w'.
Qed.

Lemma pkeeps_pbind {E A B} (p : Prog W E A) (k : A -> Prog W E B) :
  pkeeps p -> (forall a, pkeeps (k a)) -> pkeeps (pbind p k).
Proof. intros Hp Hk. by apply pkeeps_pbind_yields. Qed.

Lemma pkeeps_pmap_err {E F A} (f : E -> F) (p : Prog W E A) : pkeeps p -> pkeeps (pmap_err f p).
Proof.
  induction p as [[a|e]|B' m k' IH]; cbn; [done..|]. intros [Hm Hp].
  split; [by apply keeps_map_err|]. intros w b w' Hb%map_err_Ok. by eapply IH, Hp.
Qed.

Lemma attempt_Ok {E F A} (m : M W E A) w r w' :
  attempt (F:=F) m w = (Ok r, w') -> m w = (r, w').
Proof. unfold attempt. destruct (m w). by intros [= -> ->]. Qed.

Lemma pkeeps_pattempt {E F A} (p : Prog W E A) : pkeeps p -> pkeeps (pattempt (F:=F) p).
Proof.
  induction p as [r|B' m k' IH]; cbn; [done|]. intros [Hm Hp].
  split; [by apply keeps_attempt|]. intros w [b|e] w' Hb%attempt_Ok; [by eapply IH, Hp | done].
Qed.

Lemma pkeeps_pview {E A B} (f : A -> B) (p : Prog W E A) : pkeeps p -> pkeeps (pview f p).
Proof.
  induction p as [[a|e]|B' m k' IH]; cbn; [done..|]. intros [Hm Hp].
  split; [by apply keeps_map_err|]. intros w b w' Hb%map_err_Ok. by eapply IH, Hp.
Qed.

Lemma pkeeps_pfor_each {E A} (xs : list A) (body : A -> Prog W E unit) :
  (forall x, pkeeps (body x)) -> pkeeps (pfor_each xs body).
Proof. intros Hb. induction xs as [|x xs IH]; cbn; [done|]. by apply pkeeps_pbind. Qed.
End Keeps.

Lemma pkeeps_and {W E A} (R1 R2 : W -> W -> Prop) (p : Prog W E A) :
  pkeeps R1 p -> pkeeps R2 p -> pkeeps (fun w w' => R1 w w' /\ R2 w w') p.
Proof.
  induction p as [r|B m k IH]; cbn; [done|]. intros [H1 Hk1] [H2 Hk2].
  split; [intros w; split; [apply H1 | apply H2]|]. intros w b w' Hb. eauto.
Qed.

(** A checked value: what follows may use that the check succeeded. *)
Lemma pkeeps_checked {W E A B} R (r : result E A) (k : A -> M W E B) (sk : forall a, Steps (k a)) :
  (forall a, r = Ok a -> pkeeps R (steps (sk a))) ->
  pkeeps R (steps (steps_bind _ k (steps_of_result r) sk)).
Proof. intros Hk. cbn. destruct r as [a|e]; [by apply Hk | done]. Qed.

Create HintDb pkeeps discriminated.
#[export] Hint Variables Opaque : pkeeps.
#[export] Hint Constants Opaque : pkeeps.

(** [pkeeps_auto] follows a decomposition that [steps_auto] built; [leaf] proves
    the goals at its atoms. *)
Ltac pkeeps_step leaf :=
  lazymatch goal with
  | |- forall _, _ => intro
  | |- pkeeps _ (steps (steps_bind _ _ _ _)) => apply pkeeps_pbind
  | |- pkeeps _ (steps (steps_ret _)) => exact I
  | |- pkeeps _ (steps (steps_throw _)) => exact I
  | |- pkeeps _ (steps (steps_of_result _)) => exact I
  | |- pkeeps _ (steps (steps_map_err _ _ _)) => apply pkeeps_pmap_err
  | |- pkeeps _ (steps (steps_attempt _ _)) => apply pkeeps_pattempt
  | |- pkeeps _ (steps (steps_for_each _ _ _)) => apply pkeeps_pfor_each
  | |- pkeeps _ (steps (steps_when ?c _ _)) => destruct c; [cbn [steps_when] | exact I]
  | |- pkeeps ?R (steps ?s) =>
      lazymatch s with
      | match ?x with _ => _ end =>
          lazymatch type of s with
          | Steps ?m => change (pkeeps R (@steps _ _ _ m s)); destruct x
          end
      | steps_atom _ => apply pkeeps_act; leaf
      | _ => solve [eauto with pkeeps]
      end
  end.
Ltac pkeeps_auto leaf := repeat pkeeps_step leaf.

(** ** Rely and guarantee

    [safe Q p w]: whatever the others do along [rely] between the steps of [p],
    started in a world they may have changed since [w], each step of [p] is
    along [guar], and its result satisfies [Q]. *)

Section Safe.
Context {W : Type} (rely guar : W -> W -> Prop) `{!PreOrder rely}.

Fixpoint safe {E A} (Q : result E A -> W -> Prop) (p : Prog W E A) : W -> Prop :=
  match p with
  | Done r => fun w => forall w', rely w w' -> Q r w'
  | Act m k => fun w => forall w', rely w w' ->
      guar w' (snd (m w')) /\
      match m w' with
      | (Ok b, w2) => safe Q (k b) w2
      | (Err e, w2) => forall w3, rely w2 w3 -> Q (Err e) w3
      end
  end.

(** No claim on the result. *)
Definition any {E A} (r : result E A) (w : W) : Prop := True.

Lemma safe_rely {E A} Q (p : Prog W E A) w w' : rely w w' -> safe Q p w -> safe Q p w'.
Proof.
  destruct p as [r|B m k]; cbn; intros Hr Hs w2 Hw; apply Hs; by etransitivity.
Qed.

Lemma safe_mono {E A} (Q Q' : result E A -> W -> Prop) (p : Prog W E A) w :
  (forall r w', Q r w' -> Q' r w') -> safe Q p w -> safe Q' p w.
Proof.
  intros HQ. revert w. induction p as [r|B m k IH]; cbn; intros w Hs w' Hr; [auto|].
  destruct (Hs w' Hr) as [Hg Hn]. split; [done|]. destruct (m w') as [[b|e] w2]; auto.
Qed.

Lemma pkeeps_safe {E A} (p : Prog W E A) : pkeeps guar p -> forall w, safe any p w.
Proof.
  induction p as [r|B m k IH]; cbn; [done|]. intros [Hm Hk] w w' _. split; [apply Hm|].
  destruct (m w') as [[b|e] w2] eqn:Em; [by eapply IH, Hk | done].
Qed.

(** The errors of the first part are results of the whole. *)
Lemma safe_pbind {E A B} (P : result E A -> W -> Prop) (Q : result E B -> W -> Prop)
    (p : Prog W E A) (k : A -> Prog W E B) w :
  safe P p w -> (forall a w', P (Ok a) w' -> safe Q (k a) w') ->
  (forall e w', P (Err e) w' -> Q (Err e) w') -> safe Q (pbind p k) w.
Proof.
  intros Hp Hk He. revert w Hp. induction p as [[a|e]|B' m k' IH]; intros w Hp; cbn in *.
  - apply Hk, Hp. reflexivity.
  - auto.
  - intros w' Hr. destruct (Hp w' Hr) as [Hg Hn]. split; [done|].
    destruct (m w') as [[b|e] w2]; auto.
Qed.

Lemma safe_any_pbind {E A B} (p : Prog W E A) (k : A -> Prog W E B) w :
  safe any p w -> (forall a w', safe any (k a) w') -> safe any (pbind p k) w.
Proof. intros Hp Hk. by eapply safe_pbind. Qed.

Lemma safe_any_pmap_err {E F A} (f : E -> F) (p : Prog W E A) w :
  safe any p w -> safe any (pmap_err f p) w.
Proof.
  revert w. induction p as [[a|e]|B' m k' IH]; intros w Hp; cbn in *; [done..|].
  intros w' Hr. destruct (Hp w' Hr) as [Hg Hn]. unfold map_err.
  destruct (m w') as [[b|e] w2]; cbn in *; auto.
Qed.

Lemma safe_any_pattempt {E F A} (p : Prog W E A) w :
  safe any p w -> safe any (pattempt (F:=F) p) w.
Proof.
  revert w. induction p as [r|B' m k' IH]; intros w Hp; cbn in *; [done|].
  intros w' Hr. destruct (Hp w' Hr) as [Hg Hn]. unfold attempt.
  destruct (m w') as [[b|e] w2]; cbn in *; auto.
Qed.

Lemma safe_any_pfor_each {E A} (xs : list A) (body : A -> Prog W E unit) w :
  (forall x w, safe any (body x) w) -> safe any (pfor_each xs body) w.
Proof.
  intros Hb. revert w. induction xs as [|x xs IH]; intros w; cbn; [done|].
  apply safe_any_pbind; [apply Hb | intros _; apply IH].
Qed.

(** One step, for a claim that the others keep. *)
Lemma safe_act {E A} (Q : result E A -> W -> Prop) (m : M W E A) w :
  keeps guar m -> (forall r w1 w2, Q r w1 -> rely w1 w2 -> Q r w2) ->
  (forall w1 r w2, rely w w1 -> m w1 = (r, w2) -> Q r w2) -> safe Q (act m) w.
Proof.
  intros Hm HQ Hr w1 Hw1. split; [apply Hm|].
  destruct (m w1) as [[a|e] w2] eqn:Em; [intros w3 Hw3 | intros w3 Hw3]; eauto.
Qed.

(** A loop under an invariant of the items still to come. *)
Lemma safe_pfor_each_inv {E A} (J : list A -> W -> Prop) (body : A -> Prog W E unit) xs w :
  (forall x xs w, J (x :: xs) w -> safe (fun _ w' => J xs w') (body x) w) ->
  J xs w -> safe any (pfor_each xs body) w.
Proof.
  intros Hb. revert w. induction xs as [|x xs IH]; intros w HJ; cbn; [done|].
  apply (safe_pbind (fun _ => J xs)); [by apply Hb | | done]. intros a w' HJ'. by apply IH.
Qed.

(** Computations whose steps keep [guar] by themselves, then one that needs a
    fact about its world. *)
Lemma pkeeps_then {E A B} (Q : result E B -> W -> Prop) (p : Prog W E A) (k : A -> Prog W E B) w :
  pkeeps guar p -> (forall a w', safe Q (k a) w') -> (forall e w', Q (Err e) w') ->
  safe Q (pbind p k) w.
Proof. intros Hp Hk He. eapply (safe_pbind any); [by apply pkeeps_safe | auto | auto]. Qed.

Lemma safe_pmap_err {E F A} (f : E -> F) (p : Prog W E A) Q w :
  safe (fun r => Q (match r with Ok a => Ok a | Err e => Err (f e) end)) p w ->
  safe Q (pmap_err f p) w.
Proof.
  revert w. induction p as [[a|e]|B' m k' IH]; intros w Hp; cbn in *; [done..|].
  intros w' Hr. destruct (Hp w' Hr) as [Hg Hn]. unfold map_err.
  destruct (m w') as [[b|e] w2]; cbn in *; auto.
Qed.

Lemma safe_pview {E A B} (f : A -> B) (p : Prog W E A) Q w :
  safe (fun r => Q (viewed f r)) p w -> safe Q (pview f p) w.
Proof.
  revert w. induction p as [[a|e]|B' m k' IH]; intros w Hp; cbn in *; [done..|].
  intros w' Hr. destruct (Hp w' Hr) as [Hg Hn]. unfold map_err.
  destruct (m w') as [[b|e] w2]; cbn in *; auto.
Qed.
End Safe.

(** [safe_auto walk leaf] splits a decomposition, proves the parts whose steps
    keep the guarantee by [walk] and the others by [leaf]. *)
Ltac safe_step walk leaf :=
  lazymatch goal with
  | |- forall _, _ => intro
  | |- PreOrder _ => typeclasses eauto
  | |- safe _ _ any (steps ?s) _ =>
      first
      [ solve [leaf]
      | solve [apply pkeeps_safe; walk]
      | lazymatch s with
        | steps_bind _ _ _ _ => apply safe_any_pbind
        | steps_map_err _ _ _ => apply safe_any_pmap_err
        | steps_attempt _ _ => apply safe_any_pattempt
        | steps_for_each _ _ _ => apply safe_any_pfor_each
        | match ?x with _ => _ end =>
            lazymatch type of s with
            | Steps ?m => lazymatch goal with
                          | |- safe ?r ?g any _ ?w => change (safe r g any (@steps _ _ _ m s) w); destruct x
                          end
            end
        end ]
  end.
Ltac safe_auto walk leaf := repeat safe_step walk leaf.

(** ** Pools *)

Section Pool.
Context {W E A : Type}.

(** The next step of a program. *)
Definition pstep (p : Prog W E A) (w : W) : option (Prog W E A * W) :=
  match p with
  | Done _ => None
  | Act m k => let '(r, w') := m w in
               Some (match r with Ok b => k b | Err e => Done (Err e) end, w')
  end.

Definition Pool : Type := list (Prog W E A) * W.

Inductive pool_step : Pool -> Pool -> Prop :=
| pool_step_thread ps i p p' w w' : ps !! i = Some p -> pstep p w = Some (p', w') ->
    pool_step (ps, w) (<[i := p']> ps, w').

(** A schedule: which program steps next.  A program that is done stays. *)
Definition sched_step (i : nat) (c : Pool) : Pool :=
  match c.1 !! i with
  | Some p => match pstep p c.2 with
              | Some (p', w') => (<[i := p']> c.1, w')
              | None => c
              end
  | None => c
  end.
Definition schedule (sch : list nat) (c : Pool) : Pool := fold_left (fun c i => sched_step i c) sch c.

Lemma schedule_reaches sch c : star pool_step c (schedule sch c).
Proof.
  revert c. induction sch as [|i sch IH]; intros c; [apply star_refl|].
  cbn. eapply star_trans; [|apply IH]. unfold sched_step.
  destruct (c.1 !! i) as [p|] eqn:Ep; [|apply star_refl].
  destruct (pstep p c.2) as [[p' w']|] eqn:Es; [|apply star_refl].
  apply star_one. destruct c as [ps w]. by eapply pool_step_thread.
Qed.

(** A program alone, to its end: some number of its steps is [run]. *)
Lemma run_alone ps i p w :
  ps !! i = Some p ->
  exists n, schedule (repeat i n) (ps, w) = (<[i := Done (fst (run p w))]> ps, snd (run p w)).
Proof.
  revert ps w. induction p as [r|B m k IH]; intros ps w Hi.
  - exists 0. cbn. by rewrite list_insert_id.
  - cbn [run]. unfold bind. destruct (m w) as [[b|e] w'] eqn:Em.
    + destruct (IH b (<[i := k b]> ps) w') as [n Hn];
        [apply list_lookup_insert_eq; by eapply lookup_lt_Some|].
      exists (S n). cbn. unfold sched_step at 2. cbn. rewrite Hi. cbn. rewrite Em.
      unfold schedule in Hn. rewrite Hn. by rewrite list_insert_insert_eq.
    + exists 1. cbn. unfold sched_step. cbn. rewrite Hi. cbn. by rewrite Em.
Qed.

(** Every interleaving is along [R] when each thread is safe, its steps are
    along [R], and what it guarantees is what the others rely on. *)
Definition pool_safe (rely guar : nat -> W -> W -> Prop) (Q : nat -> result E A -> W -> Prop)
    (c : Pool) : Prop :=
  forall i p, c.1 !! i = Some p -> safe (rely i) (guar i) (Q i) p c.2.

Lemma pool_rely (R : W -> W -> Prop) (rely guar : nat -> W -> W -> Prop) Q `{!PreOrder R}
    `{!forall i, PreOrder (rely i)} c c' :
  (forall i w w', guar i w w' -> R w w') ->
  (forall i j w w', i <> j -> is_Some (c.1 !! i) -> is_Some (c.1 !! j) ->
     guar i w w' -> rely j w w') ->
  pool_safe rely guar Q c -> star pool_step c c' -> R c.2 c'.2 /\ pool_safe rely guar Q c'.
Proof.
  intros HR Hg Hs Hst. revert Hg Hs.
  induction Hst as [c|c c1 c2 Hs1 Hss IH]; intros Hg Hs; [by split; [reflexivity|]|].
  destruct Hs1 as [ps i p p' w w' Hi Hst]. pose proof (lookup_lt_Some _ _ _ Hi) as Hlt.
  pose proof (Hs i p Hi) as Hp. destruct p as [|B m k]; [done|]. cbn in Hst, Hp.
  destruct (Hp w (reflexivity w)) as [Hgw Hnext]. destruct (m w) as [r w1].
  injection Hst as <- <-. cbn in Hgw.
  destruct IH as [HR2 Hs2].
  - intros a b u v Hab Ha Hb. apply Hg; [done|..]; cbn in *.
    + apply lookup_lt_is_Some in Ha. rewrite length_insert in Ha. by apply lookup_lt_is_Some.
    + apply lookup_lt_is_Some in Hb. rewrite length_insert in Hb. by apply lookup_lt_is_Some.
  - intros j q Hj. cbn in *. destruct (decide (i = j)) as [->|Hij].
    + rewrite list_lookup_insert_eq in Hj by done. injection Hj as <-. by destruct r.
    + rewrite list_lookup_insert_ne in Hj by done. apply (safe_rely _ _ _ q w w1).
      * apply (Hg i j); [done | by eexists | by eexists | done].
      * by apply (Hs j q).
  - split; [|done]. etransitivity; [by eapply HR | exact HR2].
Qed.

(** Each step keeps [R] on its own. *)
Lemma pool_keeps (R : W -> W -> Prop) `{!PreOrder R} c c' :
  Forall (pkeeps R) c.1 -> star pool_step c c' -> R c.2 c'.2 /\ Forall (pkeeps R) c'.1.
Proof.
  intros Hp Hs. induction Hs as [c|c c1 c2 Hs Hss IH]; [by split; [reflexivity|]|].
  assert (H1 : R c.2 c1.2 /\ Forall (pkeeps R) c1.1).
  { destruct Hs as [ps i p p' w w' Hi Hst]; cbn in *.
    rewrite Forall_forall in Hp. pose proof (Hp p (list_elem_of_lookup_2 _ _ _ Hi)) as Hpp.
    destruct p as [|B m k]; [done|]. cbn in Hst. destruct Hpp as [Hm Hk]. specialize (Hm w).
    destruct (m w) as [r w1] eqn:Em. injection Hst as <- <-. split; [done|].
    apply Forall_insert; [by apply Forall_forall|]. destruct r; [by eapply Hk | done]. }
  destruct H1 as [HR HF]. destruct (IH HF) as [HR2 HF2]. split; [|done].
  by etransitivity.
Qed.
End Pool.
Arguments Pool : clear implicits.

(** ** Things that can be had once

    Contenders are programs that must take something before they can succeed:
    a step of theirs fails, or leaves them still to take it, or finds it there
    and leaves it gone. *)

Section Once.
Context {W : Type} (J gone : W -> Prop) (lost : W -> W -> Prop).
Context (Hlost : forall w w', lost w w' -> J w -> J w' /\ (gone w -> gone w')).

Fixpoint takes {E A} (p : Prog W E A) : Prop :=
  match p with
  | Done (Ok _) => False
  | Done (Err _) => True
  | Act m k => forall w, J w ->
      match m w with
      | (Ok b, w') => takes (k b) \/ (~ gone w /\ gone w')
      | (Err _, _) => True
      end
  end.

Lemma takes_act_bind {E A B} (m : M W E A) (k : A -> Prog W E B) :
  (forall w a w', J w -> m w = (Ok a, w') -> takes (k a) \/ (~ gone w /\ gone w')) ->
  takes (pbind (act m) k).
Proof. intros Hm w Hw. destruct (m w) as [[a|e] w'] eqn:E1; [by eapply Hm | done]. Qed.

Lemma takes_pbind_l {E A B} (p : Prog W E A) (k : A -> Prog W E B) :
  takes p -> takes (pbind p k).
Proof.
  induction p as [[a|e]|B' m k' IH]; cbn; [done..|]. intros Hp w Hw. specialize (Hp w Hw).
  destruct (m w) as [[b|e] w']; [|done]. destruct Hp as [Hp|Hp]; auto.
Qed.

Lemma takes_pbind_r {E A B} (p : Prog W E A) (k : A -> Prog W E B) :
  (forall a, takes (k a)) -> takes (pbind p k).
Proof.
  intros Hk. induction p as [[a|e]|B' m k' IH]; cbn; [apply Hk | done|].
  intros w Hw. destruct (m w) as [[b|e] w']; [left; apply IH | done].
Qed.

Lemma takes_pmap_err {E F A} (f : E -> F) (p : Prog W E A) : takes p -> takes (pmap_err f p).
Proof.
  induction p as [[a|e]|B' m k' IH]; cbn; [done..|]. intros Hp w Hw. specialize (Hp w Hw).
  unfold map_err. destruct (m w) as [[b|e] w']; [|done]. destruct Hp as [Hp|Hp]; auto.
Qed.

Lemma takes_pview {E A B} (f : A -> B) (p : Prog W E A) : takes p -> takes (pview f p).
Proof.
  induction p as [[a|e]|B' m k' IH]; cbn; [done..|]. intros Hp w Hw. specialize (Hp w Hw).
  unfold map_err. destruct (m w) as [[b|e] w']; [|done]. destruct Hp as [Hp|Hp]; auto.
Qed.

Section Contend.
Context {E A : Type} (contends : nat -> Prop) `{!forall i, Decision (contends i)}.

(** Only [l] may be past its taking, and then the thing is gone. *)
Definition once_inv (l : option nat) (c : Pool W E A) : Prop :=
  J c.2 /\ Forall (pkeeps lost) c.1 /\
  (forall i p, contends i -> c.1 !! i = Some p -> takes p \/ l = Some i) /\
  (l <> None -> gone c.2).

Lemma once_step l c c' : once_inv l c -> pool_step c c' ->
  exists l', once_inv l' c' /\ (l <> None -> l' = l).
Proof.
  intros Hinv Hstep. revert Hinv. destruct Hstep as [ps i p p0 w w' Hi Hst].
  intros (HI & Hk & Hl & Hg); cbn in *.
  pose proof (lookup_lt_Some _ _ _ Hi) as Hlt. rewrite Forall_forall in Hk.
  pose proof (Hk p (list_elem_of_lookup_2 _ _ _ Hi)) as Hpk.
  destruct p as [|B m k]; [done|]. cbn in Hst. destruct Hpk as [Hm Hpk]. specialize (Hm w).
  pose proof (fun Hc => Hl i _ Hc Hi) as Hti. cbn in Hti.
  destruct (m w) as [r w1] eqn:Em. injection Hst as <- <-. cbn in Hm.
  destruct (Hlost _ _ Hm HI) as [HI1 Hg1].
  set (p' := match r with Ok b => k b | Err e => Done (Err e) end).
  assert (Hrest : forall l' : option nat, (l = None \/ l' = l) ->
    (contends i -> takes p' \/ l' = Some i) ->
    forall j q, contends j -> <[i:=p']> ps !! j = Some q -> takes q \/ l' = Some j).
  { intros l' Hl' Hti' j q Hc Hj. destruct (decide (i = j)) as [<-|Hij].
    - rewrite list_lookup_insert_eq in Hj by done. injection Hj as <-. by apply Hti'.
    - rewrite list_lookup_insert_ne in Hj by done. destruct (Hl j q Hc Hj) as [?|E1]; [by left|].
      right. destruct Hl' as [E2|E2]; congruence. }
  assert (Hcase : contends i -> takes p' \/ l = Some i \/ (~ gone w /\ gone w1)).
  { intros Hc. destruct (Hti Hc) as [Ht|E1]; [|by right; left]. specialize (Ht w HI).
    rewrite Em in Ht. subst p'. destruct r as [b|e]; [|by left]. destruct Ht; auto. }
  assert (Hk' : Forall (pkeeps lost) (<[i:=p']> ps)).
  { apply Forall_insert; [by apply Forall_forall|]. subst p'. destruct r; [by eapply Hpk | done]. }
  destruct (decide (contends i)) as [Hc|Hc]; [destruct (Hcase Hc) as [Ht|[El|[Hn Hg']]]|].
  - exists l. split; [|done]. refine (conj HI1 (conj Hk' (conj (Hrest l _ _) _)));
      [by right | by left | intros Hnl; by apply Hg1, Hg].
  - exists l. split; [|done]. refine (conj HI1 (conj Hk' (conj (Hrest l _ _) _)));
      [by right | by right | intros Hnl; by apply Hg1, Hg].
  - destruct l as [x|]; [exfalso; by apply Hn, Hg|]. exists (Some i). split; [|done].
    refine (conj HI1 (conj Hk' (conj (Hrest (Some i) _ _) _))); [by left | by right | by intros _].
  - exists l. split; [|done]. refine (conj HI1 (conj Hk' (conj (Hrest l _ _) _)));
      [by right | by intros | intros Hnl; by apply Hg1, Hg].
Qed.

(** In every interleaving at most one contender succeeds, and none when the
    thing is gone at the start. *)
Lemma once (c c' : Pool W E A) :
  J c.2 -> Forall (pkeeps lost) c.1 ->
  (forall i p, contends i -> c.1 !! i = Some p -> takes p) -> star pool_step c c' ->
  (forall i j (a b : A), contends i -> contends j ->
     c'.1 !! i = Some (Done (Ok a)) -> c'.1 !! j = Some (Done (Ok b)) -> i = j) /\
  (gone c.2 -> forall i (a : A), contends i -> c'.1 !! i <> Some (Done (Ok a))).
Proof.
  intros HI Hk Ht Hs. split.
  - intros i j a b Hci Hcj Hi Hj.
    assert (Hinv : exists l, once_inv l c').
    { apply (star_invariant pool_step (fun c => exists l, once_inv l c) c c'); [|done|].
      - intros x y [l Hl] Hxy. destruct (once_step l x y Hl Hxy) as (l' & Hl' & _). by exists l'.
      - exists None. split; [done|]. split; [done|]. split; [|done]. intros; left; eauto. }
    destruct Hinv as (l & _ & _ & Hl & _).
    destruct (Hl i _ Hci Hi) as [[]|E1]. destruct (Hl j _ Hcj Hj) as [[]|E2]. congruence.
  - intros Hg i a Hc Hi.
    assert (Hinv : forall x, once_inv (Some x) c').
    { intros x. apply (star_invariant pool_step (once_inv (Some x)) c c'); [|done|].
      - intros y z Hy Hyz. destruct (once_step (Some x) y z Hy Hyz) as (l' & Hl' & E1).
        by rewrite <-E1.
      - split; [done|]. split; [done|]. split; [|by intros]. intros; left; eauto. }
    destruct (Hinv (S i)) as (_ & _ & Hl & _). destruct (Hl i _ Hc Hi) as [[]|E1].
    injection E1 as E1. lia.
Qed.
End Contend.
End Once.
