(* ===== verification/Text.v ===== *)
(** * Text: the string and byte operations of Rust's standard library the
    program uses.

    A Rust [str] is a [string] of its UTF-8 bytes, so [String.length] is
    [str::len].  Byte arrays of a fixed size are [bytesN n]. *)

From Stdlib Require Import ZArith NArith Lia.
From Stdlib Require Import Strings.Byte Strings.Ascii Strings.String.
From Stdlib Require Import DecimalString DecimalN.
From stdpp Require Import base tactics decidable countable option list strings.
From S2P Require Import Prelude.

Open Scope string_scope.
Open Scope list_scope.
Open Scope nat_scope.

(** ** Bytes and fixed-size arrays *)

#[export] Instance byte_eq_dec : EqDecision byte := Byte.byte_eq_dec.

#[export] Program Instance byte_countable : Countable byte :=
  inj_countable Byte.to_N Byte.of_N _.
Next Obligation. apply Byte.of_to_N. Qed.

Definition bytes := list byte.

(** [[u8; n]] *)
Record bytesN (n : nat) : Type := mkBytesN {
  bn_bytes : bytes;
  bn_len : Nat.eqb (length bn_bytes) n = true;
}.
Arguments mkBytesN {n} _ _.
Arguments bn_bytes {n} _.
Arguments bn_len {n} _.

Lemma bytesN_ext {n} (x y : bytesN n) : bn_bytes x = bn_bytes y -> x = y.
Proof.
  destruct x as [xs Hx], y as [ys Hy]; cbn. intros ->.
  f_equal. apply (Eqdep_dec.UIP_dec Bool.bool_dec).
Qed.

#[export] Instance bytesN_eq_dec {n} : EqDecision (bytesN n).
Proof.
  intros x y. destruct (decide (bn_bytes x = bn_bytes y)) as [E|E].
  - left. by apply bytesN_ext.
  - right. intros ->. by apply E.
Defined.

(** [slice.try_into::<[u8; n]>()] *)
Definition to_bytesN (n : nat) (l : bytes) : option (bytesN n) :=
  match Bool.bool_dec (Nat.eqb (length l) n) true with
  | left H => Some (mkBytesN l H)
  | right _ => None
  end.

(** [[b; n]] *)
Program Definition fill (n : nat) (b : byte) : bytesN n :=
  mkBytesN (repeat b n) _.
Next Obligation. intros. rewrite repeat_length. apply Nat.eqb_refl. Qed.

Lemma bn_length {n} (x : bytesN n) : length (bn_bytes x) = n.
Proof. apply Nat.eqb_eq, bn_len. Qed.

Lemma to_bytesN_bytes n (x : bytesN n) : to_bytesN n (bn_bytes x) = Some x.
Proof.
  unfold to_bytesN. destruct (Bool.bool_dec _ _) as [E|E].
  - f_equal. by apply bytesN_ext.
  - exfalso. apply E, bn_len.
Qed.

Lemma to_bytesN_Some n l x : to_bytesN n l = Some x -> bn_bytes x = l.
Proof. unfold to_bytesN. destruct (Bool.bool_dec _ _); naive_solver. Qed.

Lemma to_bytesN_None n l : to_bytesN n l = None <-> length l <> n.
Proof.
  unfold to_bytesN. destruct (Bool.bool_dec _ _) as [E|E].
  - pose proof (proj1 (Nat.eqb_eq _ _) E). naive_solver.
  - split; [|done]. intros _ F. apply E. by apply Nat.eqb_eq.
Qed.

#[export] Program Instance bytesN_countable {n} : Countable (bytesN n) :=
  inj_countable bn_bytes (to_bytesN n) _.
Next Obligation. intros. apply to_bytesN_bytes. Qed.

(** The UTF-8 bytes of a string: [s.as_bytes()]. *)
Definition as_bytes (s : string) : bytes := list_byte_of_string s.

(** ** Characters *)

(** [u8::to_ascii_lowercase] *)
Definition ascii_lower (c : ascii) : ascii :=
  let n := nat_of_ascii c in
  if (65 <=? n) && (n <=? 90) then ascii_of_nat (n + 32) else c.

Definition is_ascii_digit (c : ascii) : bool :=
  let n := nat_of_ascii c in (48 <=? n) && (n <=? 57).

(** [u8::is_ascii_hexdigit] *)
Definition is_ascii_hexdigit (c : ascii) : bool :=
  let n := nat_of_ascii c in
  ((48 <=? n) && (n <=? 57)) || ((65 <=? n) && (n <=? 70)) || ((97 <=? n) && (n <=? 102)).

(** [u8::is_ascii_alphanumeric] *)
Definition is_ascii_alphanumeric (c : ascii) : bool :=
  let n := nat_of_ascii c in
  ((48 <=? n) && (n <=? 57)) || ((65 <=? n) && (n <=? 90)) || ((97 <=? n) && (n <=? 122)).

Fixpoint string_map (f : ascii -> ascii) (s : string) : string :=
  match s with
  | EmptyString => EmptyString
  | String c s' => String (f c) (string_map f s')
  end.

Fixpoint string_forallb (p : ascii -> bool) (s : string) : bool :=
  match s with
  | EmptyString => true
  | String c s' => p c && string_forallb p s'
  end.

(** [str::to_ascii_lowercase] *)
Definition to_ascii_lowercase (s : string) : string := string_map ascii_lower s.

(** [a.eq_ignore_ascii_case(b)] *)
Definition eq_ignore_ascii_case (a b : string) : bool :=
  String.eqb (to_ascii_lowercase a) (to_ascii_lowercase b).

(** [s.contains(c)] for an ASCII character *)
Fixpoint str_contains (c : ascii) (s : string) : bool :=
  match s with
  | EmptyString => false
  | String d s' => Ascii.eqb c d || str_contains c s'
  end.

(** ** Prefixes and splitting *)

(** [s.strip_prefix(p)] *)
Fixpoint strip_prefix (p s : string) : option string :=
  match p, s with
  | EmptyString, _ => Some s
  | String c p', String d s' => if Ascii.eqb c d then strip_prefix p' s' else None
  | String _ _, EmptyString => None
  end.

(** [s.starts_with(p)] *)
Definition starts_with (p s : string) : bool :=
  match strip_prefix p s with Some _ => true | None => false end.

(** [s.trim_start_matches(p)]: the prefix is removed as often as it occurs.
    [fuel] bounds the rounds; [String.length s] is enough for a nonempty [p]. *)
Fixpoint trim_start_matches_fuel (fuel : nat) (p s : string) : string :=
  match fuel with
  | O => s
  | S n => match strip_prefix p s with
           | Some s' => trim_start_matches_fuel n p s'
           | None => s
           end
  end.
Definition trim_start_matches (p s : string) : string :=
  trim_start_matches_fuel (String.length s) p s.

(** [s.split_once(c)] *)
Fixpoint split_once (c : ascii) (s : string) : option (string * string) :=
  match s with
  | EmptyString => None
  | String d s' =>
      if Ascii.eqb c d then Some ("", s')
      else match split_once c s' with
           | Some (a, b) => Some (String d a, b)
           | None => None
           end
  end.

(** [s.split(c).next()] is the text before the first [c], or all of [s]. *)
Definition split_first (c : ascii) (s : string) : string :=
  match split_once c s with Some (a, _) => a | None => s end.

(** Number of bytes of the UTF-8 character a byte starts. *)
Definition utf8_width (c : ascii) : nat :=
  let n := nat_of_ascii c in
  if n <? 128 then 1 else if n <? 224 then 2 else if n <? 240 then 3 else 4.

(** [s.chars().next()], as the text of the character *)
Definition first_char (s : string) : option string :=
  match s with
  | EmptyString => None
  | String c _ => Some (substring 0 (utf8_width c) s)
  end.

(** UTF-8 encodings of the characters with the White_Space property, which is
    what [str::trim] removes. *)
Definition byte_str (l : list nat) : string :=
  string_of_list_ascii (map ascii_of_nat l).
Definition whitespace : list string :=
  map byte_str
    ([[9]; [10]; [11]; [12]; [13]; [32]; [194; 133]; [194; 160]; [225; 154; 128];
      [226; 128; 168]; [226; 128; 169]; [226; 128; 175]; [226; 129; 159]; [227; 128; 128]]
     ++ map (fun k => [226; 128; 128 + k]) (seq 0 11)).

Fixpoint strip_any (ps : list string) (s : string) : option string :=
  match ps with
  | [] => None
  | p :: ps' => match strip_prefix p s with
                | Some s' => Some s'
                | None => strip_any ps' s
                end
  end.

Fixpoint strip_all_fuel (fuel : nat) (ps : list string) (s : string) : string :=
  match fuel with
  | O => s
  | S n => match strip_any ps s with
           | Some s' => strip_all_fuel n ps s'
           | None => s
           end
  end.

Definition rev_string (s : string) : string :=
  string_of_list_ascii (rev (list_ascii_of_string s)).

(** [s.trim()]; every round removes at least one byte, so the length of the
    text is enough fuel. *)
Definition trim (s : string) : string :=
  let s1 := strip_all_fuel (String.length s) whitespace s in
  rev_string (strip_all_fuel (String.length s1) (map rev_string whitespace) (rev_string s1)).

#[local] Open Scope Z_scope.
Definition Z_of_byte (b : byte) : Z := Z.of_N (Byte.to_N b).

(** ** UTF-8 *)

Definition cont_byte (b : byte) : bool := let z := Z_of_byte b in (128 <=? z) && (z <? 192).

(** Well-formed UTF-8 (RFC 3629, table 3-7 of the Unicode standard). *)
Fixpoint utf8_ok (fuel : nat) (bs : bytes) : bool :=
  match fuel with
  | O => match bs with [] => true | _ => false end
  | S f =>
      match bs with
      | [] => true
      | b :: r =>
          let z := Z_of_byte b in
          if z <? 128 then utf8_ok f r
          else if (194 <=? z) && (z <? 224) then
            match r with b1 :: r' => cont_byte b1 && utf8_ok f r' | _ => false end
          else if (224 <=? z) && (z <? 240) then
            match r with
            | b1 :: b2 :: r' =>
                cont_byte b1 && cont_byte b2
                && negb ((z =? 224) && (Z_of_byte b1 <? 160))
                && negb ((z =? 237) && (160 <=? Z_of_byte b1)) && utf8_ok f r'
            | _ => false end
          else if (240 <=? z) && (z <? 245) then
            match r with
            | b1 :: b2 :: b3 :: r' =>
                cont_byte b1 && cont_byte b2 && cont_byte b3
                && negb ((z =? 240) && (Z_of_byte b1 <? 144))
                && negb ((z =? 244) && (144 <=? Z_of_byte b1)) && utf8_ok f r'
            | _ => false end
          else false
      end
  end.

Definition is_utf8 (bs : bytes) : bool := utf8_ok (length bs) bs.

#[local] Close Scope Z_scope.

(** [String::from_utf8(bytes)] *)
Definition string_from_utf8 (bs : bytes) : option string :=
  if is_utf8 bs then Some (string_of_list_byte bs) else None.

(** ** Decimal text *)

(** [n.to_string()] for a natural number *)
Definition dec_of_N (n : N) : string := NilEmpty.string_of_uint (N.to_uint n).
Definition dec_of_nat (n : nat) : string := dec_of_N (N.of_nat n).
(** [z.to_string()] for a signed integer *)
Definition dec_of_Z (z : Z) : string :=
  if (z <? 0)%Z then "-" +:+ dec_of_N (Z.to_N (- z)) else dec_of_N (Z.to_N z).

Definition N_of_dec (s : string) : option N :=
  match NilEmpty.uint_of_string s with
  | Some d => Some (N.of_uint d)
  | None => None
  end.

Lemma N_of_dec_of_N n : N_of_dec (dec_of_N n) = Some n.
Proof.
  unfold N_of_dec, dec_of_N. rewrite NilEmpty.usu. f_equal. apply DecimalN.Unsigned.of_to.
Qed.

(** [s.parse::<u64>()] *)
Definition parse_u64 (s : string) : option Z :=
  let digits := match s with String "+" r => r | _ => s end in
  match digits, N_of_dec digits with
  | EmptyString, _ => None
  | _, Some n => if (Z.of_N n <? two64)%Z then Some (Z.of_N n) else None
  | _, None => None
  end.

(** ** Lemmas *)

#[local] Arguments Ascii.eqb : simpl never.
#[local] Arguments String.append !_ _ : simpl nomatch.

Lemma strip_prefix_app p s : strip_prefix p (p +:+ s) = Some s.
Proof. induction p as [|c p IH]; cbn; [done|]. by rewrite Ascii.eqb_refl. Qed.

Lemma strip_prefix_Some p s r : strip_prefix p s = Some r <-> s = p +:+ r.
Proof.
  split.
  - revert s. induction p as [|c p IH]; intros s; cbn; [naive_solver|].
    destruct s as [|d s]; [done|]. destruct (Ascii.eqb_spec c d) as [->|]; [|done].
    intros H. by rewrite (IH _ H).
  - intros ->. apply strip_prefix_app.
Qed.

Lemma starts_with_spec p s : starts_with p s = true <-> exists r, s = p +:+ r.
Proof.
  unfold starts_with. destruct (strip_prefix p s) as [r|] eqn:E.
  - apply strip_prefix_Some in E. naive_solver.
  - split; [done|]. intros [r ->]. by rewrite strip_prefix_app in E.
Qed.

Lemma split_once_Some c s a b :
  split_once c s = Some (a, b) <-> s = a +:+ String c b /\ str_contains c a = false.
Proof.
  revert a b. induction s as [|d s IH]; intros a b; cbn.
  - split; [done|]. intros [H _]. by destruct a.
  - destruct (Ascii.eqb_spec c d) as [<-|Hne].
    + split; [intros [= <- <-]; done|].
      intros [H Ha]. destruct a as [|d' a]; cbn in *; simplify_eq; [done|].
      by rewrite Ascii.eqb_refl in Ha.
    + destruct (split_once c s) as [[a' b']|] eqn:E.
      * split.
        -- intros [= <- <-]. destruct (proj1 (IH a' b')) as [-> Ha]; [done|].
           split; [done|]. cbn. apply Ascii.eqb_neq in Hne. by rewrite Hne.
        -- intros [H Ha]. destruct a as [|d' a]; cbn in *; simplify_eq.
           apply orb_false_elim in Ha as [_ Ha].
           assert (Some (a', b') = Some (a, b)) as [= -> ->]; [|done].
           by apply IH.
      * split; [done|]. intros [H Ha]. destruct a as [|d' a]; cbn in *; simplify_eq.
        apply orb_false_elim in Ha as [_ Ha].
        assert (None = Some (a, b)); [|done]. by apply IH.
Qed.

Lemma ascii_lower_idem c : ascii_lower (ascii_lower c) = ascii_lower c.
Proof. destruct c as [[] [] [] [] [] [] [] []]; reflexivity. Qed.

Lemma to_ascii_lowercase_idem s :
  to_ascii_lowercase (to_ascii_lowercase s) = to_ascii_lowercase s.
Proof.
  unfold to_ascii_lowercase. induction s as [|c s IH]; cbn; [done|].
  by rewrite ascii_lower_idem, IH.
Qed.

Lemma eq_ignore_ascii_case_refl s : eq_ignore_ascii_case s s = true.
Proof. apply String.eqb_refl. Qed.

Lemma eq_ignore_ascii_case_sym a b :
  eq_ignore_ascii_case a b = eq_ignore_ascii_case b a.
Proof. apply String.eqb_sym. Qed.
