(* ===== verification/Errors.v ===== *)
(** * Errors: the error enumeration of the API and its HTTP responses
    (src/src/error.rs), with the JSON values the program builds. *)

From Stdlib Require Import ZArith Lia.
From Stdlib Require Import Strings.String.
From stdpp Require Import base tactics decidable option list strings.
From S2P Require Import Prelude Text.

Open Scope string_scope.
Open Scope list_scope.
Open Scope nat_scope.

(** ** JSON

    The values of [serde_json::Value].  Numbers are the integers the program
    stores; an object is the list of its members. *)

Inductive json : Type :=
| JNull
| JBool (b : bool)
| JNum (z : Z)
| JStr (s : string)
| JArr (l : list json)
| JObj (l : list (string * json)).

Fixpoint assoc {A} (k : string) (l : list (string * A)) : option A :=
  match l with
  | [] => None
  | (k', a) :: l' => if String.eqb k k' then Some a else assoc k l'
  end.

(** [value.get(key)] *)
Definition json_get (k : string) (j : json) : option json :=
  match j with JObj l => assoc k l | _ => None end.

(** [value.as_str()] *)
Definition json_as_str (j : json) : option string :=
  match j with JStr s => Some s | _ => None end.

(** ** The error type *)

Inductive AppError : Type :=
| InvalidOrExpiredNonce
| InvalidRefreshToken
| Unauthorized
| WalletRequired (message link_url : string)
| EmailAlreadyRegistered
| EmailRequired (message add_email_url : string)
| WalletAlreadyLinked
| MissingContentType
| InvalidFileType
| FileTooLarge
| UploadFailed
| PinataAuthError (message : string)
| PinataRateLimitError (retry_after : Z)
| PinataUploadError (message : string)
| PinataNetworkError (message : string)
| DraftNotReady
| PaymentRequired (draft_id initiate_url : string)
| InvalidHash
| HashMismatch
| EncryptionFailed
| DecryptionFailed
| KeypairLoadFailed (msg : string)
| PaymentMethodUnsupported
| TreasuryAtaMismatch
| NoRefundAmountSet
| VaultDepositExceedsMaximum
| InviteWindowExceedsSigningWindow
| DisplayNameTooLong
| InvalidDisplayName
| NotFound
| InternalError
| RateLimited
| NotImplemented
| SolanaRpcError
| TransactionSigningFailed.

#[export] Instance AppError_eq_dec : EqDecision AppError.
Proof. solve_decision. Defined.

Record Response : Type := mkResponse {
  resp_status : nat;
  resp_message : string;
  resp_body : json;
}.

Definition err_body (code : string) : json := JObj [("error", JStr code)].
Definition err_body1 (code k v : string) : json :=
  JObj [("error", JStr code); (k, JStr v)].
Definition err_body2 (code k1 v1 k2 v2 : string) : json :=
  JObj [("error", JStr code); (k1, JStr v1); (k2, JStr v2)].

(** [impl IntoResponse for AppError] *)
Definition into_response (e : AppError) : Response :=
  match e with
  | InvalidOrExpiredNonce =>
      mkResponse 401 "Invalid or expired nonce" (err_body "invalid_nonce")
  | InvalidRefreshToken =>
      mkResponse 401 "Invalid or expired refresh token" (err_body "invalid_refresh_token")
  | Unauthorized => mkResponse 401 "Unauthorized" (err_body "unauthorized")
  | WalletRequired message link_url =>
      mkResponse 403 "Wallet required"
        (err_body2 "wallet_required" "message" message "link_url" link_url)
  | NotFound => mkResponse 404 "Not found" (err_body "not_found")
  | EmailAlreadyRegistered =>
      mkResponse 409 "Email already registered" (err_body "email_already_registered")
  | WalletAlreadyLinked =>
      mkResponse 409 "Wallet already linked" (err_body "wallet_already_linked")
  | MissingContentType =>
      mkResponse 422 "Missing content type header" (err_body "missing_content_type")
  | InvalidFileType => mkResponse 422 "Invalid file type" (err_body "invalid_file_type")
  | FileTooLarge => mkResponse 422 "File too large" (err_body "file_too_large")
  | UploadFailed => mkResponse 422 "Upload failed" (err_body "upload_failed")
  | PinataAuthError message =>
      mkResponse 401 "Pinata authentication failed"
        (err_body1 "pinata_auth_error" "message" message)
  | PinataRateLimitError retry_after =>
      mkResponse 429 "Pinata rate limit exceeded"
        (JObj [("error", JStr "pinata_rate_limited"); ("retry_after", JNum retry_after)])
  | PinataUploadError message =>
      mkResponse 422 "Pinata upload failed"
        (err_body1 "pinata_upload_failed" "message" message)
  | PinataNetworkError message =>
      mkResponse 503 "Pinata network error"
        (err_body1 "pinata_network_error" "message" message)
  | DraftNotReady => mkResponse 422 "Draft not ready" (err_body "draft_not_ready")
  | PaymentRequired draft_id initiate_url =>
      mkResponse 422 "Payment required"
        (err_body2 "payment_required" "draft_id" draft_id "initiate_url" initiate_url)
  | EmailRequired message add_email_url =>
      mkResponse 422 "Email required"
        (err_body2 "email_required" "message" message "add_email_url" add_email_url)
  | InvalidHash => mkResponse 422 "Invalid hash" (err_body "invalid_hash")
  | HashMismatch => mkResponse 400 "Hash mismatch" (err_body "hash_mismatch")
  | EncryptionFailed => mkResponse 422 "Encryption failed" (err_body "encryption_failed")
  | DecryptionFailed => mkResponse 422 "Decryption failed" (err_body "decryption_failed")
  | KeypairLoadFailed msg =>
      mkResponse 422 "Keypair load failed" (err_body1 "keypair_load_failed" "details" msg)
  | PaymentMethodUnsupported =>
      mkResponse 422 "Payment method unsupported" (err_body "payment_method_unsupported")
  | TreasuryAtaMismatch =>
      mkResponse 422 "Treasury ATA mismatch" (err_body "treasury_ata_mismatch")
  | NoRefundAmountSet =>
      mkResponse 422 "No refund amount set" (err_body "no_refund_amount_set")
  | VaultDepositExceedsMaximum =>
      mkResponse 422 "Vault deposit exceeds maximum" (err_body "vault_deposit_exceeds_maximum")
  | InviteWindowExceedsSigningWindow =>
      mkResponse 422 "Invite window exceeds signing window"
        (err_body "invite_window_exceeds_signing_window")
  | DisplayNameTooLong =>
      mkResponse 422 "Display name too long" (err_body "display_name_too_long")
  | InvalidDisplayName =>
      mkResponse 422 "Invalid display name" (err_body "invalid_display_name")
  | RateLimited => mkResponse 429 "Rate limited" (err_body "rate_limited")
  | InternalError => mkResponse 500 "Internal server error" (err_body "internal_error")
  | SolanaRpcError => mkResponse 500 "Solana RPC error" (err_body "solana_rpc_error")
  | TransactionSigningFailed =>
      mkResponse 500 "Transaction signing failed" (err_body "transaction_signing_failed")
  | NotImplemented => mkResponse 501 "Not implemented" (err_body "not_implemented")
  end.

(** The machine-readable code of an error: the ["error"] member of its body. *)
Definition error_code (e : AppError) : option string :=
  match json_get "error" (resp_body (into_response e)) with
  | Some j => json_as_str j
  | None => None
  end.

(** The payload of an error, as the members of the body next to the code. *)
Definition error_payload (e : AppError) : list (string * json) :=
  match resp_body (into_response e) with JObj l => tail l | _ => [] end.

(** ** The response determines the error *)

Lemma error_code_total e : exists c, error_code e = Some c.
Proof. destruct e; eexists; reflexivity. Qed.

(** No two errors of the API share a response body: the ["error"] code
    and the members next to it determine the error value, so a client can
    tell every error (with its payload) from every other.  The status alone
    does not. *)
Theorem response_body_injective (e1 e2 : AppError) :
  resp_body (into_response e1) = resp_body (into_response e2) -> e1 = e2.
Proof.
  intros H. assert (Hc : error_code e1 = error_code e2).
  { unfold error_code. by rewrite H. }
  destruct e1, e2; first [ reflexivity | (vm_compute in Hc; discriminate Hc)
    | (cbv in H; by injection H as ?; subst) ].
Qed.

Lemma response_body_injective_witness :
  resp_body (into_response (PaymentRequired "d" "u")) =
  resp_body (into_response (PaymentRequired "d" "u")) /\
  PaymentRequired "d" "u" = PaymentRequired "d" "u".
Proof. split; [reflexivity | apply response_body_injective; reflexivity]. Defined.
