(* ===== verification/Borsh.v ===== *)
(** * Borsh: the interface of the serialization crate

    The program derives [BorshSerialize]/[BorshDeserialize] for its wire
    types.  The crate itself is not part of the repository: its primitive
    codecs are the methods of the class [BorshFormat], with the documented laws
    the program relies on (every codec decodes what it encodes, consumes exactly
    that, and accepts nothing else).  The derived codecs of structs and enums
    are compositions of these in declaration order. *)

From Stdlib Require Import ZArith Lia.
From Stdlib Require Import Strings.Byte Strings.String.
From stdpp Require Import base tactics decidable option list strings.
From S2P Require Import Prelude Text.

#[local] Unset Program Cases.
Open Scope list_scope.

Record Codec (A : Type) : Type := mkCodec {
  enc : A -> bytes;
  dec : bytes -> option (A * bytes);
  valid : A -> Prop;
  dec_enc : forall a rest, valid a -> dec (enc a ++ rest) = Some (a, rest);
  dec_sound : forall bs a rest, dec bs = Some (a, rest) -> bs = enc a ++ rest /\ valid a;
}.
Arguments mkCodec {A} _ _ _ _ _.
Arguments enc {A} _ _.
Arguments dec {A} _ _.
Arguments valid {A} _ _.
Arguments dec_enc {A} _ _ _ _.
Arguments dec_sound {A} _ _ _ _ _.

(** [T::try_from_slice(bs)]: decode and require that all input was read. *)
Definition try_from_slice {A} (c : Codec A) (bs : bytes) : option A :=
  match dec c bs with
  | Some (a, []) => Some a
  | _ => None
  end.

(** ** Compositions *)

(** Two fields in order. *)
Program Definition c_pair {A B} (ca : Codec A) (cb : Codec B) : Codec (A * B) :=
  mkCodec
    (fun p => enc ca (fst p) ++ enc cb (snd p))
    (fun bs => match dec ca bs with
               | Some (a, bs1) => match dec cb bs1 with
                                  | Some (b, bs2) => Some ((a, b), bs2)
                                  | None => None
                                  end
               | None => None
               end)
    (fun p => valid ca (fst p) /\ valid cb (snd p)) _ _.
Next Obligation.
  intros A B ca cb [a b] rest [Ha Hb]; cbn in *.
  rewrite <-app_assoc. rewrite (dec_enc ca) by done. by rewrite (dec_enc cb).
Qed.
Next Obligation.
  intros A B ca cb bs [a b] rest; cbn.
  destruct (dec ca bs) as [[a' bs1]|] eqn:Ea; [|done].
  destruct (dec cb bs1) as [[b' bs2]|] eqn:Eb; [|done].
  intros [= -> -> ->].
  apply (dec_sound ca) in Ea as [-> Ha]. apply (dec_sound cb) in Eb as [-> Hb].
  by rewrite app_assoc.
Qed.

(** A type that is another one up to renaming: a struct and the tuple of its
    fields. *)
Program Definition c_iso {A B} (f : A -> B) (g : B -> A)
    (fg : forall b, f (g b) = b) (gf : forall a, g (f a) = a) (c : Codec A) : Codec B :=
  mkCodec (fun b => enc c (g b))
          (fun bs => match dec c bs with Some (a, r) => Some (f a, r) | None => None end)
          (fun b => valid c (g b)) _ _.
Next Obligation. intros A B f g fg gf c b rest Hv; cbn. rewrite (dec_enc c) by done. by rewrite fg. Qed.
Next Obligation.
  intros A B f g fg gf c bs b rest; cbn.
  destruct (dec c bs) as [[a r]|] eqn:E; [|done]. intros [= <- ->].
  rewrite gf. by apply (dec_sound c).
Qed.

(** An enum with explicit discriminants: one byte, rejected when it is not the
    discriminant of a variant. *)
Program Definition c_enum {A} (tag : A -> byte) (untag : byte -> option A)
    (untag_tag : forall a, untag (tag a) = Some a)
    (tag_untag : forall b a, untag b = Some a -> tag a = b)
    (c : Codec byte) (Hv : forall b, valid c b) : Codec A :=
  mkCodec (fun a => enc c (tag a))
          (fun bs => match dec c bs with
                     | Some (b, r) => match untag b with Some a => Some (a, r) | None => None end
                     | None => None
                     end)
          (fun _ => True) _ _.
Next Obligation.
  intros A tag untag untag_tag tag_untag c Hv a rest _; cbn. rewrite (dec_enc c) by done. by rewrite untag_tag.
Qed.
Next Obligation.
  intros A tag untag untag_tag tag_untag c Hv bs a rest; cbn.
  destruct (dec c bs) as [[b r]|] eqn:E; [|done].
  destruct (untag b) as [a'|] eqn:Eb; [|done]. intros [= <- <-].
  apply tag_untag in Eb. subst b. split; [|done]. by apply (dec_sound c) in E as [-> _].
Qed.

(** ** The crate *)

Class BorshFormat : Type := {
  b_u8 : Codec byte;
  b_i64 : Codec Z;
  b_string : Codec string;
  b_array (n : nat) : Codec (bytesN n);
  b_vec {A} (c : Codec A) : Codec (list A);
  b_option {A} (c : Codec A) : Codec (option A);
  (** byte arrays are written without a length prefix *)
  b_array_raw : forall n (a : bytesN n), enc (b_array n) a = bn_bytes a;
  b_array_valid : forall n (a : bytesN n), valid (b_array n) a;
  b_u8_valid : forall b, valid b_u8 b;
  b_i64_valid : forall z, in_i64 z -> valid b_i64 z;
  (** collections are limited by their [u32] length prefix *)
  b_vec_valid : forall A (c : Codec A) l,
    (Z.of_nat (length l) < 4294967296)%Z -> Forall (valid c) l -> valid (b_vec c) l;
  b_option_valid : forall A (c : Codec A) o,
    (forall a, o = Some a -> valid c a) -> valid (b_option c) o;
}.

(** ** Lemmas *)

Lemma try_from_slice_enc {A} (c : Codec A) a :
  valid c a -> try_from_slice c (enc c a) = Some a.
Proof.
  intros Hv. unfold try_from_slice.
  rewrite <-(app_nil_r (enc c a)). by rewrite (dec_enc c).
Qed.

(** Trailing bytes make [try_from_slice] fail. *)
Lemma try_from_slice_trailing {A} (c : Codec A) a b rest :
  valid c a -> try_from_slice c (enc c a ++ b :: rest) = None.
Proof. intros Hv. unfold try_from_slice. by rewrite (dec_enc c). Qed.

Lemma try_from_slice_Some {A} (c : Codec A) bs a :
  try_from_slice c bs = Some a <-> bs = enc c a /\ valid c a.
Proof.
  unfold try_from_slice. split.
  - destruct (dec c bs) as [[a' [|? ?]]|] eqn:E; [|done|done]. intros [= ->].
    apply (dec_sound c) in E as [-> Hv]. by rewrite app_nil_r.
  - intros [-> Hv]. by apply try_from_slice_enc.
Qed.
