(* ===== verification/SolanaTypes.v ===== *)
(** * SolanaTypes: the on-chain data types (src/src/solana_types.rs)

    Constants, enums, the wire form of an agreement account and the arguments
    of the instructions, with their derived Borsh codecs. *)

From Stdlib Require Import ZArith Lia.
From Stdlib Require Import Strings.Byte Strings.String.
From stdpp Require Import base tactics decidable option list strings.
From S2P Require Import Prelude Text Borsh.

Open Scope string_scope.
Open Scope list_scope.

Abbreviation Pubkey := (bytesN 32).

(** ** Constants *)

Definition MAX_PARTIES : Z := 10.
Definition MAX_EXPIRY_SECONDS : Z := 7776000.
Definition MAX_URI_LEN : Z := 128.
Definition MAX_TITLE_LEN : Z := 64.
Definition PROGRAM_ID : string := "DF1cHTN9EE8Qonda1esTeYvFjmbYcoc52vDTjTMKvS1P".

(** ** Enums *)

Inductive AgreementStatus : Type :=
| Draft | PendingSignatures | Completed | Cancelled | Expired | Revoked.

Inductive StorageBackend : Type := Ipfs | Arweave.

#[export] Instance AgreementStatus_eq_dec : EqDecision AgreementStatus.
Proof. solve_decision. Defined.
#[export] Instance StorageBackend_eq_dec : EqDecision StorageBackend.
Proof. solve_decision. Defined.

Definition status_discriminant (s : AgreementStatus) : byte :=
  match s with
  | Draft => x00 | PendingSignatures => x01 | Completed => x02
  | Cancelled => x03 | Expired => x04 | Revoked => x05
  end.

Definition status_of_discriminant (b : byte) : option AgreementStatus :=
  match b with
  | x00 => Some Draft | x01 => Some PendingSignatures | x02 => Some Completed
  | x03 => Some Cancelled | x04 => Some Expired | x05 => Some Revoked
  | _ => None
  end.

Definition backend_discriminant (s : StorageBackend) : byte :=
  match s with Ipfs => x00 | Arweave => x01 end.

Definition backend_of_discriminant (b : byte) : option StorageBackend :=
  match b with x00 => Some Ipfs | x01 => Some Arweave | _ => None end.

Lemma status_of_to s : status_of_discriminant (status_discriminant s) = Some s.
Proof. by destruct s. Qed.
Lemma status_to_of b s : status_of_discriminant b = Some s -> status_discriminant s = b.
Proof. destruct b; cbn; intros [= <-]; reflexivity. Qed.
Lemma backend_of_to s : backend_of_discriminant (backend_discriminant s) = Some s.
Proof. by destruct s. Qed.
Lemma backend_to_of b s : backend_of_discriminant b = Some s -> backend_discriminant s = b.
Proof. destruct b; cbn; intros [= <-]; reflexivity. Qed.

(** ** Wire records *)

Record RevokeRetractEntryWire : Type := mkRetract {
  rr_pubkey : Pubkey;
  rr_count : byte;
}.

Record AgreementStateWire : Type := mkAgreementState {
  ag_creator : Pubkey;
  ag_agreement_id : bytesN 16;
  ag_content_hash : bytesN 32;
  ag_title : string;
  ag_storage_uri : string;
  ag_storage_backend : StorageBackend;
  ag_parties : list Pubkey;
  ag_signed_by : list Pubkey;
  ag_signed_at : list Z;
  ag_status : AgreementStatus;
  ag_created_at : Z;
  ag_expires_at : Z;
  ag_completed_at : option Z;
  ag_revoked_at : option Z;
  ag_nft_asset : option Pubkey;
  ag_collection : Pubkey;
  ag_vault_funder : Pubkey;
  ag_revoke_votes : list Pubkey;
  ag_revoke_retract_counts : list RevokeRetractEntryWire;
  ag_bump : byte;
}.

Record CreateAgreementArgs : Type := mkCreateArgs {
  ca_agreement_id : bytesN 16;
  ca_title : string;
  ca_content_hash : bytesN 32;
  ca_storage_uri : string;
  ca_storage_backend : StorageBackend;
  ca_parties : list Pubkey;
  ca_expires_in_secs : Z;
}.

Record SignAgreementArgs : Type := mkSignArgs { sa_metadata_uri : option string }.

(** ** Derived codecs *)

Section Codecs.
Context `{BorshFormat}.

Definition c_status : Codec AgreementStatus :=
  c_enum status_discriminant status_of_discriminant status_of_to status_to_of
    b_u8 b_u8_valid.

Definition c_backend : Codec StorageBackend :=
  c_enum backend_discriminant backend_of_discriminant backend_of_to backend_to_of
    b_u8 b_u8_valid.

Definition c_retract : Codec RevokeRetractEntryWire.
Proof.
  refine (c_iso (fun p => mkRetract (fst p) (snd p)) (fun r => (rr_pubkey r, rr_count r))
            _ _ (c_pair (b_array 32) b_u8)).
  - by intros [].
  - by intros [].
Defined.

Definition c_agreement : Codec AgreementStateWire.
Proof.
  refine (c_iso
    (fun '(a, (b, (c, (d, (e, (f, (g, (h, (i, (j, (k, (l, (m, (n, (o, (p, (q, (r, (s, t)))))))))))))))))))
       => mkAgreementState a b c d e f g h i j k l m n o p q r s t)
    (fun w => (ag_creator w, (ag_agreement_id w, (ag_content_hash w, (ag_title w,
       (ag_storage_uri w, (ag_storage_backend w, (ag_parties w, (ag_signed_by w,
       (ag_signed_at w, (ag_status w, (ag_created_at w, (ag_expires_at w,
       (ag_completed_at w, (ag_revoked_at w, (ag_nft_asset w, (ag_collection w,
       (ag_vault_funder w, (ag_revoke_votes w, (ag_revoke_retract_counts w,
        ag_bump w))))))))))))))))))))
    _ _
    (c_pair (b_array 32) (c_pair (b_array 16) (c_pair (b_array 32) (c_pair b_string
      (c_pair b_string (c_pair c_backend (c_pair (b_vec (b_array 32))
      (c_pair (b_vec (b_array 32)) (c_pair (b_vec b_i64) (c_pair c_status
      (c_pair b_i64 (c_pair b_i64 (c_pair (b_option b_i64) (c_pair (b_option b_i64)
      (c_pair (b_option (b_array 32)) (c_pair (b_array 32) (c_pair (b_array 32)
      (c_pair (b_vec (b_array 32)) (c_pair (b_vec c_retract) b_u8)))))))))))))))))))).
  - by intros [].
  - by intros (a&b&c&d&e&f&g&h&i&j&k&l&m&n&o&p&q&r&s&t).
Defined.

Definition c_create_args : Codec CreateAgreementArgs.
Proof.
  refine (c_iso
    (fun '(a, (b, (c, (d, (e, (f, g)))))) => mkCreateArgs a b c d e f g)
    (fun w => (ca_agreement_id w, (ca_title w, (ca_content_hash w, (ca_storage_uri w,
       (ca_storage_backend w, (ca_parties w, ca_expires_in_secs w)))))))
    _ _
    (c_pair (b_array 16) (c_pair b_string (c_pair (b_array 32) (c_pair b_string
      (c_pair c_backend (c_pair (b_vec (b_array 32)) b_i64))))))).
  - by intros [].
  - by intros (a&b&c&d&e&f&g).
Defined.

Definition c_sign_args : Codec SignAgreementArgs.
Proof.
  refine (c_iso mkSignArgs sa_metadata_uri _ _ (b_option b_string)).
  - by intros [].
  - done.
Defined.
End Codecs.

(** What an agreement state must satisfy to be written: the integers fit their
    types, the texts are valid UTF-8 of admissible length, and no vector
    exceeds the length prefix. *)
Record agreement_encodable `{BorshFormat} (w : AgreementStateWire) : Prop := {
  ae_title : valid b_string (ag_title w);
  ae_uri : valid b_string (ag_storage_uri w);
  ae_parties : (Z.of_nat (length (ag_parties w)) < 4294967296)%Z;
  ae_signed_by : (Z.of_nat (length (ag_signed_by w)) < 4294967296)%Z;
  ae_signed_at_len : (Z.of_nat (length (ag_signed_at w)) < 4294967296)%Z;
  ae_votes : (Z.of_nat (length (ag_revoke_votes w)) < 4294967296)%Z;
  ae_retracts : (Z.of_nat (length (ag_revoke_retract_counts w)) < 4294967296)%Z;
  ae_signed_at : Forall in_i64 (ag_signed_at w);
  ae_created : in_i64 (ag_created_at w);
  ae_expires : in_i64 (ag_expires_at w);
  ae_completed : forall z, ag_completed_at w = Some z -> in_i64 z;
  ae_revoked : forall z, ag_revoked_at w = Some z -> in_i64 z;
}.

Section Facts.
Context `{BorshFormat}.

Lemma Forall_valid_array n (l : list (bytesN n)) : Forall (valid (b_array n)) l.
Proof. apply Forall_true. intros. apply b_array_valid. Qed.

Lemma c_agreement_valid w : agreement_encodable w -> valid c_agreement w.
Proof.
  intros []. cbn.
  repeat match goal with |- _ /\ _ => split end;
    eauto using b_array_valid, b_u8_valid, b_i64_valid, Forall_valid_array.
  all: try (apply b_vec_valid; eauto using Forall_valid_array).
  all: try (apply b_option_valid; eauto using b_i64_valid, b_array_valid).
  - eapply Forall_impl; [eassumption | intros; by apply b_i64_valid].
  - apply Forall_true. intros r. cbn. eauto using b_array_valid, b_u8_valid.
Qed.

(** The first fields of an agreement account lie at fixed offsets: the
    creator in bytes 0..32 and the agreement id in bytes 32..48. *)
Lemma c_agreement_layout w :
  exists rest, enc c_agreement w
    = bn_bytes (ag_creator w) ++ bn_bytes (ag_agreement_id w) ++ rest.
Proof. eexists. cbn. rewrite !b_array_raw. reflexivity. Qed.
End Facts.
