(* ===== verification/Health.v ===== *)
(** * Health: process health, worker policy and the worker supervisor

    [ProcessHealthState] of src/src/state.rs (an atomic byte), the decision
    tables of src/src/workers/policy.rs, the supervisor of
    src/src/workers/supervisor.rs as a step relation over any interleaving of
    its worker tasks, and the health response of src/src/router.rs. *)

From Stdlib Require Import ZArith Lia.
From Stdlib Require Import Strings.String.
From stdpp Require Import base tactics decidable option list strings gmap.
From S2P Require Import Prelude Text.

Open Scope string_scope.
Open Scope list_scope.
Open Scope Z_scope.

(** ** Process health: src/src/state.rs *)

Module PH.
Inductive ProcessHealth : Type := Healthy | Degraded | RuntimeFailed | StartupFailed.

#[export] Instance ProcessHealth_eq_dec : EqDecision ProcessHealth.
Proof. solve_decision. Defined.

(** The atomic byte. *)
Definition ProcessHealthState : Type := Z.

Definition HEALTHY : Z := 0.
Definition DEGRADED : Z := 1.
Definition RUNTIME_FAILED : Z := 2.
Definition STARTUP_FAILED : Z := 3.

Definition encode (status : ProcessHealth) : Z :=
  match status with
  | Healthy => HEALTHY
  | Degraded => DEGRADED
  | RuntimeFailed => RUNTIME_FAILED
  | StartupFailed => STARTUP_FAILED
  end.

Definition decode (value : Z) : ProcessHealth :=
  if value =? HEALTHY then Healthy
  else if value =? DEGRADED then Degraded
  else if value =? RUNTIME_FAILED then RuntimeFailed
  else if value =? STARTUP_FAILED then StartupFailed
  else StartupFailed.

Definition new (initial : ProcessHealth) : ProcessHealthState := encode initial.
Definition current (s : ProcessHealthState) : ProcessHealth := decode s.
Definition set_ (s : ProcessHealthState) (next : ProcessHealth) : ProcessHealthState :=
  encode next.

(** [compare_exchange(HEALTHY, DEGRADED)] *)
Definition mark_degraded (s : ProcessHealthState) : ProcessHealthState :=
  if s =? HEALTHY then DEGRADED else s.

Definition mark_runtime_failed (s : ProcessHealthState) : ProcessHealthState :=
  set_ s RuntimeFailed.

Lemma decode_encode h : decode (encode h) = h.
Proof. by destruct h. Qed.

(** [mark_degraded] only ever leaves [Healthy]. *)
Lemma mark_degraded_current s :
  current (mark_degraded s) =
  match current s with Healthy => Degraded | h => h end.
Proof.
  unfold current, mark_degraded, decode, HEALTHY, DEGRADED, RUNTIME_FAILED, STARTUP_FAILED.
  destruct (s =? 0) eqn:E0; [done|]. rewrite E0.
  by destruct (s =? 1), (s =? 2), (s =? 3).
Qed.
End PH.

(** ** Policy: src/src/workers/policy.rs *)

Inductive WorkerCriticality : Type := Critical | NonCritical.
Inductive BootstrapFailureAction : Type := FailFast | DisableAndContinue.
Inductive WorkerStatus : Type := Healthy | Degraded | Disabled.
Inductive DegradationReason : Type :=
| RpcUnavailable | RetryBackoff | CircuitBreakerTripped | PanicRecovered.

#[export] Instance WorkerStatus_eq_dec : EqDecision WorkerStatus.
Proof. solve_decision. Defined.

Definition on_bootstrap_failure (c : WorkerCriticality) : BootstrapFailureAction :=
  match c with Critical => FailFast | NonCritical => DisableAndContinue end.

Definition on_runtime_failure (c : WorkerCriticality) : WorkerStatus := Disabled.

Definition suggested_status (r : DegradationReason) : WorkerStatus :=
  match r with
  | RpcUnavailable | RetryBackoff => Degraded
  | CircuitBreakerTripped | PanicRecovered => Disabled
  end.

(** [status_for_reason] of the expiry and refund workers. *)
Definition status_for_reason (h : PH.ProcessHealthState) (r : DegradationReason)
    : WorkerStatus * PH.ProcessHealthState :=
  let status := suggested_status r in
  (status, if bool_decide (status = Degraded) then PH.mark_degraded h else h).

(** [transition_to_degraded] / [transition_to_healthy] of the event listener
    and the notification worker: the worker's own status and the process
    health. *)
Definition transition_to_degraded (status : WorkerStatus) (h : PH.ProcessHealthState)
    : WorkerStatus * PH.ProcessHealthState :=
  if bool_decide (status = Degraded) then (status, h)
  else (Degraded, PH.mark_degraded h).

Definition transition_to_healthy (status : WorkerStatus) : WorkerStatus :=
  if bool_decide (status = Healthy) then status else Healthy.

(** ** Supervisor: src/src/workers/supervisor.rs *)

Inductive WorkerLifecycle : Type := Starting | Running | Exited | Panicked | CancelledTask.

(** How a worker task ends. *)
Inductive JoinOutcome : Type := JoinOk | JoinPanic | JoinCancelled.

(** The supervisor's shared map, the process health, and the supervised tasks
    that have been spawned ([false]: not yet polled; [true]: running). *)
Record Supervisor : Type := mkSupervisor {
  sv_lifecycle : gmap string WorkerLifecycle;
  sv_health : PH.ProcessHealthState;
  sv_tasks : list (string * WorkerCriticality * bool);
}.

Definition record_runtime_failure (c : WorkerCriticality) (h : PH.ProcessHealthState)
    : PH.ProcessHealthState :=
  match c with
  | NonCritical => PH.mark_degraded h
  | Critical => PH.mark_runtime_failed h
  end.

Definition outcome_lifecycle (o : JoinOutcome) : WorkerLifecycle :=
  match o with JoinOk => Exited | JoinPanic => Panicked | JoinCancelled => CancelledTask end.

(** [WorkerSupervisor::spawn]: the caller's part. *)
Definition spawn (worker : string) (c : WorkerCriticality) (s : Supervisor) : Supervisor :=
  mkSupervisor (<[worker := Starting]> (sv_lifecycle s)) (sv_health s)
    (sv_tasks s ++ [(worker, c, false)]).

(** The spawned task's first poll. *)
Definition task_started (worker : string) (s : Supervisor) : Supervisor :=
  mkSupervisor (<[worker := Running]> (sv_lifecycle s)) (sv_health s) (sv_tasks s).

(** The spawned task after the worker future resolved. *)
Definition task_finished (worker : string) (c : WorkerCriticality) (o : JoinOutcome)
    (s : Supervisor) : Supervisor :=
  mkSupervisor (<[worker := outcome_lifecycle o]> (sv_lifecycle s))
    (record_runtime_failure c (sv_health s)) (sv_tasks s).

Definition lifecycle_of (worker : string) (s : Supervisor) : option WorkerLifecycle :=
  sv_lifecycle s !! worker.

Definition with_tasks (s : Supervisor) (ts : list (string * WorkerCriticality * bool))
    : Supervisor := mkSupervisor (sv_lifecycle s) (sv_health s) ts.

(** One step of the process: a spawn, the start or end of any supervised task,
    or a worker reporting degradation by itself. *)
Inductive sup_step : Supervisor -> Supervisor -> Prop :=
| step_spawn w c s : sup_step s (spawn w c s)
| step_start w c s ts1 ts2 :
    sv_tasks s = ts1 ++ (w, c, false) :: ts2 ->
    sup_step s (task_started w (with_tasks s (ts1 ++ (w, c, true) :: ts2)))
| step_finish w c o s ts1 ts2 :
    sv_tasks s = ts1 ++ (w, c, true) :: ts2 ->
    sup_step s (task_finished w c o (with_tasks s (ts1 ++ ts2)))
| step_degrade s :
    sup_step s (mkSupervisor (sv_lifecycle s) (PH.mark_degraded (sv_health s)) (sv_tasks s)).

(** [main] sets the health to [Healthy] before it spawns the workers. *)
Definition sup_init : Supervisor := mkSupervisor ∅ (PH.new PH.Healthy) [].

(** [spawn_runtime_workers] of src/src/main.rs. *)
Definition spawn_runtime_workers (s : Supervisor) : Supervisor :=
  let s := spawn "event_listener" NonCritical s in
  let s := spawn "keeper" Critical s in
  let s := spawn "notification_worker" NonCritical s in
  let s := spawn "refund_worker" NonCritical s in
  spawn "expiry_worker" NonCritical s.

(** ** The health endpoint: src/src/router.rs *)

Record HealthResponse : Type := mkHealthResponse {
  hr_status : string; hr_process_alive : bool; hr_workers : string;
}.

Definition health_response (h : PH.ProcessHealth) : Z * HealthResponse :=
  match h with
  | PH.Healthy => (200, mkHealthResponse "healthy" true "ready")
  | PH.Degraded => (200, mkHealthResponse "degraded" true "degraded")
  | PH.StartupFailed => (503, mkHealthResponse "startup-failed" false "unavailable")
  | PH.RuntimeFailed => (503, mkHealthResponse "runtime-failed" true "failed")
  end.

(** ** Theorems *)

(** Severity of a health value; [StartupFailed] cannot be reached once the
    process is up. *)
Definition severity (h : PH.ProcessHealth) : Z :=
  match h with
  | PH.Healthy => 0 | PH.Degraded => 1 | PH.RuntimeFailed => 2 | PH.StartupFailed => 3
  end.

Lemma record_failure_current c h :
  PH.current (record_runtime_failure c h) =
  match c with
  | Critical => PH.RuntimeFailed
  | NonCritical => match PH.current h with PH.Healthy => PH.Degraded | h' => h' end
  end.
Proof. destruct c; cbn; [done | apply PH.mark_degraded_current]. Qed.

Lemma sup_step_health s s' :
  sup_step s s' ->
  PH.current (sv_health s') = PH.current (sv_health s) \/
  PH.current (sv_health s') =
    match PH.current (sv_health s) with PH.Healthy => PH.Degraded | h => h end \/
  (PH.current (sv_health s') = PH.RuntimeFailed /\
   exists w, (w, Critical, true) ∈ sv_tasks s).
Proof.
  destruct 1 as [|w c s ts1 ts2 Hts|w c o s ts1 ts2 Hts|]; cbn.
  - by left.
  - by left.
  - rewrite record_failure_current. destruct c; [right; right | by right; left].
    split; [done|]. exists w. rewrite Hts. set_solver.
  - right; left. apply PH.mark_degraded_current.
Qed.

Lemma sup_step_worsens s s' :
  sup_step s s' -> PH.current (sv_health s) <> PH.StartupFailed ->
  severity (PH.current (sv_health s)) <= severity (PH.current (sv_health s')) /\
  PH.current (sv_health s') <> PH.StartupFailed.
Proof.
  intros Hs Hn. destruct (sup_step_health _ _ Hs) as [->|[->|[-> _]]];
    [by split|..]; destruct (PH.current (sv_health s)); cbn in *; try done; split; (lia || done).
Qed.

Lemma sup_worsens s s' :
  star sup_step s s' -> PH.current (sv_health s) <> PH.StartupFailed ->
  severity (PH.current (sv_health s)) <= severity (PH.current (sv_health s')) /\
  PH.current (sv_health s') <> PH.StartupFailed.
Proof.
  intros Hs Hn. apply (star_invariant sup_step
    (fun x => severity (PH.current (sv_health s)) <= severity (PH.current (sv_health x)) /\
              PH.current (sv_health x) <> PH.StartupFailed) s s'); [|exact Hs|by split].
  intros x y [Hle Hx] Hxy. destruct (sup_step_worsens _ _ Hxy Hx). split; [lia | done].
Qed.

(** C40: process health only worsens, and a critical failure ends the service.
    Under any interleaving of spawns, task starts, task ends and workers
    reporting degradation, the severity of the health of a running process
    never decreases and never becomes that of a failed start.  Once a critical
    task has ended, in whatever way, the process has failed and the health
    endpoint answers 503 for ever; once another task has ended, the process is
    at least degraded. *)
Theorem critical_failure_sticky (s s' : Supervisor) :
  PH.current (sv_health s) <> PH.StartupFailed ->
  star sup_step s s' ->
  severity (PH.current (sv_health s)) <= severity (PH.current (sv_health s')) /\
  PH.current (sv_health s') <> PH.StartupFailed /\
  forall w c o x ts1 ts2,
    star sup_step s x -> sv_tasks x = ts1 ++ (w, c, true) :: ts2 ->
    star sup_step (task_finished w c o (with_tasks x (ts1 ++ ts2))) s' ->
    match c with
    | Critical => PH.current (sv_health s') = PH.RuntimeFailed /\
                  fst (health_response (PH.current (sv_health s'))) = 503
    | NonCritical => PH.current (sv_health s') = PH.Degraded \/
                     PH.current (sv_health s') = PH.RuntimeFailed
    end.
Proof.
  intros H0 Hs. destruct (sup_worsens _ _ Hs H0) as [Hle Hn]. split; [done|]. split; [done|].
  intros w c o x ts1 ts2 Hx _ Hy. destruct (sup_worsens _ _ Hx H0) as [_ Hnx].
  assert (Hfin : PH.current (sv_health (task_finished w c o (with_tasks x (ts1 ++ ts2)))) =
    match c with
    | Critical => PH.RuntimeFailed
    | NonCritical => match PH.current (sv_health x) with PH.Healthy => PH.Degraded | h => h end
    end) by apply record_failure_current.
  apply sup_worsens in Hy as [Hle2 _].
  - rewrite Hfin in Hle2.
    destruct c, (PH.current (sv_health x)), (PH.current (sv_health s')); cbn in *; auto; lia || done.
  - rewrite Hfin. by destruct c, (PH.current (sv_health x)).
Qed.

(** The workers of [main], the keeper started and then gone. *)
Definition keeper_running : Supervisor :=
  task_started "keeper" (with_tasks (spawn_runtime_workers sup_init)
    ([("event_listener", NonCritical, false)] ++ ("keeper", Critical, true) ::
     [("notification_worker", NonCritical, false); ("refund_worker", NonCritical, false);
      ("expiry_worker", NonCritical, false)])).
Definition keeper_gone : Supervisor :=
  task_finished "keeper" Critical JoinOk (with_tasks keeper_running
    ([("event_listener", NonCritical, false)] ++
     [("notification_worker", NonCritical, false); ("refund_worker", NonCritical, false);
      ("expiry_worker", NonCritical, false)])).

Lemma critical_failure_sticky_witness :
  star sup_step (spawn_runtime_workers sup_init) keeper_running /\
  PH.current (sv_health keeper_running) = PH.Healthy /\
  PH.current (sv_health (spawn "x" NonCritical keeper_gone)) = PH.RuntimeFailed.
Proof.
  assert (H1 : star sup_step (spawn_runtime_workers sup_init) keeper_running)
    by (apply star_one; by apply (step_start "keeper" Critical)).
  assert (H2 : star sup_step keeper_running keeper_gone)
    by (apply star_one; by apply (step_finish "keeper" Critical JoinOk)).
  assert (H3 : star sup_step keeper_gone (spawn "x" NonCritical keeper_gone))
    by (apply star_one; constructor).
  split; [exact H1|]. split; [reflexivity|].
  destruct (critical_failure_sticky (spawn_runtime_workers sup_init) (spawn "x" NonCritical keeper_gone))
    as (_ & _ & Hc); [discriminate | by repeat (eapply star_trans; [eassumption|])|].
  exact (proj1 (Hc "keeper" Critical JoinOk keeper_running [("event_listener", NonCritical, false)]
    [("notification_worker", NonCritical, false); ("refund_worker", NonCritical, false);
     ("expiry_worker", NonCritical, false)] H1 eq_refl H3)).
Defined.

(** No task of [ts] is critical. *)
Definition no_critical (ts : list (string * WorkerCriticality * bool)) : Prop :=
  Forall (fun t => snd (fst t) = NonCritical) ts.

Inductive noncritical_step : Supervisor -> Supervisor -> Prop :=
| nc_step s s' : sup_step s s' -> no_critical (sv_tasks s') -> noncritical_step s s'.

(** The failure of workers that are not critical never takes the service
    down.  Starting from a healthy process in which only non-critical workers
    are spawned, every reachable state answers the health check with 200,
    whichever of them exit, panic or are cancelled, in whatever order. *)
Theorem noncritical_failures_keep_serving (s : Supervisor) :
  star noncritical_step sup_init s ->
  fst (health_response (PH.current (sv_health s))) = 200.
Proof.
  intros Hs.
  assert (no_critical (sv_tasks s) /\
          (PH.current (sv_health s) = PH.Healthy \/ PH.current (sv_health s) = PH.Degraded))
    as [_ [-> | ->]]; [|done|done].
  apply (star_invariant noncritical_step
    (fun s => no_critical (sv_tasks s) /\
       (PH.current (sv_health s) = PH.Healthy \/ PH.current (sv_health s) = PH.Degraded))
    sup_init s); [|exact Hs|].
  - intros x y [Hc Hx] Hstep. destruct Hstep as [x y Hstep Hc']. split; [exact Hc'|].
    destruct (sup_step_health x y Hstep) as [E|[E|[_ [w Hw]]]].
    + rewrite E. exact Hx.
    + rewrite E. destruct Hx as [Hx|Hx]; rewrite Hx; auto.
    + exfalso. by apply (proj1 (Forall_forall _ _) Hc) in Hw.
  - split; [apply Forall_nil; done | by left].
Qed.

Lemma noncritical_failures_keep_serving_witness :
  star noncritical_step sup_init (spawn "refund_worker" NonCritical sup_init) /\
  fst (health_response (PH.current
    (sv_health (spawn "refund_worker" NonCritical sup_init)))) = 200.
Proof.
  assert (H : star noncritical_step sup_init (spawn "refund_worker" NonCritical sup_init)).
  { apply star_one. split; [constructor|]. repeat constructor. }
  split; [exact H | exact (noncritical_failures_keep_serving _ H)].
Defined.
