(* ===== verification/Guardrails.v ===== *)
(** * Guardrails: no worker may end the process

    The test module src/src/workers/guardrails.rs, which reads the sources of
    the workers and of the start-up: over a directory of files, each test is a
    function to its verdict, and the theorems say what a passing verdict
    guarantees of the sources. *)

From Stdlib Require Import Strings.String Strings.Ascii.
From stdpp Require Import base tactics decidable option list strings sorting.
From S2P Require Import Prelude Text.

Open Scope string_scope.
Open Scope list_scope.

(** ** Searching a text *)

(** [haystack.contains(needle)] *)
Fixpoint occurs_in (needle haystack : string) : bool :=
  starts_with needle haystack ||
  match haystack with
  | "" => false
  | String _ rest => occurs_in needle rest
  end.

Lemma string_app_assoc (a b c : string) : (a +:+ b) +:+ c = a +:+ b +:+ c.
Proof.
  induction a as [|x a IH]; [done|].
  change (String x ((a +:+ b) +:+ c) = String x (a +:+ b +:+ c)). by rewrite IH.
Qed.

Lemma occurs_in_spec needle haystack :
  occurs_in needle haystack = true <-> exists before after, haystack = before +:+ needle +:+ after.
Proof.
  induction haystack as [|c rest IH]; cbn [occurs_in]; rewrite orb_true_iff, starts_with_spec.
  - split; [intros [[r E]|]; [by exists "", r | done]|].
    intros ([|] & after & E); [left; by exists after | done].
  - rewrite IH. split.
    + intros [[r E] | (before & after & ->)]; [by exists "", r | by exists (String c before), after].
    + intros ([|x before] & after & E); [left; by exists after|].
      injection E as <- E. right. by exists before, after.
Qed.

(** What contains a text contains every part of it. *)
Lemma occurs_in_part prefix needle haystack :
  occurs_in (prefix +:+ needle) haystack = true -> occurs_in needle haystack = true.
Proof.
  rewrite !occurs_in_spec. intros (before & after & ->). exists (before +:+ prefix), after.
  by rewrite !string_app_assoc.
Qed.

(** A text without the separator lies in one of the two parts it joins. *)
Lemma starts_with_join sep needle a b :
  str_contains sep needle = false ->
  starts_with needle (a +:+ String sep b) = starts_with needle a.
Proof.
  unfold starts_with. revert a. induction needle as [|c needle IH]; intros a Hsep; [by destruct a|].
  cbn in Hsep. apply orb_false_iff in Hsep as [Hc Hsep]. destruct a as [|x a].
  - change ("" +:+ String sep b) with (String sep b). cbn [strip_prefix].
    by rewrite Ascii.eqb_sym, Hc.
  - change (String x a +:+ String sep b) with (String x (a +:+ String sep b)). cbn [strip_prefix].
    destruct (Ascii.eqb c x); [by apply IH | done].
Qed.

Lemma occurs_in_join sep needle a b :
  needle <> "" -> str_contains sep needle = false ->
  occurs_in needle (a +:+ String sep b) = occurs_in needle a || occurs_in needle b.
Proof.
  intros Hne Hsep. induction a as [|x a IH].
  - change ("" +:+ String sep b) with (String sep b). cbn [occurs_in].
    change (String sep b) with ("" +:+ String sep b) at 1. rewrite starts_with_join by done.
    by destruct needle.
  - change (String x a +:+ String sep b) with (String x (a +:+ String sep b)). cbn [occurs_in].
    rewrite IH, orb_assoc. f_equal. f_equal.
    exact (starts_with_join sep needle (String x a) b Hsep).
Qed.

(** ** The files *)

(** What [read_dir] lists and [read_to_string] gives, [None] where it fails. *)
Record SourceFile : Type := mkSourceFile { sf_name : string; sf_source : option string }.

(** The part of a name after its last dot, when there is one. *)
Fixpoint after_last_dot (s : string) : option string :=
  match s with
  | "" => None
  | String c rest =>
      match after_last_dot rest with
      | Some ext => Some ext
      | None => if Ascii.eqb c "." then Some rest else None
      end
  end.

(** [Path::extension]: a dot at the front does not begin an extension. *)
Definition extension (name : string) : option string :=
  match name with "" => None | String _ rest => after_last_dot rest end.

(** [paths.sort()] *)
Definition name_le (a b : SourceFile) : Prop := String.leb (sf_name a) (sf_name b) = true.
#[export] Instance name_le_dec a b : Decision (name_le a b).
Proof. unfold name_le. apply _. Defined.

Definition worker_module_paths (entries : list (option SourceFile)) : list SourceFile :=
  merge_sort name_le
    (filter (fun f => sf_name f <> "guardrails.rs")
       (filter (fun f => extension (sf_name f) = Some "rs") (omap id entries))).

(** ** The tests *)

(** How a test ends: [Err] when it panics, with the file it names. *)
Fixpoint no_exit_in (files : list SourceFile) : result string unit :=
  match files with
  | [] => Ok tt
  | f :: rest =>
      match sf_source f with
      | None => Err (sf_name f)
      | Some source =>
          if negb (occurs_in "std::process::exit(" source) && negb (occurs_in "process::exit(" source)
          then no_exit_in rest else Err (sf_name f)
      end
  end.

Definition worker_modules_must_not_call_process_exit
    (read_dir : option (list (option SourceFile))) : result string unit :=
  match read_dir with
  | None => Err "src/workers"
  | Some entries => no_exit_in (worker_module_paths entries)
  end.

Definition guardrail_scope_explicitly_excludes_startup_fail_fast_files
    (main config : SourceFile) : bool :=
  match sf_source main, sf_source config with
  | Some a, Some b =>
      let startup_source := a +:+ String "010" b in
      occurs_in "FailFast" startup_source && occurs_in "FAIL-FAST" startup_source
  | _, _ => false
  end.

(** ** What passing means *)

Lemma worker_module_elem f entries :
  f ∈ worker_module_paths entries <->
  Some f ∈ entries /\ extension (sf_name f) = Some "rs" /\ sf_name f <> "guardrails.rs".
Proof.
  unfold worker_module_paths. rewrite merge_sort_Permutation, !list_elem_of_filter, list_elem_of_omap.
  split.
  - intros (Hn & He & [x|] & Hx & [= ->]). auto.
  - intros (Hx & He & Hn). split; [done|]. split; [done|]. by exists (Some f).
Qed.

Lemma no_exit_in_passes files :
  no_exit_in files = Ok tt <->
  forall f, f ∈ files -> exists source, sf_source f = Some source /\ occurs_in "process::exit(" source = false.
Proof.
  induction files as [|f files IH]; cbn [no_exit_in].
  - split; [intros _ g Hg; inversion Hg | done].
  - split.
    + destruct (sf_source f) as [source|] eqn:Es; [|done].
      destruct (occurs_in "process::exit(" source) eqn:Eo; [by rewrite andb_false_r|].
      rewrite andb_true_r. destruct (negb _); [|done]. intros Hr g [->|Hg]%elem_of_cons.
      * by exists source.
      * by apply IH.
    + intros Hall. destruct (Hall f) as (source & -> & Ho); [left|]. rewrite Ho.
      destruct (occurs_in "std::process::exit(" source) eqn:Eo.
      { apply (occurs_in_part "std::") in Eo. by rewrite Ho in Eo. }
      apply IH. intros g Hg. apply Hall. by right.
Qed.

(** The guardrail passes exactly when the directory can be listed and every
    listed Rust file but the guardrail's own can be read and nowhere has the
    text of the call: the first of its two searches adds nothing, and an entry
    that cannot be listed is passed over. *)
Theorem guardrail_passes (read_dir : option (list (option SourceFile))) :
  worker_modules_must_not_call_process_exit read_dir = Ok tt <->
  exists entries, read_dir = Some entries /\
    forall f, Some f ∈ entries -> extension (sf_name f) = Some "rs" -> sf_name f <> "guardrails.rs" ->
      exists source, sf_source f = Some source /\
        ~ exists before after, source = before +:+ "process::exit(" +:+ after.
Proof.
  unfold worker_modules_must_not_call_process_exit.
  destruct read_dir as [entries|]; [|split; [done | intros (? & ? & _); done]].
  rewrite no_exit_in_passes. split.
  - intros Hall. exists entries. split; [done|]. intros f Hf He Hn.
    destruct (Hall f) as (source & Hs & Ho); [by apply worker_module_elem|].
    exists source. split; [done|]. rewrite <-occurs_in_spec, Ho. done.
  - intros (e & [= <-] & Hall) f (Hf & He & Hn)%worker_module_elem.
    destruct (Hall f Hf He Hn) as (source & Hs & Ho). exists source. split; [done|].
    apply not_true_is_false. by rewrite occurs_in_spec.
Qed.

(** The scope test passes exactly when both files can be read and each marker
    is in one of them: joining them by a line break makes no marker. *)
Theorem scope_passes (main config : SourceFile) :
  guardrail_scope_explicitly_excludes_startup_fail_fast_files main config = true <->
  exists a b, sf_source main = Some a /\ sf_source config = Some b /\
    (occurs_in "FailFast" a = true \/ occurs_in "FailFast" b = true) /\
    (occurs_in "FAIL-FAST" a = true \/ occurs_in "FAIL-FAST" b = true).
Proof.
  unfold guardrail_scope_explicitly_excludes_startup_fail_fast_files.
  destruct (sf_source main) as [a|]; [|split; [done | intros (? & ? & ? & _); done]].
  destruct (sf_source config) as [b|]; [|split; [done | intros (? & ? & _ & ? & _); done]].
  rewrite andb_true_iff, !occurs_in_join by done. rewrite !orb_true_iff. split.
  - intros []. by exists a, b.
  - intros (? & ? & [= <-] & [= <-] & ? & ?). done.
Qed.

(** A worker that ends the process is named; the guardrail's own text, a
    directory entry that failed and a file of another kind are not. *)
Example guardrail_names_offender :
  let file name source := Some (mkSourceFile name (Some source)) in
  worker_modules_must_not_call_process_exit
    (Some [file "refund_worker.rs" "if bad { process::exit(1) }"; None;
           file "guardrails.rs" "process::exit("; file "notes.md" "process::exit(";
           file "keeper.rs" "loop {}"]) = Err "refund_worker.rs" /\
  worker_modules_must_not_call_process_exit
    (Some [file "keeper.rs" "loop {}"; file ".rs" "process::exit("]) = Ok tt.
Proof. split; vm_compute; reflexivity. Qed.
