(* ===== verification/Harness.v ===== *)
(** * Harness: the worker harness of the integration tests

    src/tests/support/worker_harness.rs probes workers for a while and judges
    the process by what it saw; src/tests/integration_test.rs asserts its
    verdicts.  The harness keeps enums of its own.  The tests are replayed on
    the definitions, and the verdict is shown to be the health the program's
    own supervisor reaches, whatever order the workers end in. *)

From Stdlib Require Import ZArith Lia.
From Stdlib Require Import Strings.String.
From stdpp Require Import base tactics decidable option list strings gmap.
From S2P Require Import Prelude Text Health.

Open Scope string_scope.
Open Scope list_scope.
Open Scope Z_scope.

Module TH.

(** ** The harness: src/tests/support/worker_harness.rs *)

Inductive WorkerProbeState : Type := Running | Completed | Panicked | Cancelled.
Inductive WorkerCriticality : Type := Critical | NonCritical.
Inductive ProcessHealth : Type := Healthy | Degraded | RuntimeFailed | StartupFailed.

#[export] Instance WorkerProbeState_eq_dec : EqDecision WorkerProbeState.
Proof. solve_decision. Defined.
#[export] Instance ProcessHealth_eq_dec : EqDecision ProcessHealth.
Proof. solve_decision. Defined.

(** What a worker's future does once spawned: how many milliseconds it runs and
    how its task then ends, or [None] when it never does. *)
Definition WorkerFuture : Type := option (Z * JoinOutcome).

Record WorkerSpec : Type := mkWorkerSpec { ws_name : string; ws_starter : WorkerFuture }.
Record WorkerProbeResult : Type := mkProbeResult {
  pr_worker : string; pr_state : WorkerProbeState;
}.
Record SupervisedWorkerSpec : Type := mkSupervised {
  su_worker : WorkerSpec; su_criticality : WorkerCriticality;
}.
Record SupervisionSummary : Type := mkSummary {
  sm_process_health : ProcessHealth; sm_results : list WorkerProbeResult;
}.
Record BootstrapCheck : Type := mkBootstrapCheck {
  bc_name : string; bc_required : bool; bc_passed : bool;
}.

Fixpoint evaluate_bootstrap (checks : list BootstrapCheck) : result string unit :=
  match checks with
  | [] => Ok tt
  | check :: rest =>
      if bc_required check && negb (bc_passed check) then Err (bc_name check)
      else evaluate_bootstrap rest
  end.

Definition probe_state (o : JoinOutcome) : WorkerProbeState :=
  match o with JoinOk => Completed | JoinPanic => Panicked | JoinCancelled => Cancelled end.

(** The loop of [spawn_and_probe] at time [now] after all workers were spawned:
    each worker is waited for until it ends or the window has passed, and a
    worker still running then is aborted.  Only waiting takes time. *)
Fixpoint probe_from (now probe_window : Z) (specs : list WorkerSpec) : list WorkerProbeResult :=
  match specs with
  | [] => []
  | spec :: rest =>
      let '(state, now') :=
        match ws_starter spec with
        | Some (ends, outcome) =>
            if ends <=? now + probe_window then (probe_state outcome, Z.max now ends)
            else (Running, now + probe_window)
        | None => (Running, now + probe_window)
        end in
      mkProbeResult (ws_name spec) state :: probe_from now' probe_window rest
  end.

Definition spawn_and_probe (specs : list WorkerSpec) (probe_window : Z) : list WorkerProbeResult :=
  probe_from 0 probe_window specs.

Definition worker_failed (s : WorkerProbeState) : bool :=
  match s with Completed | Panicked | Cancelled => true | Running => false end.

(** The body of the loop over the results. *)
Definition judge (health : ProcessHealth) (spec : SupervisedWorkerSpec * WorkerProbeResult)
    : ProcessHealth :=
  if negb (worker_failed (pr_state (snd spec))) then health
  else
    match su_criticality (fst spec) with
    | NonCritical =>
        if negb (bool_decide (health = StartupFailed)) && negb (bool_decide (health = RuntimeFailed))
        then Degraded else health
    | Critical => RuntimeFailed
    end.

Definition spawn_and_supervise (specs : list SupervisedWorkerSpec) (probe_window : Z)
    : SupervisionSummary :=
  let results := spawn_and_probe (map su_worker specs) probe_window in
  mkSummary (foldl judge Healthy (zip specs results)) results.

Inductive ScriptedWorkerOutcome : Type := KeepRunning | Exit | Panic.

Definition scripted_worker (name : string) (outcome : ScriptedWorkerOutcome) : WorkerSpec :=
  mkWorkerSpec name
    (match outcome with
     | KeepRunning => Some (60 * 1000, JoinOk)
     | Exit => Some (0, JoinOk)
     | Panic => Some (0, JoinPanic)
     end).

Definition supervised_scripted_worker (name : string) (criticality : WorkerCriticality)
    (outcome : ScriptedWorkerOutcome) : SupervisedWorkerSpec :=
  mkSupervised (scripted_worker name outcome) criticality.

(** ** The tests: src/tests/integration_test.rs *)

Definition seen (worker : string) (state : WorkerProbeState) (results : list WorkerProbeResult)
    : bool :=
  existsb (fun r => String.eqb (pr_worker r) worker && bool_decide (pr_state r = state)) results.

Definition worker_probe_flags_hard_failures : bool :=
  let workers := [scripted_worker "event_listener" KeepRunning; scripted_worker "refund_worker" Panic] in
  let results := spawn_and_probe workers 25 in
  seen "event_listener" Running results && seen "refund_worker" Panicked results.

Definition worker_probe_flags_unexpected_early_exit : bool :=
  let results := spawn_and_probe [scripted_worker "keeper" Exit] 25 in
  match results with
  | [r] => String.eqb (pr_worker r) "keeper" && bool_decide (pr_state r = Completed)
  | _ => false
  end.

Definition worker_probe_handles_mixed_lifecycle_states : bool :=
  let workers := [scripted_worker "notification_worker" KeepRunning;
                  scripted_worker "expiry_worker" Exit; scripted_worker "keeper" Panic] in
  let results := spawn_and_probe workers 25 in
  (length results =? 3)%nat && seen "notification_worker" Running results &&
  seen "expiry_worker" Completed results && seen "keeper" Panicked results.

Definition startup_fails_fast_when_required_bootstrap_dependency_fails : bool :=
  match evaluate_bootstrap [mkBootstrapCheck "config" true true; mkBootstrapCheck "database" true false;
                            mkBootstrapCheck "notification_provider" false false] with
  | Err failed => String.eqb failed "database"
  | Ok _ => false
  end.

Definition startup_succeeds_then_non_critical_runtime_failure_degrades_process : bool :=
  match evaluate_bootstrap [mkBootstrapCheck "config" true true; mkBootstrapCheck "database" true true;
                            mkBootstrapCheck "vault_keypair" true true] with
  | Err _ => false
  | Ok _ =>
      let summary := spawn_and_supervise
        [supervised_scripted_worker "event_listener" NonCritical KeepRunning;
         supervised_scripted_worker "notification_worker" NonCritical Panic;
         supervised_scripted_worker "keeper" Critical KeepRunning] 25 in
      bool_decide (sm_process_health summary = Degraded) &&
      seen "notification_worker" Panicked (sm_results summary) &&
      seen "keeper" Running (sm_results summary)
  end.

Definition simultaneous_non_critical_worker_failures_remain_non_fatal : bool :=
  let summary := spawn_and_supervise
    [supervised_scripted_worker "event_listener" NonCritical Panic;
     supervised_scripted_worker "refund_worker" NonCritical Exit;
     supervised_scripted_worker "keeper" Critical KeepRunning] 25 in
  bool_decide (sm_process_health summary = Degraded) &&
  seen "event_listener" Panicked (sm_results summary) &&
  seen "refund_worker" Completed (sm_results summary).

Definition critical_worker_failure_escalates_health_to_runtime_failed : bool :=
  let summary := spawn_and_supervise
    [supervised_scripted_worker "event_listener" NonCritical Panic;
     supervised_scripted_worker "keeper" Critical Exit;
     supervised_scripted_worker "notification_worker" NonCritical KeepRunning] 25 in
  bool_decide (sm_process_health summary = RuntimeFailed) &&
  seen "keeper" Completed (sm_results summary).

Example integration_tests_pass :
  forallb id
    [ worker_probe_flags_hard_failures; worker_probe_flags_unexpected_early_exit;
      worker_probe_handles_mixed_lifecycle_states;
      startup_fails_fast_when_required_bootstrap_dependency_fails;
      startup_succeeds_then_non_critical_runtime_failure_degrades_process;
      simultaneous_non_critical_worker_failures_remain_non_fatal;
      critical_worker_failure_escalates_health_to_runtime_failed ] = true.
Proof. vm_compute. reflexivity. Qed.

(** ** What the harness decides *)

(** The start-up is refused at the first required check that did not pass. *)
Theorem evaluate_bootstrap_first (checks : list BootstrapCheck) :
  let fails c := bc_required c && negb (bc_passed c) in
  match evaluate_bootstrap checks with
  | Ok _ => forall c, c ∈ checks -> fails c = false
  | Err name => exists before c after, checks = before ++ c :: after /\ name = bc_name c /\
      fails c = true /\ forall b, b ∈ before -> fails b = false
  end.
Proof.
  cbn. induction checks as [|c checks IH]; cbn [evaluate_bootstrap]; [intros c Hc; inversion Hc|].
  destruct (bc_required c && negb (bc_passed c)) eqn:Ec.
  - exists [], c, checks. do 3 (split; [done|]). intros b Hb; inversion Hb.
  - destruct (evaluate_bootstrap checks) as [u|name].
    + intros b [->|Hb]%elem_of_cons; [exact Ec | by apply IH].
    + destruct IH as (before & b & after & -> & -> & Hb & Hall). exists (c :: before), b, after.
      do 3 (split; [done|]). intros x [->|Hx]%elem_of_cons; [exact Ec | by apply Hall].
Qed.

Lemma probe_from_length now probe_window specs :
  length (probe_from now probe_window specs) = length specs.
Proof.
  revert now. induction specs as [|x specs IH]; intros now; [done|]. cbn [probe_from].
  destruct (match ws_starter x with Some _ => _ | None => _ end). cbn. by rewrite IH.
Qed.

(** What the probe reports of the [i]-th worker: its end if that comes within
    one window of the start, [Running] if it comes only after as many windows
    as workers were waited for, or never. *)
Lemma probe_from_sees (probe_window : Z) (specs : list WorkerSpec) (i : nat) (spec : WorkerSpec) :
  0 <= probe_window -> specs !! i = Some spec ->
  forall now, 0 <= now -> exists state,
    probe_from now probe_window specs !! i = Some (mkProbeResult (ws_name spec) state) /\
    match ws_starter spec with
    | Some (ends, outcome) =>
        (ends <= probe_window -> state = probe_state outcome) /\
        (now + (Z.of_nat i + 1) * probe_window < ends -> state = Running) /\
        (state = probe_state outcome \/ state = Running)
    | None => state = Running
    end.
Proof.
  intros Hw. revert i. induction specs as [|x specs IH]; intros i Hi now Hnow; [by destruct i|].
  cbn [probe_from]. destruct i as [|i]; cbn in Hi.
  - injection Hi as <-. destruct (ws_starter x) as [[ends outcome]|].
    + destruct (Z.leb_spec ends (now + probe_window)); cbn; eexists; (split; [done|]);
        (split; [intros; (done || lia)|]); split; auto; intros; lia.
    + by eexists.
  - set (step := match ws_starter x with Some _ => _ | None => _ end).
    assert (Hs : now <= snd step <= now + probe_window).
    { unfold step. destruct (ws_starter x) as [[ends outcome]|]; [|cbn; lia].
      destruct (Z.leb_spec ends (now + probe_window)); cbn; lia. }
    destruct step as [state now']. cbn in Hs. cbn [lookup list_lookup].
    destruct (IH i Hi now') as (st & Hst & Hm); [lia|]. exists st. split; [exact Hst|].
    destruct (ws_starter spec) as [[ends outcome]|]; [|done].
    destruct Hm as (H1 & H2 & H3). split; [done|]. split; [intros; apply H2; nia | done].
Qed.

(** ** The verdict is the program's *)

Definition to_policy (c : WorkerCriticality) : Health.WorkerCriticality :=
  match c with Critical => Health.Critical | NonCritical => Health.NonCritical end.

Definition to_health (h : ProcessHealth) : PH.ProcessHealth :=
  match h with
  | Healthy => PH.Healthy
  | Degraded => PH.Degraded
  | RuntimeFailed => PH.RuntimeFailed
  | StartupFailed => PH.StartupFailed
  end.

(** The health after workers of the given criticalities have ended. *)
Definition is_critical (c : Health.WorkerCriticality) : bool :=
  match c with Health.Critical => true | Health.NonCritical => false end.
Definition level (ended : list Health.WorkerCriticality) : PH.ProcessHealth :=
  match ended with
  | [] => PH.Healthy
  | _ => if existsb is_critical ended then PH.RuntimeFailed else PH.Degraded
  end.

#[export] Instance level_Permutation : Proper (Permutation ==> eq) level.
Proof.
  intros l l' E. assert (Hex : existsb is_critical l = existsb is_critical l').
  { apply eq_bool_prop_intro. rewrite !existb_True, !Exists_exists. by setoid_rewrite E. }
  unfold level. rewrite Hex. destruct l, l'; try done.
  - by apply Permutation_nil_cons in E.
  - symmetry in E. by apply Permutation_nil_cons in E.
Qed.

Lemma record_failure_level c h ended :
  PH.current h = level ended -> PH.current (record_runtime_failure c h) = level (c :: ended).
Proof.
  intros Hh. rewrite record_failure_current, Hh. destruct c; [done|].
  destruct ended as [|c' ended]; [done|]. cbn. by destruct (is_critical c' || existsb is_critical ended).
Qed.

Lemma judge_level health ended z :
  to_health health = level ended ->
  to_health (judge health z) =
  level (if worker_failed (pr_state (snd z)) then to_policy (su_criticality (fst z)) :: ended else ended).
Proof.
  intros Hh. unfold judge. destruct (worker_failed _); [|exact Hh]. cbn [negb].
  destruct (su_criticality (fst z)); [done|]. cbn [to_policy].
  destruct ended as [|c ended]; cbn in *.
  - by destruct health.
  - by destruct (is_critical c || existsb is_critical ended), health.
Qed.

(** The workers the harness saw end, by the program's names. *)
Definition key (spec : SupervisedWorkerSpec) : string * Health.WorkerCriticality :=
  (ws_name (su_worker spec), to_policy (su_criticality spec)).
Definition select (keep : WorkerProbeState -> bool) (zs : list (SupervisedWorkerSpec * WorkerProbeResult))
    : list (string * Health.WorkerCriticality) :=
  map (fun z => key (fst z)) (filter (fun z => keep (pr_state (snd z)) = true) zs).
Definition still_running (s : WorkerProbeState) : bool := negb (worker_failed s).

Lemma select_split zs :
  map (fun z => key (fst z)) zs ≡ₚ select still_running zs ++ select worker_failed zs.
Proof.
  induction zs as [|[spec [worker state]] zs IH]; [done|]. unfold select in *. rewrite !filter_cons.
  cbn [map fst snd pr_state]. destruct state; cbn; rewrite IH; first [done | apply Permutation_middle].
Qed.

Lemma judge_all_level zs : forall health ended,
  to_health health = level ended ->
  to_health (foldl judge health zs) = level (map snd (select worker_failed zs) ++ ended).
Proof.
  induction zs as [|z zs IH]; intros health ended Hh; [exact Hh|]. cbn [foldl].
  rewrite (IH _ _ (judge_level _ _ _ Hh)). unfold select. rewrite filter_cons.
  destruct z as [spec [worker state]]; cbn [fst snd pr_state].
  destruct state; cbn; [done|..]; by rewrite <-Permutation_middle.
Qed.

(** The tasks of the program's supervisor starting and ending by themselves. *)
Inductive work_step : Supervisor -> Supervisor -> Prop :=
| work_start w c s ts1 ts2 :
    sv_tasks s = ts1 ++ (w, c, false) :: ts2 ->
    work_step s (task_started w (with_tasks s (ts1 ++ (w, c, true) :: ts2)))
| work_finish w c o s ts1 ts2 :
    sv_tasks s = ts1 ++ (w, c, true) :: ts2 ->
    work_step s (task_finished w c o (with_tasks s (ts1 ++ ts2))).

Lemma work_sup_step s s' : work_step s s' -> sup_step s s'.
Proof. destruct 1; by econstructor. Qed.

Definition supervise_all (specs : list SupervisedWorkerSpec) : Supervisor :=
  foldl (fun s spec => spawn (fst (key spec)) (snd (key spec)) s) sup_init specs.

Lemma supervise_all_spawned specs :
  sv_health (supervise_all specs) = PH.new PH.Healthy /\
  map fst (sv_tasks (supervise_all specs)) = map key specs.
Proof.
  unfold supervise_all. induction specs as [|spec specs [Hh Ht]] using rev_ind; [done|].
  rewrite foldl_app, map_app. cbn [foldl map spawn sv_health sv_tasks].
  by rewrite map_app, Ht.
Qed.

(** The health follows from which tasks have gone. *)
Lemma work_health specs s :
  star work_step (supervise_all specs) s ->
  exists ended, map key specs ≡ₚ map fst (sv_tasks s) ++ ended /\
    PH.current (sv_health s) = level (map snd ended).
Proof.
  intros Hs. refine (star_invariant work_step (fun s => exists ended,
    map key specs ≡ₚ map fst (sv_tasks s) ++ ended /\
    PH.current (sv_health s) = level (map snd ended)) _ s _ Hs _).
  - intros x y (ended & Hp & Hh) Hstep.
    destruct Hstep as [w c x ts1 ts2 Hts | w c o x ts1 ts2 Hts]; rewrite Hts, map_app in Hp; cbn in Hp.
    + exists ended. cbn. by rewrite map_app.
    + exists ((w, c) :: ended). cbn [sv_tasks task_finished with_tasks sv_health map snd].
      split; [|by apply record_failure_level].
      rewrite Hp, map_app. rewrite <-(Permutation_middle (map fst ts1)), <-Permutation_middle. done.
  - destruct (supervise_all_spawned specs) as [Hh Ht]. exists [].
    rewrite Ht, app_nil_r, Hh. done.
Qed.

(** The harness judges as the program does.  Let the program's supervisor run
    the same workers, its tasks starting and ending in any order and each end
    with any outcome: once the tasks left are those the harness reports as
    running, the health of the program is the harness's verdict. *)
Theorem harness_agrees_with_supervisor (specs : list SupervisedWorkerSpec) (probe_window : Z)
    (s : Supervisor) :
  let summary := spawn_and_supervise specs probe_window in
  star work_step (supervise_all specs) s ->
  map fst (sv_tasks s) ≡ₚ select still_running (zip specs (sm_results summary)) ->
  PH.current (sv_health s) = to_health (sm_process_health summary).
Proof.
  intros summary (ended & Hp & ->)%work_health Hleft. cbn [sm_process_health summary spawn_and_supervise].
  rewrite (judge_all_level _ Healthy []), app_nil_r by done.
  enough (ended ≡ₚ select worker_failed (zip specs (sm_results summary))) as E by (by rewrite E).
  apply (Permutation_app_inv_l (map fst (sv_tasks s))). rewrite <-Hp, Hleft at 1.
  rewrite <-select_split. unfold summary, spawn_and_supervise, spawn_and_probe. cbn [sm_results].
  rewrite <-(map_map fst key), fst_zip; [done|]. by rewrite probe_from_length, length_map.
Qed.

(** Two workers end in either order, the third stays. *)
Definition workers_demo : list SupervisedWorkerSpec :=
  [ supervised_scripted_worker "event_listener" NonCritical Panic;
    supervised_scripted_worker "keeper" Critical Exit;
    supervised_scripted_worker "refund_worker" NonCritical KeepRunning ].

Lemma harness_agrees_with_supervisor_witness :
  exists s, star work_step (supervise_all workers_demo) s /\
    PH.current (sv_health s) = PH.RuntimeFailed.
Proof.
  set (s0 := supervise_all workers_demo).
  pose (s1 := task_started "keeper" (with_tasks s0
    ([("event_listener", Health.NonCritical, false)] ++ ("keeper", Health.Critical, true) ::
     [("refund_worker", Health.NonCritical, false)]))).
  pose (s2 := task_finished "keeper" Health.Critical JoinOk (with_tasks s1
    ([("event_listener", Health.NonCritical, false)] ++ [("refund_worker", Health.NonCritical, false)]))).
  pose (s3 := task_started "event_listener" (with_tasks s2
    ([] ++ ("event_listener", Health.NonCritical, true) :: [("refund_worker", Health.NonCritical, false)]))).
  pose (s4 := task_finished "event_listener" Health.NonCritical JoinPanic (with_tasks s3
    ([] ++ [("refund_worker", Health.NonCritical, false)]))).
  assert (Hs : star work_step s0 s4).
  { apply (star_step _ _ s1); [by apply (work_start "keeper" Health.Critical s0)|].
    apply (star_step _ _ s2); [by apply (work_finish "keeper" Health.Critical JoinOk s1)|].
    apply (star_step _ _ s3); [by apply (work_start "event_listener" Health.NonCritical s2)|].
    apply star_one. by apply (work_finish "event_listener" Health.NonCritical JoinPanic s3). }
  exists s4. split; [exact Hs|].
  apply (harness_agrees_with_supervisor workers_demo 25 s4 Hs). vm_compute. reflexivity.
Defined.
End TH.
