(* ===== verification/World.v ===== *)
(** * World: the state handlers and workers share

    The PostgreSQL tables of src/migrations as typed rows, the third-party
    services as parameters, and the primitives that run one SQL statement, one
    RPC call or one delivery.

    Every primitive consumes one tick.  What the environment does at a tick (is
    the database reachable, what time is it, what does the RPC node answer) is a
    field of the class [Env] indexed by ticks, so a theorem about a handler
    quantifies over every behaviour of its environment, including failures
    between any two statements. *)

From Stdlib Require Import ZArith Lia.
From Stdlib Require Import Strings.Byte Strings.Ascii Strings.String.
From Stdlib Require Import Floats.SpecFloat.
From stdpp Require Import base tactics decidable option list strings gmap.
From S2P Require Import Prelude Text Errors Borsh SolanaTypes Health.

Open Scope string_scope.
Open Scope list_scope.
Open Scope nat_scope.

Abbreviation Uuid := (bytesN 16).

(** ** Configuration and shared state *)

Record StablecoinInfo : Type := mkStablecoin {
  sc_symbol : string; sc_mint : string; sc_ata : string; sc_decimals : Z;
}.

Record StablecoinRegistry : Type := mkRegistry {
  usdc : StablecoinInfo; usdt : StablecoinInfo; pyusd : StablecoinInfo;
}.

(** [StablecoinRegistry::resolve] *)
Definition resolve (r : StablecoinRegistry) (method : string) : option StablecoinInfo :=
  if String.eqb method "usdc" then Some (usdc r)
  else if String.eqb method "usdt" then Some (usdt r)
  else if String.eqb method "pyusd" then Some (pyusd r)
  else None.

(** [Config]: strings for texts and paths, [Z] for the unsigned integers, IEEE
    doubles for [f64]. *)
Record Config : Type := mkConfig {
  cfg_database_url : string; cfg_solana_rpc_url : string; cfg_solana_ws_url : string; cfg_program_id : string;
  cfg_jwt_secret : string; cfg_jwt_access_expiry_seconds : Z; cfg_jwt_refresh_expiry_seconds : Z;
  cfg_encryption_key : string; cfg_encryption_index_key : string;
  cfg_google_client_id : string; cfg_google_client_secret : string; cfg_google_redirect_uri : string;
  cfg_microsoft_client_id : string; cfg_microsoft_client_secret : string; cfg_microsoft_redirect_uri : string; cfg_microsoft_tenant : string;
  cfg_resend_api_key : string; cfg_email_from : string; cfg_invite_base_url : string; cfg_invite_expiry_seconds : Z; cfg_invite_reminder_after_seconds : Z;
  cfg_platform_fee_usd_cents : Z; cfg_platform_fee_free_tier : Z; cfg_platform_nonrefundable_fee_cents : Z;
  cfg_platform_vault_pubkey : string; cfg_platform_vault_keypair_path : string;
  cfg_platform_treasury_pubkey : string; cfg_platform_treasury_keypair_path : string;
  cfg_vault_min_sol_alert : spec_float; cfg_vault_min_sol_circuit_breaker : spec_float;
  cfg_vault_funding_rate_limit_per_hour : Z; cfg_treasury_min_usdc_alert : Z; cfg_treasury_float_per_token : Z; cfg_treasury_sweep_dest : string;
  cfg_stablecoin_registry : StablecoinRegistry;
  cfg_pinata_jwt : string; cfg_pinata_gateway_domain : string; cfg_arweave_wallet_path : string;
  cfg_server_port : Z; cfg_server_host : string;
}.

(** [AppState]: what every handler and worker is given.  The pool, the RPC
    client, the channels and the health are in the world below; of a
    [ProtectedKeypair] the model keeps the public key, since signing is part of
    [Transaction]. *)
Record AppState : Type := mkAppState {
  app_config :> Config;
  vault_keypair : Pubkey;
  treasury_keypair : Pubkey;
}.

(** ** Rows *)

Record UserAccountRow := mkUserAccount {
  ua_id : Uuid; ua_display_name : option string; ua_created_at : Z }.
Record AuthWalletRow := mkAuthWallet {
  aw_user_id : Uuid; aw_pubkey : string; aw_linked_at : Z }.
Record UserContactRow := mkUserContact {
  uc_user_id : Uuid; uc_email_enc : option bytes; uc_email_nonce : option bytes;
  uc_email_index : option bytes; uc_phone_enc : option bytes; uc_phone_nonce : option bytes;
  uc_push_token_enc : option bytes; uc_push_token_nonce : option bytes; uc_updated_at : Z }.
Record AuthOauthRow := mkAuthOauth {
  ao_user_id : Uuid; ao_provider : string; ao_provider_id : string; ao_linked_at : Z }.
Record SiwsNonceRow := mkSiwsNonce { sn_nonce : string; sn_created_at : Z }.
Record RefreshTokenRow := mkRefreshToken {
  rt_token_hash : string; rt_user_id : Uuid; rt_created_at : Z; rt_expires_at : Z }.
Record SweepConfigRow := mkSweepConfig { sw_id : Z; sw_last_sweep_at : Z }.
Record AgreementPartyRow := mkAgreementParty {
  ap_party_pubkey : string; ap_agreement_pda : string; ap_creator_pubkey : string;
  ap_status : string; ap_signed_at : option Z; ap_created_at : Z; ap_expires_at : Z;
  ap_title : string }.
Record AgreementDraftRow := mkAgreementDraft {
  ad_id : Uuid; ad_creator_pubkey : string; ad_draft_payload : json;
  ad_party_slots : json; ad_status : string; ad_created_at : Z;
  ad_ready_at : option Z; ad_paid : bool; ad_storage_uri : option string;
  ad_storage_uploaded : bool; ad_agreement_pda : option string;
  ad_agreement_id : option bytes }.
Record AgreementPaymentRow := mkAgreementPayment {
  py_id : Uuid; py_draft_id : Uuid; py_user_id : Uuid; py_method : string;
  py_status : string; py_usd_amount_cents : Z;
  py_token_reference_pubkey : option string; py_token_mint : option string;
  py_token_amount : option Z; py_token_tx_signature : option string;
  py_refund_amount : option Z; py_refund_tx_signature : option string;
  py_refund_initiated_at : option Z; py_refund_completed_at : option Z;
  py_created_at : Z; py_confirmed_at : option Z; py_agreement_pda : option string }.
Record UserAgreementCountRow := mkUserAgreementCount {
  uac_user_id : Uuid; uac_total_submitted : Z; uac_free_used : Z }.
Record PartyInvitationRow := mkPartyInvitation {
  pi_id : Uuid; pi_draft_id : Uuid; pi_email_index : bytes; pi_email_enc : bytes;
  pi_email_nonce : bytes; pi_token : string; pi_status : string;
  pi_reminder_sent_at : option Z; pi_reminder_count : Z; pi_created_at : Z; pi_expires_at : Z }.
Record NotificationRow := mkNotification {
  nq_id : Uuid; nq_event_type : string; nq_agreement_pda : string;
  nq_recipient_pubkey : string; nq_status : string; nq_attempts : Z;
  nq_created_at : Z; nq_scheduled_at : Z }.

(** ** The database *)

Record Db := mkDb {
  db_users : list UserAccountRow;
  db_wallets : list AuthWalletRow;
  db_oauth : list AuthOauthRow;
  db_contacts : list UserContactRow;
  db_nonces : list SiwsNonceRow;
  db_refresh : list RefreshTokenRow;
  db_parties : list AgreementPartyRow;
  db_drafts : list AgreementDraftRow;
  db_payments : list AgreementPaymentRow;
  db_counts : list UserAgreementCountRow;
  db_invitations : list PartyInvitationRow;
  db_notifications : list NotificationRow;
  db_sweep : list SweepConfigRow;
}.

Definition set_users (f : list UserAccountRow -> list UserAccountRow) (d : Db) : Db :=
  mkDb (f (db_users d)) (db_wallets d) (db_oauth d) (db_contacts d) (db_nonces d)
    (db_refresh d) (db_parties d) (db_drafts d) (db_payments d) (db_counts d)
    (db_invitations d) (db_notifications d) (db_sweep d).
Definition set_wallets (f : list AuthWalletRow -> list AuthWalletRow) (d : Db) : Db :=
  mkDb (db_users d) (f (db_wallets d)) (db_oauth d) (db_contacts d) (db_nonces d)
    (db_refresh d) (db_parties d) (db_drafts d) (db_payments d) (db_counts d)
    (db_invitations d) (db_notifications d) (db_sweep d).
Definition set_oauth (f : list AuthOauthRow -> list AuthOauthRow) (d : Db) : Db :=
  mkDb (db_users d) (db_wallets d) (f (db_oauth d)) (db_contacts d) (db_nonces d)
    (db_refresh d) (db_parties d) (db_drafts d) (db_payments d) (db_counts d)
    (db_invitations d) (db_notifications d) (db_sweep d).
Definition set_contacts (f : list UserContactRow -> list UserContactRow) (d : Db) : Db :=
  mkDb (db_users d) (db_wallets d) (db_oauth d) (f (db_contacts d)) (db_nonces d)
    (db_refresh d) (db_parties d) (db_drafts d) (db_payments d) (db_counts d)
    (db_invitations d) (db_notifications d) (db_sweep d).
Definition set_nonces (f : list SiwsNonceRow -> list SiwsNonceRow) (d : Db) : Db :=
  mkDb (db_users d) (db_wallets d) (db_oauth d) (db_contacts d) (f (db_nonces d))
    (db_refresh d) (db_parties d) (db_drafts d) (db_payments d) (db_counts d)
    (db_invitations d) (db_notifications d) (db_sweep d).
Definition set_refresh (f : list RefreshTokenRow -> list RefreshTokenRow) (d : Db) : Db :=
  mkDb (db_users d) (db_wallets d) (db_oauth d) (db_contacts d) (db_nonces d)
    (f (db_refresh d)) (db_parties d) (db_drafts d) (db_payments d) (db_counts d)
    (db_invitations d) (db_notifications d) (db_sweep d).
Definition set_parties (f : list AgreementPartyRow -> list AgreementPartyRow) (d : Db) : Db :=
  mkDb (db_users d) (db_wallets d) (db_oauth d) (db_contacts d) (db_nonces d) (db_refresh d)
    (f (db_parties d)) (db_drafts d) (db_payments d) (db_counts d) (db_invitations d)
    (db_notifications d) (db_sweep d).
Definition set_drafts (f : list AgreementDraftRow -> list AgreementDraftRow) (d : Db) : Db :=
  mkDb (db_users d) (db_wallets d) (db_oauth d) (db_contacts d) (db_nonces d) (db_refresh d)
    (db_parties d) (f (db_drafts d)) (db_payments d) (db_counts d) (db_invitations d)
    (db_notifications d) (db_sweep d).
Definition set_payments (f : list AgreementPaymentRow -> list AgreementPaymentRow) (d : Db) : Db :=
  mkDb (db_users d) (db_wallets d) (db_oauth d) (db_contacts d) (db_nonces d) (db_refresh d)
    (db_parties d) (db_drafts d) (f (db_payments d)) (db_counts d) (db_invitations d)
    (db_notifications d) (db_sweep d).
Definition set_counts (f : list UserAgreementCountRow -> list UserAgreementCountRow) (d : Db) : Db :=
  mkDb (db_users d) (db_wallets d) (db_oauth d) (db_contacts d) (db_nonces d) (db_refresh d)
    (db_parties d) (db_drafts d) (db_payments d) (f (db_counts d)) (db_invitations d)
    (db_notifications d) (db_sweep d).
Definition set_invitations (f : list PartyInvitationRow -> list PartyInvitationRow) (d : Db) : Db :=
  mkDb (db_users d) (db_wallets d) (db_oauth d) (db_contacts d) (db_nonces d) (db_refresh d)
    (db_parties d) (db_drafts d) (db_payments d) (db_counts d) (f (db_invitations d))
    (db_notifications d) (db_sweep d).
Definition set_notifications (f : list NotificationRow -> list NotificationRow) (d : Db) : Db :=
  mkDb (db_users d) (db_wallets d) (db_oauth d) (db_contacts d) (db_nonces d) (db_refresh d)
    (db_parties d) (db_drafts d) (db_payments d) (db_counts d) (db_invitations d)
    (f (db_notifications d)) (db_sweep d).
Definition set_sweep (f : list SweepConfigRow -> list SweepConfigRow) (d : Db) : Db :=
  mkDb (db_users d) (db_wallets d) (db_oauth d) (db_contacts d) (db_nonces d) (db_refresh d)
    (db_parties d) (db_drafts d) (db_payments d) (db_counts d) (db_invitations d)
    (db_notifications d) (f (db_sweep d)).

Definition db_empty : Db := mkDb [] [] [] [] [] [] [] [] [] [] [] [] [].

(** ** SQL

    A statement is executed atomically on the tables; [None] is a rejection by
    the server (an undefined column, a violated constraint). Rows without an
    [ORDER BY] are seen in insertion order. *)

Definition Stmt (A : Type) : Type := Z -> Db -> option (A * Db).

(** [extract(epoch from now())] stored into a BIGINT column: microseconds
    rounded to the nearest second, halves away from zero. *)
Definition epoch_bigint (us : Z) : Z :=
  (if 0 <=? us then (us + 500000) / 1000000 else - ((- us + 500000) / 1000000))%Z.

Definition where_ {A} (p : A -> bool) (t : list A) : list A := List.filter p t.
Definition update_where {A} (p : A -> bool) (f : A -> A) (t : list A) : list A :=
  map (fun r => if p r then f r else r) t.
Definition exists_row {A} (p : A -> bool) (t : list A) : bool := List.existsb p t.
Definition fetch_optional {A} (l : list A) : option A := head l.

(** SQL equality with a value: NULL is not equal to anything. *)
Definition sql_eq (o : option string) (s : string) : bool :=
  match o with Some s' => String.eqb s' s | None => false end.
Definition uuid_eqb (a b : Uuid) : bool := bool_decide (a = b).
Definition bytes_eqb (a b : bytes) : bool := bool_decide (a = b).

(** [ORDER BY key] (stable, ascending) *)
Fixpoint insert_by {A} (key : A -> Z) (x : A) (l : list A) : list A :=
  match l with
  | [] => [x]
  | y :: l' => if (key x <? key y)%Z then x :: y :: l' else y :: insert_by key x l'
  end.
Definition order_by {A} (key : A -> Z) (l : list A) : list A :=
  fold_left (fun acc x => insert_by key x acc) l [].

Inductive Table := T_agreement_payments | T_notification_queue | T_agreement_parties
| T_agreement_drafts | T_user_agreement_counts | T_party_invitations | T_user_accounts
| T_auth_wallet | T_auth_oauth | T_user_contacts | T_siws_nonces | T_refresh_tokens
| T_sweep_config.

(** The columns the migrations create. *)
Definition columns (t : Table) : list string :=
  match t with
  | T_agreement_payments =>
      ["id"; "draft_id"; "user_id"; "method"; "status"; "usd_amount_cents";
       "token_reference_pubkey"; "token_mint"; "token_amount"; "token_tx_signature";
       "token_source_ata"; "refund_amount"; "refund_usd_cents"; "refund_tx_signature";
       "refund_initiated_at"; "refund_completed_at"; "created_at"; "confirmed_at";
       "agreement_pda"]
  | T_notification_queue =>
      ["id"; "event_type"; "agreement_pda"; "recipient_pubkey"; "status"; "attempts";
       "created_at"; "scheduled_at"]
  | T_agreement_parties =>
      ["party_pubkey"; "agreement_pda"; "creator_pubkey"; "status"; "signed_at";
       "created_at"; "expires_at"; "title"]
  | T_agreement_drafts =>
      ["id"; "creator_pubkey"; "draft_payload"; "party_slots"; "status"; "created_at";
       "ready_at"; "submitted_at"; "paid"; "paid_at"; "storage_uri"; "storage_uploaded";
       "agreement_pda"; "agreement_id"; "payment_id"]
  | T_user_agreement_counts => ["user_id"; "total_submitted"; "free_used"]
  | T_user_accounts => ["id"; "display_name"; "created_at"]
  | T_auth_wallet => ["user_id"; "pubkey"; "linked_at"]
  | T_auth_oauth => ["user_id"; "provider"; "provider_id"; "linked_at"]
  | T_user_contacts =>
      ["user_id"; "email_enc"; "email_nonce"; "email_index"; "phone_enc"; "phone_nonce";
       "push_token_enc"; "push_token_nonce"; "updated_at"]
  | T_siws_nonces => ["nonce"; "created_at"]
  | T_refresh_tokens => ["token_hash"; "user_id"; "created_at"; "expires_at"]
  | T_sweep_config => ["id"; "last_sweep_at"]
  | T_party_invitations =>
      ["id"; "draft_id"; "invited_email_index"; "invited_email_enc";
       "invited_email_nonce"; "token"; "status"; "reminder_sent_at"; "reminder_count";
       "created_at"; "expires_at"]
  end.

(** A statement that names the columns [cols] of [t] is rejected when the table
    has no such column. *)
Definition prepared {A} (t : Table) (cols : list string) (s : Stmt A) : Stmt A :=
  fun now d =>
    if List.forallb (fun c => List.existsb (String.eqb c) (columns t)) cols
    then s now d else None.

(** NOT NULL columns without a default: an INSERT must give them. *)
Definition required_columns (t : Table) : list string :=
  match t with
  | T_agreement_payments => ["draft_id"; "user_id"; "method"; "usd_amount_cents"]
  | T_notification_queue => ["event_type"; "agreement_pda"; "recipient_pubkey"]
  | T_agreement_parties =>
      ["party_pubkey"; "agreement_pda"; "creator_pubkey"; "created_at"; "expires_at"; "title"]
  | T_agreement_drafts => ["creator_pubkey"; "draft_payload"; "party_slots"]
  | T_user_agreement_counts => ["user_id"]
  | T_user_accounts => []
  | T_auth_wallet => ["user_id"; "pubkey"]
  | T_auth_oauth => ["user_id"; "provider"; "provider_id"]
  | T_user_contacts => ["user_id"]
  | T_siws_nonces => ["nonce"]
  | T_refresh_tokens => ["token_hash"; "user_id"; "expires_at"]
  | T_sweep_config => ["last_sweep_at"]
  | T_party_invitations =>
      ["draft_id"; "invited_email_index"; "invited_email_enc"; "invited_email_nonce";
       "token"; "expires_at"]
  end.

Definition insert_prepared {A} (t : Table) (cols : list string) (s : Stmt A) : Stmt A :=
  fun now d =>
    if List.forallb (fun c => List.existsb (String.eqb c) cols) (required_columns t)
    then prepared t cols s now d else None.

(** ** Transactions on the chain: plain data of the solana_sdk types *)

Record AccountMeta := mkMeta { am_pubkey : Pubkey; am_is_signer : bool; am_is_writable : bool }.
Record Instruction := mkInstruction {
  ix_program_id : Pubkey; ix_accounts : list AccountMeta; ix_data : bytes }.
Record Transaction := mkTransaction {
  tx_instructions : list Instruction; tx_payer : Pubkey;
  tx_signed_by : list Pubkey; tx_blockhash : bytesN 32 }.

(** [Claims] of services/jwt.rs *)
Record Claims : Type := mkClaims {
  cl_sub : Uuid;
  cl_pubkey : option string;
  cl_exp : Z;
  cl_iat : Z;
  cl_jti : Uuid;
}.

(** ** Third-party libraries *)

Class Ext : Type := {
  ext_borsh :: BorshFormat;
  pubkey_from_str : string -> option Pubkey;
  pubkey_to_string : Pubkey -> string;
  uuid_to_string : Uuid -> string;
  (** [Uuid::parse_str] *)
  uuid_parse : string -> option Uuid;
  hex_encode : bytes -> string;
  hex_decode : string -> option bytes;
  sha256 : bytes -> bytesN 32;
  hmac_sha256 : bytesN 32 -> bytes -> bytes;
  (** key, nonce, text *)
  aes256gcm_encrypt : bytesN 32 -> bytes -> bytes -> option bytes;
  aes256gcm_decrypt : bytesN 32 -> bytes -> bytes -> option bytes;
  base64_decode : string -> option bytes;
  (** the text PostgreSQL gives for a JSON value under [->>] *)
  jsonb_text : json -> string;
  find_program_address : list bytes -> Pubkey -> Pubkey * byte;
  get_associated_token_address : Pubkey -> Pubkey -> Pubkey;
  (** [spl_token::instruction::transfer] from, to, authority, amount *)
  spl_transfer : Pubkey -> Pubkey -> Pubkey -> Z -> option Instruction;
  (** [serde_json::from_str]: the members of an object in the order of the text,
      repeated ones included *)
  json_from_str : string -> option json;
  signature_from_str : string -> option (bytesN 64);
  (** [bincode::serialize] followed by base64, and its inverse *)
  tx_encode : Transaction -> option string;
  tx_decode : string -> option Transaction;
  (** [serde_json::from_str::<Value>]: an object without repeated keys *)
  json_value : string -> option json;
  (** [serde_json::to_vec] *)
  json_to_vec : json -> option bytes;
  (** [signature.verify(pubkey, message)] *)
  signature_verify : bytesN 64 -> Pubkey -> bytes -> bool;
  (** [jsonwebtoken::encode] with the default header and a secret *)
  jwt_encode : string -> Claims -> option string;
  (** [jsonwebtoken::decode] with that secret at the given time, the expiry
      checked without leeway *)
  jwt_decode : string -> Z -> string -> option Claims;
  (** [AuthUrl::new], [TokenUrl::new], [RedirectUrl::new] succeed *)
  url_parses : string -> bool;
  (** the URL of [authorize_url]: client id, authorization URL, redirect URI,
      scopes, state *)
  authorize_url : string -> string -> string -> list string -> string -> string;
  (** [s.parse::<f64>()], with the Debug text of the error *)
  f64_parse : string -> result string spec_float;
  (** [serde_json::from_str::<Vec<u8>>], with the text of the error *)
  json_u8_array : string -> result string bytes;
  (** the Display text of an HTTP status *)
  status_text : Z -> string;
  (** [Keypair::try_from], its public key *)
  keypair_from_bytes : bytesN 64 -> result string Pubkey;
}.

(** ** The environment *)

Inductive DbFault := DbUp | DbLostBefore | DbLostAfter.
Inductive SqlError := SqlUnavailable | SqlRejected.

Inductive WsEvent : Type :=
| WsAgreementCreated (agreement_pda : string)
| WsAgreementSigned (agreement_pda : string)
| WsAgreementCompleted (agreement_pda : string)
| WsAgreementCancelled (agreement_pda : string)
| WsAgreementExpired (agreement_pda : string)
| WsAgreementRevokeVote (agreement_pda : string)
| WsAgreementRevoked (agreement_pda : string)
| WsDraftReady (draft_id : string)
| WsDraftInvitationExpired (draft_id : string)
| WsPaymentConfirmed (draft_id : string)
| WsRefundCompleted (draft_id : string)
| WsGenericNotification (message : string).

Class Env : Type := {
  db_fault : nat -> DbFault;
  (** the server's [now()], in microseconds since the epoch *)
  db_now : nat -> Z;
  (** the process's clock, in seconds since the epoch *)
  app_now : nat -> Z;
  (** [Uuid::new_v4] and [gen_random_uuid()] *)
  fresh_uuid : nat -> Uuid;
  random_bytes : nat -> nat -> bytes;
  (** the public key of [Keypair::new()] *)
  fresh_keypair : nat -> Pubkey;
  rpc_account : nat -> Pubkey -> option bytes;
  (** [get_account_with_commitment(..).value.is_some()]; [None]: the call failed *)
  rpc_account_exists : nat -> Pubkey -> option bool;
  rpc_rent_exempt : nat -> nat -> option Z;
  rpc_balance : nat -> Pubkey -> option Z;
  (** [get_token_account_balance(..).amount] *)
  rpc_token_balance : nat -> Pubkey -> option string;
  rpc_blockhash : nat -> option (bytesN 32);
  (** whether the node received the transaction, and the signature it answered
      ([None]: the call failed, before or after the node received it) *)
  rpc_send : nat -> Transaction -> bool * option string;
  (** the email API: whether it accepted the message, and whether it answered
      with success *)
  resend : nat -> bool * bool;
  (** the random state of an OAuth redirect *)
  fresh_csrf : nat -> string;
  (** HTTP requests of the OAuth client: url and form, or url and bearer token;
      status and body, or no answer *)
  http_post_form : nat -> string -> list (string * string) -> option (Z * string);
  http_get_bearer : nat -> string -> string -> option (Z * string);
  (** the uploads: url, credential, file; status and body, or the text of the
      transport error *)
  http_post_ipfs : nat -> string -> string -> bytes -> result string (Z * string);
  http_post_arweave : nat -> string -> bytes -> bytes -> option (Z * string);
  (** [std::fs::read], with the text of the error *)
  read_file : nat -> string -> result string bytes;
}.

(** ** The world *)

(** What the process did to the outside, latest first. *)
Inductive Effect : Type :=
| ETransactionSent (tx : Transaction)
| EWsDelivered (user : Uuid) (e : WsEvent)
| EEmailSent (api_key from recipient subject html text : string)
| EIpfsPosted (data : bytes)
| EArweavePosted (wallet data : bytes).

Record World := mkWorld {
  w_db : Db;
  w_tick : nat;
  w_health : PH.ProcessHealthState;
  (** users with a connected WebSocket *)
  w_ws : list Uuid;
  (** request times per address: the rate limiter of the invite endpoint *)
  w_limiter : gmap string (list Z);
  w_effects : list Effect;
}.

Definition tick (w : World) : World :=
  mkWorld (w_db w) (S (w_tick w)) (w_health w) (w_ws w) (w_limiter w) (w_effects w).
Definition with_db (d : Db) (w : World) : World :=
  mkWorld d (w_tick w) (w_health w) (w_ws w) (w_limiter w) (w_effects w).
Definition with_health (h : PH.ProcessHealthState) (w : World) : World :=
  mkWorld (w_db w) (w_tick w) h (w_ws w) (w_limiter w) (w_effects w).
Definition with_limiter (l : gmap string (list Z)) (w : World) : World :=
  mkWorld (w_db w) (w_tick w) (w_health w) (w_ws w) l (w_effects w).
Definition with_effect (e : Effect) (w : World) : World :=
  mkWorld (w_db w) (w_tick w) (w_health w) (w_ws w) (w_limiter w) (e :: w_effects w).

Section Primitives.
Context `{Ext, Env}.

(** Run one statement outside a transaction. *)
Definition sql {A} (s : Stmt A) : M World SqlError A := fun w =>
  match db_fault (w_tick w) with
  | DbLostBefore => (Err SqlUnavailable, tick w)
  | f => match s (db_now (w_tick w)) (w_db w) with
         | None => (Err SqlRejected, tick w)
         | Some (a, d) =>
             (match f with DbLostAfter => Err SqlUnavailable | _ => Ok a end,
              with_db d (tick w))
         end
  end.

(** [db.begin()], the statements of [body], [tx.commit()].  An error in the
    body drops the transaction, which rolls it back; a connection lost at the
    commit leaves it committed or rolled back. *)
Definition transaction {A} (body : M World AppError A) : M World AppError A := fun w =>
  match db_fault (w_tick w) with
  | DbUp =>
      match body (tick w) with
      | (Err e, w') => (Err e, with_db (w_db w) w')
      | (Ok a, w') =>
          match db_fault (w_tick w') with
          | DbUp => (Ok a, tick w')
          | DbLostBefore => (Err InternalError, with_db (w_db w) (tick w'))
          | DbLostAfter => (Err InternalError, tick w')
          end
      end
  | _ => (Err InternalError, tick w)
  end.

(** [current_unix_timestamp()] / [chrono::Utc::now().timestamp()] *)
Definition now_secs {E} : M World E Z := fun w => (Ok (app_now (w_tick w)), tick w).
Definition new_uuid {E} : M World E Uuid := fun w => (Ok (fresh_uuid (w_tick w)), tick w).
Definition fill_random {E} (n : nat) : M World E bytes :=
  fun w => (Ok (random_bytes (w_tick w) n), tick w).

Definition new_keypair {E} : M World E Pubkey :=
  fun w => (Ok (fresh_keypair (w_tick w)), tick w).

Definition get_account_data (e : AppError) (k : Pubkey) : M World AppError bytes :=
  fun w => (ok_or (rpc_account (w_tick w) k) e, tick w).
Definition get_latest_blockhash : M World AppError (bytesN 32) :=
  fun w => (ok_or (rpc_blockhash (w_tick w)) SolanaRpcError, tick w).
Definition get_rent_exemption (size : nat) : M World AppError Z :=
  fun w => (ok_or (rpc_rent_exempt (w_tick w) size) InternalError, tick w).

Definition get_balance (k : Pubkey) : M World AppError Z :=
  fun w => (ok_or (rpc_balance (w_tick w) k) SolanaRpcError, tick w).
Definition get_token_account_balance (k : Pubkey) : M World AppError string :=
  fun w => (ok_or (rpc_token_balance (w_tick w) k) SolanaRpcError, tick w).

Definition send_transaction (t : Transaction) : M World AppError string := fun w =>
  let '(received, reply) := rpc_send (w_tick w) t in
  (ok_or reply SolanaRpcError,
   if received then with_effect (ETransactionSent t) (tick w) else tick w).

Definition account_exists (k : Pubkey) : M World AppError bool :=
  fun w => (ok_or (rpc_account_exists (w_tick w) k) SolanaRpcError, tick w).

(** [send_to_user] of src/src/handlers/ws.rs: true when the user has a
    channel with a live receiver. *)
Definition send_to_user {E} (user : Uuid) (ev : WsEvent) : M World E bool := fun w =>
  if bool_decide (user ∈ w_ws w)
  then (Ok true, with_effect (EWsDelivered user ev) (tick w))
  else (Ok false, tick w).

Definition mark_process_degraded {E} : M World E unit :=
  modify (fun w => with_health (PH.mark_degraded (w_health w)) w).
End Primitives.

(** [stmt.map_err(|_| AppError::InternalError)?] *)
Definition internal {A} (m : M World SqlError A) : M World AppError A :=
  map_err (fun _ => InternalError) m.

(** A statement with no result rows. *)
Definition execute (f : Z -> Db -> Db) : Stmt unit := fun now d => Some (tt, f now d).
Definition query {A} (f : Db -> A) : Stmt A := fun _ d => Some (f d, d).

(** ** Lemmas on the primitives *)

(** Every statement commits: the database is reachable from tick [n] on. *)
Definition db_up_from `{Env} (n : nat) : Prop := forall k, n <= k -> db_fault k = DbUp.

Lemma prepared_ok {A} t cols (s : Stmt A) :
  List.forallb (fun c => List.existsb (String.eqb c) (columns t)) cols = true ->
  prepared t cols s = (fun now d => s now d).
Proof. intros Hc. unfold prepared. by rewrite Hc. Qed.

Lemma insert_prepared_ok {A} t cols (s : Stmt A) :
  List.forallb (fun c => List.existsb (String.eqb c) cols) (required_columns t) = true ->
  List.forallb (fun c => List.existsb (String.eqb c) (columns t)) cols = true ->
  insert_prepared t cols s = (fun now d => s now d).
Proof. intros Hr Hc. unfold insert_prepared. rewrite Hr. by rewrite prepared_ok. Qed.

Section Lemmas.
Context `{Ext, Env}.

Lemma sql_up {A} (s : Stmt A) w a d :
  db_fault (w_tick w) = DbUp -> s (db_now (w_tick w)) (w_db w) = Some (a, d) ->
  sql s w = (Ok a, with_db d (tick w)).
Proof. intros Hf Hs. unfold sql. by rewrite Hf, Hs. Qed.

Lemma sql_rejected {A} (s : Stmt A) w :
  s (db_now (w_tick w)) (w_db w) = None ->
  exists e, sql s w = (Err e, tick w).
Proof. intros Hs. unfold sql. rewrite Hs. destruct (db_fault _); eauto. Qed.

Lemma sql_query {A} (f : Db -> A) w :
  db_fault (w_tick w) = DbUp -> sql (query f) w = (Ok (f (w_db w)), tick w).
Proof. intros Hf. rewrite (sql_up _ w (f (w_db w)) (w_db w)) by done. by destruct w. Qed.

Lemma sql_execute (f : Z -> Db -> Db) w :
  db_fault (w_tick w) = DbUp ->
  sql (execute f) w = (Ok tt, with_db (f (db_now (w_tick w)) (w_db w)) (tick w)).
Proof. intros Hf. by apply sql_up. Qed.

(** A statement that answered ran on the tables it found. *)
Lemma sql_Ok {A} (s : Stmt A) w a w' :
  sql s w = (Ok a, w') ->
  exists d, s (db_now (w_tick w)) (w_db w) = Some (a, d) /\ w' = with_db d (tick w).
Proof.
  unfold sql. destruct (db_fault (w_tick w)); [|discriminate|];
    destruct (s _ _) as [[x d]|]; try discriminate.
  intros [= -> <-]. eauto.
Qed.

Lemma sql_query_Ok {A} (f : Db -> A) w a w' :
  sql (query f) w = (Ok a, w') -> a = f (w_db w) /\ w' = tick w.
Proof.
  intros (d & [= <- <-] & ->)%sql_Ok. by destruct w.
Qed.

(** A two-state property of the tables, as one of worlds. *)
Definition on_db (R : Db -> Db -> Prop) (w w' : World) : Prop := R (w_db w) (w_db w').

#[export] Instance on_db_preorder (R : Db -> Db -> Prop) `{!PreOrder R} :
  PreOrder (on_db R).
Proof.
  split; [intros w; unfold on_db; reflexivity|].
  intros x y z Hxy Hyz. unfold on_db in *. by etransitivity.
Qed.

(** A statement moves the tables along [R] when its effect does. *)
Definition stmt_keeps {A} (R : Db -> Db -> Prop) (s : Stmt A) : Prop :=
  forall now d a d', s now d = Some (a, d') -> R d d'.

Section Keeps.
Context (R : Db -> Db -> Prop) `{!PreOrder R}.

Lemma keeps_sql {A} (s : Stmt A) : stmt_keeps R s -> keeps (on_db R) (sql s).
Proof.
  intros Hs w. unfold sql, on_db.
  destruct (db_fault (w_tick w)); cbn; [|reflexivity|];
    destruct (s _ _) as [[a d]|] eqn:E; cbn; eauto; reflexivity.
Qed.

Lemma stmt_keeps_query {A} (f : Db -> A) : stmt_keeps R (query f).
Proof. intros now d a d' [= _ <-]. reflexivity. Qed.

Lemma stmt_keeps_execute f : (forall now d, R d (f now d)) -> stmt_keeps R (execute f).
Proof. intros Hf now d a d' [= _ <-]. apply Hf. Qed.

Lemma stmt_keeps_prepared {A} t cols (s : Stmt A) :
  stmt_keeps R s -> stmt_keeps R (prepared t cols s).
Proof.
  intros Hs now d a d'. unfold prepared. destruct (List.forallb _ _); [apply Hs | done].
Qed.

Lemma stmt_keeps_insert_prepared {A} t cols (s : Stmt A) :
  stmt_keeps R s -> stmt_keeps R (insert_prepared t cols s).
Proof.
  intros Hs now d a d'. unfold insert_prepared.
  destruct (List.forallb _ _); [by apply stmt_keeps_prepared | done].
Qed.

Lemma keeps_transaction {A} (m : M World AppError A) :
  keeps (on_db R) m -> keeps (on_db R) (transaction m).
Proof.
  intros Hm w. unfold transaction, on_db.
  destruct (db_fault (w_tick w)); cbn; try reflexivity.
  specialize (Hm (tick w)). unfold on_db in Hm.
  destruct (m (tick w)) as [[a|e] w']; cbn in *; [|reflexivity].
  destruct (db_fault (w_tick w')); cbn; [done|reflexivity|done].
Qed.

Lemma keeps_db_id {E A} (m : M World E A) :
  (forall w, w_db (snd (m w)) = w_db w) -> keeps (on_db R) m.
Proof. intros Hm w. unfold on_db. rewrite Hm. reflexivity. Qed.

Lemma keeps_now_secs {E} : keeps (on_db R) (now_secs (E:=E)).
Proof. by apply keeps_db_id. Qed.
Lemma keeps_new_uuid {E} : keeps (on_db R) (new_uuid (E:=E)).
Proof. by apply keeps_db_id. Qed.
Lemma keeps_fill_random {E} n : keeps (on_db R) (fill_random (E:=E) n).
Proof. by apply keeps_db_id. Qed.
Lemma keeps_new_keypair {E} : keeps (on_db R) (new_keypair (E:=E)).
Proof. by apply keeps_db_id. Qed.
Lemma keeps_get_account_data e k : keeps (on_db R) (get_account_data e k).
Proof. by apply keeps_db_id. Qed.
Lemma keeps_get_latest_blockhash : keeps (on_db R) get_latest_blockhash.
Proof. by apply keeps_db_id. Qed.
Lemma keeps_get_rent_exemption n : keeps (on_db R) (get_rent_exemption n).
Proof. by apply keeps_db_id. Qed.
Lemma keeps_get_balance k : keeps (on_db R) (get_balance k).
Proof. by apply keeps_db_id. Qed.
Lemma keeps_get_token_account_balance k : keeps (on_db R) (get_token_account_balance k).
Proof. by apply keeps_db_id. Qed.
Lemma keeps_send_transaction t : keeps (on_db R) (send_transaction t).
Proof. apply keeps_db_id. intros w. unfold send_transaction. by destruct (rpc_send _ _) as [[] ?]. Qed.
Lemma keeps_account_exists k : keeps (on_db R) (account_exists k).
Proof. by apply keeps_db_id. Qed.
Lemma keeps_send_to_user {E} u ev : keeps (on_db R) (send_to_user (E:=E) u ev).
Proof. apply keeps_db_id. intros w. unfold send_to_user. by case_bool_decide. Qed.
Lemma keeps_mark_process_degraded {E} : keeps (on_db R) (mark_process_degraded (E:=E)).
Proof. by apply keeps_db_id. Qed.
Lemma keeps_internal {A} (m : M World SqlError A) :
  keeps (on_db R) m -> keeps (on_db R) (internal m).
Proof. apply keeps_map_err. Qed.
End Keeps.

(** All or nothing: a transaction leaves the tables untouched or has run its
    body to the end, and it has run to the end when it answers. *)
Lemma transaction_cases {A} (m : M World AppError A) w r w' :
  transaction m w = (r, w') ->
  (w_db w' = w_db w /\ exists e, r = Err e) \/
  (exists a w1, m (tick w) = (Ok a, w1) /\ w_db w' = w_db w1 /\
     (r = Ok a \/ exists e, r = Err e)).
Proof.
  unfold transaction. destruct (db_fault (w_tick w)); [|intros [= <- <-]; left; eauto..].
  destruct (m (tick w)) as [[a|e] w1]; [|intros [= <- <-]; left; eauto].
  destruct (db_fault (w_tick w1)); intros [= <- <-]; [right | left | right]; eauto 10.
Qed.

(** Computations without an effect on the outside. *)
Definition same_effects (w w' : World) : Prop := w_effects w' = w_effects w.

#[export] Instance same_effects_preorder : PreOrder same_effects.
Proof. split; [done | intros x y z Hxy Hyz; unfold same_effects in *; congruence]. Qed.

Lemma silent_sql {A} (s : Stmt A) : keeps same_effects (sql s).
Proof.
  intros w. unfold sql, same_effects.
  destruct (db_fault _); cbn; try done; by destruct (s _ _) as [[]|].
Qed.
Lemma silent_now_secs {E} : keeps same_effects (now_secs (E:=E)).
Proof. done. Qed.
Lemma silent_new_uuid {E} : keeps same_effects (new_uuid (E:=E)).
Proof. done. Qed.
Lemma silent_new_keypair {E} : keeps same_effects (new_keypair (E:=E)).
Proof. done. Qed.
Lemma silent_get_account_data e k : keeps same_effects (get_account_data e k).
Proof. done. Qed.

(** A transaction that fails in its body leaves the tables as they were. *)
Lemma transaction_rollback {A} (m : M World AppError A) w e w' :
  m (tick w) = (Err e, w') -> w_db (snd (transaction m w)) = w_db w.
Proof.
  intros Hm. unfold transaction. rewrite Hm. by destruct (db_fault (w_tick w)).
Qed.
End Lemmas.

#[export] Hint Resolve keeps_sql stmt_keeps_query stmt_keeps_execute stmt_keeps_prepared
  stmt_keeps_insert_prepared keeps_transaction keeps_now_secs keeps_new_uuid keeps_fill_random keeps_new_keypair
  keeps_get_account_data keeps_get_latest_blockhash keeps_get_rent_exemption
  keeps_get_balance keeps_get_token_account_balance
  keeps_send_transaction keeps_account_exists keeps_send_to_user keeps_mark_process_degraded
  keeps_internal silent_sql silent_now_secs silent_new_uuid silent_new_keypair
  silent_get_account_data : keeps.
#[export] Hint Extern 1 (PreOrder _) => typeclasses eauto : keeps.

(** Branching as the handlers' tables do it. *)
Lemma update_where_length {A} p (f : A -> A) t : length (update_where p f t) = length t.
Proof. apply length_map. Qed.

Lemma elem_of_where {A} (p : A -> bool) t x : x ∈ where_ p t <-> x ∈ t /\ p x = true.
Proof. unfold where_. rewrite !list_elem_of_In. apply List.filter_In. Qed.

Lemma elem_of_update_where {A} (p : A -> bool) f t y :
  y ∈ update_where p f t <-> exists x, x ∈ t /\ y = (if p x then f x else x).
Proof.
  unfold update_where. rewrite list_elem_of_fmap.
  split; intros (x & ? & ?); eauto.
Qed.

Lemma map_update_where {A B} (f : A -> B) p g t :
  (forall r, p r = true -> f (g r) = f r) -> map f (update_where p g t) = map f t.
Proof.
  intros Hf. unfold update_where. rewrite map_map. apply map_ext. intros r.
  by destruct (p r) eqn:E; [apply Hf|].
Qed.

Lemma where_update_where {A} (p q : A -> bool) f t :
  (forall x, q (if p x then f x else x) = q x) ->
  where_ q (update_where p f t) = update_where p f (where_ q t).
Proof.
  intros Hq. unfold where_, update_where. induction t as [|x t IH]; cbn; [done|].
  rewrite Hq. destruct (q x); cbn; by rewrite IH.
Qed.

Lemma fetch_optional_Some {A} (l : list A) x : fetch_optional l = Some x -> x ∈ l.
Proof. destruct l; cbn; intros [= ->]. set_solver. Qed.

Lemma exists_row_spec {A} (p : A -> bool) t :
  exists_row p t = true <-> exists x, x ∈ t /\ p x = true.
Proof.
  unfold exists_row. rewrite List.existsb_exists.
  setoid_rewrite <-list_elem_of_In. done.
Qed.

(** [ORDER BY] rearranges the rows. *)
Lemma insert_by_elem {A} key (x y : A) l : y ∈ insert_by key x l -> y = x \/ y ∈ l.
Proof.
  induction l as [|z l IH]; cbn; [set_solver|]. destruct (_ <? _)%Z; [set_solver|].
  intros [->|Hy]%elem_of_cons; [right; left|]. destruct (IH Hy); [auto | right; by right].
Qed.

Lemma order_by_elem {A} key (l : list A) y : y ∈ order_by key l -> y ∈ l.
Proof.
  unfold order_by. cut (forall acc, y ∈ fold_left (fun acc x => insert_by key x acc) l acc ->
                               y ∈ acc \/ y ∈ l).
  { intros Hc Hy. destruct (Hc [] Hy) as [Hn|]; [by apply not_elem_of_nil in Hn | done]. }
  induction l as [|x l IH]; intros acc; cbn; [auto|]. intros Hy.
  destruct (IH _ Hy) as [Hi|]; [|right; by right].
  destruct (insert_by_elem _ _ _ _ Hi) as [->|]; [right; left | by left].
Qed.

Lemma insert_by_length {A} key (x : A) l : length (insert_by key x l) = S (length l).
Proof. induction l as [|y l IH]; cbn; [done|]. destruct (_ <? _)%Z; cbn; auto. Qed.

Lemma order_by_length {A} key (l : list A) : length (order_by key l) = length l.
Proof.
  unfold order_by. cut (forall acc, length (fold_left (fun acc x => insert_by key x acc) l acc)
                          = length acc + length l); [intros Hc; apply (Hc [])|].
  induction l as [|x l IH]; intros acc; cbn; [lia|]. rewrite IH, insert_by_length. lia.
Qed.

(** [run_inv] with the reads of the database resolved. *)
Ltac world_inv :=
  run_inv;
  repeat (match goal with
          | Hq : sql (query _) _ = (Ok _, _) |- _ => apply sql_query_Ok in Hq as [? ->]
          | Hq : now_secs _ = (Ok _, _) |- _ => injection Hq as ? ?
          | Hq : new_uuid _ = (Ok _, _) |- _ => injection Hq as ? ?
          | Hq : new_keypair _ = (Ok _, _) |- _ => injection Hq as ? ?
          end; run_inv).
