(* ===== verification/Concrete.v ===== *)
(** * Concrete: one instance of the third-party interfaces

    A Borsh format that satisfies the laws of [BorshFormat], an [Ext] and an
    [Env] in which every service answers.  Witnesses evaluate the model on
    them; no other theorem depends on this file. *)

From Stdlib Require Import ZArith Lia.
From Stdlib Require Import Strings.Byte Strings.Ascii Strings.String.
From Stdlib Require Import Floats.SpecFloat.
From stdpp Require Import base tactics decidable option list strings countable gmap.
From S2P Require Import Prelude Text Errors Borsh SolanaTypes Health World.

#[local] Unset Program Cases.
Open Scope list_scope.
Open Scope Z_scope.

(** ** Little-endian integers *)

Definition byte_of_Z (z : Z) : byte := default x00 (Byte.of_N (Z.to_N (z mod 256))).

Lemma Z_of_byte_of_Z z : Z_of_byte (byte_of_Z z) = z mod 256.
Proof.
  unfold Z_of_byte, byte_of_Z.
  pose proof (Z.mod_pos_bound z 256 ltac:(lia)) as Hz.
  destruct (Byte.of_N _) as [b|] eqn:E; cbn.
  - apply Byte.to_of_N in E. rewrite E. lia.
  - apply Byte.of_N_None_iff in E. lia.
Qed.

Lemma byte_of_Z_of_byte b v : byte_of_Z (Z_of_byte b + 256 * v) = b.
Proof.
  unfold byte_of_Z, Z_of_byte. pose proof (Byte.to_N_bounded b) as Hb.
  rewrite Z.mul_comm, Z.mod_add, Z.mod_small by lia.
  rewrite N2Z.id, Byte.of_to_N. done.
Qed.

Lemma Z_of_byte_range b : 0 <= Z_of_byte b < 256.
Proof. unfold Z_of_byte. pose proof (Byte.to_N_bounded b). lia. Qed.

Fixpoint le_enc (k : nat) (z : Z) : bytes :=
  match k with O => [] | S k' => byte_of_Z z :: le_enc k' (z / 256) end.

Fixpoint le_dec (k : nat) (bs : bytes) : option (Z * bytes) :=
  match k with
  | O => Some (0, bs)
  | S k' => match bs with
            | [] => None
            | b :: bs' => match le_dec k' bs' with
                          | Some (v, r) => Some (Z_of_byte b + 256 * v, r)
                          | None => None
                          end
            end
  end.

Lemma le_dec_enc k z rest :
  0 <= z < 256 ^ Z.of_nat k -> le_dec k (le_enc k z ++ rest) = Some (z, rest).
Proof.
  revert z. induction k as [|k IH]; intros z Hz; cbn.
  - f_equal. f_equal. cbn in Hz. lia.
  - rewrite IH.
    + rewrite Z_of_byte_of_Z. pose proof (Z.div_mod z 256 ltac:(lia)). do 2 f_equal. lia.
    + rewrite Nat2Z.inj_succ, Z.pow_succ_r in Hz by lia.
      split; [apply Z.div_pos; lia | apply Z.div_lt_upper_bound; lia].
Qed.

Lemma le_dec_sound k bs z rest :
  le_dec k bs = Some (z, rest) -> bs = le_enc k z ++ rest /\ 0 <= z < 256 ^ Z.of_nat k.
Proof.
  revert bs z. induction k as [|k IH]; intros bs z; cbn.
  - intros [= <- ->]. split; [done | cbn; lia].
  - destruct bs as [|b bs]; [done|]. destruct (le_dec k bs) as [[v r]|] eqn:E; [|done].
    intros [= <- ->]. apply IH in E as [-> Hv].
    pose proof (Z_of_byte_range b) as Hb. split.
    + rewrite byte_of_Z_of_byte. f_equal. f_equal. f_equal.
      rewrite Z.mul_comm, Z.div_add, Z.div_small by lia. lia.
    + rewrite Nat2Z.inj_succ, Z.pow_succ_r by lia. lia.
Qed.

(** ** Codecs *)

Program Definition k_u8 : Codec byte :=
  mkCodec (fun b => [b]) (fun bs => match bs with b :: r => Some (b, r) | [] => None end)
    (fun _ => True) _ _.
Next Obligation. done. Qed.
Next Obligation. intros [|b bs] a rest; cbn; [done|]. intros [= -> ->]. done. Qed.

Definition to_signed (z : Z) : Z := if z <? 9223372036854775808 then z else z - two64.

Program Definition k_i64 : Codec Z :=
  mkCodec (fun z => le_enc 8 (z mod two64))
    (fun bs => match le_dec 8 bs with Some (z, r) => Some (to_signed z, r) | None => None end)
    in_i64 _ _.
Next Obligation.
  intros z rest Hz. cbv beta. rewrite le_dec_enc.
  - unfold to_signed, two64, in_i64 in *. do 2 f_equal.
    destruct (Z.ltb_spec (z mod 18446744073709551616) 9223372036854775808) as [Hl|Hl];
      Z.to_euclidean_division_equations; lia.
  - unfold two64. cbn [Z.of_nat]. apply Z.mod_pos_bound. lia.
Qed.
Next Obligation.
  intros bs a rest. cbv beta. destruct (le_dec 8 bs) as [[z r]|] eqn:E; [|done].
  intros [= <- ->]. apply le_dec_sound in E as [-> Hz].
  change (256 ^ Z.of_nat 8) with two64 in Hz.
  unfold to_signed, two64, in_i64 in *.
  destruct (Z.ltb_spec z 9223372036854775808) as [Hl|Hl]; split; try lia.
  - by rewrite Z.mod_small.
  - replace (z - 18446744073709551616) with (z + (-1) * 18446744073709551616) by lia.
    by rewrite Z.mod_add, Z.mod_small by lia.
Qed.

Lemma split_at_app {A} n (l r : list A) : length l = n ->
  take n (l ++ r) = l /\ drop n (l ++ r) = r.
Proof. intros <-. by rewrite take_app_length, drop_app_length. Qed.

Program Definition k_array (n : nat) : Codec (bytesN n) :=
  mkCodec (fun a => bn_bytes a)
    (fun bs => match to_bytesN n (take n bs) with
               | Some a => Some (a, drop n bs) | None => None end)
    (fun _ => True) _ _.
Next Obligation.
  intros n a rest _; cbn. destruct (split_at_app n (bn_bytes a) rest (bn_length a)) as [-> ->].
  by rewrite to_bytesN_bytes.
Qed.
Next Obligation.
  intros n bs a rest; cbn. destruct (to_bytesN n _) as [a'|] eqn:E; [|done].
  intros [= -> <-]. apply to_bytesN_Some in E. rewrite E. by rewrite take_drop.
Qed.

Definition dec_option {A} (c : Codec A) (bs : bytes) : option (option A * bytes) :=
  match bs with
  | x00 :: r => Some (None, r)
  | x01 :: r => match dec c r with Some (a, r') => Some (Some a, r') | None => None end
  | _ => None
  end.

Program Definition k_option {A} (c : Codec A) : Codec (option A) :=
  mkCodec (fun o => match o with None => [x00] | Some a => x01 :: enc c a end)
    (dec_option c) (fun o => forall a, o = Some a -> valid c a) _ _.
Next Obligation.
  intros A c [a|] rest Hv; cbn; [|done]. by rewrite (dec_enc c) by auto.
Qed.
Next Obligation.
  intros A c [|b bs] a rest; cbn; [done|]. destruct b; try done.
  - intros [= <- ->]. done.
  - destruct (dec c bs) as [[x r]|] eqn:E; [|done]. intros [= <- ->].
    apply (dec_sound c) in E as [-> Hv]. split; [done|]. by intros ? [= ->].
Qed.

Fixpoint dec_n {A} (c : Codec A) (n : nat) (bs : bytes) : option (list A * bytes) :=
  match n with
  | O => Some ([], bs)
  | S n' => match dec c bs with
            | Some (a, r) => match dec_n c n' r with
                             | Some (l, r') => Some (a :: l, r')
                             | None => None
                             end
            | None => None
            end
  end.

Lemma dec_n_enc {A} (c : Codec A) l rest :
  Forall (valid c) l -> dec_n c (length l) (List.flat_map (enc c) l ++ rest) = Some (l, rest).
Proof.
  induction 1 as [|a l Ha _ IH]; cbn; [done|].
  rewrite <-app_assoc, (dec_enc c) by done. by rewrite IH.
Qed.

Lemma dec_n_sound {A} (c : Codec A) n bs l rest :
  dec_n c n bs = Some (l, rest) ->
  length l = n /\ bs = List.flat_map (enc c) l ++ rest /\ Forall (valid c) l.
Proof.
  revert bs l. induction n as [|n IH]; intros bs l; cbn.
  - intros [= <- ->]. auto.
  - destruct (dec c bs) as [[a r]|] eqn:Ea; [|done].
    destruct (dec_n c n r) as [[l' r']|] eqn:El; [|done]. intros [= <- ->].
    apply IH in El as (Hl & -> & Hf). apply (dec_sound c) in Ea as [-> Ha]. cbn.
    rewrite app_assoc. auto.
Qed.

Program Definition k_vec {A} (c : Codec A) : Codec (list A) :=
  mkCodec (fun l => le_enc 4 (Z.of_nat (length l)) ++ List.flat_map (enc c) l)
    (fun bs => match le_dec 4 bs with
               | Some (n, r) => dec_n c (Z.to_nat n) r | None => None end)
    (fun l => Z.of_nat (length l) < 4294967296 /\ Forall (valid c) l) _ _.
Next Obligation.
  intros A c l rest [Hl Hf]. cbv beta. rewrite <-app_assoc, le_dec_enc.
  - cbv beta iota. rewrite Nat2Z.id. by apply dec_n_enc.
  - cbn [Z.of_nat]. lia.
Qed.
Next Obligation.
  intros A c bs l rest. cbv beta. destruct (le_dec 4 bs) as [[n r]|] eqn:E; [|done].
  intros Hd. apply le_dec_sound in E as [-> Hn]. change (256 ^ Z.of_nat 4) with 4294967296 in Hn.
  apply dec_n_sound in Hd as (Hl & -> & Hf). rewrite <-app_assoc.
  rewrite Hl, Z2Nat.id by lia. split; [done|]. split; [lia | done].
Qed.

Program Definition k_string : Codec string :=
  mkCodec (fun s => enc (k_vec k_u8) (as_bytes s))
    (fun bs => match dec (k_vec k_u8) bs with
               | Some (l, r) => if is_utf8 l then Some (string_of_list_byte l, r) else None
               | None => None
               end)
    (fun s => valid (k_vec k_u8) (as_bytes s) /\ is_utf8 (as_bytes s) = true) _ _.
Next Obligation.
  intros s rest [Hv Hu]. cbv beta. rewrite (dec_enc (k_vec k_u8)) by done. rewrite Hu.
  unfold as_bytes. by rewrite string_of_list_byte_of_string.
Qed.
Next Obligation.
  intros bs s rest. cbv beta. destruct (dec (k_vec k_u8) bs) as [[l r]|] eqn:E; [|done].
  destruct (is_utf8 l) eqn:Eu; [|done]. intros [= <- ->].
  apply (dec_sound (k_vec k_u8)) in E. unfold as_bytes.
  rewrite list_byte_of_string_of_list_byte. destruct E as [-> Hv]. auto.
Qed.

Program Definition borsh_demo : BorshFormat := {|
  b_u8 := k_u8; b_i64 := k_i64; b_string := k_string; b_array := k_array;
  b_vec := @k_vec; b_option := @k_option |}.
Next Obligation. done. Qed.
Next Obligation. done. Qed.
Next Obligation. done. Qed.
Next Obligation. done. Qed.
Next Obligation. intros A c l Hl Hf. by split. Qed.
Next Obligation. intros A c o Ho. exact Ho. Qed.

(** ** Services *)

Definition pad_to (n : nat) (l : bytes) : bytes := take n (l ++ repeat x00 n).

Definition padded (n : nat) (l : bytes) : bytesN n :=
  default (fill n x00) (to_bytesN n (pad_to n l)).

Lemma pad_to_length n l : length (pad_to n l) = n.
Proof. unfold pad_to. rewrite length_take, length_app, repeat_length. lia. Qed.

Lemma padded_bytes n l : bn_bytes (padded n l) = pad_to n l.
Proof.
  unfold padded. destruct (to_bytesN n (pad_to n l)) as [x|] eqn:E; [by apply to_bytesN_Some|].
  exfalso. apply to_bytesN_None in E. apply E, pad_to_length.
Qed.

(** A 32-byte key whose first byte is [b], and a 16-byte id likewise. *)
Definition key (b : byte) : Pubkey := padded 32 [b].
Definition uid (b : byte) : Uuid := padded 16 [b].

Definition hex_char (n : nat) : ascii :=
  if (n <? 10)%nat then ascii_of_nat (48 + n) else ascii_of_nat (87 + n).
Definition hex_demo (bs : bytes) : string :=
  string_of_list_ascii (List.flat_map (fun b =>
    let n := N.to_nat (Byte.to_N b) in [hex_char (n / 16); hex_char (n mod 16)]) bs).

Lemma hex_demo_length bs : (String.length (hex_demo bs) = 2 * length bs)%nat.
Proof. unfold hex_demo. induction bs as [|b bs IH]; cbn in *; [done | lia]. Qed.

Definition hex_val (c : ascii) : option nat :=
  let n := nat_of_ascii c in
  if ((48 <=? n) && (n <=? 57))%nat then Some (n - 48)%nat
  else if ((97 <=? n) && (n <=? 102))%nat then Some (n - 87)%nat
  else if ((65 <=? n) && (n <=? 70))%nat then Some (n - 55)%nat
  else None.
Fixpoint unhex_demo (s : string) : option bytes :=
  match s with
  | EmptyString => Some []
  | String a (String b r) =>
      match hex_val a, hex_val b, unhex_demo r with
      | Some x, Some y, Some l => Some (byte_of_Z (Z.of_nat (16 * x + y)) :: l)
      | _, _, _ => None
      end
  | _ => None
  end.

(** Tokens: the secret and the claims as one decimal number. *)
Definition claims_tuple (c : Claims) : Uuid * Uuid * Z * Z * option string :=
  (cl_sub c, cl_jti c, cl_exp c, cl_iat c, cl_pubkey c).
Definition jwt_text (secret : string) (c : Claims) : string :=
  dec_of_N (Npos (encode (secret, claims_tuple c))).

Definition jwt_read (secret : string) (now : Z) (token : string) : option Claims :=
  match N_of_dec token with
  | Some (Npos p) =>
      match decode (A:=string * (Uuid * Uuid * Z * Z * option string)) p with
      | Some (secret', (sub, jti, exp, iat, pubkey)) =>
          if String.eqb secret secret' && negb (exp <? now)
          then Some (mkClaims sub pubkey exp iat jti) else None
      | None => None
      end
  | _ => None
  end.

Lemma jwt_read_text secret c now :
  jwt_read secret now (jwt_text secret c) = if cl_exp c <? now then None else Some c.
Proof.
  unfold jwt_read, jwt_text. rewrite N_of_dec_of_N, decode_encode.
  destruct c as [sub pk exp iat jti]. cbn. rewrite String.eqb_refl. by destruct (exp <? now).
Qed.

Definition ext_demo : Ext := {|
  ext_borsh := borsh_demo;
  pubkey_from_str := fun s => match unhex_demo s with Some l => to_bytesN 32 l | None => None end;
  pubkey_to_string := fun k => hex_demo (bn_bytes k);
  uuid_to_string := fun u => hex_demo (bn_bytes u);
  uuid_parse := fun s => match unhex_demo s with Some l => to_bytesN 16 l | None => None end;
  hex_encode := hex_demo;
  hex_decode := unhex_demo;
  sha256 := fun bs => padded 32 bs;
  hmac_sha256 := fun k bs => pad_to 32 (bs ++ bn_bytes k);
  aes256gcm_encrypt := fun k nonce bs => Some (bs ++ pad_to 16 (bn_bytes k ++ nonce));
  aes256gcm_decrypt := fun k nonce bs =>
    let n := (length bs - 16)%nat in
    if bool_decide (drop n bs = pad_to 16 (bn_bytes k ++ nonce)) then Some (take n bs) else None;
  base64_decode := unhex_demo;
  jsonb_text := fun _ => "json"%string;
  find_program_address := fun seeds _ => (padded 32 (mjoin seeds), xff);
  get_associated_token_address := fun owner mint => padded 32 (take 16 (bn_bytes owner) ++ bn_bytes mint);
  spl_transfer := fun src dst auth amount =>
    Some (mkInstruction (fill 32 x00)
            [mkMeta src false true; mkMeta dst false true; mkMeta auth true false]
            (x03 :: le_enc 8 amount));
  json_from_str := fun _ => None;
  signature_from_str := fun s => Some (padded 64 (as_bytes s));
  tx_encode := fun _ => Some "dHg="%string;
  tx_decode := fun _ => Some (mkTransaction [] (fill 32 x00) [] (fill 32 x00));
  json_value := fun s => if String.eqb s "token" then Some (JObj [("access_token", JStr "at")])
    else if String.eqb s "profile" then Some (JObj [("sub", JStr "s1"); ("email", JStr "eve@example.com")])
    else if String.eqb s "pinata" then Some (JObj [("data", JObj [("cid", JStr "Qm1")])])
    else None;
  json_to_vec := fun _ => Some [x7b; x7d];
  signature_verify := fun sig k bs =>
    bool_decide (bn_bytes sig = pad_to 64 (pad_to 4 (bn_bytes k) ++ bs));
  jwt_encode := fun secret c => Some (jwt_text secret c);
  jwt_decode := jwt_read;
  url_parses := fun _ => true;
  authorize_url := fun client url redirect _ state => (url +:+ "?state=" +:+ state)%string;
  f64_parse := fun _ => Ok (S754_zero false);
  json_u8_array := fun _ => Ok (repeat x01 64);
  status_text := dec_of_Z;
  keypair_from_bytes := fun b => Ok (padded 32 (take 32 (bn_bytes b)));
|}.

(** Every service is up; time stands at 1000 s; every account holds [account]. *)
Definition env_account (account : option bytes) : Env := {|
  db_fault := fun _ => DbUp;
  db_now := fun _ => 1000000000;
  app_now := fun _ => 1000;
  fresh_uuid := fun n => padded 16 (le_enc 8 (Z.of_nat n));
  random_bytes := fun n k => pad_to k (le_enc 8 (Z.of_nat n));
  fresh_keypair := fun n => padded 32 (le_enc 8 (Z.of_nat n));
  rpc_account := fun _ _ => account;
  rpc_account_exists := fun _ _ => Some true;
  rpc_rent_exempt := fun _ _ => Some 890880;
  rpc_balance := fun _ _ => Some 5000000000;
  rpc_token_balance := fun _ _ => Some "7000000"%string;
  rpc_blockhash := fun _ => Some (fill 32 x07);
  rpc_send := fun _ _ => (true, Some "sig"%string);
  resend := fun _ => (true, true);
  fresh_csrf := fun n => hex_demo (le_enc 8 (Z.of_nat n));
  http_post_form := fun _ _ _ => Some (200, "token"%string);
  http_get_bearer := fun _ _ _ => Some (200, "profile"%string);
  http_post_ipfs := fun _ _ _ _ => Ok (200, "pinata"%string);
  http_post_arweave := fun _ _ _ _ => Some (200, "none"%string);
  read_file := fun _ _ => Ok [];
|}.
Definition env_demo : Env := env_account None.

Definition world_demo (d : Db) : World := mkWorld d 0 (PH.new PH.Healthy) [] ∅ [].

Definition coin_demo (s : string) : StablecoinInfo := mkStablecoin s (hex_demo (bn_bytes (key x0a)))
  (hex_demo (bn_bytes (key x0b))) 6.

(** A configuration with the given keys, circuit breaker and sweep float, the
    start-up defaults for the rest; the wallets are [key x01] and [key x02]. *)
Definition app_demo (encryption_key index_key : string) (breaker : spec_float) (float : Z)
    : AppState :=
  mkAppState
    (mkConfig "postgres://localhost/test" "http://localhost:8899" "ws://localhost:8900" "program"
      "secret" 900 604800 encryption_key index_key
      "gid" "gsecret" "https://api.pactum.app/auth/oauth/google/callback"
      "mid" "msecret" "https://api.pactum.app/auth/oauth/microsoft/callback" "common"
      "resend" "noreply@pactum.app" "https://app.pactum.app/invite" 604800 172800
      199 3 10 (hex_demo (bn_bytes (key x01))) "/vault.json" (hex_demo (bn_bytes (key x02)))
      "/treasury.json" (S754_finite false 1 (-1)) breaker 50 20000000 float
      (hex_demo (bn_bytes (key x03)))
      (mkRegistry (coin_demo "usdc") (coin_demo "usdt") (coin_demo "pyusd"))
      "pinata" "gateway.pinata.cloud" "/arweave.json" 8080 "0.0.0.0")
    (key x01) (key x02).

Definition config_demo : AppState := app_demo "k" "i" (S754_finite false 1 0) 1000000.
