(* ===== verification/Aes.v ===== *)
(** * Aes: AES-256-GCM as the standards define it

    AES-256 (FIPS 197) and the Galois counter mode with a 12-byte nonce, a
    16-byte tag and no associated data (SP 800-38D), which the program takes
    from a crate.  The mode is executable, agrees with published vectors, and
    satisfies the law [aes_correct] that the theorems on stored contacts
    suppose of the crate.  A text of more than [2 ^ 36] bytes is refused, as
    the crate's documentation says. *)

From Stdlib Require Import ZArith Lia.
From Stdlib Require Import Strings.Byte Strings.String.
From stdpp Require Import base tactics decidable option list.
From S2P Require Import Prelude Text Borsh SolanaTypes World Concrete.

Open Scope list_scope.
Open Scope Z_scope.

(** Big-endian numbers: [n] bytes of [z], and the value of a byte string. *)
Definition be_enc (n : nat) (z : Z) : bytes := rev (le_enc n z).
Definition be_val (l : bytes) : Z := fold_left (fun v b => 256 * v + Z_of_byte b) l 0.

(** [n] groups of [k] elements. *)
Fixpoint groups {A} (n k : nat) (l : list A) : list (list A) :=
  match n with O => [] | S n' => take k l :: groups n' k (drop k l) end.

(** ** AES-256

    A state is its 16 bytes in the order of the input, each a [Z] below 256. *)

(** Multiplication in the field of 256 elements. *)
Definition xtime (a : Z) : Z :=
  let b := 2 * a in if b <? 256 then b else Z.lxor b 283.
Fixpoint gmul_bits (n : nat) (a b acc : Z) : Z :=
  match n with
  | O => acc
  | S n' => gmul_bits n' (xtime a) (b / 2) (if Z.odd b then Z.lxor acc a else acc)
  end.
Definition gmul (a b : Z) : Z := gmul_bits 8 a b 0.

(** The inverse is the power 254, and zero for zero. *)
Fixpoint gpow (n : nat) (a : Z) : Z := match n with O => 1 | S n' => gmul a (gpow n' a) end.
Definition rotl8 (a k : Z) : Z := Z.land (Z.lor (Z.shiftl a k) (Z.shiftr a (8 - k))) 255.
Definition sub_byte (a : Z) : Z :=
  let i := gpow 254 a in
  fold_left Z.lxor (map (rotl8 i) [1; 2; 3; 4]) (Z.lxor i 99).
Definition sbox : list Z := Eval vm_compute in map (fun n => sub_byte (Z.of_nat n)) (seq 0 256).
Definition sub_bytes (st : list Z) : list Z := map (fun a => nth (Z.to_nat a) sbox 0) st.

(** Row [r] is rotated by [r]: byte [r + 4 c] comes from column [c + r]. *)
Definition shift_rows (st : list Z) : list Z :=
  map (fun i => nth ((5 * i) mod 16)%nat st 0) (seq 0 16).

Definition mix_column (col : list Z) : list Z :=
  match col with
  | [a; b; c; d] =>
      let mix a b c d := Z.lxor (Z.lxor (xtime a) (Z.lxor (xtime b) b)) (Z.lxor c d) in
      [mix a b c d; mix b c d a; mix c d a b; mix d a b c]
  | _ => col
  end.
Definition mix_columns (st : list Z) : list Z := List.concat (map mix_column (groups 4 4 st)).

Definition xor_list (a b : list Z) : list Z := zip_with Z.lxor a b.
Definition add_round_key : list Z -> list Z -> list Z := xor_list.

(** The key schedule, the last word first; [i] is the number of the next word. *)
Fixpoint key_words (n : nat) (i : nat) (rcon : Z) (ws : list (list Z)) : list (list Z) :=
  match n with
  | O => rev ws
  | S n' =>
      let last := nth 0 ws [] in
      let '(t, rcon') :=
        if (i mod 8 =? 0)%nat then
          (xor_list (sub_bytes (drop 1 last ++ take 1 last)) [rcon; 0; 0; 0], xtime rcon)
        else if (i mod 8 =? 4)%nat then (sub_bytes last, rcon) else (last, rcon) in
      key_words n' (S i) rcon' (xor_list (nth 7 ws []) t :: ws)
  end.
Definition round_keys (key : bytes) : list (list Z) :=
  let words := key_words 52 8 1 (rev (groups 8 4 (map Z_of_byte key))) in
  map (@List.concat Z) (groups 15 4 words).

Definition cipher (keys : list (list Z)) (st : list Z) : list Z :=
  match keys with
  | [] => st
  | k0 :: ks =>
      let middle := fold_left (fun s k => add_round_key (mix_columns (shift_rows (sub_bytes s))) k)
                      (removelast ks) (add_round_key st k0) in
      add_round_key (shift_rows (sub_bytes middle)) (List.last ks [])
  end.

Definition aes_block (keys : list (list Z)) (block : bytes) : bytes :=
  map byte_of_Z (cipher keys (map Z_of_byte block)).

(** The example of FIPS 197, C.3. *)
Example aes_256_vector :
  let bytes_of l := map (fun n => byte_of_Z (Z.of_nat n)) l in
  hex_demo (aes_block (round_keys (bytes_of (seq 0 32))) (bytes_of (map (fun n => 17 * n)%nat (seq 0 16))))
  = "8ea2b7ca516745bfeafc49904b496089"%string.
Proof. vm_compute. reflexivity. Qed.

(** ** The Galois counter mode *)

(** Multiplication of 128-bit blocks, the first bit the lowest power. *)
Fixpoint ghash_mul (n : nat) (x v acc : Z) : Z :=
  match n with
  | O => acc
  | S n' =>
      ghash_mul n' x
        (if Z.odd v then Z.lxor (v / 2) (Z.shiftl 225 120) else v / 2)
        (if Z.testbit x (Z.of_nat n') then Z.lxor acc v else acc)
  end.

(** Blocks of 16 bytes, the last filled with zeros. *)
Definition blocks (l : bytes) : list bytes :=
  map (pad_to 16) (groups ((length l + 15) / 16) 16 l).
Definition lengths_block (l : bytes) : bytes := be_enc 8 0 ++ be_enc 8 (8 * Z.of_nat (length l)).
Definition ghash (h : Z) (l : bytes) : Z :=
  fold_left (fun y b => ghash_mul 128 (Z.lxor y (be_val b)) h 0) (blocks l ++ [lengths_block l]) 0.

Definition counter_block (nonce : bytes) (i : nat) : bytes := nonce ++ be_enc 4 (Z.of_nat i).

(** The stream that covers [n] bytes: the blocks of the counters from two on. *)
Definition key_stream (keys : list (list Z)) (nonce : bytes) (n : nat) : bytes :=
  List.concat (map (fun i => pad_to 16 (aes_block keys (counter_block nonce (2 + i))))
                   (seq 0 ((n + 15) / 16))).

Definition xor_byte (a b : byte) : byte := byte_of_Z (Z.lxor (Z_of_byte a) (Z_of_byte b)).
Definition ctr (keys : list (list Z)) (nonce text : bytes) : bytes :=
  zip_with xor_byte text (key_stream keys nonce (length text)).

Definition gcm_tag (keys : list (list Z)) (nonce ct : bytes) : bytes :=
  let h := be_val (aes_block keys (repeat x00 16)) in
  zip_with xor_byte (be_enc 16 (ghash h ct)) (pad_to 16 (aes_block keys (counter_block nonce 1))).

Definition MAX_TEXT : Z := 2 ^ 36.

Definition gcm_encrypt (key : bytesN 32) (nonce text : bytes) : option bytes :=
  let keys := round_keys (bn_bytes key) in
  if MAX_TEXT <? Z.of_nat (length text) then None
  else let ct := ctr keys nonce text in Some (ct ++ gcm_tag keys nonce ct).

Definition gcm_decrypt (key : bytesN 32) (nonce sealed : bytes) : option bytes :=
  let keys := round_keys (bn_bytes key) in
  if (length sealed <? 16)%nat then None
  else
    let n := (length sealed - 16)%nat in
    if MAX_TEXT <? Z.of_nat n then None
    else if bytes_eqb (drop n sealed) (gcm_tag keys nonce (take n sealed))
    then Some (ctr keys nonce (take n sealed)) else None.

(** Test cases 13 and 14 of the mode's specification. *)
Example gcm_vectors :
  option_map hex_demo (gcm_encrypt (fill 32 x00) (repeat x00 12) []) =
    Some "530f8afbc74536b9a963b4f1c4cb738b"%string /\
  option_map hex_demo (gcm_encrypt (fill 32 x00) (repeat x00 12) (repeat x00 16)) =
    Some "cea7403d4d606b6e074ec5d3baf39d18d0d1c8a799996bf0265b98b5d48ab919"%string.
Proof. split; vm_compute; reflexivity. Qed.

(** ** The law *)

Lemma Z_lxor_byte_range a b : 0 <= Z.lxor (Z_of_byte a) (Z_of_byte b) < 256.
Proof.
  pose proof (Z_of_byte_range a) as Ha. pose proof (Z_of_byte_range b) as Hb.
  split; [apply Z.lxor_nonneg; lia|].
  assert (Hz : forall z i, 0 <= z < 256 -> 8 <= i -> Z.testbit z i = false).
  { intros z i Hz Hi. rewrite <-(Z.mod_small z (2 ^ 8)) by lia. by apply Z.mod_pow2_bits_high. }
  destruct (Z.eq_dec (Z.lxor (Z_of_byte a) (Z_of_byte b)) 0) as [->|Hne]; [lia|].
  assert (0 <= Z.lxor (Z_of_byte a) (Z_of_byte b)) by (apply Z.lxor_nonneg; lia).
  change 256 with (2 ^ 8). apply Z.log2_lt_pow2; [lia|].
  destruct (Z_lt_le_dec (Z.log2 (Z.lxor (Z_of_byte a) (Z_of_byte b))) 8) as [|Hl]; [done|].
  exfalso. pose proof (Z.bit_log2 (Z.lxor (Z_of_byte a) (Z_of_byte b)) ltac:(lia)) as Hbit.
  rewrite Z.lxor_spec, !Hz in Hbit by lia. done.
Qed.

Lemma xor_byte_twice a b : xor_byte (xor_byte a b) b = a.
Proof.
  unfold xor_byte. rewrite Z_of_byte_of_Z, Z.mod_small by apply Z_lxor_byte_range.
  rewrite Z.lxor_assoc, Z.lxor_nilpotent, Z.lxor_0_r.
  pose proof (byte_of_Z_of_byte a 0) as E. by rewrite Z.mul_0_r, Z.add_0_r in E.
Qed.

Lemma key_stream_length keys nonce n : (n <= length (key_stream keys nonce n))%nat.
Proof.
  unfold key_stream. assert (E : forall l, length (List.concat (map (fun i =>
    pad_to 16 (aes_block keys (counter_block nonce (2 + i)))) l)) = (16 * length l)%nat).
  { induction l as [|i l IH]; [done|]. cbn [map List.concat]. rewrite length_app, pad_to_length, IH.
    cbn [length]. lia. }
  rewrite E, length_seq. pose proof (Nat.div_mod_eq (n + 15) 16).
  pose proof (Nat.mod_upper_bound (n + 15) 16 ltac:(lia)). lia.
Qed.

Lemma ctr_length keys nonce text : length (ctr keys nonce text) = length text.
Proof.
  unfold ctr. rewrite length_zip_with. pose proof (key_stream_length keys nonce (length text)). lia.
Qed.

Lemma xor_twice (text stream : bytes) :
  (length text <= length stream)%nat ->
  zip_with xor_byte (zip_with xor_byte text stream) stream = text.
Proof.
  revert stream. induction text as [|a text IH]; intros [|b stream] Hl; cbn in *; [done..|lia|].
  rewrite xor_byte_twice, IH by lia. done.
Qed.

(** Counter mode is its own inverse. *)
Lemma ctr_twice keys nonce text : ctr keys nonce (ctr keys nonce text) = text.
Proof.
  unfold ctr at 1. rewrite ctr_length. apply xor_twice, key_stream_length.
Qed.

Lemma gcm_tag_length keys nonce ct : length (gcm_tag keys nonce ct) = 16%nat.
Proof.
  unfold gcm_tag, be_enc. rewrite length_zip_with, length_rev, pad_to_length.
  assert (E : forall k z, length (le_enc k z) = k) by (induction k; cbn; auto).
  by rewrite E.
Qed.

(** What was sealed under a key and nonce opens under them. *)
Theorem gcm_roundtrip (key : bytesN 32) (nonce text sealed : bytes) :
  gcm_encrypt key nonce text = Some sealed -> gcm_decrypt key nonce sealed = Some text.
Proof.
  unfold gcm_encrypt, gcm_decrypt. destruct (MAX_TEXT <? _) eqn:Emax; [done|]. intros [= <-].
  rewrite length_app, gcm_tag_length, ctr_length, Nat.add_sub.
  destruct (Nat.ltb_spec (length text + 16) 16); [lia|]. rewrite Emax.
  rewrite take_app_length', drop_app_length' by (by rewrite ctr_length). unfold bytes_eqb.
  rewrite bool_decide_eq_true_2 by done. by rewrite ctr_twice.
Qed.

(** What opens has the tag of its text: sealing it again gives it back. *)
Theorem gcm_authentic (key : bytesN 32) (nonce text sealed : bytes) :
  gcm_decrypt key nonce sealed = Some text -> gcm_encrypt key nonce text = Some sealed.
Proof.
  unfold gcm_encrypt, gcm_decrypt. destruct (Nat.ltb_spec (length sealed) 16) as [|Hl]; [done|].
  destruct (MAX_TEXT <? Z.of_nat (length sealed - 16)) eqn:Emax; [done|].
  unfold bytes_eqb. case_bool_decide as Etag; [|done]. intros [= <-].
  rewrite ctr_length, length_take, Nat.min_l, Emax, ctr_twice, <-Etag by lia.
  by rewrite take_drop.
Qed.
