(* ===== verification/Crypto.v ===== *)
(** * Crypto: encryption at rest, blind indexes and hashes

    src/src/services/crypto.rs, src/src/services/hash.rs and the key decoding
    helper the handlers share.  The ciphers and hashes are fields of [Ext]. *)

From Stdlib Require Import ZArith Lia.
From Stdlib Require Import Strings.Byte Strings.Ascii Strings.String.
From stdpp Require Import base tactics decidable option list strings gmap.
From S2P Require Import Prelude Text Errors Borsh SolanaTypes Health World Concrete.

Open Scope string_scope.
Open Scope list_scope.
Open Scope nat_scope.

Section Crypto.
Context `{Ext, Env}.

(** [encrypt(plaintext, key)]: a fresh 12-byte nonce, then AES-256-GCM. *)
Definition encrypt (plaintext : string) (key : bytesN 32) : M World AppError (bytes * bytes) :=
  let* nonce := fill_random 12 in
  let* ciphertext := of_result (ok_or (aes256gcm_encrypt key nonce (as_bytes plaintext))
                                  EncryptionFailed) in
  ret (ciphertext, nonce).

Definition decrypt (ciphertext : bytes) (nonce : bytesN 12) (key : bytesN 32)
    : result AppError string :=
  match aes256gcm_decrypt key (bn_bytes nonce) ciphertext with
  | Some plaintext => ok_or (string_from_utf8 plaintext) DecryptionFailed
  | None => Err DecryptionFailed
  end.

Definition hmac_index (value : string) (key : bytesN 32) : bytes :=
  hmac_sha256 key (as_bytes value).

(** [decode_hex_key_32(key_hex)] *)
Definition decode_hex_key_32 (key_hex : string) : result AppError (bytesN 32) :=
  match hex_decode key_hex with
  | Some key_bytes => ok_or (to_bytesN 32 key_bytes) InternalError
  | None => Err InternalError
  end.

Definition compute_sha256 (data : bytes) : bytesN 32 := sha256 data.

Definition verify_client_hash (file_bytes : bytes) (client_hash_hex : string)
    : result AppError (bytesN 32) :=
  let server_hash := compute_sha256 file_bytes in
  match hex_decode client_hash_hex with
  | None => Err InvalidHash
  | Some client_hash =>
      if negb (bytes_eqb (bn_bytes server_hash) client_hash) then Err HashMismatch
      else Ok server_hash
  end.

Lemma encrypt_frame pt key w r w' :
  encrypt pt key w = (r, w') -> w_db w' = w_db w /\ w_effects w' = w_effects w.
Proof.
  unfold encrypt, bind, fill_random, of_result.
  destruct (ok_or _ _); intros [= _ <-]; done.
Qed.

(** What AES-256-GCM promises: what was encrypted under a key and nonce
    decrypts under them, and the random source gives the length asked for. *)
Definition aes_correct : Prop :=
  forall key nonce text ct, aes256gcm_encrypt key nonce text = Some ct ->
    aes256gcm_decrypt key nonce ct = Some text.
Definition random_lengths : Prop := forall k n, length (random_bytes k n) = n.

Lemma encrypt_roundtrip_run (plaintext : string) (key : bytesN 32) (w w' : World)
    (ct nonce : bytes) :
  aes_correct -> random_lengths -> is_utf8 (as_bytes plaintext) = true ->
  encrypt plaintext key w = (Ok (ct, nonce), w') ->
  exists n12, to_bytesN 12 nonce = Some n12 /\ decrypt ct n12 key = Ok plaintext.
Proof.
  intros Haes Hrand Hutf Henc. unfold encrypt in Henc. run_inv. subst.
  unfold fill_random in Hs. injection Hs as <- <-.
  destruct (to_bytesN 12 (random_bytes (w_tick w) 12)) as [n12|] eqn:E.
  - exists n12. split; [done|]. unfold decrypt. rewrite (to_bytesN_Some _ _ _ E).
    erewrite Haes by eassumption. unfold string_from_utf8, as_bytes in *. rewrite Hutf.
    by rewrite string_of_list_byte_of_string.
  - exfalso. apply to_bytesN_None in E. apply E, Hrand.
Qed.

(** Encrypted contact data can be read back.  The pair that [encrypt]
    returns has a 12-byte nonce, and decrypting it under the same key gives
    the text that was encrypted. *)
Theorem encrypt_decrypt_roundtrip (plaintext : string) (key : bytesN 32) (w w' : World)
    (ct nonce : bytes) :
  aes_correct -> random_lengths -> is_utf8 (as_bytes plaintext) = true ->
  encrypt plaintext key w = (Ok (ct, nonce), w') ->
  w_db w' = w_db w /\
  exists n12, to_bytesN 12 nonce = Some n12 /\ decrypt ct n12 key = Ok plaintext.
Proof.
  intros Haes Hrand Hutf Henc.
  split; [by apply (encrypt_frame _ _ _ _ _ Henc) | by eapply encrypt_roundtrip_run].
Qed.

(** A client's hash is accepted exactly when it is the hexadecimal form of
    the file's SHA-256; other hexadecimal texts are a mismatch and texts that
    are not hexadecimal are invalid. *)
Theorem verify_client_hash_spec (file : bytes) (hx : string) :
  match verify_client_hash file hx with
  | Ok h => h = sha256 file /\ hex_decode hx = Some (bn_bytes (sha256 file))
  | Err e => (e = InvalidHash /\ hex_decode hx = None) \/
             (e = HashMismatch /\ exists b, hex_decode hx = Some b /\ b <> bn_bytes (sha256 file))
  end.
Proof.
  unfold verify_client_hash, compute_sha256. destruct (hex_decode hx) as [b|]; [|auto].
  unfold bytes_eqb. case_bool_decide as E; cbn; [by subst|].
  right. split; [done|]. exists b. split; [done | congruence].
Qed.
End Crypto.

Lemma encrypt_decrypt_roundtrip_witness :
  exists ct nonce w', @encrypt ext_demo env_demo "bob@example.com" (fill 32 x2a) (world_demo db_empty)
    = (Ok (ct, nonce), w') /\
  exists n12, to_bytesN 12 nonce = Some n12 /\
    @decrypt ext_demo ct n12 (fill 32 x2a) = Ok "bob@example.com".
Proof.
  destruct (@encrypt ext_demo env_demo "bob@example.com" (fill 32 x2a) (world_demo db_empty))
    as [[[ct nonce]|e] w'] eqn:E; [|vm_compute in E; discriminate E].
  exists ct, nonce, w'. split; [reflexivity|].
  apply (@encrypt_decrypt_roundtrip ext_demo env_demo "bob@example.com" (fill 32 x2a)
    (world_demo db_empty) w' ct nonce).
  - intros key nonce' text ct' [= <-]. unfold aes256gcm_decrypt. cbn -[pad_to].
    assert (Hl : length (pad_to 16 (bn_bytes key ++ nonce')) = 16).
    { unfold pad_to. rewrite length_take, length_app, repeat_length. lia. }
    rewrite length_app, Hl. replace (length text + 16 - 16) with (length text) by lia.
    rewrite take_app_length, drop_app_length. by rewrite bool_decide_eq_true_2.
  - intros k n. cbn -[pad_to]. unfold pad_to. rewrite length_take, length_app, repeat_length. lia.
  - reflexivity.
  - exact E.
Defined.
