(* ===== verification/Jwt.v ===== *)
(** * Jwt: access tokens, refresh tokens and the extractors

    src/src/services/jwt.rs, src/src/middleware/auth.rs and
    src/src/middleware/wallet_guard.rs.  The token format is a field of [Ext]. *)

From Stdlib Require Import ZArith Lia.
From Stdlib Require Import Strings.Byte Strings.Ascii Strings.String.
From stdpp Require Import base tactics decidable option list strings gmap.
From S2P Require Import Prelude Text Errors Borsh SolanaTypes Health World Concrete.

Open Scope string_scope.
Open Scope list_scope.
Open Scope Z_scope.

(** ** Tokens *)

(** The refresh token row; the hash is the primary key, the user a foreign key. *)
Definition insert_refresh_stmt (user : Uuid) (token_hash : string) (expires_at created_at : Z)
    : Stmt unit :=
  insert_prepared T_refresh_tokens ["user_id"; "token_hash"; "expires_at"; "created_at"]
    (fun _ d =>
      if exists_row (fun r => String.eqb (rt_token_hash r) token_hash) (db_refresh d) then None
      else if exists_row (fun u => uuid_eqb (ua_id u) user) (db_users d) then
        Some (tt, set_refresh (fun t => t ++ [mkRefreshToken token_hash user created_at expires_at]) d)
      else None).

Section Tokens.
Context `{Ext, Env}.

Definition sha256_hex (input : string) : string := hex_encode (bn_bytes (sha256 (as_bytes input))).

Definition issue_access_token (cfg : Config) (user_id : Uuid) (pubkey : option string)
    : M World AppError string :=
  let* now := now_secs in
  let exp := u64_wrap (now + cfg_jwt_access_expiry_seconds cfg) in
  let* jti := new_uuid in
  of_result (ok_or (jwt_encode (cfg_jwt_secret cfg) (mkClaims user_id pubkey exp now jti))
               InternalError).

Definition decode_access_token (cfg : Config) (token : string) : M World AppError Claims :=
  let* now := now_secs in
  of_result (ok_or (jwt_decode (cfg_jwt_secret cfg) now token) Unauthorized).

(** Seven days, whatever [jwt_refresh_expiry_seconds] says. *)
Definition issue_and_store_refresh_token (user_id : Uuid) : M World AppError string :=
  let* token_bytes := fill_random 32 in
  let raw_token := hex_encode token_bytes in
  let token_hash := sha256_hex raw_token in
  let* now := now_secs in
  let expires_at := i64_wrap (i64_wrap now + 604800) in
  map_err (fun _ => InternalError)
    (sql (insert_refresh_stmt user_id token_hash expires_at (i64_wrap now))) ;;;
  ret raw_token.

(** ** Extractors *)

Record AuthUser : Type := mkAuthUser { au_user_id : Uuid; au_pubkey : option string }.
Record AuthUserWithWallet : Type := mkAuthWalletUser { aww_user_id : Uuid; aww_pubkey : string }.

(** A rejection: status and text. *)
Definition Rejection : Type := nat * string.

(** [AuthUser::from_request_parts]; the header, when there is one and it is text *)
Definition auth_user (cfg : Config) (authorization : option string) : M World Rejection AuthUser :=
  let* token := of_result (ok_or (h ← authorization; strip_prefix "Bearer " h)
                  (401%nat, "Missing or invalid Authorization header")) in
  let* claims := map_err (fun _ => (401%nat, "Invalid or expired token"))
                   (decode_access_token cfg token) in
  ret (mkAuthUser (cl_sub claims) (cl_pubkey claims)).

Definition dquote : string := String "034" EmptyString.

(** [format!("{:?}", AppError::WalletRequired { message, link_url })], for
    texts without characters that Debug escapes *)
Definition wallet_required_debug (message link_url : string) : string :=
  "WalletRequired { message: " +:+ dquote +:+ message +:+ dquote +:+ ", link_url: "
  +:+ dquote +:+ link_url +:+ dquote +:+ " }".

(** [AuthUserWithWallet::from_request_parts] *)
Definition auth_user_with_wallet (cfg : Config) (authorization : option string)
    : M World Rejection AuthUserWithWallet :=
  let* auth := auth_user cfg authorization in
  match au_pubkey auth with
  | Some pubkey => ret (mkAuthWalletUser (au_user_id auth) pubkey)
  | None =>
      throw (403%nat, wallet_required_debug
        "This action requires a connected wallet. Please link a wallet to your account."
        "/auth/link/wallet")
  end.

(** ** Lemmas *)

(** What the token library promises: a token decodes under its secret to its
    claims until its expiry, and not afterwards. *)
Definition jwt_correct : Prop :=
  forall secret c token, jwt_encode secret c = Some token ->
  forall now, jwt_decode secret now token = if cl_exp c <? now then None else Some c.

Lemma issue_access_token_Ok cfg user pubkey w token w' :
  issue_access_token cfg user pubkey w = (Ok token, w') ->
  w_db w' = w_db w /\
  exists jti, jwt_encode (cfg_jwt_secret cfg)
    (mkClaims user pubkey (u64_wrap (app_now (w_tick w) + cfg_jwt_access_expiry_seconds cfg))
       (app_now (w_tick w)) jti) = Some token.
Proof. intros Hi. unfold issue_access_token in Hi. world_inv. subst. split; [done|]. eauto. Qed.

Lemma issue_access_token_frame cfg user pubkey w :
  w_db (snd (issue_access_token cfg user pubkey w)) = w_db w.
Proof. unfold issue_access_token, bind, of_result, now_secs, new_uuid. reflexivity. Qed.

Lemma insert_refresh_Some user h ex cr now d a d' :
  insert_refresh_stmt user h ex cr now d = Some (a, d') ->
  (exists u, u ∈ db_users d /\ ua_id u = user) /\
  (forall r, r ∈ db_refresh d -> rt_token_hash r <> h) /\
  d' = set_refresh (fun t => t ++ [mkRefreshToken h user cr ex]) d.
Proof.
  unfold insert_refresh_stmt, insert_prepared, prepared. cbn [List.forallb].
  cbn -[exists_row]. destruct (exists_row _ (db_refresh d)) eqn:E1; [done|].
  destruct (exists_row _ (db_users d)) eqn:E2; [|done]. intros [= _ <-]. split; [|split].
  - apply exists_row_spec in E2 as (u & Hu & He). exists u. split; [done|].
    by apply bool_decide_eq_true in He.
  - intros r Hr He. cut (true = false); [done|]. rewrite <-E1. symmetry.
    apply exists_row_spec. exists r. split; [done|]. by apply String.eqb_eq.
  - done.
Qed.

Lemma issue_refresh_Ok user w raw w' :
  issue_and_store_refresh_token user w = (Ok raw, w') ->
  (forall r, r ∈ db_refresh (w_db w) -> rt_token_hash r <> sha256_hex raw) /\
  (exists u, u ∈ db_users (w_db w) /\ ua_id u = user) /\
  exists k now, raw = hex_encode (random_bytes k 32) /\ now = i64_wrap (app_now (S k)) /\
    w_db w' = set_refresh (fun t => t ++
      [mkRefreshToken (sha256_hex raw) user now (i64_wrap (now + 604800))]) (w_db w).
Proof.
  intros Hi. unfold issue_and_store_refresh_token in Hi. run_inv. subst.
  apply sql_Ok in Hs1 as (d & Hd & ->).
  unfold fill_random in Hs. injection Hs as <- <-. unfold now_secs in Hs0. injection Hs0 as <- <-.
  apply insert_refresh_Some in Hd as (Hu & Hn & ->). cbn in *.
  split; [done|]. split; [done|]. eauto 10.
Qed.

(** The claims a bearer header authenticates. *)
Lemma auth_user_run cfg token w :
  auth_user cfg (Some ("Bearer " +:+ token)) w =
  (match jwt_decode (cfg_jwt_secret cfg) (app_now (w_tick w)) token with
   | Some c => Ok (mkAuthUser (cl_sub c) (cl_pubkey c))
   | None => Err (401%nat, "Invalid or expired token")
   end, tick w).
Proof.
  unfold auth_user, decode_access_token, bind, map_err, of_result, now_secs.
  cbn [mbind option_bind]. rewrite strip_prefix_app. cbn [ok_or w_tick tick].
  by destruct (jwt_decode _ _ _).
Qed.

(** C34: an access token authenticates exactly the account it was issued to,
    and for exactly [jwt_access_expiry_seconds].  A request that carries the token as its
    bearer header up to that many seconds after the issue is taken to come
    from the user and wallet of the token; a later one is answered 401; and the
    guard of the wallet endpoints lets it pass only when the token names a
    wallet. *)
Theorem access_token_lifetime (cfg : Config) (user : Uuid) (pubkey : option string)
    (token : string) (w w' later : World) :
  jwt_correct ->
  in_u64 (app_now (w_tick w) + cfg_jwt_access_expiry_seconds cfg) ->
  issue_access_token cfg user pubkey w = (Ok token, w') ->
  let header := Some ("Bearer " +:+ token) in
  let valid := app_now (w_tick later) <=? app_now (w_tick w) + cfg_jwt_access_expiry_seconds cfg in
  fst (auth_user cfg header later) =
    (if valid then Ok (mkAuthUser user pubkey) else Err (401%nat, "Invalid or expired token")) /\
  (forall a, fst (auth_user_with_wallet cfg header later) = Ok a ->
     valid = true /\ au_pubkey (mkAuthUser user pubkey) = Some (aww_pubkey a) /\ aww_user_id a = user).
Proof.
  intros Hj Hr Hi header valid.
  apply issue_access_token_Ok in Hi as (_ & jti & Henc). rewrite u64_wrap_id in Henc by done.
  pose proof (Hj _ _ _ Henc (app_now (w_tick later))) as Hd. cbn [cl_exp] in Hd.
  assert (E : valid = negb (app_now (w_tick w) + cfg_jwt_access_expiry_seconds cfg
                              <? app_now (w_tick later))) by (unfold valid; lia).
  subst header. unfold auth_user_with_wallet, bind. rewrite auth_user_run, Hd, E.
  destruct (_ <? _); cbn; (split; [done|]); intros a Ha; [done|].
  destruct pubkey as [p|]; cbn in Ha; [|done]. by injection Ha as <-.
Qed.
End Tokens.

Lemma jwt_correct_demo : @jwt_correct ext_demo.
Proof. intros secret c token [= <-] now. apply jwt_read_text. Qed.

Lemma access_token_lifetime_witness :
  exists token w', @issue_access_token ext_demo env_demo config_demo (uid x01) (Some "alice")
      (world_demo db_empty) = (Ok token, w') /\
    fst (@auth_user ext_demo env_demo config_demo (Some ("Bearer " +:+ token)) (world_demo db_empty))
      = Ok (mkAuthUser (uid x01) (Some "alice")).
Proof.
  destruct (@issue_access_token ext_demo env_demo config_demo (uid x01) (Some "alice")
      (world_demo db_empty)) as [[token|e] w'] eqn:E; [|discriminate E].
  exists token, w'. split; [reflexivity|].
  apply (@access_token_lifetime ext_demo env_demo config_demo (uid x01) (Some "alice") token
    (world_demo db_empty) w' (world_demo db_empty)); [apply jwt_correct_demo | | exact E].
  split; reflexivity || (cbn; lia).
Defined.
