(* ===== verification/Notification.v ===== *)
(** * Notification: the queue, its events and the worker that drains it

    src/src/services/notification.rs and src/src/workers/notification_worker.rs. *)

From Stdlib Require Import ZArith Lia.
From Stdlib Require Import Strings.Byte Strings.Ascii Strings.String.
From stdpp Require Import base tactics decidable option list strings gmap.
From S2P Require Import Prelude Text Errors Borsh SolanaTypes Health World Concrete Crypto.

Open Scope string_scope.
Open Scope list_scope.
Open Scope Z_scope.

(** ** Events *)

Module NE.
Inductive NotificationEvent : Type :=
| AgreementCreated | Signed | Completed | Cancelled | Expired | RevokeVote | Revoked
| DraftReadyToSubmit | InvitationExpired | InvitationReminder | PaymentConfirmed
| RefundInitiated | RefundCompleted.

#[export] Instance NotificationEvent_eq_dec : EqDecision NotificationEvent.
Proof. solve_decision. Defined.

Definition as_str (e : NotificationEvent) : string :=
  match e with
  | AgreementCreated => "AgreementCreated"
  | Signed => "Signed"
  | Completed => "Completed"
  | Cancelled => "Cancelled"
  | Expired => "Expired"
  | RevokeVote => "RevokeVote"
  | Revoked => "Revoked"
  | DraftReadyToSubmit => "DraftReadyToSubmit"
  | InvitationExpired => "InvitationExpired"
  | InvitationReminder => "InvitationReminder"
  | PaymentConfirmed => "PaymentConfirmed"
  | RefundInitiated => "RefundInitiated"
  | RefundCompleted => "RefundCompleted"
  end.

Definition subject (e : NotificationEvent) : string :=
  match e with
  | AgreementCreated => "You've been invited to sign an agreement"
  | Signed => "Agreement partially signed"
  | Completed => "Agreement fully signed — credential minted"
  | Cancelled => "Agreement cancelled"
  | Expired => "Agreement expired unsigned"
  | RevokeVote => "A party voted to revoke the credential"
  | Revoked => "Credential revoked by unanimous consent"
  | DraftReadyToSubmit => "All parties have joined — your agreement is ready to submit"
  | InvitationExpired => "A party hasn't responded to your agreement invitation"
  | InvitationReminder => "Reminder: you've been invited to sign an agreement"
  | PaymentConfirmed => "Payment confirmed — your agreement is ready to submit"
  | RefundInitiated => "Your refund is being processed"
  | RefundCompleted => "Your refund has been sent to your wallet"
  end.

(** The event type the worker reads from a job. *)
Definition of_str (s : string) : option NotificationEvent :=
  if String.eqb s "AgreementCreated" then Some AgreementCreated
  else if String.eqb s "Signed" then Some Signed
  else if String.eqb s "Completed" then Some Completed
  else if String.eqb s "Cancelled" then Some Cancelled
  else if String.eqb s "Expired" then Some Expired
  else if String.eqb s "RevokeVote" then Some RevokeVote
  else if String.eqb s "Revoked" then Some Revoked
  else if String.eqb s "DraftReadyToSubmit" then Some DraftReadyToSubmit
  else if String.eqb s "InvitationExpired" then Some InvitationExpired
  else if String.eqb s "InvitationReminder" then Some InvitationReminder
  else if String.eqb s "PaymentConfirmed" then Some PaymentConfirmed
  else if String.eqb s "RefundInitiated" then Some RefundInitiated
  else if String.eqb s "RefundCompleted" then Some RefundCompleted
  else None.

Definition all : list NotificationEvent :=
  [AgreementCreated; Signed; Completed; Cancelled; Expired; RevokeVote; Revoked;
   DraftReadyToSubmit; InvitationExpired; InvitationReminder; PaymentConfirmed;
   RefundInitiated; RefundCompleted].

Lemma of_as_str e : of_str (as_str e) = Some e.
Proof. by destruct e. Qed.

Lemma of_str_Some s e : of_str s = Some e -> s = as_str e.
Proof.
  unfold of_str.
  repeat (match goal with |- context [String.eqb s ?t] =>
            destruct (String.eqb_spec s t) as [->|_]; [by intros [= <-]|] end).
  discriminate.
Qed.
End NE.
Export NE (NotificationEvent).

(** [format!] of a paragraph break *)
Definition nl2 : string := String "010" (String "010" EmptyString).

Definition render_email_text (e : NotificationEvent) (agreement_pda : option string) : string :=
  let pda_display := default "N/A" agreement_pda in
  match e with
  | NE.AgreementCreated =>
      "You've been invited to sign an agreement." +:+ nl2 +:+ "Agreement ID: " +:+ pda_display
      +:+ nl2 +:+ "View at: https://app.pactum.app/agreement/" +:+ pda_display
  | NE.Signed =>
      "A party has signed the agreement." +:+ nl2 +:+ "Agreement ID: " +:+ pda_display
  | NE.Completed =>
      "Congratulations! The agreement has been fully signed and the credential has been minted."
      +:+ nl2 +:+ "Agreement ID: " +:+ pda_display
      +:+ nl2 +:+ "View at: https://app.pactum.app/agreement/" +:+ pda_display
  | NE.Cancelled =>
      "The agreement has been cancelled." +:+ nl2 +:+ "Agreement ID: " +:+ pda_display
  | NE.Expired =>
      "The agreement has expired unsigned." +:+ nl2 +:+ "Agreement ID: " +:+ pda_display
  | NE.RevokeVote =>
      "A party has voted to revoke the credential." +:+ nl2 +:+ "Agreement ID: " +:+ pda_display
  | NE.Revoked =>
      "The credential has been revoked by unanimous consent." +:+ nl2 +:+ "Agreement ID: "
      +:+ pda_display
  | NE.DraftReadyToSubmit =>
      "All parties have joined your agreement draft and it's ready to submit." +:+ nl2
      +:+ "Submit at: https://app.pactum.app/drafts"
  | NE.InvitationExpired =>
      "A party hasn't responded to your agreement invitation within the time limit." +:+ nl2
      +:+ "You can resend the invitation or discard the draft."
  | NE.InvitationReminder =>
      "This is a reminder that you've been invited to sign an agreement." +:+ nl2
      +:+ "Agreement ID: " +:+ pda_display
  | NE.PaymentConfirmed =>
      "Your payment has been confirmed and your agreement is ready to submit." +:+ nl2
      +:+ "Submit at: https://app.pactum.app/drafts"
  | NE.RefundInitiated =>
      "Your refund is being processed." +:+ nl2 +:+ "This may take a few minutes to complete."
  | NE.RefundCompleted =>
      "Your refund has been sent to your wallet." +:+ nl2
      +:+ "The funds should appear in your account shortly."
  end.

(** The HTML of the emails, a tilde standing for the double quote. *)
Definition html (s : string) : string :=
  string_map (fun c => if Ascii.eqb c "~" then "034"%char else c) s.

Definition email_content (e : NotificationEvent) (agreement_pda : option string) : string :=
  let pda_display := default "N/A" agreement_pda in
  match e with
  | NE.AgreementCreated =>
      html "<p>You've been invited to sign an agreement.</p>
            <p>Agreement ID: <code>" +:+ pda_display +:+ html "</code></p>
            <p><a href=~https://app.pactum.app/agreement/" +:+ pda_display +:+ html "~ style=~background:#4F46E5;color:white;padding:12px 24px;text-decoration:none;border-radius:6px;~>View Agreement</a></p>"
  | NE.Signed =>
      html "<p>A party has signed the agreement.</p>
            <p>Agreement ID: <code>" +:+ pda_display +:+ html "</code></p>"
  | NE.Completed =>
      html "<p>Congratulations! The agreement has been fully signed and the credential has been minted.</p>
            <p>Agreement ID: <code>" +:+ pda_display +:+ html "</code></p>
            <p><a href=~https://app.pactum.app/agreement/" +:+ pda_display +:+ html "~ style=~background:#10B981;color:white;padding:12px 24px;text-decoration:none;border-radius:6px;~>View Credential</a></p>"
  | NE.Cancelled =>
      html "<p>The agreement has been cancelled.</p>
            <p>Agreement ID: <code>" +:+ pda_display +:+ html "</code></p>"
  | NE.Expired =>
      html "<p>The agreement has expired unsigned.</p>
            <p>Agreement ID: <code>" +:+ pda_display +:+ html "</code></p>"
  | NE.RevokeVote =>
      html "<p>A party has voted to revoke the credential.</p>
            <p>Agreement ID: <code>" +:+ pda_display +:+ html "</code></p>"
  | NE.Revoked =>
      html "<p>The credential has been revoked by unanimous consent.</p>
            <p>Agreement ID: <code>" +:+ pda_display +:+ html "</code></p>"
  | NE.DraftReadyToSubmit =>
      html "<p>All parties have joined your agreement draft and it's ready to submit.</p>
            <p><a href=~https://app.pactum.app/drafts~ style=~background:#4F46E5;color:white;padding:12px 24px;text-decoration:none;border-radius:6px;~>Submit Agreement</a></p>"
  | NE.InvitationExpired =>
      html "<p>A party hasn't responded to your agreement invitation within the time limit.</p>
            <p>You can resend the invitation or discard the draft.</p>"
  | NE.InvitationReminder =>
      html "<p>This is a reminder that you've been invited to sign an agreement.</p>
            <p>Agreement ID: <code>" +:+ pda_display +:+ html "</code></p>"
  | NE.PaymentConfirmed =>
      html "<p>Your payment has been confirmed and your agreement is ready to submit.</p>
            <p><a href=~https://app.pactum.app/drafts~ style=~background:#4F46E5;color:white;padding:12px 24px;text-decoration:none;border-radius:6px;~>Submit Agreement</a></p>"
  | NE.RefundInitiated =>
      html "<p>Your refund is being processed.</p>
            <p>This may take a few minutes to complete.</p>"
  | NE.RefundCompleted =>
      html "<p>Your refund has been sent to your wallet.</p>
            <p>The funds should appear in your account shortly.</p>"
  end.

(** [render_email_html] *)
Definition render_email_html (e : NotificationEvent) (agreement_pda : option string) : string :=
  let main_content := email_content e agreement_pda in
  html "<!DOCTYPE html>
<html>
<head>
    <meta charset=~UTF-8~>
    <meta name=~viewport~ content=~width=device-width, initial-scale=1.0~>
    <title>" +:+ NE.subject e +:+ html "</title>
</head>
<body style=~font-family:system-ui,-apple-system,sans-serif;line-height:1.5;color:#1f2937;max-width:600px;margin:0 auto;padding:24px;~>
    <div style=~background:#f9fafb;padding:24px;border-radius:8px;margin-bottom:24px;~>
        <h1 style=~color:#111827;margin:0 0 16px 0;font-size:24px;~>Pactum</h1>
        <h2 style=~color:#4b5563;margin:0;font-size:18px;font-weight:normal;~>" +:+ NE.subject e +:+ html "</h2>
    </div>
    <div style=~background:white;padding:24px;border-radius:8px;border:1px solid #e5e7eb;~>
        " +:+ main_content +:+ html "
    </div>
    <div style=~margin-top:24px;padding-top:24px;border-top:1px solid #e5e7eb;color:#6b7280;font-size:14px;~>
        <p>This is an automated message from Pactum. Please do not reply to this email.</p>
    </div>
</body>
</html>".

(** [build_ws_event(job)]; the column is NOT NULL, so the job always carries
    the text. *)
Definition build_ws_event (job : NotificationRow) : WsEvent :=
  let pda := nq_agreement_pda job in
  let ty := nq_event_type job in
  if String.eqb ty "AgreementCreated" then WsAgreementCreated pda
  else if String.eqb ty "Signed" then WsAgreementSigned pda
  else if String.eqb ty "Completed" then WsAgreementCompleted pda
  else if String.eqb ty "Cancelled" then WsAgreementCancelled pda
  else if String.eqb ty "Expired" then WsAgreementExpired pda
  else if String.eqb ty "RevokeVote" then WsAgreementRevokeVote pda
  else if String.eqb ty "Revoked" then WsAgreementRevoked pda
  else if String.eqb ty "DraftReadyToSubmit" then WsDraftReady pda
  else if String.eqb ty "InvitationExpired" then WsDraftInvitationExpired pda
  else if String.eqb ty "PaymentConfirmed" then WsPaymentConfirmed pda
  else if String.eqb ty "RefundCompleted" then WsRefundCompleted pda
  else WsGenericNotification ("Event: " +:+ ty).

(** ** Statements *)

Definition set_attempts (n : Z) (r : NotificationRow) : NotificationRow :=
  mkNotification (nq_id r) (nq_event_type r) (nq_agreement_pda r) (nq_recipient_pubkey r)
    (nq_status r) n (nq_created_at r) (nq_scheduled_at r).
Definition set_nq_status (st : string) (r : NotificationRow) : NotificationRow :=
  mkNotification (nq_id r) (nq_event_type r) (nq_agreement_pda r) (nq_recipient_pubkey r)
    st (nq_attempts r) (nq_created_at r) (nq_scheduled_at r).

Definition insert_notification_stmt (id : Uuid) (event_type : string)
    (agreement_pda : option string) (recipient : string) (scheduled_at : Z) : Stmt unit :=
  insert_prepared T_notification_queue
    ["event_type"; "agreement_pda"; "recipient_pubkey"; "scheduled_at"; "status"; "attempts"]
    (fun now d =>
      match agreement_pda with
      | None => None
      | Some pda => Some (tt, set_notifications (fun t => t ++
          [mkNotification id event_type pda recipient "pending" 0 (epoch_bigint now) scheduled_at]) d)
      end).

Definition pending_jobs (now limit : Z) (d : Db) : list NotificationRow :=
  take (Z.to_nat limit) (order_by nq_scheduled_at
    (where_ (fun r => String.eqb (nq_status r) "pending" && (nq_scheduled_at r <=? now))
       (db_notifications d))).

Definition mark_sent_stmt (id : Uuid) (now : Z) : Stmt unit :=
  prepared T_notification_queue ["status"; "sent_at"]
    (execute (fun _ => set_notifications
      (update_where (fun r => uuid_eqb (nq_id r) id) (set_nq_status "sent")))).

(** [attempts + 1] outside the INT range is an error. *)
Definition increment_attempts_stmt (id : Uuid) : Stmt unit :=
  prepared T_notification_queue ["attempts"] (fun _ d =>
    if List.forallb (fun r => nq_attempts r <? 2147483647)
         (where_ (fun r => uuid_eqb (nq_id r) id) (db_notifications d))
    then Some (tt, set_notifications
      (update_where (fun r => uuid_eqb (nq_id r) id) (fun r => set_attempts (nq_attempts r + 1) r)) d)
    else None).

Section Service.
Context `{Ext, Env} (cfg : AppState).

Definition enqueue_notification (event_type : string) (agreement_pda : option string)
    (recipient_pubkey : string) : M World AppError unit :=
  let* now := now_secs in
  let* id := new_uuid in
  internal (sql (insert_notification_stmt id event_type agreement_pda recipient_pubkey now)).

Definition fetch_pending_jobs (limit : Z) : M World AppError (list NotificationRow) :=
  let* now := now_secs in
  internal (sql (query (pending_jobs now limit))).

Definition mark_sent (id : Uuid) : M World AppError unit :=
  let* now := now_secs in
  internal (sql (mark_sent_stmt id now)).

Definition increment_attempts (id : Uuid) : M World AppError unit :=
  internal (sql (increment_attempts_stmt id)).

(** [send_email]: one request to the email API; a transport error and a
    refusal are both [InternalError]. *)
Definition send_email (resend_api_key from_email recipient_email : string)
    (e : NotificationEvent) (agreement_pda : option string) : M World AppError unit := fun w =>
  let '(accepted, reported) := resend (w_tick w) in
  (if reported then Ok tt else Err InternalError,
   if accepted
   then with_effect (EEmailSent resend_api_key from_email recipient_email (NE.subject e)
          (render_email_html e agreement_pda) (render_email_text e agreement_pda)) (tick w)
   else tick w).

(** ** The worker *)

Definition wallet_user (pubkey : string) (d : Db) : option Uuid :=
  option_map aw_user_id
    (fetch_optional (where_ (fun r => String.eqb (aw_pubkey r) pubkey) (db_wallets d))).

Definition lookup_user_id {E} (pubkey : string) : M World E (option Uuid) :=
  let* r := attempt (sql (query (wallet_user pubkey))) in
  ret (match r with Ok u => u | Err _ => None end).

Definition stored_email (user : Uuid) (d : Db) : option (option bytes * option bytes) :=
  option_map (fun r => (uc_email_enc r, uc_email_nonce r))
    (fetch_optional (where_ (fun r => uuid_eqb (uc_user_id r) user
       && match uc_email_enc r with Some _ => true | None => false end) (db_contacts d))).

(** The decryption part of [lookup_user_email]. *)
Definition decrypt_email (row : option bytes * option bytes) : option string :=
  email_enc ← fst row; email_nonce ← snd row;
  key_bytes ← hex_decode (cfg_encryption_key cfg);
  key_array ← to_bytesN 32 key_bytes; nonce_array ← to_bytesN 12 email_nonce;
  res_ok (decrypt email_enc nonce_array key_array).

Definition lookup_user_email {E} (pubkey : string) : M World E (option string) :=
  let* user := lookup_user_id pubkey in
  match user with
  | None => ret None
  | Some user_id =>
      let* r := attempt (sql (query (stored_email user_id))) in
      ret (match r with Ok (Some row) => decrypt_email row | _ => None end)
  end.

(** [mark_sent], and one more attempt when that fails. *)
Definition mark_sent_or_increment {E} (id : Uuid) : M World E unit :=
  let* r := attempt (mark_sent id) in
  match r with
  | Ok _ => ret tt
  | Err _ => attempt (increment_attempts id) ;;; ret tt
  end.

(** The body of the loop over the jobs. *)
Definition process_job {E} (job : NotificationRow) : M World E unit :=
  let* user := lookup_user_id (nq_recipient_pubkey job) in
  match user with
  | None => mark_sent_or_increment (nq_id job)
  | Some user_id =>
      let* ws_delivered := send_to_user user_id (build_ws_event job) in
      let* email := lookup_user_email (nq_recipient_pubkey job) in
      match email with
      | None => mark_sent_or_increment (nq_id job)
      | Some address =>
          match NE.of_str (nq_event_type job) with
          | None => ret tt
          | Some event =>
              let* sent := attempt (send_email (cfg_resend_api_key cfg) (cfg_email_from cfg)
                address event (Some (nq_agreement_pda job))) in
              if ws_delivered || is_ok sent then mark_sent_or_increment (nq_id job)
              else attempt (increment_attempts (nq_id job)) ;;; ret tt
          end
      end
  end.

Definition degrade {E} (status : WorkerStatus) : M World E WorkerStatus := fun w =>
  let '(st, h) := transition_to_degraded status (w_health w) in (Ok st, with_health h w).

(** One iteration of the worker. *)
Definition notification_cycle {E} (status : WorkerStatus) : M World E WorkerStatus :=
  let* jobs := attempt (fetch_pending_jobs 10) in
  match jobs with
  | Err _ => degrade status
  | Ok jobs => for_each jobs process_job ;;; ret (transition_to_healthy status)
  end.
End Service.

(** ** Theorems *)

(** Everything of a job but its attempt counter. *)
Definition job_view (r : NotificationRow) : Uuid * string * string * string * string * Z :=
  (nq_id r, nq_event_type r, nq_agreement_pda r, nq_recipient_pubkey r, nq_status r,
   nq_scheduled_at r).

Definition same_jobs (d d' : Db) : Prop :=
  map job_view (db_notifications d') = map job_view (db_notifications d).

#[export] Instance same_jobs_preorder : PreOrder same_jobs.
Proof. split; [done | intros x y z Hxy Hyz; unfold same_jobs in *; congruence]. Qed.

(** The column [sent_at] does not exist. *)
Lemma mark_sent_rejected id now t d : mark_sent_stmt id now t d = None.
Proof. reflexivity. Qed.

Lemma mark_sent_stmt_keeps id now : stmt_keeps same_jobs (mark_sent_stmt id now).
Proof. intros t d a d'. by rewrite mark_sent_rejected. Qed.

Lemma increment_stmt_keeps id : stmt_keeps same_jobs (increment_attempts_stmt id).
Proof.
  apply stmt_keeps_prepared. intros now d a d'. destruct (List.forallb _ _); [|done].
  intros [= _ <-]. unfold same_jobs; cbn. by apply map_update_where.
Qed.

#[export] Hint Resolve mark_sent_stmt_keeps increment_stmt_keeps : keeps.

Section Worker.
Context `{Ext, Env} (cfg : AppState).

Lemma keeps_send_email R `{!PreOrder R} k from address e pda :
  keeps (on_db R) (send_email k from address e pda).
Proof.
  apply keeps_db_id; [typeclasses eauto|]. intros w. unfold send_email.
  by destruct (resend _) as [[] ?].
Qed.

Lemma keeps_degrade {E} R `{!PreOrder R} st : keeps (on_db R) (degrade (E:=E) st).
Proof.
  apply keeps_db_id; [typeclasses eauto|]. intros w. unfold degrade.
  by destruct (transition_to_degraded _ _).
Qed.

Lemma notification_cycle_keeps {E} st :
  keeps (on_db same_jobs) (notification_cycle cfg (E:=E) st).
Proof.
  unfold notification_cycle, fetch_pending_jobs, process_job, mark_sent_or_increment,
    mark_sent, increment_attempts, lookup_user_email, lookup_user_id, internal.
  pose proof keeps_send_email. pose proof (@keeps_degrade E).
  keeps_auto; eauto with typeclass_instances.
Qed.

(** [n] iterations of the worker. *)
Fixpoint notification_cycles (n : nat) (st : WorkerStatus) (w : World) : World :=
  match n with
  | O => w
  | S n' => let '(r, w') := notification_cycle cfg (E:=Empty_set) st w in
            notification_cycles n' (match r with Ok st' => st' | Err _ => st end) w'
  end.

(** Deliveries over a WebSocket so far. *)
Definition is_ws (e : Effect) : bool := match e with EWsDelivered _ _ => true | _ => false end.
Definition ws_sent (w : World) : list Effect := where_ is_ws (w_effects w).

(** Wallets, connections and earlier deliveries stay. *)
Definition quiet_ws (w w' : World) : Prop :=
  db_wallets (w_db w') = db_wallets (w_db w) /\ w_ws w' = w_ws w /\ ws_sent w' = ws_sent w.

#[local] Instance quiet_ws_preorder : PreOrder quiet_ws.
Proof.
  split; [done|]. intros x y z (?&?&?) (?&?&?). unfold quiet_ws. repeat split; congruence.
Qed.

Definition stmt_wallets {A} (s : Stmt A) : Prop :=
  forall now d a d', s now d = Some (a, d') -> db_wallets d' = db_wallets d.

Lemma quiet_sql {A} (s : Stmt A) : stmt_wallets s -> keeps quiet_ws (sql s).
Proof.
  intros Hs w. unfold sql, quiet_ws.
  destruct (db_fault (w_tick w)); cbn; [|done|];
    destruct (s _ _) as [[a d]|] eqn:E; cbn; eauto.
Qed.
Lemma quiet_now {E} : keeps quiet_ws (now_secs (E:=E)).
Proof. done. Qed.
Lemma quiet_email k from address e pda : keeps quiet_ws (send_email k from address e pda).
Proof. intros w. unfold send_email. by destruct (resend _) as [[] ?]. Qed.
Lemma wallets_query {A} (f : Db -> A) : stmt_wallets (query f).
Proof. intros now d a d' [= _ <-]. done. Qed.
Lemma wallets_mark id now : stmt_wallets (mark_sent_stmt id now).
Proof. intros t d a d'. by rewrite mark_sent_rejected. Qed.
Lemma wallets_increment id : stmt_wallets (increment_attempts_stmt id).
Proof.
  intros now d a d'. unfold increment_attempts_stmt. rewrite prepared_ok by reflexivity.
  destruct (List.forallb _ _); [|done]. by intros [= _ <-].
Qed.
Hint Resolve quiet_sql quiet_now quiet_email wallets_query wallets_mark wallets_increment : keeps.

Lemma lookup_user_quiet {E} pk : keeps quiet_ws (lookup_user_id (E:=E) pk).
Proof. unfold lookup_user_id. keeps_auto. Qed.
Lemma mark_or_increment_quiet {E} id : keeps quiet_ws (mark_sent_or_increment (E:=E) id).
Proof. unfold mark_sent_or_increment, mark_sent, increment_attempts, internal. keeps_auto. Qed.
Lemma lookup_email_quiet {E} pk : keeps quiet_ws (lookup_user_email cfg (E:=E) pk).
Proof. unfold lookup_user_email, lookup_user_id. keeps_auto. Qed.
Hint Resolve lookup_user_quiet mark_or_increment_quiet lookup_email_quiet : keeps.

(** One job of a connected user: exactly one delivery more. *)
Lemma process_job_delivers {E} job u w :
  db_fault (w_tick w) = DbUp ->
  wallet_user (nq_recipient_pubkey job) (w_db w) = Some u -> u ∈ w_ws w ->
  let w' := snd (process_job cfg (E:=E) job w) in
  db_wallets (w_db w') = db_wallets (w_db w) /\ w_ws w' = w_ws w /\
  ws_sent w' = EWsDelivered u (build_ws_event job) :: ws_sent w.
Proof.
  intros Hup Hu Hc. unfold process_job.
  assert (Hl : lookup_user_id (E:=E) (nq_recipient_pubkey job) w = (Ok (Some u), tick w)).
  { unfold lookup_user_id, bind, attempt. rewrite sql_query by done. by rewrite Hu. }
  erewrite bind_step by exact Hl. cbv beta iota zeta.
  erewrite bind_step.
  2:{ unfold send_to_user. rewrite bool_decide_eq_true_2 by exact Hc. reflexivity. }
  set (w1 := with_effect _ _).
  match goal with |- context [snd (?m w1)] => assert (Hq : keeps quiet_ws m) end.
  { unfold increment_attempts, internal. keeps_auto. }
  destruct (Hq w1) as (H1 & H2 & H3). cbv zeta. rewrite H1, H2, H3. done.
Qed.

Definition undelivered (job : NotificationRow) (u : Uuid) (w : World) : Prop :=
  map job_view (db_notifications (w_db w)) = [job_view job] /\
  wallet_user (nq_recipient_pubkey job) (w_db w) = Some u /\ u ∈ w_ws w.

Lemma cycle_delivers job u st w :
  (forall k, db_fault k = DbUp) -> (forall k, nq_scheduled_at job <= app_now k) ->
  nq_status job = "pending" -> undelivered job u w ->
  let w' := snd (notification_cycle cfg (E:=Empty_set) st w) in
  undelivered job u w' /\
  ws_sent w' = EWsDelivered u (build_ws_event job) :: ws_sent w.
Proof.
  intros Hup Hdue Hst (Hj & Hu & Hc).
  destruct (db_notifications (w_db w)) as [|job' [|? ?]] eqn:Ed; try discriminate Hj.
  injection Hj as Hid Hty Hpda Hrec Hstat Hsch.
  assert (Hf : attempt (F:=Empty_set) (fetch_pending_jobs 10) w
               = (Ok (Ok [job']), with_db (w_db w) (tick (tick w)))).
  { unfold attempt, fetch_pending_jobs, internal, bind, map_err. cbn.
    rewrite sql_query by apply Hup. cbn. unfold pending_jobs. cbn. rewrite Ed. cbn.
    rewrite Hstat, Hst, Hsch. cbn. rewrite (proj2 (Z.leb_le _ _) (Hdue (w_tick w))). done. }
  pose proof (notification_cycle_keeps (E:=Empty_set) st w) as Hk. cbv zeta.
  assert (Hev : build_ws_event job' = build_ws_event job).
  { unfold build_ws_event. by rewrite Hty, Hpda. }
  destruct (process_job_delivers (E:=Empty_set) job' u (with_db (w_db w) (tick (tick w))))
    as (H1 & H2 & H3); [apply Hup | by rewrite Hrec | exact Hc |].
  assert (Hrun : notification_cycle cfg (E:=Empty_set) st w =
            ((for_each [job'] (process_job cfg) ;;; ret (transition_to_healthy st))
               (with_db (w_db w) (tick (tick w))))).
  { unfold notification_cycle. by erewrite bind_step by exact Hf. }
  rewrite Hrun in *. cbn [for_each] in *. unfold bind in *.
  destruct (process_job cfg job' _) as [[[]|[]] w1]; cbn in *.
  split; [split; [|split]|].
  - rewrite Hk, Ed. cbn. unfold job_view. by rewrite Hid, Hty, Hpda, Hrec, Hstat, Hsch.
  - unfold wallet_user. by rewrite H1.
  - by rewrite H2.
  - by rewrite H3, Hev.
Qed.

(** The same notification is delivered again in every cycle.  A pending
    job of a connected user whose services all answer is delivered once per
    iteration of the worker, without end. *)
Theorem notification_redelivered (n : nat) (job : NotificationRow) (u : Uuid)
    (st : WorkerStatus) (w : World) :
  (forall k, db_fault k = DbUp) -> (forall k, nq_scheduled_at job <= app_now k) ->
  nq_status job = "pending" -> undelivered job u w ->
  length (ws_sent (notification_cycles n st w)) = (n + length (ws_sent w))%nat.
Proof.
  intros Hup Hdue Hst. revert st w. induction n as [|n IH]; intros st w Hw; cbn; [done|].
  pose proof (cycle_delivers job u st w Hup Hdue Hst Hw) as [Hw' Hs].
  destruct (notification_cycle cfg st w) as [r w'].
  cbn in Hw', Hs. rewrite IH by done. rewrite Hs. cbn. lia.
Qed.
End Worker.

(** ** Witness *)

Definition job_demo : NotificationRow :=
  mkNotification (uid x07) "Signed" "agreement" "alice" "pending" 0 0 0.

Definition world_job : World :=
  mkWorld (set_notifications (fun _ => [job_demo])
            (set_wallets (fun _ => [mkAuthWallet (uid x01) "alice" 0]) db_empty))
    0 (PH.new PH.Healthy) [uid x01] ∅ [].

Lemma notification_redelivered_witness :
  length (ws_sent (@notification_cycles ext_demo env_demo config_demo 3 Healthy world_job)) = 3%nat.
Proof.
  apply (@notification_redelivered ext_demo env_demo config_demo 3 job_demo (uid x01) Healthy world_job).
  - intros k. reflexivity.
  - intros k. cbn. lia.
  - reflexivity.
  - repeat split. left.
Defined.
