(* ===== verification/Auth.v ===== *)
(** * Auth: sign-in with a wallet, refresh tokens and logout

    The handlers [challenge], [verify], [link_wallet], [refresh] and [logout] of
    src/src/handlers/auth.rs with their statements.  Nonces and refresh tokens
    are consumed by one DELETE .. RETURNING each. *)

From Stdlib Require Import ZArith Lia.
From Stdlib Require Import Strings.Byte Strings.Ascii Strings.String.
From stdpp Require Import base tactics decidable option list strings gmap.
From S2P Require Import Prelude Text Errors Borsh SolanaTypes Health World Concrete Crypto Jwt.
From S2P Require Import Notification.

Open Scope string_scope.
Open Scope list_scope.
Open Scope Z_scope.

(** ** Requests and responses *)

Record VerifyRequest : Type := mkVerifyRequest {
  vr_pubkey : string; vr_signature : string; vr_nonce : string }.
Record LinkWalletRequest : Type := mkLinkWalletRequest {
  lw_pubkey : string; lw_signature : string; lw_nonce : string }.
Record AuthResponse : Type := mkAuthResponse { ar_access_token : string; ar_refresh_token : string }.

(** ** Statements *)

Definition nonce_is (nonce : string) (r : SiwsNonceRow) : bool := String.eqb (sn_nonce r) nonce.
Definition hash_is (h : string) (r : RefreshTokenRow) : bool := String.eqb (rt_token_hash r) h.

Definition insert_nonce_stmt (nonce : string) : Stmt unit :=
  insert_prepared T_siws_nonces ["nonce"] (fun now d =>
    if exists_row (nonce_is nonce) (db_nonces d) then None
    else Some (tt, set_nonces (fun t => t ++ [mkSiwsNonce nonce (epoch_bigint now)]) d)).

(** [created_at > extract(epoch from now()) - 300], in microseconds *)
Definition nonce_fresh (now : Z) (r : SiwsNonceRow) : bool :=
  now - 300000000 <? sn_created_at r * 1000000.

Definition consume_nonce_stmt (nonce : string) : Stmt (option string) :=
  prepared T_siws_nonces ["nonce"; "created_at"] (fun now d =>
    let due r := nonce_is nonce r && nonce_fresh now r in
    Some (option_map sn_nonce (fetch_optional (where_ due (db_nonces d))),
          set_nonces (where_ (fun r => negb (due r))) d)).

Definition insert_user_stmt (id : Uuid) : Stmt Uuid :=
  insert_prepared T_user_accounts [] (fun now d =>
    if exists_row (fun r => uuid_eqb (ua_id r) id) (db_users d) then None
    else Some (id, set_users (fun t => t ++ [mkUserAccount id None (epoch_bigint now)]) d)).

Definition insert_wallet_stmt (user : Uuid) (pubkey : string) : Stmt unit :=
  insert_prepared T_auth_wallet ["user_id"; "pubkey"] (fun now d =>
    if exists_row (fun r => String.eqb (aw_pubkey r) pubkey) (db_wallets d) then None
    else if exists_row (fun u => uuid_eqb (ua_id u) user) (db_users d) then
      Some (tt, set_wallets (fun t => t ++ [mkAuthWallet user pubkey (epoch_bigint now)]) d)
    else None).

(** [expires_at > extract(epoch from now())] *)
Definition refresh_live (now : Z) (r : RefreshTokenRow) : bool := now <? rt_expires_at r * 1000000.

Definition consume_refresh_stmt (h : string) : Stmt (option Uuid) :=
  prepared T_refresh_tokens ["token_hash"; "expires_at"; "user_id"] (fun now d =>
    let due r := hash_is h r && refresh_live now r in
    Some (option_map rt_user_id (fetch_optional (where_ due (db_refresh d))),
          set_refresh (where_ (fun r => negb (due r))) d)).

Definition delete_token_stmt (h : string) : Stmt unit :=
  prepared T_refresh_tokens ["token_hash"] (execute (fun _ =>
    set_refresh (where_ (fun r => negb (hash_is h r))))).

(** [SELECT pubkey FROM auth_wallet WHERE user_id = $1] *)
Definition wallet_of_user (user : Uuid) (d : Db) : option string :=
  option_map aw_pubkey (fetch_optional (where_ (fun r => uuid_eqb (aw_user_id r) user) (db_wallets d))).

(** ** Handlers *)

Section Handlers.
Context `{Ext, Env}.

Definition challenge : M World AppError string :=
  let* id := new_uuid in
  let nonce := uuid_to_string id in
  internal (sql (insert_nonce_stmt nonce)) ;;;
  ret nonce.

(** The first two steps of [verify] and of [link_wallet]: the nonce is spent
    before anything else is looked at, then the signature over it is checked. *)
Definition spend_nonce (nonce : string) : M World AppError unit :=
  let* row := internal (sql (consume_nonce_stmt nonce)) in
  match row with None => throw InvalidOrExpiredNonce | Some _ => ret tt end.

Definition check_signature (pubkey signature nonce : string) : result AppError unit :=
  match pubkey_from_str pubkey, signature_from_str signature with
  | Some k, Some s => if negb (signature_verify s k (as_bytes nonce)) then Err Unauthorized else Ok tt
  | _, _ => Err Unauthorized
  end.

Definition create_user : M World AppError Uuid :=
  let* id := new_uuid in
  internal (sql (insert_user_stmt id)).

(** Step 4 of the handlers. *)
Definition issue_tokens (cfg : Config) (user_id : Uuid) (pubkey : option string)
    : M World AppError AuthResponse :=
  let* access_token := issue_access_token cfg user_id pubkey in
  let* refresh_token := issue_and_store_refresh_token user_id in
  ret (mkAuthResponse access_token refresh_token).

Definition verify (cfg : Config) (body : VerifyRequest) : M World AppError AuthResponse :=
  spend_nonce (vr_nonce body) ;;;
  of_result (check_signature (vr_pubkey body) (vr_signature body) (vr_nonce body)) ;;;
  let* existing := internal (sql (query (wallet_user (vr_pubkey body)))) in
  let* user_id := match existing with
                  | Some u => ret u
                  | None =>
                      let* u := create_user in
                      internal (sql (insert_wallet_stmt u (vr_pubkey body))) ;;;
                      ret u
                  end in
  issue_tokens cfg user_id (Some (vr_pubkey body)).

Definition link_wallet (cfg : Config) (auth : AuthUser) (body : LinkWalletRequest)
    : M World AppError AuthResponse :=
  match au_pubkey auth with
  | Some _ => throw WalletAlreadyLinked
  | None =>
      spend_nonce (lw_nonce body) ;;;
      of_result (check_signature (lw_pubkey body) (lw_signature body) (lw_nonce body)) ;;;
      let* existing := internal (sql (query (wallet_user (lw_pubkey body)))) in
      match existing with
      | Some _ => throw WalletAlreadyLinked
      | None =>
          internal (sql (insert_wallet_stmt (au_user_id auth) (lw_pubkey body))) ;;;
          issue_tokens cfg (au_user_id auth) (Some (lw_pubkey body))
      end
  end.

Definition refresh (cfg : Config) (refresh_token : string) : M World AppError AuthResponse :=
  let* row := internal (sql (consume_refresh_stmt (sha256_hex refresh_token))) in
  let* user_id := of_result (ok_or row InvalidRefreshToken) in
  let* pubkey := internal (sql (query (wallet_of_user user_id))) in
  issue_tokens cfg user_id pubkey.

Definition logout (refresh_token : string) : M World AppError json :=
  internal (sql (delete_token_stmt (sha256_hex refresh_token))) ;;;
  ret (JObj [("message", JStr "Logged out successfully")]).
End Handlers.
