(* ===== verification/AuthFacts.v ===== *)
(** * AuthFacts: what sign-in with a wallet and token refresh do *)

From Stdlib Require Import ZArith Lia.
From Stdlib Require Import Strings.Byte Strings.Ascii Strings.String.
From stdpp Require Import base tactics decidable option list strings gmap.
From S2P Require Import Prelude Text Errors Borsh SolanaTypes Health World Concrete Crypto Jwt.
From S2P Require Import Notification Auth.

Open Scope string_scope.
Open Scope list_scope.
Open Scope Z_scope.

(** ** Statements *)

(** The first row of a filtered table. *)
Lemma fetch_where_Some {A} (p : A -> bool) t r :
  fetch_optional (where_ p t) = Some r -> r ∈ t /\ p r = true.
Proof. intros Hf. apply fetch_optional_Some in Hf. by apply elem_of_where. Qed.

Lemma fetch_where_None {A} (p : A -> bool) t :
  fetch_optional (where_ p t) = None -> forall r, r ∈ t -> p r = false.
Proof.
  intros Hf r Hr. destruct (p r) eqn:E; [|done]. exfalso.
  assert (Hin : r ∈ where_ p t) by (by apply elem_of_where).
  destruct (where_ p t); [by apply not_elem_of_nil in Hin | done].
Qed.

Lemma where_app {A} (p : A -> bool) t1 t2 : where_ p (t1 ++ t2) = where_ p t1 ++ where_ p t2.
Proof. unfold where_. apply List.filter_app. Qed.

Lemma where_none {A} (p : A -> bool) t : (forall r, r ∈ t -> p r = false) -> where_ p t = [].
Proof.
  intros Hn. induction t as [|r t IH]; cbn; [done|]. rewrite Hn by left.
  apply IH. intros x Hx. apply Hn. by right.
Qed.

Lemma consume_nonce_Some n now d row d' :
  consume_nonce_stmt n now d = Some (row, d') ->
  d' = set_nonces (where_ (fun r => negb (nonce_is n r && nonce_fresh now r))) d /\
  (forall x, row = Some x -> exists r, r ∈ db_nonces d /\ sn_nonce r = n /\ nonce_fresh now r = true).
Proof.
  intros [= <- <-]. split; [done|]. intros x Hx.
  destruct (fetch_optional _) as [r|] eqn:E; [|done].
  apply fetch_where_Some in E as [Hr [Hn Hf]%andb_true_iff]. apply String.eqb_eq in Hn. eauto.
Qed.

Lemma insert_user_Some id now d a d' :
  insert_user_stmt id now d = Some (a, d') ->
  a = id /\ (forall u, u ∈ db_users d -> ua_id u <> id) /\
  d' = set_users (fun t => t ++ [mkUserAccount id None (epoch_bigint now)]) d.
Proof.
  unfold insert_user_stmt, insert_prepared, prepared. cbn -[exists_row].
  destruct (exists_row _ _) eqn:E; [done|]. intros [= <- <-]. split; [done|]. split; [|done].
  intros u Hu He. cut (true = false); [done|]. rewrite <-E. symmetry. apply exists_row_spec.
  exists u. split; [done|]. by apply bool_decide_eq_true.
Qed.

Lemma insert_wallet_Some user pk now d a d' :
  insert_wallet_stmt user pk now d = Some (a, d') ->
  ((forall r, r ∈ db_wallets d -> aw_pubkey r <> pk) /\ exists u, u ∈ db_users d /\ ua_id u = user) /\
  d' = set_wallets (fun t => t ++ [mkAuthWallet user pk (epoch_bigint now)]) d.
Proof.
  unfold insert_wallet_stmt, insert_prepared, prepared. cbn -[exists_row].
  destruct (exists_row _ (db_wallets d)) eqn:E; [done|].
  destruct (exists_row _ (db_users d)) eqn:Eu; [|done]. intros [= _ <-]. split; [split|done].
  - intros r Hr He. cut (true = false); [done|]. rewrite <-E. symmetry. apply exists_row_spec.
    exists r. split; [done|]. by apply String.eqb_eq.
  - apply exists_row_spec in Eu as (u & Hu & Eu). apply bool_decide_eq_true in Eu. eauto.
Qed.

Lemma consume_refresh_Some h now d row d' :
  consume_refresh_stmt h now d = Some (row, d') ->
  d' = set_refresh (where_ (fun r => negb (hash_is h r && refresh_live now r))) d /\
  (forall u, row = Some u -> exists r, r ∈ db_refresh d /\ rt_token_hash r = h /\
     rt_user_id r = u /\ refresh_live now r = true).
Proof.
  intros [= <- <-]. split; [done|]. intros u Hu.
  destruct (fetch_optional _) as [r|] eqn:E; [|done]. injection Hu as <-.
  apply fetch_where_Some in E as [Hr [Hn Hf]%andb_true_iff]. apply String.eqb_eq in Hn. eauto 10.
Qed.

Lemma wallet_user_app pk d user us at_ :
  (forall r, r ∈ db_wallets d -> aw_pubkey r <> pk) ->
  wallet_user pk (set_wallets (fun t => t ++ [mkAuthWallet user pk at_]) (set_users us d)) = Some user.
Proof.
  intros Hn. unfold wallet_user. cbn [set_wallets set_users db_wallets].
  rewrite where_app, where_none; [|intros r Hr; by apply String.eqb_neq, Hn].
  cbn. by rewrite String.eqb_refl.
Qed.

(** The first wallet of a user stays the first. *)
Lemma wallet_of_user_app user first d row :
  wallet_of_user user d = Some first ->
  wallet_of_user user (set_wallets (fun t => t ++ [row]) d) = Some first.
Proof.
  unfold wallet_of_user. cbn [set_wallets db_wallets]. rewrite where_app.
  destruct (where_ _ (db_wallets d)) as [|x l]; [done | by intros [= <-]].
Qed.

(** ** Steps shared by the handlers *)

Section Facts.
Context `{Ext, Env}.

(** The nonce of a successful check was in the table and fresh; the check
    removed it. *)
Definition nonce_spent (n : string) (w w' : World) : Prop :=
  (exists r, r ∈ db_nonces (w_db w) /\ sn_nonce r = n /\ nonce_fresh (db_now (w_tick w)) r = true) /\
  w_db w' = set_nonces (where_ (fun r => negb (nonce_is n r && nonce_fresh (db_now (w_tick w)) r)))
              (w_db w).

Lemma spend_nonce_Ok n w a w' : spend_nonce n w = (Ok a, w') -> nonce_spent n w w'.
Proof.
  intros Hs. unfold spend_nonce, internal in Hs. run_inv.
  destruct a0 as [x|]; [|discriminate Hs]. injection Hs as <- <-.
  apply sql_Ok in Hs0 as (d & Hd & ->). apply consume_nonce_Some in Hd as [-> Hx].
  split; [by apply (Hx x) | done].
Qed.

Lemma spend_nonce_runs n w :
  db_up_from (w_tick w) ->
  (exists r, r ∈ db_nonces (w_db w) /\ sn_nonce r = n /\ nonce_fresh (db_now (w_tick w)) r = true) ->
  spend_nonce n w = (Ok tt, with_db (set_nonces (where_ (fun r =>
    negb (nonce_is n r && nonce_fresh (db_now (w_tick w)) r))) (w_db w)) (tick w)).
Proof.
  intros Hup (r & Hr & Hn & Hf). unfold spend_nonce.
  erewrite bind_step; [|apply map_err_step, sql_up; [by apply Hup | reflexivity]].
  destruct (fetch_optional _) as [x|] eqn:E; [done|].
  pose proof (fetch_where_None _ _ E r Hr) as Hx. unfold nonce_is in Hx.
  by rewrite Hn, String.eqb_refl, Hf in Hx.
Qed.

Lemma check_signature_Ok pk sg n u :
  check_signature pk sg n = Ok u ->
  exists k s, pubkey_from_str pk = Some k /\ signature_from_str sg = Some s /\
    signature_verify s k (as_bytes n) = true.
Proof.
  unfold check_signature. destruct (pubkey_from_str pk) as [k|]; [|done].
  destruct (signature_from_str sg) as [s|]; [|done].
  destruct (signature_verify _ _ _) eqn:E; cbn; [|done]. eauto.
Qed.

(** The tokens of an answer: the access token names the user and the wallet,
    and the refresh token is stored by its hash, for seven days. *)
Definition tokens_issued (cfg : Config) (user : Uuid) (pubkey : option string)
    (resp : AuthResponse) (w w' : World) : Prop :=
  (exists exp iat jti, jwt_encode (cfg_jwt_secret cfg) (mkClaims user pubkey exp iat jti)
     = Some (ar_access_token resp)) /\
  exists now, ((forall r, r ∈ db_refresh (w_db w) -> rt_token_hash r <> sha256_hex (ar_refresh_token resp))
      /\ exists k, ar_refresh_token resp = hex_encode (random_bytes k 32)) /\
    w_db w' = set_refresh (fun t => t ++ [mkRefreshToken (sha256_hex (ar_refresh_token resp)) user
                now (i64_wrap (now + 604800))]) (w_db w).

Lemma issue_tokens_Ok cfg user pk w resp w' :
  issue_tokens cfg user pk w = (Ok resp, w') -> tokens_issued cfg user pk resp w w'.
Proof.
  intros Hi. unfold issue_tokens in Hi. run_inv. subst.
  apply issue_access_token_Ok in Hs as (Hd & jti & Hj).
  apply issue_refresh_Ok in Hs0 as (Hn & _ & k & now & Hk & _ & Hd').
  split; [eauto|]. rewrite Hd in Hn, Hd'. exists now. split; [eauto|]. by rewrite Hd'.
Qed.

Lemma create_user_Ok w u w' :
  create_user w = (Ok u, w') ->
  (forall r, r ∈ db_users (w_db w) -> ua_id r <> u) /\
  exists at_, w_db w' = set_users (fun t => t ++ [mkUserAccount u None at_]) (w_db w).
Proof.
  intros Hc. unfold create_user, internal in Hc. world_inv. subst.
  apply sql_Ok in Hc as (d & Hd & ->). apply insert_user_Some in Hd as (-> & Hn & ->). eauto.
Qed.

(** Who a wallet signs in as: its user, or a new one. *)
Definition wallet_signed_in (pk : string) (user : Uuid) (d d' : Db) : Prop :=
  (wallet_user pk d = Some user /\ d' = d) \/
  (wallet_user pk d = None /\ (forall r, r ∈ db_users d -> ua_id r <> user) /\
   exists t1 t2, d' = set_wallets (fun t => t ++ [mkAuthWallet user pk t2])
                   (set_users (fun t => t ++ [mkUserAccount user None t1]) d)).

Lemma wallet_signed_in_user pk user d d' :
  wallet_signed_in pk user d d' -> wallet_user pk d' = Some user.
Proof.
  intros [[Hu ->]|(Hu & _ & t1 & t2 & ->)]; [done|]. apply wallet_user_app.
  unfold wallet_user in Hu. destruct (fetch_optional _) as [r|] eqn:E; [done|].
  intros r Hr He. pose proof (fetch_where_None _ _ E r Hr) as Hf.
  apply String.eqb_neq in Hf. done.
Qed.

Lemma verify_run cfg body w resp w' :
  verify cfg body w = (Ok resp, w') ->
  exists w1 w2 user, nonce_spent (vr_nonce body) w w1 /\
    (exists u, check_signature (vr_pubkey body) (vr_signature body) (vr_nonce body) = Ok u) /\
    wallet_signed_in (vr_pubkey body) user (w_db w1) (w_db w2) /\
    tokens_issued cfg user (Some (vr_pubkey body)) resp w2 w'.
Proof.
  intros Hv. unfold verify, internal in Hv. world_inv. subst.
  match goal with Hq : spend_nonce _ _ = _ |- _ => apply spend_nonce_Ok in Hq; rename Hq into Hn end.
  match goal with Hq : issue_tokens _ _ _ _ = _ |- _ => apply issue_tokens_Ok in Hq; rename Hq into Ht end.
  do 3 eexists. split; [exact Hn|]. split; [eauto|]. split; [|exact Ht].
  destruct (wallet_user (vr_pubkey body) _) as [u|] eqn:E.
  - run_inv. subst. left. by split.
  - run_inv. subst.
    match goal with Hq : create_user _ = _ |- _ => apply create_user_Ok in Hq as (Hf & t1 & Hd) end.
    match goal with Hq : sql (insert_wallet_stmt _ _) _ = _ |- _ =>
      apply sql_Ok in Hq as (d & Hi & ->) end.
    apply insert_wallet_Some in Hi as [_ ->]. right. split; [done|]. split; [done|].
    eexists _, _. cbn. by rewrite Hd.
Qed.

Lemma link_wallet_run cfg auth body w resp w' :
  link_wallet cfg auth body w = (Ok resp, w') ->
  au_pubkey auth = None /\ wallet_user (lw_pubkey body) (w_db w) = None /\
  exists w1 w2 at_, nonce_spent (lw_nonce body) w w1 /\
    (exists u, check_signature (lw_pubkey body) (lw_signature body) (lw_nonce body) = Ok u) /\
    w_db w2 = set_wallets (fun t => t ++ [mkAuthWallet (au_user_id auth) (lw_pubkey body) at_])
                (w_db w1) /\
    tokens_issued cfg (au_user_id auth) (Some (lw_pubkey body)) resp w2 w'.
Proof.
  intros Hv. unfold link_wallet, internal in Hv. destruct (au_pubkey auth); [discriminate Hv|].
  world_inv. subst.
  match goal with Hq : spend_nonce _ _ = _ |- _ => apply spend_nonce_Ok in Hq; rename Hq into Hn end.
  destruct (wallet_user (lw_pubkey body) _) as [u|] eqn:E; [discriminate Hv|]. run_inv. subst.
  match goal with Hq : sql (insert_wallet_stmt _ _) _ = _ |- _ =>
    apply sql_Ok in Hq as (d & Hi & ->) end.
  apply insert_wallet_Some in Hi as [_ ->].
  split; [done|]. split; [destruct Hn as [_ Hd]; rewrite Hd in E; exact E|].
  do 3 eexists. split; [exact Hn|]. split; [eauto|].
  split; [|exact (issue_tokens_Ok _ _ _ _ _ _ Hv)]; reflexivity.
Qed.

(** C4: what a sign-in with a wallet means.  An answer of [verify] implies that
    the nonce was stored and less than 300 seconds old, and is gone
    afterwards; that the signature over the nonce verifies under the key of the
    request; and that both tokens belong to the user of this wallet, who is the
    user linked to it before, or a new user when there was none.  The refresh
    token itself is not stored, only its hash. *)
Theorem verify_authenticates (cfg : Config) (body : VerifyRequest) (w w' : World)
    (resp : AuthResponse) :
  verify cfg body w = (Ok resp, w') ->
  (exists r, r ∈ db_nonces (w_db w) /\ sn_nonce r = vr_nonce body /\
     db_now (w_tick w) - 300000000 < sn_created_at r * 1000000) /\
  (forall r, r ∈ db_nonces (w_db w') -> sn_nonce r = vr_nonce body ->
     sn_created_at r * 1000000 <= db_now (w_tick w) - 300000000) /\
  (exists k s, pubkey_from_str (vr_pubkey body) = Some k /\
     signature_from_str (vr_signature body) = Some s /\
     signature_verify s k (as_bytes (vr_nonce body)) = true) /\
  exists user, wallet_user (vr_pubkey body) (w_db w') = Some user /\
    (forall u, wallet_user (vr_pubkey body) (w_db w) = Some u -> user = u) /\
    (exists exp iat jti, jwt_encode (cfg_jwt_secret cfg)
       (mkClaims user (Some (vr_pubkey body)) exp iat jti) = Some (ar_access_token resp)) /\
    exists now, db_refresh (w_db w') = db_refresh (w_db w) ++
      [mkRefreshToken (sha256_hex (ar_refresh_token resp)) user now (i64_wrap (now + 604800))].
Proof.
  intros (w1 & w2 & user & [Hr Hd1] & [u Hc] & Hsig & Htok & now & _ & Hd')%verify_run.
  split; [|split; [|split]].
  - destruct Hr as (r & ? & ? & Hf). exists r. split; [done|]. split; [done|]. by apply Z.ltb_lt in Hf.
  - intros r Hin Hn. rewrite Hd' in Hin. cbn [set_refresh db_nonces] in Hin.
    assert (E : db_nonces (w_db w2) = db_nonces (w_db w1)).
    { by destruct Hsig as [[_ ->]|(_ & _ & t1 & t2 & ->)]. }
    rewrite E, Hd1 in Hin. cbn in Hin. apply elem_of_where in Hin as [_ Hin].
    unfold nonce_is in Hin. rewrite Hn, String.eqb_refl in Hin. cbn in Hin.
    apply negb_true_iff, Z.ltb_ge in Hin. lia.
  - by eapply check_signature_Ok.
  - exists user. pose proof (wallet_signed_in_user _ _ _ _ Hsig) as Hu.
    split; [by rewrite Hd'|]. split; [|split; [done|]].
    + intros u' Hu'. assert (Ew : wallet_user (vr_pubkey body) (w_db w1)
        = wallet_user (vr_pubkey body) (w_db w)) by (by rewrite Hd1).
      destruct Hsig as [[E _]|(E & _)]; congruence.
    + exists now. rewrite Hd'. cbn. f_equal.
      destruct Hsig as [[_ ->]|(_ & _ & t1 & t2 & ->)]; cbn; by rewrite Hd1.
Qed.

(** ** Refresh *)

Lemma refresh_run cfg token w resp w' :
  refresh cfg token w = (Ok resp, w') ->
  exists r w1, r ∈ db_refresh (w_db w) /\ rt_token_hash r = sha256_hex token /\
    refresh_live (db_now (w_tick w)) r = true /\
    w_db w1 = set_refresh (where_ (fun r => negb (hash_is (sha256_hex token) r
                && refresh_live (db_now (w_tick w)) r))) (w_db w) /\
    tokens_issued cfg (rt_user_id r) (wallet_of_user (rt_user_id r) (w_db w)) resp w1 w'.
Proof.
  intros Hv. unfold refresh, internal in Hv. run_inv. subst.
  match goal with Hq : sql (consume_refresh_stmt _) _ = _ |- _ =>
    apply sql_Ok in Hq as (d & Hd & ->) end.
  apply consume_refresh_Some in Hd as [-> Hu]. destruct (Hu _ eq_refl) as (r & Hr & Hh & <- & Hl).
  world_inv. subst. exists r. eexists. split; [done|]. split; [done|]. split; [done|].
  match goal with Hq : issue_tokens _ _ _ _ = _ |- _ => apply issue_tokens_Ok in Hq; rename Hq into Ht end.
  split; [|exact Ht]. done.
Qed.

(** A refresh token is good for one rotation of one session.  When
    [refresh] answers, the token's hash was stored and not expired; its live
    row is gone afterwards and the only new row is the one of the token
    answered, of the same user and for seven days; users, wallets and nonces
    are untouched; and the new access token names the wallet the user has
    now. *)
Theorem refresh_rotates (cfg : Config) (token : string) (w w' : World) (resp : AuthResponse) :
  refresh cfg token w = (Ok resp, w') ->
  exists r now, r ∈ db_refresh (w_db w) /\ rt_token_hash r = sha256_hex token /\
    db_now (w_tick w) < rt_expires_at r * 1000000 /\
    (exists exp iat jti, jwt_encode (cfg_jwt_secret cfg)
       (mkClaims (rt_user_id r) (wallet_of_user (rt_user_id r) (w_db w)) exp iat jti)
       = Some (ar_access_token resp)) /\
    w_db w' = set_refresh (fun t =>
      where_ (fun r => negb (hash_is (sha256_hex token) r && refresh_live (db_now (w_tick w)) r)) t ++
      [mkRefreshToken (sha256_hex (ar_refresh_token resp)) (rt_user_id r) now
         (i64_wrap (now + 604800))]) (w_db w).
Proof.
  intros (r & w1 & Hr & Hh & Hl & Hd & Hj & now & _ & Hd')%refresh_run.
  exists r, now. split; [done|]. split; [done|]. split; [by apply Z.ltb_lt in Hl|].
  split; [done|]. by rewrite Hd', Hd.
Qed.
(** ** A second wallet *)

Lemma insert_wallet_runs user pk now d :
  (exists u, u ∈ db_users d /\ ua_id u = user) ->
  (forall r, r ∈ db_wallets d -> aw_pubkey r <> pk) ->
  insert_wallet_stmt user pk now d =
    Some (tt, set_wallets (fun t => t ++ [mkAuthWallet user pk (epoch_bigint now)]) d).
Proof.
  intros (u & Hu & He) Hn. unfold insert_wallet_stmt, insert_prepared, prepared. cbn -[exists_row].
  destruct (exists_row _ (db_wallets d)) eqn:E.
  { apply exists_row_spec in E as (r & Hr & E). apply String.eqb_eq in E. by destruct (Hn r Hr). }
  rewrite (proj2 (exists_row_spec (fun u => uuid_eqb (ua_id u) user) _)); [done|].
  exists u. split; [done|]. by apply bool_decide_eq_true.
Qed.

Lemma insert_refresh_runs user h ex cr now d :
  (exists u, u ∈ db_users d /\ ua_id u = user) ->
  (forall r, r ∈ db_refresh d -> rt_token_hash r <> h) ->
  insert_refresh_stmt user h ex cr now d =
    Some (tt, set_refresh (fun t => t ++ [mkRefreshToken h user cr ex]) d).
Proof.
  intros (u & Hu & He) Hn. unfold insert_refresh_stmt, insert_prepared, prepared. cbn -[exists_row].
  destruct (exists_row _ (db_refresh d)) eqn:E.
  { apply exists_row_spec in E as (r & Hr & E). apply String.eqb_eq in E. by destruct (Hn r Hr). }
  rewrite (proj2 (exists_row_spec (fun u => uuid_eqb (ua_id u) user) _)); [done|].
  exists u. split; [done|]. by apply bool_decide_eq_true.
Qed.

(** The conditions under which tokens can be issued: the token library encodes
    every claim, the user exists, and the random tokens to come are new. *)
Definition can_issue (user : Uuid) (w : World) : Prop :=
  (forall secret c, is_Some (jwt_encode secret c)) /\
  (exists u, u ∈ db_users (w_db w) /\ ua_id u = user) /\
  (forall k r, (w_tick w <= k)%nat -> r ∈ db_refresh (w_db w) ->
     rt_token_hash r <> sha256_hex (hex_encode (random_bytes k 32))).

Lemma issue_tokens_runs cfg user pk w :
  db_up_from (w_tick w) -> can_issue user w ->
  exists resp w', issue_tokens cfg user pk w = (Ok resp, w') /\ db_up_from (w_tick w') /\
    exists k, (w_tick w <= k)%nat /\ ar_refresh_token resp = hex_encode (random_bytes k 32).
Proof.
  intros Hup (Hj & Hu & Hn). unfold issue_tokens.
  destruct (Hj (cfg_jwt_secret cfg) (mkClaims user pk
    (u64_wrap (app_now (w_tick w) + cfg_jwt_access_expiry_seconds cfg)) (app_now (w_tick w))
    (fresh_uuid (S (w_tick w))))) as [token Hjt].
  erewrite bind_step; [|unfold issue_access_token; erewrite bind_step by reflexivity;
    erewrite bind_step by reflexivity; unfold of_result; cbn [w_tick tick]; by rewrite Hjt].
  unfold issue_and_store_refresh_token. eexists _, _. split.
  - erewrite bind_step; [reflexivity|]. erewrite bind_step by reflexivity.
    erewrite bind_step by reflexivity. erewrite bind_step; [reflexivity|].
    apply map_err_step, sql_up; [apply Hup; cbn; lia|]. apply insert_refresh_runs; [exact Hu | intros r Hr; apply Hn; [cbn; lia | exact Hr]].
  - split; [intros k Hk; apply Hup; cbn in Hk; lia|]. eexists. split; [|reflexivity]. cbn. lia.
Qed.

(** A token without a wallet links any number of wallets, and the first one
    wins.  [link_wallet] means to serve users without a wallet, but it looks at
    the token only, and tokens from an OAuth sign-in never name a wallet: with
    the database up, a fresh nonce and a good signature, it links a further
    wallet to a user who has one.  The tokens answered name the new wallet; the
    session's next refresh goes back to the old one. *)
Theorem second_wallet_linked (cfg : Config) (auth : AuthUser) (body : LinkWalletRequest)
    (first : string) (w : World) :
  db_up_from (w_tick w) -> can_issue (au_user_id auth) w ->
  au_pubkey auth = None -> wallet_of_user (au_user_id auth) (w_db w) = Some first ->
  (exists r, r ∈ db_nonces (w_db w) /\ sn_nonce r = lw_nonce body /\
     nonce_fresh (db_now (w_tick w)) r = true) ->
  check_signature (lw_pubkey body) (lw_signature body) (lw_nonce body) = Ok tt ->
  wallet_user (lw_pubkey body) (w_db w) = None ->
  exists resp w', link_wallet cfg auth body w = (Ok resp, w') /\
    (exists at_, db_wallets (w_db w') = db_wallets (w_db w) ++
       [mkAuthWallet (au_user_id auth) (lw_pubkey body) at_]) /\
    (exists exp iat jti, jwt_encode (cfg_jwt_secret cfg)
       (mkClaims (au_user_id auth) (Some (lw_pubkey body)) exp iat jti) = Some (ar_access_token resp)) /\
    forall resp2 w2, refresh cfg (ar_refresh_token resp) w' = (Ok resp2, w2) ->
      exists exp iat jti, jwt_encode (cfg_jwt_secret cfg)
        (mkClaims (au_user_id auth) (Some first) exp iat jti) = Some (ar_access_token resp2).
Proof.
  intros Hup Hcan Hnone Hfirst Hnonce Hsig Hfree.
  destruct auth as [user pk]. cbn [au_pubkey au_user_id] in *. subst pk.
  set (w1 := with_db (set_nonces (where_ (fun r => negb (nonce_is (lw_nonce body) r
               && nonce_fresh (db_now (w_tick w)) r))) (w_db w)) (tick w)).
  assert (Hspend : spend_nonce (lw_nonce body) w = (Ok tt, w1)) by by apply spend_nonce_runs.
  assert (Hno : forall r, r ∈ db_wallets (w_db w) -> aw_pubkey r <> lw_pubkey body).
  { intros r Hr. apply String.eqb_neq. unfold wallet_user in Hfree.
    destruct (fetch_optional _) eqn:E; [done|]. exact (fetch_where_None _ _ E r Hr). }
  set (at_ := epoch_bigint (db_now (S (S (w_tick w))))).
  set (w2 := with_db (set_wallets (fun t => t ++ [mkAuthWallet user (lw_pubkey body) at_]) (w_db w1))
               (tick (tick w1))).
  assert (Hins : internal (sql (insert_wallet_stmt user (lw_pubkey body))) (tick w1) = (Ok tt, w2)).
  { apply map_err_step, sql_up; [apply Hup; cbn; lia|]. apply insert_wallet_runs; [apply Hcan | done]. }
  destruct (issue_tokens_runs cfg user (Some (lw_pubkey body)) w2) as (resp & w' & Hi & _).
  { intros k Hk. apply Hup. cbn in Hk. lia. }
  { destruct Hcan as (Hj & Hu & Hn). do 2 (split; [done|]). intros k r Hk. apply Hn. cbn in Hk. lia. }
  exists resp, w'. pose proof (issue_tokens_Ok _ _ _ _ _ _ Hi) as (Hj & now & [Hfresh _] & Hd).
  split; [|split; [|split]].
  - unfold link_wallet. cbn [au_pubkey au_user_id]. rewrite (bind_step _ _ _ _ _ Hspend).
    rewrite Hsig. erewrite bind_step by reflexivity.
    erewrite bind_step by (apply map_err_step, sql_query; apply Hup; cbn; lia).
    change (wallet_user (lw_pubkey body) (w_db w1)) with (wallet_user (lw_pubkey body) (w_db w)).
    rewrite Hfree. by rewrite (bind_step _ _ _ _ _ Hins).
  - exists at_. by rewrite Hd.
  - done.
  - intros resp2 w3 Hr. apply refresh_run in Hr as (r & wr & Hin & Hh & _ & _ & Ht & _).
    assert (Hu : rt_user_id r = user).
    { rewrite Hd in Hin. cbn in Hin. apply elem_of_app in Hin as [Hin|Hin].
      - by destruct (Hfresh r Hin).
      - apply list_elem_of_singleton in Hin. by subst r. }
    rewrite Hu in Ht. rewrite Hd in Ht.
    assert (Hw : wallet_of_user user (set_refresh (fun t => t ++ [mkRefreshToken
      (sha256_hex (ar_refresh_token resp)) user now (i64_wrap (now + 604800))]) (w_db w2))
      = Some first) by by apply wallet_of_user_app.
    rewrite Hw in Ht. exact Ht.
Qed.
End Facts.

(** ** Concrete runs *)

Definition wallet_text : string := hex_demo (bn_bytes (key x05)).
(** The signature of the nonce "n1" under [key x05] in the demonstration. *)
Definition signature_text : string :=
  string_of_list_byte (pad_to 4 (bn_bytes (key x05)) ++ as_bytes "n1").
(** A user with the wallet "first", a fresh nonce and a refresh token "t". *)
Definition db_accounts : Db :=
  set_refresh (fun _ => [mkRefreshToken (@sha256_hex ext_demo "t") (uid x01) 900 600900])
    (set_nonces (fun _ => [mkSiwsNonce "n1" 900])
       (set_wallets (fun _ => [mkAuthWallet (uid x01) "first" 900])
          (set_users (fun _ => [mkUserAccount (uid x01) None 900]) db_empty))).

Lemma verify_authenticates_witness :
  exists resp w', @verify ext_demo env_demo config_demo
      (mkVerifyRequest wallet_text signature_text "n1") (world_demo db_accounts) = (Ok resp, w') /\
    exists user, wallet_user wallet_text (w_db w') = Some user.
Proof.
  destruct (@verify ext_demo env_demo config_demo
      (mkVerifyRequest wallet_text signature_text "n1") (world_demo db_accounts))
    as [[resp|e] w'] eqn:E; [|vm_compute in E; discriminate E].
  exists resp, w'. split; [reflexivity|].
  destruct (@verify_authenticates ext_demo env_demo config_demo
    (mkVerifyRequest wallet_text signature_text "n1") (world_demo db_accounts) w' resp E)
    as (_ & _ & _ & user & Hu & _).
  exists user. exact Hu.
Defined.

Lemma refresh_rotates_witness :
  exists resp w' now, @refresh ext_demo env_demo config_demo "t" (world_demo db_accounts)
      = (Ok resp, w') /\
    db_refresh (w_db w') = [mkRefreshToken (@sha256_hex ext_demo (ar_refresh_token resp)) (uid x01) now
      (i64_wrap (now + 604800))].
Proof.
  destruct (@refresh ext_demo env_demo config_demo "t" (world_demo db_accounts))
    as [[resp|e] w'] eqn:E; [|vm_compute in E; discriminate E].
  destruct (@refresh_rotates ext_demo env_demo config_demo "t" (world_demo db_accounts) w' resp E)
    as (r & now & Hr & _ & _ & _ & Hd).
  exists resp, w', now. split; [reflexivity|]. apply list_elem_of_singleton in Hr. subst r.
  rewrite Hd. reflexivity.
Defined.

Lemma second_wallet_linked_witness :
  exists resp w', @link_wallet ext_demo env_demo config_demo (mkAuthUser (uid x01) None)
      (mkLinkWalletRequest wallet_text signature_text "n1") (world_demo (set_refresh (fun _ => []) db_accounts)) = (Ok resp, w') /\
    exists at_, db_wallets (w_db w') =
      [mkAuthWallet (uid x01) "first" 900; mkAuthWallet (uid x01) wallet_text at_].
Proof.
  destruct (@second_wallet_linked ext_demo env_demo config_demo (mkAuthUser (uid x01) None)
    (mkLinkWalletRequest wallet_text signature_text "n1") "first" (world_demo (set_refresh (fun _ => []) db_accounts)))
    as (resp & w' & Hl & Hw & _).
  - intros k _. reflexivity.
  - split; [by eexists|]. split; [eexists; split; [left | reflexivity]|].
    intros k r _ Hr. by apply not_elem_of_nil in Hr.
  - reflexivity.
  - vm_compute. reflexivity.
  - exists (mkSiwsNonce "n1" 900). split; [left | split; reflexivity].
  - vm_compute. reflexivity.
  - vm_compute. reflexivity.
  - exists resp, w'. split; [exact Hl | exact Hw].
Defined.
