(* ===== verification/OAuth.v ===== *)
(** * OAuth: sign-in through Google and Microsoft

    The OAuth part of src/src/handlers/auth.rs: the provider tables, the
    redirect with its state cookie, the exchange of the code, the resolution of
    the identity to a user, and the callback. *)

From Stdlib Require Import ZArith Lia.
From Stdlib Require Import Strings.Byte Strings.Ascii Strings.String.
From stdpp Require Import base tactics decidable option list strings gmap.
From S2P Require Import Prelude Text Errors Borsh SolanaTypes Health World Concrete Crypto Jwt.
From S2P Require Import Notification Auth AuthFacts.

Open Scope string_scope.
Open Scope list_scope.
Open Scope Z_scope.

(** ** Providers *)

Inductive OAuthProvider : Type := Google | Microsoft.

#[export] Instance OAuthProvider_eq_dec : EqDecision OAuthProvider.
Proof. solve_decision. Defined.

Definition provider_str (p : OAuthProvider) : string :=
  match p with Google => "google" | Microsoft => "microsoft" end.

Definition auth_url (cfg : Config) (p : OAuthProvider) : string :=
  match p with
  | Google => "https://accounts.google.com/o/oauth2/v2/auth"
  | Microsoft => "https://login.microsoftonline.com/" +:+ cfg_microsoft_tenant cfg
                 +:+ "/oauth2/v2.0/authorize"
  end.

Definition token_url (cfg : Config) (p : OAuthProvider) : string :=
  match p with
  | Google => "https://oauth2.googleapis.com/token"
  | Microsoft => "https://login.microsoftonline.com/" +:+ cfg_microsoft_tenant cfg
                 +:+ "/oauth2/v2.0/token"
  end.

Definition profile_url (p : OAuthProvider) : string :=
  match p with
  | Google => "https://openidconnect.googleapis.com/v1/userinfo"
  | Microsoft => "https://graph.microsoft.com/oidc/userinfo"
  end.

Definition client_id (cfg : Config) (p : OAuthProvider) : string :=
  match p with Google => cfg_google_client_id cfg | Microsoft => cfg_microsoft_client_id cfg end.
Definition client_secret (cfg : Config) (p : OAuthProvider) : string :=
  match p with Google => cfg_google_client_secret cfg | Microsoft => cfg_microsoft_client_secret cfg end.
Definition redirect_uri (cfg : Config) (p : OAuthProvider) : string :=
  match p with Google => cfg_google_redirect_uri cfg | Microsoft => cfg_microsoft_redirect_uri cfg end.
Definition scopes : list string := ["openid"; "email"; "profile"].
Definition state_cookie_name (p : OAuthProvider) : string :=
  match p with Google => "oauth_google_state" | Microsoft => "oauth_microsoft_state" end.

(** ** The state cookie *)

Inductive SameSite : Type := Strict | Lax | SameSiteNone.
Record Cookie : Type := mkCookie {
  ck_name : string; ck_value : string; ck_http_only : bool; ck_secure : bool;
  ck_same_site : SameSite; ck_path : string; ck_max_age_secs : Z }.

(** The cookies of a request: their names and values. *)
Definition CookieJar : Type := list (string * string).

Definition build_oauth_state_cookie (name state : string) : Cookie :=
  mkCookie name state true true Lax "/" 600.

Definition validate_oauth_state_cookie (jar : CookieJar) (p : OAuthProvider) (query_state : string)
    : result AppError unit :=
  match assoc (state_cookie_name p) jar with
  | None => Err Unauthorized
  | Some cookie_state =>
      if negb (String.eqb cookie_state query_state) then Err Unauthorized else Ok tt
  end.

(** ** Identities and their resolution *)

Record OAuthIdentity : Type := mkIdentity { oi_provider_id : string; oi_email : string }.
Record EmailConflictDetails : Type := mkConflict { ec_existing_provider : string; ec_link_url : string }.
Inductive OAuthUserResolution : Type :=
| ResolvedUser (user : Uuid)
| ResolvedConflict (c : EmailConflictDetails).

Definition detect_email_conflict (existing_provider current_provider : string)
    : option EmailConflictDetails :=
  if eq_ignore_ascii_case existing_provider current_provider then None
  else Some (mkConflict existing_provider "/auth/link/oauth").

(** [value.get(k1).or_else(|| value.get(k2))..]: the first key present, then
    its text *)
Fixpoint get_first (keys : list string) (j : json) : option json :=
  match keys with
  | [] => None
  | k :: keys' => match json_get k j with Some v => Some v | None => get_first keys' j end
  end.

(** *** Statements *)

Definition oauth_is (provider provider_id : string) (r : AuthOauthRow) : bool :=
  String.eqb (ao_provider r) provider && String.eqb (ao_provider_id r) provider_id.

Definition oauth_user (provider provider_id : string) (d : Db) : option Uuid :=
  option_map ao_user_id (fetch_optional (where_ (oauth_is provider provider_id) (db_oauth d))).

Definition index_is (email_index : bytes) (r : UserContactRow) : bool :=
  match uc_email_index r with Some i => bytes_eqb i email_index | None => false end.

(** [user_contacts uc INNER JOIN auth_oauth ao ON ao.user_id = uc.user_id
    WHERE uc.email_index = $1] *)
Definition sign_ins_with_email (email_index : bytes) (d : Db) : list AuthOauthRow :=
  List.flat_map (fun uc => where_ (fun ao => uuid_eqb (ao_user_id ao) (uc_user_id uc)) (db_oauth d))
    (where_ (index_is email_index) (db_contacts d)).

Definition other_provider (email_index : bytes) (provider : string) (d : Db) : option string :=
  option_map ao_provider (fetch_optional
    (where_ (fun ao => negb (String.eqb (ao_provider ao) provider)) (sign_ins_with_email email_index d))).

Definition same_provider_user (email_index : bytes) (provider : string) (d : Db) : option Uuid :=
  option_map ao_user_id (fetch_optional
    (where_ (fun ao => String.eqb (ao_provider ao) provider) (sign_ins_with_email email_index d))).

Definition user_exists (user : Uuid) (d : Db) : bool :=
  exists_row (fun u => uuid_eqb (ua_id u) user) (db_users d).

Definition set_oauth_user (user : Uuid) (r : AuthOauthRow) : AuthOauthRow :=
  mkAuthOauth user (ao_provider r) (ao_provider_id r) (ao_linked_at r).

Definition upsert_oauth_stmt (user : Uuid) (provider provider_id : string) : Stmt unit :=
  insert_prepared T_auth_oauth ["user_id"; "provider"; "provider_id"] (fun now d =>
    if negb (user_exists user d) then None
    else if exists_row (oauth_is provider provider_id) (db_oauth d) then
      Some (tt, set_oauth (update_where (oauth_is provider provider_id) (set_oauth_user user)) d)
    else Some (tt, set_oauth (fun t => t ++
           [mkAuthOauth user provider provider_id (epoch_bigint now)]) d)).

Definition contact_is (user : Uuid) (r : UserContactRow) : bool := uuid_eqb (uc_user_id r) user.

Definition set_email (enc nonce index : bytes) (at_ : Z) (r : UserContactRow) : UserContactRow :=
  mkUserContact (uc_user_id r) (Some enc) (Some nonce) (Some index) (uc_phone_enc r)
    (uc_phone_nonce r) (uc_push_token_enc r) (uc_push_token_nonce r) at_.

Definition upsert_email_stmt (user : Uuid) (enc nonce index : bytes) : Stmt unit :=
  insert_prepared T_user_contacts ["user_id"; "email_enc"; "email_nonce"; "email_index"; "updated_at"]
    (fun now d =>
      if negb (user_exists user d) then None
      else if exists_row (contact_is user) (db_contacts d) then
        Some (tt, set_contacts (update_where (contact_is user)
          (set_email enc nonce index (epoch_bigint now))) d)
      else Some (tt, set_contacts (fun t => t ++
        [mkUserContact user (Some enc) (Some nonce) (Some index) None None None None
           (epoch_bigint now)]) d)).

(** ** Handlers *)

Record OAuthCallbackQuery : Type := mkCallbackQuery { cq_code : string; cq_state : string }.

(** The responses of the redirect and of the callback. *)
Inductive OAuthRedirect : Type :=
| RedirectTo (cookie : Cookie) (url : string)
| RedirectFailed (status : nat) (body : json).
Inductive OAuthResponse : Type :=
| OAuthTokens (r : AuthResponse)
| OAuthConflict (status : nat) (body : json).

Section Handlers.
Context `{Ext, Env}.

Definition build_provider_auth_url (cfg : Config) (p : OAuthProvider)
    : M World AppError (string * string) :=
  if negb (url_parses (auth_url cfg p)) then throw InternalError else
  if negb (url_parses (token_url cfg p)) then throw InternalError else
  if negb (url_parses (redirect_uri cfg p)) then throw InternalError else
  fun w => let csrf := fresh_csrf (w_tick w) in
    (Ok (authorize_url (client_id cfg p) (auth_url cfg p) (redirect_uri cfg p) scopes csrf, csrf),
     tick w).

Definition oauth_redirect {E} (cfg : Config) (p : OAuthProvider) : M World E OAuthRedirect :=
  let* r := attempt (build_provider_auth_url cfg p) in
  ret (match r with
       | Ok (url, state) => RedirectTo (build_oauth_state_cookie (state_cookie_name p) state) url
       | Err _ => RedirectFailed 500 (JObj [("error", JStr "internal_error")])
       end).

(** A JSON answer with a success status. *)
Definition json_answer (reply : option (Z * string)) : result AppError json :=
  match reply with
  | Some (status, body) =>
      if (200 <=? status) && (status <? 300) then ok_or (json_value body) InternalError
      else Err InternalError
  | None => Err InternalError
  end.

Definition post_form (url : string) (form : list (string * string)) : M World AppError json :=
  fun w => (json_answer (http_post_form (w_tick w) url form), tick w).
Definition get_json (url bearer_token : string) : M World AppError json :=
  fun w => (json_answer (http_get_bearer (w_tick w) url bearer_token), tick w).

Definition exchange_code_and_fetch_identity (cfg : Config) (p : OAuthProvider) (code : string)
    : M World AppError OAuthIdentity :=
  let* token_json := post_form (token_url cfg p)
    [("client_id", client_id cfg p); ("client_secret", client_secret cfg p);
     ("grant_type", "authorization_code"); ("code", code); ("redirect_uri", redirect_uri cfg p)] in
  let* access_token := of_result (ok_or (v ← json_get "access_token" token_json; json_as_str v)
                         InternalError) in
  let* profile_json := get_json (profile_url p) access_token in
  let* provider_id := of_result (ok_or (v ← get_first ["sub"; "oid"; "id"] profile_json;
                         json_as_str v) InternalError) in
  let* email := of_result (ok_or (v ← get_first ["email"; "mail"; "userPrincipalName"] profile_json;
                         json_as_str v)
                  (EmailRequired "Email is required to continue OAuth sign in" "/user/contacts")) in
  ret (mkIdentity provider_id email).

Definition upsert_email_contact (cfg : Config) (user : Uuid) (email : string)
    : M World AppError unit :=
  let* key := of_result (decode_hex_key_32 (cfg_encryption_key cfg)) in
  let* idx_key := of_result (decode_hex_key_32 (cfg_encryption_index_key cfg)) in
  let* enc := encrypt email key in
  internal (sql (upsert_email_stmt user (fst enc) (snd enc) (hmac_index email idx_key))).

(** The user of an identity that no other provider claims. *)
Definition oauth_user_id (p : OAuthProvider) (known : option Uuid) (email_index : bytes)
    : M World AppError Uuid :=
  match known with
  | Some id => ret id
  | None =>
      let* same := internal (sql (query (same_provider_user email_index (provider_str p)))) in
      match same with
      | Some id => ret id
      | None => create_user
      end
  end.

Definition resolve_or_create_oauth_user (cfg : Config) (p : OAuthProvider)
    (provider_id email : string) : M World AppError OAuthUserResolution :=
  let* known := internal (sql (query (oauth_user (provider_str p) provider_id))) in
  let* idx_key := of_result (decode_hex_key_32 (cfg_encryption_index_key cfg)) in
  let email_index := hmac_index email idx_key in
  let* conflicting := internal (sql (query (other_provider email_index (provider_str p)))) in
  match (existing ← conflicting; detect_email_conflict existing (provider_str p)) with
  | Some details => ret (ResolvedConflict details)
  | None =>
      let* user_id := oauth_user_id p known email_index in
      internal (sql (upsert_oauth_stmt user_id (provider_str p) provider_id)) ;;;
      upsert_email_contact cfg user_id email ;;;
      ret (ResolvedUser user_id)
  end.

Definition conflict_body (c : EmailConflictDetails) : json :=
  JObj [("error", JStr "email_already_registered");
        ("existing_provider", JStr (ec_existing_provider c));
        ("link_url", JStr (ec_link_url c))].

Definition oauth_callback (cfg : Config) (jar : CookieJar) (q : OAuthCallbackQuery)
    (p : OAuthProvider) : M World AppError OAuthResponse :=
  of_result (validate_oauth_state_cookie jar p (cq_state q)) ;;;
  let* identity := exchange_code_and_fetch_identity cfg p (cq_code q) in
  let* resolution := resolve_or_create_oauth_user cfg p (oi_provider_id identity) (oi_email identity) in
  match resolution with
  | ResolvedConflict c => ret (OAuthConflict 409 (conflict_body c))
  | ResolvedUser user_id =>
      let* tokens := issue_tokens cfg user_id None in
      ret (OAuthTokens tokens)
  end.
End Handlers.
