(* ===== verification/User.v ===== *)
(** * User: profile and contacts

    src/src/handlers/user.rs. *)

From Stdlib Require Import ZArith Lia.
From Stdlib Require Import Strings.Byte Strings.Ascii Strings.String.
From stdpp Require Import base tactics decidable option list strings gmap.
From S2P Require Import Prelude Text Errors Borsh SolanaTypes Health World Concrete Crypto Jwt.
From S2P Require Import Notification Auth AuthFacts OAuth.

Open Scope string_scope.
Open Scope list_scope.
Open Scope Z_scope.

(** ** Data *)

Record AuthMethod : Type := mkAuthMethod {
  am_auth_type : string; am_provider : option string; am_wallet : option string }.
Record UserProfile : Type := mkUserProfile {
  up_id : Uuid; up_display_name : option string; up_linked_auth_methods : list AuthMethod }.
Record UpdateContactsRequest : Type := mkUpdateContacts {
  uq_email : option string; uq_phone : option string; uq_push_token : option string }.

(** The characters [< > quote apostrophe &]. *)
Definition html_chars : list ascii := ["<"; ">"; "034"; "'"; "&"]%char.

(** [name.len()] counts bytes. *)
Definition sanitise_display_name (name : string) : result AppError unit :=
  if (64 <? String.length name)%nat then Err DisplayNameTooLong
  else if List.existsb (fun c => str_contains c name) html_chars then Err InvalidDisplayName
  else Ok tt.

(** ** Statements *)

Definition user_row (user : Uuid) (d : Db) : option UserAccountRow :=
  fetch_optional (where_ (fun u => uuid_eqb (ua_id u) user) (db_users d)).

Definition oauth_providers (user : Uuid) (d : Db) : list string :=
  map ao_provider (where_ (fun r => uuid_eqb (ao_user_id r) user) (db_oauth d)).

Definition set_name (name : option string) (r : UserAccountRow) : UserAccountRow :=
  mkUserAccount (ua_id r) name (ua_created_at r).

Definition display_name_stmt (user : Uuid) (name : option string) : Stmt unit :=
  prepared T_user_accounts ["display_name"; "id"] (execute (fun _ =>
    set_users (update_where (fun u => uuid_eqb (ua_id u) user) (set_name name)))).

(** [COALESCE($n, column)] *)
Definition coalesce {A} (new old : option A) : option A :=
  match new with Some _ => new | None => old end.

(** The values bound by [update_contacts]: ciphertext and nonce of the three
    contacts, and the index of the email. *)
Record ContactValues : Type := mkContactValues {
  cv_email_enc : option bytes; cv_email_nonce : option bytes; cv_email_index : option bytes;
  cv_phone_enc : option bytes; cv_phone_nonce : option bytes;
  cv_push_enc : option bytes; cv_push_nonce : option bytes }.

Definition merge_contact (v : ContactValues) (at_ : Z) (r : UserContactRow) : UserContactRow :=
  mkUserContact (uc_user_id r)
    (coalesce (cv_email_enc v) (uc_email_enc r)) (coalesce (cv_email_nonce v) (uc_email_nonce r))
    (coalesce (cv_email_index v) (uc_email_index r))
    (coalesce (cv_phone_enc v) (uc_phone_enc r)) (coalesce (cv_phone_nonce v) (uc_phone_nonce r))
    (coalesce (cv_push_enc v) (uc_push_token_enc r))
    (coalesce (cv_push_nonce v) (uc_push_token_nonce r)) at_.

Definition new_contact (user : Uuid) (v : ContactValues) (at_ : Z) : UserContactRow :=
  mkUserContact user (cv_email_enc v) (cv_email_nonce v) (cv_email_index v)
    (cv_phone_enc v) (cv_phone_nonce v) (cv_push_enc v) (cv_push_nonce v) at_.

Definition upsert_contacts_stmt (user : Uuid) (v : ContactValues) : Stmt unit :=
  insert_prepared T_user_contacts
    ["user_id"; "email_enc"; "email_nonce"; "email_index"; "phone_enc"; "phone_nonce";
     "push_token_enc"; "push_token_nonce"; "updated_at"]
    (fun now d =>
      if negb (user_exists user d) then None
      else if exists_row (contact_is user) (db_contacts d) then
        Some (tt, set_contacts (update_where (contact_is user)
          (merge_contact v (epoch_bigint now))) d)
      else Some (tt, set_contacts (fun t => t ++ [new_contact user v (epoch_bigint now)]) d)).

Definition delete_contacts_stmt (user : Uuid) : Stmt unit :=
  prepared T_user_contacts ["user_id"] (execute (fun _ =>
    set_contacts (where_ (fun r => negb (contact_is user r))))).

(** ** Handlers *)

Section Handlers.
Context `{Ext, Env}.

Definition get_profile (auth : AuthUser) : M World AppError UserProfile :=
  let* row := internal (sql (query (user_row (au_user_id auth)))) in
  let* user := of_result (ok_or row InternalError) in
  let* wallet := internal (sql (query (wallet_of_user (au_user_id auth)))) in
  let wallet_methods :=
    match wallet with
    | Some pubkey => [mkAuthMethod "wallet" None (Some pubkey)]
    | None => []
    end in
  let* oauth_rows := internal (sql (query (oauth_providers (au_user_id auth)))) in
  ret (mkUserProfile (ua_id user) (ua_display_name user)
         (wallet_methods ++ map (fun p => mkAuthMethod "oauth" (Some p) None) oauth_rows)).

Definition update_profile (auth : AuthUser) (display_name : option string)
    : M World AppError UserProfile :=
  of_result (match display_name with Some name => sanitise_display_name name | None => Ok tt end) ;;;
  internal (sql (display_name_stmt (au_user_id auth) display_name)) ;;;
  get_profile auth.

(** A contact that is given is encrypted, one that is not binds NULL. *)
Definition encrypt_given (value : option string) (key : bytesN 32)
    : M World AppError (option (bytes * bytes)) :=
  match value with
  | Some text => let* enc := encrypt text key in ret (Some enc)
  | None => ret None
  end.

Definition update_contacts (cfg : Config) (auth : AuthUser) (body : UpdateContactsRequest)
    : M World AppError json :=
  let* key := of_result (decode_hex_key_32 (cfg_encryption_key cfg)) in
  let* idx_key := of_result (decode_hex_key_32 (cfg_encryption_index_key cfg)) in
  let* email := encrypt_given (uq_email body) key in
  let email_index := option_map (fun e => hmac_index e idx_key) (uq_email body) in
  let* phone := encrypt_given (uq_phone body) key in
  let* push := encrypt_given (uq_push_token body) key in
  internal (sql (upsert_contacts_stmt (au_user_id auth)
    (mkContactValues (option_map fst email) (option_map snd email) email_index
       (option_map fst phone) (option_map snd phone)
       (option_map fst push) (option_map snd push)))) ;;;
  ret (JObj [("message", JStr "Contacts updated successfully")]).

Definition delete_contacts (auth : AuthUser) : M World AppError json :=
  internal (sql (delete_contacts_stmt (au_user_id auth))) ;;;
  ret (JObj [("message", JStr "Contacts deleted successfully")]).
End Handlers.
