(* ===== verification/Sealed.v ===== *)
(** * Sealed: what a stored contact is

    The shape of a contact row: each contact is absent, or a ciphertext with its
    nonce, and the email goes with its blind index.  [encrypted_by] and
    [indexed_by] say how the handlers make these columns, [readable_by] what the
    configured key makes of them. *)

From Stdlib Require Import Strings.Byte Strings.String.
From stdpp Require Import base tactics decidable option list strings.
From S2P Require Import Prelude Text Errors Borsh SolanaTypes Health World Concrete Crypto.
From S2P Require Import Jwt Auth OAuth User.

Open Scope string_scope.
Open Scope list_scope.

(** ** The shape, over what a ciphertext and an index are *)

Section Shape.
Context (S : string -> bytes -> bytes -> Prop) (I : string -> bytes -> Prop).

Definition sealed_pair (ct nonce : option bytes) : Prop :=
  match ct, nonce with
  | None, None => True
  | Some c, Some n => exists text, S text c n
  | _, _ => False
  end.

Definition sealed_email (ct nonce index : option bytes) : Prop :=
  match ct, nonce, index with
  | None, None, None => True
  | Some c, Some n, Some i => exists text, S text c n /\ I text i
  | _, _, _ => False
  end.

Definition sealed_values (v : ContactValues) : Prop :=
  sealed_email (cv_email_enc v) (cv_email_nonce v) (cv_email_index v) /\
  sealed_pair (cv_phone_enc v) (cv_phone_nonce v) /\
  sealed_pair (cv_push_enc v) (cv_push_nonce v).

Definition sealed_row (r : UserContactRow) : Prop :=
  sealed_email (uc_email_enc r) (uc_email_nonce r) (uc_email_index r) /\
  sealed_pair (uc_phone_enc r) (uc_phone_nonce r) /\
  sealed_pair (uc_push_token_enc r) (uc_push_token_nonce r).

Lemma coalesce_pair ct nonce ct' nonce' :
  sealed_pair ct nonce -> sealed_pair ct' nonce' ->
  sealed_pair (coalesce ct ct') (coalesce nonce nonce').
Proof. by destruct ct, nonce. Qed.

Lemma coalesce_email ct nonce index ct' nonce' index' :
  sealed_email ct nonce index -> sealed_email ct' nonce' index' ->
  sealed_email (coalesce ct ct') (coalesce nonce nonce') (coalesce index index').
Proof. by destruct ct, nonce, index. Qed.

Lemma merge_sealed v at_ r : sealed_values v -> sealed_row r -> sealed_row (merge_contact v at_ r).
Proof.
  intros (? & ? & ?) (? & ? & ?). split; [by apply coalesce_email | split; by apply coalesce_pair].
Qed.

Lemma new_sealed user v at_ : sealed_values v -> sealed_row (new_contact user v at_).
Proof. done. Qed.

Lemma set_email_sealed text e n i at_ r :
  S text e n -> I text i -> sealed_row r -> sealed_row (set_email e n i at_ r).
Proof. intros Hs Hi (_ & ? & ?). split; [by exists text | done]. Qed.
End Shape.

Lemma sealed_row_impl (S S' : string -> bytes -> bytes -> Prop) (I : string -> bytes -> Prop) r :
  (forall text ct nonce, S text ct nonce -> S' text ct nonce) -> sealed_row S I r -> sealed_row S' I r.
Proof.
  intros HS. assert (Hp : forall ct nonce, sealed_pair S ct nonce -> sealed_pair S' ct nonce).
  { intros [ct|] [nonce|]; cbn; try done. intros [t Ht]. exists t. by apply HS. }
  assert (He : forall ct nonce index, sealed_email S I ct nonce index -> sealed_email S' I ct nonce index).
  { intros [ct|] [nonce|] [index|]; cbn; try done. intros (t & Ht & Hi). exists t. by split; [apply HS|]. }
  intros (? & ? & ?). split; [by apply He | split; by apply Hp].
Qed.

(** ** What the handlers store *)

Section Contacts.
Context `{Ext, Env} (cfg : Config).

Definition encrypted_by (text : string) (ct nonce : bytes) : Prop :=
  exists key (w w' : World), decode_hex_key_32 (cfg_encryption_key cfg) = Ok key /\
    encrypt text key w = (Ok (ct, nonce), w').

Definition indexed_by (text : string) (index : bytes) : Prop :=
  exists idx, decode_hex_key_32 (cfg_encryption_index_key cfg) = Ok idx /\ index = hmac_index text idx.

(** The ciphertext opens to the text under the configured key and the nonce, and
    [decrypt] answers it. *)
Definition readable_by (text : string) (ct nonce : bytes) : Prop :=
  exists key n12, decode_hex_key_32 (cfg_encryption_key cfg) = Ok key /\
    to_bytesN 12 nonce = Some n12 /\
    aes256gcm_decrypt key (bn_bytes n12) ct = Some (as_bytes text) /\
    (is_utf8 (as_bytes text) = true -> decrypt ct n12 key = Ok text).

Lemma encrypted_readable text ct nonce :
  aes_correct -> random_lengths -> encrypted_by text ct nonce -> readable_by text ct nonce.
Proof.
  intros Haes Hrand (key & w & w' & Hk & He). unfold encrypt in He. run_inv. subst.
  unfold fill_random in Hs. injection Hs as <- <-. exists key.
  destruct (to_bytesN 12 (random_bytes (w_tick w) 12)) as [n12|] eqn:E.
  - exists n12. assert (Hd : aes256gcm_decrypt key (bn_bytes n12) ct = Some (as_bytes text)).
    { rewrite (to_bytesN_Some _ _ _ E). by apply Haes. }
    repeat (split; [done|]). intros Hutf. unfold decrypt. rewrite Hd.
    unfold string_from_utf8, as_bytes in *. rewrite Hutf. cbn. by rewrite string_of_list_byte_of_string.
  - exfalso. apply to_bytesN_None in E. apply E, Hrand.
Qed.

(** An encrypted contact that a request gives or leaves out. *)
Definition given_by (value : option string) (enc : option (bytes * bytes)) : Prop :=
  match value, enc with
  | None, None => True
  | Some text, Some (ct, nonce) => encrypted_by text ct nonce
  | _, _ => False
  end.

Lemma given_pair value enc :
  given_by value enc -> sealed_pair encrypted_by (option_map fst enc) (option_map snd enc).
Proof. destruct value as [text|], enc as [[ct nonce]|]; cbn; [by exists text | done..]. Qed.

Lemma given_email value enc idx :
  decode_hex_key_32 (cfg_encryption_index_key cfg) = Ok idx -> given_by value enc ->
  sealed_email encrypted_by indexed_by (option_map fst enc) (option_map snd enc)
    (option_map (fun e => hmac_index e idx) value).
Proof.
  intros Hi. destruct value as [text|], enc as [[ct nonce]|]; cbn; try done.
  intros He. exists text. split; [exact He | by exists idx].
Qed.

Lemma encrypt_given_by value key w enc w' :
  decode_hex_key_32 (cfg_encryption_key cfg) = Ok key ->
  encrypt_given value key w = (Ok enc, w') -> given_by value enc.
Proof.
  intros Hk. unfold encrypt_given. destruct value as [text|]; [|by intros [= <- <-]].
  intros Hr. run_inv. subst. destruct a as [ct nonce]. by exists key, w, w'.
Qed.

(** Every contact row is readable with the configured keys. *)
Definition contacts_readable (d : Db) : Prop :=
  forall r, r ∈ db_contacts d -> sealed_row readable_by indexed_by r.
End Contacts.
