(* ===== verification/AccountFacts.v ===== *)
(** * AccountFacts: contacts and OAuth sign-in

    What storing a contact email does: it reaches the notification worker, and
    it decides who an OAuth identity signs in as. *)

From Stdlib Require Import ZArith Lia.
From Stdlib Require Import Strings.Byte Strings.Ascii Strings.String.
From stdpp Require Import base tactics decidable option list strings gmap.
From S2P Require Import Prelude Text Errors Borsh SolanaTypes Health World Concrete Crypto Jwt.
From S2P Require Import Notification Auth AuthFacts OAuth User.

Open Scope string_scope.
Open Scope list_scope.
Open Scope Z_scope.

(** ** The contact row of a user *)

Definition contact_of (user : Uuid) (d : Db) : option UserContactRow :=
  fetch_optional (where_ (contact_is user) (db_contacts d)).

Lemma contact_is_spec user r : contact_is user r = true <-> uc_user_id r = user.
Proof. unfold contact_is, uuid_eqb. by rewrite bool_decide_eq_true. Qed.

(** Updating the rows a predicate selects, where the update keeps it. *)
Lemma fetch_update_where {A} (p : A -> bool) f t :
  (forall x, p x = true -> p (f x) = true) ->
  fetch_optional (where_ p (update_where p f t)) = option_map f (fetch_optional (where_ p t)).
Proof.
  intros Hf. induction t as [|x t IH]; cbn; [done|].
  destruct (p x) eqn:E; cbn; [by rewrite Hf | by rewrite E].
Qed.

Lemma exists_row_false {A} (p : A -> bool) t : exists_row p t = false -> where_ p t = [].
Proof.
  intros Hn. apply where_none. intros r Hr. destruct (p r) eqn:E; [|done].
  rewrite (proj2 (exists_row_spec p t)) in Hn; [done | eauto].
Qed.

Lemma upsert_contacts_Some user v now d a d' :
  upsert_contacts_stmt user v now d = Some (a, d') ->
  ((exists f, d' = set_contacts f d) /\
   forall x, x ∈ db_contacts d' -> uc_user_id x = user \/ x ∈ db_contacts d) /\
  contact_of user d' = Some (match contact_of user d with
                             | Some r => merge_contact v (epoch_bigint now) r
                             | None => new_contact user v (epoch_bigint now)
                             end).
Proof.
  unfold upsert_contacts_stmt, insert_prepared, prepared. cbn -[exists_row user_exists].
  destruct (user_exists user d); [|done]. cbn -[exists_row].
  destruct (exists_row _ _) eqn:E; intros [= _ <-]; unfold contact_of; cbn; split.
  - split; [eauto|]. intros y (x & Hx & ->)%elem_of_update_where.
    destruct (contact_is user x) eqn:Ex; [left; by apply contact_is_spec in Ex | by right].
  - rewrite fetch_update_where by done. apply exists_row_spec in E as (r & Hr & Hp).
    destruct (fetch_optional _) as [x|] eqn:Ef; [done|].
    by rewrite (fetch_where_None _ _ Ef r Hr) in Hp.
  - split; [eauto|]. intros x [Hx|Hx%list_elem_of_singleton]%elem_of_app; [by right|].
    subst x. by left.
  - apply exists_row_false in E. rewrite E, where_app, E. cbn.
    by rewrite (proj2 (contact_is_spec user _)).
Qed.

(** The email the worker reads is that of the contact row. *)
Lemma stored_email_contact user d r :
  contact_of user d = Some r -> is_Some (uc_email_enc r) ->
  stored_email user d = Some (uc_email_enc r, uc_email_nonce r).
Proof.
  unfold contact_of, stored_email. intros Hc [e He].
  unfold where_ in *. induction (db_contacts d) as [|x t IH]; [done|].
  cbn [List.filter] in *. unfold contact_is in Hc at 1.
  destruct (uuid_eqb (uc_user_id x) user); cbn [andb]; [|by apply IH].
  injection Hc as ->. by rewrite He; cbn; rewrite He.
Qed.

(** ** Updating contacts *)

Section Contacts.
Context `{Ext, Env}.

(** What an optional contact becomes: the ciphertext and nonce of its text. *)
Definition encrypted_as (key : bytesN 32) (value : option string) (enc : option (bytes * bytes))
    : Prop :=
  match value, enc with
  | None, None => True
  | Some text, Some (ct, nonce) => exists w w' : World, encrypt text key w = (Ok (ct, nonce), w')
  | _, _ => False
  end.

Lemma encrypt_given_Ok value key w enc w' :
  encrypt_given value key w = (Ok enc, w') ->
  encrypted_as key value enc /\ w_db w' = w_db w.
Proof.
  unfold encrypt_given. destruct value as [text|]; [|by intros [= <- <-]].
  intros Hr. run_inv. subst. destruct a as [ct nonce].
  pose proof (encrypt_frame _ _ _ _ _ Hs) as [Hd _]. split; [by eexists _, _ | done].
Qed.

Lemma update_contacts_run cfg auth body w r w' :
  update_contacts cfg auth body w = (Ok r, w') ->
  exists key idx email phone push at_,
    decode_hex_key_32 (cfg_encryption_key cfg) = Ok key /\
    decode_hex_key_32 (cfg_encryption_index_key cfg) = Ok idx /\
    encrypted_as key (uq_email body) email /\ encrypted_as key (uq_phone body) phone /\
    encrypted_as key (uq_push_token body) push /\
    ((exists f, w_db w' = set_contacts f (w_db w)) /\
     forall x, x ∈ db_contacts (w_db w') -> uc_user_id x = au_user_id auth \/ x ∈ db_contacts (w_db w)) /\
    let v := mkContactValues (option_map fst email) (option_map snd email)
               (option_map (fun e => hmac_index e idx) (uq_email body))
               (option_map fst phone) (option_map snd phone)
               (option_map fst push) (option_map snd push) in
    contact_of (au_user_id auth) (w_db w') =
      Some (match contact_of (au_user_id auth) (w_db w) with
            | Some old => merge_contact v at_ old
            | None => new_contact (au_user_id auth) v at_
            end).
Proof.
  intros Hu. unfold update_contacts, internal in Hu. run_inv. subst.
  repeat match goal with
  | Hq : encrypt_given _ _ _ = _ |- _ => apply encrypt_given_Ok in Hq as [? ?]
  | Hq : sql (upsert_contacts_stmt _ _) _ = _ |- _ => apply sql_Ok in Hq as (d & Hd & ->)
  end.
  apply upsert_contacts_Some in Hd as [Hd Hc].
  do 6 eexists. do 5 (split; [eassumption|]). cbn [w_db with_db tick].
  replace (w_db w) with (w_db w4) by congruence. split; [exact Hd | exact Hc].
Qed.

Lemma decrypt_email_Some (cfg : AppState) key ct nonce n12 text :
  decode_hex_key_32 (cfg_encryption_key cfg) = Ok key -> to_bytesN 12 nonce = Some n12 ->
  decrypt ct n12 key = Ok text -> decrypt_email cfg (Some ct, Some nonce) = Some text.
Proof.
  unfold decode_hex_key_32, decrypt_email. cbn [fst snd mbind option_bind].
  destruct (hex_decode _) as [kb|]; [|done]. intros Hk Hn Hd. apply ok_or_Ok in Hk.
  cbn [mbind option_bind]. rewrite Hk. cbn [mbind option_bind]. rewrite Hn.
  cbn [mbind option_bind]. by rewrite Hd.
Qed.

(** C33: a contact email that a user stores is the address the notification
    worker writes to, and the contacts a request leaves out stay as they were.
    Storing encrypts under the configured key and the worker's lookup by wallet
    decrypts, so the worker reads the very text of the request. *)
Theorem contact_email_reaches_worker {E} (cfg : AppState) (auth : AuthUser)
    (body : UpdateContactsRequest) (email pubkey : string) (r : json) (w w' later : World) :
  aes_correct -> random_lengths -> is_utf8 (as_bytes email) = true ->
  wallet_user pubkey (w_db w) = Some (au_user_id auth) ->
  uq_email body = Some email ->
  update_contacts cfg auth body w = (Ok r, w') ->
  w_db later = w_db w' -> db_up_from (w_tick later) ->
  fst (lookup_user_email (E:=E) cfg pubkey later) = Ok (Some email) /\
  (uq_phone body = None -> forall old, contact_of (au_user_id auth) (w_db w) = Some old ->
     exists new, contact_of (au_user_id auth) (w_db w') = Some new /\
       uc_phone_enc new = uc_phone_enc old /\ uc_phone_nonce new = uc_phone_nonce old) /\
  (uq_push_token body = None -> forall old, contact_of (au_user_id auth) (w_db w) = Some old ->
     exists new, contact_of (au_user_id auth) (w_db w') = Some new /\
       uc_push_token_enc new = uc_push_token_enc old /\
       uc_push_token_nonce new = uc_push_token_nonce old).
Proof.
  intros Haes Hrand Hutf Hwallet Hemail Hu Hlater Hup.
  apply update_contacts_run in Hu as (key & idx & enc & phone & push & at_ & Hkey & _ & He & Hp
    & Ht & [[f Hf] _] & Hc).
  cbv zeta in Hc.
  split; [|split].
  - rewrite Hemail in He. destruct enc as [[ct nonce]|]; [|done].
    destruct He as (w1 & w2 & He).
    destruct (encrypt_roundtrip_run _ _ _ _ _ _ Haes Hrand Hutf He) as (n12 & Hn & Hdec).
    unfold lookup_user_email, lookup_user_id, bind, attempt, ret.
    rewrite sql_query by (apply Hup; lia). rewrite Hlater.
    assert (Hw' : wallet_user pubkey (w_db w') = Some (au_user_id auth)).
    { by rewrite Hf. }
    rewrite Hw'. rewrite sql_query by (apply Hup; cbn; lia). cbn [w_db tick fst].
    rewrite Hlater. apply stored_email_contact in Hc; [|by destruct (contact_of _ (w_db w))].
    rewrite Hc. f_equal.
    destruct (contact_of _ (w_db w)); by apply (decrypt_email_Some _ key ct nonce n12).
  - intros Hnone old Ho. rewrite Hnone in Hp. destruct phone; [done|].
    rewrite Ho in Hc. eexists. split; [exact Hc | done].
  - intros Hnone old Ho. rewrite Hnone in Ht. destruct push; [done|].
    rewrite Ho in Hc. eexists. split; [exact Hc | done].
Qed.
End Contacts.

(** ** Resolving an OAuth identity *)

Lemma upsert_oauth_Some user p pid now d a d' :
  upsert_oauth_stmt user p pid now d = Some (a, d') ->
  oauth_user p pid d' = Some user /\ exists f, d' = set_oauth f d.
Proof.
  unfold upsert_oauth_stmt, insert_prepared, prepared. cbn -[exists_row user_exists oauth_is].
  destruct (user_exists user d); [|done]. cbn -[exists_row oauth_is].
  destruct (exists_row _ _) eqn:E; intros [= _ <-]; (split; [|eauto]); unfold oauth_user;
    cbn [set_oauth db_oauth].
  - rewrite fetch_update_where by done. apply exists_row_spec in E as (r & Hr & Hp).
    destruct (fetch_optional _) as [x|] eqn:Ef; [done|].
    by rewrite (fetch_where_None _ _ Ef r Hr) in Hp.
  - apply exists_row_false in E. rewrite where_app, E. unfold where_. cbn [List.filter].
    unfold oauth_is at 1. cbn [ao_provider ao_provider_id]. by rewrite !String.eqb_refl.
Qed.

Lemma upsert_email_Some user enc nonce index now d a d' :
  upsert_email_stmt user enc nonce index now d = Some (a, d') ->
  (exists f, d' = set_contacts f d) /\
  exists r, contact_of user d' = Some r /\ uc_email_enc r = Some enc /\
    uc_email_nonce r = Some nonce /\ uc_email_index r = Some index.
Proof.
  unfold upsert_email_stmt, insert_prepared, prepared. cbn -[exists_row user_exists].
  destruct (user_exists user d); [|done]. cbn -[exists_row].
  destruct (exists_row _ _) eqn:E; intros [= _ <-]; (split; [eauto|]); unfold contact_of; cbn.
  - rewrite fetch_update_where by done. apply exists_row_spec in E as (r & Hr & Hp).
    destruct (fetch_optional _) as [x|] eqn:Ef; [cbn; eauto|].
    by rewrite (fetch_where_None _ _ Ef r Hr) in Hp.
  - apply exists_row_false in E. rewrite where_app, E. cbn.
    rewrite (proj2 (contact_is_spec user _)); cbn; eauto.
Qed.

Section Resolution.
Context `{Ext, Env}.

(** A contact row that holds an email, encrypted and under its blind index. *)
Definition holds_email (cfg : Config) (email : string) (index : bytes) (row : UserContactRow) : Prop :=
  uc_email_index row = Some index /\
  exists key ct nonce (w1 w2 : World), decode_hex_key_32 (cfg_encryption_key cfg) = Ok key /\
    encrypt email key w1 = (Ok (ct, nonce), w2) /\
    uc_email_enc row = Some ct /\ uc_email_nonce row = Some nonce.

Lemma upsert_email_contact_Ok cfg user email w a w' :
  upsert_email_contact cfg user email w = (Ok a, w') ->
  (exists f, w_db w' = set_contacts f (w_db w)) /\
  exists idx r, decode_hex_key_32 (cfg_encryption_index_key cfg) = Ok idx /\
    contact_of user (w_db w') = Some r /\ holds_email cfg email (hmac_index email idx) r.
Proof.
  intros Hu. unfold upsert_email_contact, internal in Hu. run_inv. subst.
  match goal with
  | He : encrypt _ _ _ = (Ok ?enc, _), Hq : sql _ _ = _ |- _ =>
      destruct enc as [ct nonce]; pose proof (encrypt_frame _ _ _ _ _ He) as [Hframe _];
      apply sql_Ok in Hq as (d & Hd & ->);
      apply upsert_email_Some in Hd as [[f Hf] (r & Hr & Hc & Hn & Hi)]
  end.
  cbn [w_db with_db tick fst snd] in *. split; [exists f; by rewrite Hf, Hframe|].
  do 2 eexists. split; [eassumption|]. split; [exact Hr|]. split; [exact Hi|].
  by repeat eexists.
Qed.

(** Where the user of an identity comes from. *)
Definition oauth_origin (p : OAuthProvider) (pid : string) (email_index : bytes) (user : Uuid)
    (d : Db) : Prop :=
  oauth_user (provider_str p) pid d = Some user \/
  oauth_user (provider_str p) pid d = None /\
    (same_provider_user email_index (provider_str p) d = Some user \/
     same_provider_user email_index (provider_str p) d = None /\
       forall r, r ∈ db_users d -> ua_id r <> user).

Lemma oauth_user_id_Ok p pid idx w user w' :
  oauth_user_id p (oauth_user (provider_str p) pid (w_db w)) idx w = (Ok user, w') ->
  oauth_origin p pid idx user (w_db w) /\ db_wallets (w_db w') = db_wallets (w_db w).
Proof.
  intros Hu. unfold oauth_user_id, oauth_origin, internal in *.
  destruct (oauth_user _ pid _) as [u|]; [injection Hu as <- <-; auto|].
  world_inv. subst. destruct (same_provider_user _ _ _) as [u|] eqn:E;
    [injection Hu as <- <-; auto|].
  apply create_user_Ok in Hu as (Hn & t & ->). cbn [w_db tick] in *. auto 10.
Qed.

Lemma resolve_run cfg p pid email w r w' :
  resolve_or_create_oauth_user cfg p pid email w = (Ok r, w') ->
  exists idx, decode_hex_key_32 (cfg_encryption_index_key cfg) = Ok idx /\
    let index := hmac_index email idx in
    match r with
    | ResolvedConflict c =>
        w_db w' = w_db w /\ ec_link_url c = "/auth/link/oauth" /\
        other_provider index (provider_str p) (w_db w) = Some (ec_existing_provider c) /\
        eq_ignore_ascii_case (ec_existing_provider c) (provider_str p) = false
    | ResolvedUser user =>
        (forall e, other_provider index (provider_str p) (w_db w) = Some e ->
           eq_ignore_ascii_case e (provider_str p) = true) /\
        oauth_origin p pid index user (w_db w) /\
        oauth_user (provider_str p) pid (w_db w') = Some user /\
        (exists row, contact_of user (w_db w') = Some row /\ holds_email cfg email index row) /\
        db_wallets (w_db w') = db_wallets (w_db w)
    end.
Proof.
  intros Hr. unfold resolve_or_create_oauth_user, internal in Hr. world_inv. subst.
  exists a0. split; [done|]. cbv zeta.
  match type of Hr with context [match ?x with Some _ => _ | None => _ end] => destruct x as [c|] eqn:Ec end.
  - injection Hr as <- <-. split; [done|]. cbn [w_db tick] in Ec.
    destruct (other_provider _ _ _) as [e|] eqn:Eo; [|done]. cbn in Ec.
    unfold detect_email_conflict in Ec. destruct (eq_ignore_ascii_case _ _) eqn:Ei; [done|].
    by injection Ec as <-.
  - run_inv. subst. cbn [w_db tick] in *.
    match goal with Hq : oauth_user_id _ _ _ ?w0 = _ |- _ =>
      change (w_db w) with (w_db w0) in Hq; apply oauth_user_id_Ok in Hq as [Ho Hw];
      change (w_db w0) with (w_db w) in Ho, Hw end.
    match goal with Hq : sql (upsert_oauth_stmt _ _ _) _ = _ |- _ =>
      apply sql_Ok in Hq as (d & Hd & ->); apply upsert_oauth_Some in Hd as [Hu [f Hf]] end.
    match goal with Hq : upsert_email_contact _ _ _ _ = _ |- _ =>
      apply upsert_email_contact_Ok in Hq as [[g Hg] (idx' & row & Hidx & Hrow & Hi)] end.
    assert (idx' = a0) as -> by congruence.
    split; [|split; [done|split; [|split]]].
    + intros e He. rewrite He in Ec. cbn in Ec. unfold detect_email_conflict in Ec.
      by destruct (eq_ignore_ascii_case _ _).
    + by rewrite Hg.
    + eauto.
    + rewrite Hg. cbn. by rewrite Hf.
Qed.

(** What the provider said from tick [n] on: its token endpoint gave an access
    token for the code, and its profile endpoint gave the identity and the email
    for this token. *)
Definition provider_says (cfg : Config) (p : OAuthProvider) (code : string) (n : nat)
    (identity : OAuthIdentity) : Prop :=
  exists token_json access_token profile_json,
    json_answer (http_post_form n (token_url cfg p)
      [("client_id", client_id cfg p); ("client_secret", client_secret cfg p);
       ("grant_type", "authorization_code"); ("code", code); ("redirect_uri", redirect_uri cfg p)])
      = Ok token_json /\
    (json_get "access_token" token_json ≫= json_as_str) = Some access_token /\
    json_answer (http_get_bearer (S n) (profile_url p) access_token) = Ok profile_json /\
    (get_first ["sub"; "oid"; "id"] profile_json ≫= json_as_str) = Some (oi_provider_id identity) /\
    (get_first ["email"; "mail"; "userPrincipalName"] profile_json ≫= json_as_str)
      = Some (oi_email identity).

Lemma exchange_run cfg p code w i w' :
  exchange_code_and_fetch_identity cfg p code w = (Ok i, w') ->
  provider_says cfg p code (w_tick w) i /\ w_db w' = w_db w.
Proof.
  intros He. unfold exchange_code_and_fetch_identity in He. run_inv. subst.
  match goal with Hq : post_form _ _ _ = _ |- _ => injection Hq as Hq <- end.
  match goal with Hq : get_json _ _ _ = _ |- _ => injection Hq as Hq <- end.
  split; [|done]. by do 3 eexists.
Qed.

Lemma provider_str_inj p q : provider_str p = provider_str q -> p = q.
Proof. by destruct p, q. Qed.

(** When the sign-ins that share an email are all of one user and provider. *)
Lemma single_provider index p user d :
  (forall ao, ao ∈ sign_ins_with_email index d -> ao_user_id ao = user /\ ao_provider ao = provider_str p) ->
  sign_ins_with_email index d <> [] ->
  same_provider_user index (provider_str p) d = Some user /\
  other_provider index (provider_str p) d = None /\
  forall q, q <> p -> other_provider index (provider_str q) d = Some (provider_str p).
Proof.
  unfold same_provider_user, other_provider. intros Hall Hne.
  destruct (sign_ins_with_email index d) as [|ao l]; [done|]. clear Hne.
  destruct (Hall ao ltac:(left)) as [Hu Hp]. split; [|split].
  - unfold where_. cbn [List.filter]. rewrite Hp, String.eqb_refl. cbn. by rewrite Hu.
  - rewrite where_none; [done|]. intros x Hx. destruct (Hall x Hx) as [_ ->].
    by rewrite String.eqb_refl.
  - intros q Hq. unfold where_. cbn [List.filter]. rewrite Hp.
    destruct (String.eqb_spec (provider_str p) (provider_str q)) as [E|E]; cbn; [|by rewrite Hp].
    apply provider_str_inj in E. congruence.
Qed.

(** C20: who an OAuth identity signs in as, on every branch.  A callback that
    answers was made with the state of its cookie, and the identity and email it
    acts on are those the provider gave for the request's code.  Exactly when a
    user of another provider has the contact email, the answer is a conflict and
    the tables are as they were.  Otherwise the tokens belong to the user of the
    identity, if it is known, else to a user of the same provider who has this
    contact email, else to a new user; the identity and the email, encrypted and
    indexed, are stored with that user, and the access token names no wallet. *)
Theorem oauth_callback_resolves (cfg : Config) (jar : CookieJar) (q : OAuthCallbackQuery)
    (p : OAuthProvider) (w w' : World) (r : OAuthResponse) :
  oauth_callback cfg jar q p w = (Ok r, w') ->
  assoc (state_cookie_name p) jar = Some (cq_state q) /\
  exists identity idx, provider_says cfg p (cq_code q) (w_tick w) identity /\
    decode_hex_key_32 (cfg_encryption_index_key cfg) = Ok idx /\
    let index := hmac_index (oi_email identity) idx in
    let taken other := other_provider index (provider_str p) (w_db w) = Some other /\
                       eq_ignore_ascii_case other (provider_str p) = false in
    match r with
    | OAuthConflict status body =>
        status = 409%nat /\ w_db w' = w_db w /\
        exists other, taken other /\ body = conflict_body (mkConflict other "/auth/link/oauth")
    | OAuthTokens tokens =>
        (forall other, ~ taken other) /\
        exists user, oauth_origin p (oi_provider_id identity) index user (w_db w) /\
          oauth_user (provider_str p) (oi_provider_id identity) (w_db w') = Some user /\
          (exists row, contact_of user (w_db w') = Some row /\
             holds_email cfg (oi_email identity) index row) /\
          (exists exp iat jti, jwt_encode (cfg_jwt_secret cfg) (mkClaims user None exp iat jti)
             = Some (ar_access_token tokens))
    end.
Proof.
  intros Hc. unfold oauth_callback in Hc. run_inv. subst.
  match goal with Hq : validate_oauth_state_cookie _ _ _ = _ |- _ => rename Hq into Hck end.
  match goal with Hq : exchange_code_and_fetch_identity _ _ _ _ = (Ok ?i, _) |- _ =>
    rename Hq into Hex; rename i into identity end.
  match goal with Hq : resolve_or_create_oauth_user _ _ _ _ _ = _ |- _ => rename Hq into Hres end.
  split.
  { unfold validate_oauth_state_cookie in Hck. destruct (assoc _ _) as [c|]; [|done].
    destruct (String.eqb_spec c (cq_state q)) as [E|]; [by rewrite E | discriminate Hck]. }
  apply exchange_run in Hex as [Hsays Hex]. apply resolve_run in Hres as (idx & Hidx & Hres).
  exists identity, idx. split; [exact Hsays|]. split; [done|]. cbv zeta in *. rewrite Hex in Hres.
  match type of Hres with match ?x with _ => _ end => destruct x as [user|c] end.
  - run_inv. subst. destruct Hres as (Hfree & Ho & Hu & Hrow & _).
    match goal with Hq : issue_tokens _ _ _ _ = _ |- _ => apply issue_tokens_Ok in Hq as (Hj & now & _ & Hd) end.
    split; [intros other [Hother Hne]; rewrite (Hfree _ Hother) in Hne; discriminate Hne|].
    exists user. rewrite Hd. split; [done|]. split; [done|]. split; [done|exact Hj].
  - run_inv. subst. destruct Hres as (Hd & Hl & Ho & Hne). split; [done|].
    split; [congruence|]. eexists. split; [split; [exact Ho | exact Hne]|].
    match goal with |- conflict_body ?c = _ => destruct c; cbn in *; congruence end.
Qed.
End Resolution.

(** ** Two consequences *)

Section Consequences.
Context `{Ext, Env}.

Lemma elem_of_sign_ins index d ao :
  ao ∈ sign_ins_with_email index d <->
  exists uc, uc ∈ db_contacts d /\ uc_email_index uc = Some index /\
    ao ∈ db_oauth d /\ ao_user_id ao = uc_user_id uc.
Proof.
  unfold sign_ins_with_email. rewrite list_elem_of_In, List.in_flat_map.
  setoid_rewrite <-list_elem_of_In. setoid_rewrite elem_of_where.
  split.
  - intros (uc & [Huc Hi] & Hao & Hu). exists uc. split; [done|].
    unfold index_is, bytes_eqb in Hi. destruct (uc_email_index uc); [|done].
    apply bool_decide_eq_true in Hi, Hu. subst. done.
  - intros (uc & Huc & Hi & Hao & Hu). exists uc. split; (split; [done|]).
    + unfold index_is, bytes_eqb. rewrite Hi. by apply bool_decide_eq_true.
    + by apply bool_decide_eq_true.
Qed.

(** C21: a contact email decides who others sign in as, and nobody checks it.
    A user who signs in through provider [p] only stores somebody else's email
    with [update_contacts].  When the owner of that email later signs in for
    the first time, a sign-in through [p] becomes a sign-in as this user, and
    the owner's identity is stored as this user's; a sign-in through the other
    provider is refused as a conflict. *)
Theorem contact_email_captures_signin (cfg : Config) (auth : AuthUser)
    (body : UpdateContactsRequest) (email : string) (p : OAuthProvider) (w w' : World) (r : json)
    (idx : bytesN 32) :
  decode_hex_key_32 (cfg_encryption_index_key cfg) = Ok idx ->
  uq_email body = Some email ->
  (exists ao, ao ∈ db_oauth (w_db w) /\ ao_user_id ao = au_user_id auth) ->
  (forall ao, ao ∈ db_oauth (w_db w) -> ao_user_id ao = au_user_id auth ->
     ao_provider ao = provider_str p) ->
  (forall uc, uc ∈ db_contacts (w_db w) -> uc_user_id uc <> au_user_id auth ->
     uc_email_index uc <> Some (hmac_index email idx)) ->
  update_contacts cfg auth body w = (Ok r, w') ->
  forall q provider_id later res later',
    w_db later = w_db w' -> oauth_user (provider_str q) provider_id (w_db w') = None ->
    resolve_or_create_oauth_user cfg q provider_id email later = (Ok res, later') ->
    if decide (q = p) then
      res = ResolvedUser (au_user_id auth) /\
      oauth_user (provider_str q) provider_id (w_db later') = Some (au_user_id auth)
    else res = ResolvedConflict (mkConflict (provider_str p) "/auth/link/oauth").
Proof.
  intros Hidx Hemail (ao & Hao & Haou) Hall Hothers Hu q pid later res later' Hlater Hnew Hres.
  apply update_contacts_run in Hu as (key & idx' & enc & phone & push & at_ & _ & Hidx' & He & _ & _
    & [[f Hf] Hrows] & Hc). cbv zeta in Hc.
  assert (idx' = idx) as -> by congruence. rewrite Hemail in *. destruct enc as [[ct nonce]|]; [|done].
  set (index := hmac_index email idx) in *.
  assert (Hoauth : db_oauth (w_db w') = db_oauth (w_db w)) by by rewrite Hf.
  destruct (single_provider index p (au_user_id auth) (w_db w')) as (Hsame & Hnone & Hother).
  { intros x (uc & Huc & Hi & Hx & Hxu)%elem_of_sign_ins. rewrite Hoauth in Hx.
    destruct (decide (uc_user_id uc = au_user_id auth)) as [E|E].
    - split; [congruence|]. apply Hall; congruence.
    - destruct (Hrows uc Huc) as [?|Hold]; [done|]. by destruct (Hothers uc Hold E). }
  { assert (Hin : ao ∈ sign_ins_with_email index (w_db w')); [|by destruct (sign_ins_with_email _ _);
      [apply not_elem_of_nil in Hin|]].
    destruct (contact_of (au_user_id auth) (w_db w')) as [row|] eqn:Er; [|done].
    pose proof (fetch_where_Some _ _ _ Er) as [Hrow Hru]. apply contact_is_spec in Hru.
    apply elem_of_sign_ins. exists row. rewrite Hoauth, Haou, Hru. split; [done|]. split; [|done].
    injection Hc as ->. by destruct (contact_of _ (w_db w)). }
  apply resolve_run in Hres as (idx2 & Hidx2 & Hres). assert (idx2 = idx) as -> by congruence.
  cbv zeta in Hres. fold index in Hres. rewrite Hlater in Hres.
  destruct (decide (q = p)) as [->|Hq].
  - destruct res as [user|c]; [|destruct Hres as (_ & _ & E & _); congruence].
    destruct Hres as (_ & [E|[_ [E|[E _]]]] & Hu & _); [congruence| |congruence].
    assert (user = au_user_id auth) as -> by congruence. done.
  - specialize (Hother q Hq). destruct res as [user|c].
    + destruct Hres as (E & _). specialize (E _ Hother). by destruct p, q.
    + destruct Hres as (_ & Hl & E & _). destruct c; cbn in *. congruence.
Qed.

(** An OAuth session has no wallet, even when the user has one.  The access
    token of a callback never passes the guard of the endpoints that need a
    wallet, whatever wallets are linked to its user; it has to be refreshed
    first. *)
Theorem oauth_sessions_lack_wallet (cfg : Config) (jar : CookieJar) (q : OAuthCallbackQuery)
    (p : OAuthProvider) (w w' later : World) (tokens : AuthResponse) :
  jwt_correct ->
  oauth_callback cfg jar q p w = (Ok (OAuthTokens tokens), w') ->
  exists e, fst (auth_user_with_wallet cfg
    (Some ("Bearer " +:+ ar_access_token tokens)) later) = Err e.
Proof.
  intros Hj Hc. unfold oauth_callback in Hc. run_inv. subst.
  match goal with Hq : resolve_or_create_oauth_user _ _ _ _ _ = (Ok ?x, _) |- _ =>
    destruct x end; run_inv; [|done].
  subst.
  match goal with Hq : issue_tokens _ _ _ _ = _ |- _ =>
    apply issue_tokens_Ok in Hq as ((exp & iat & jti & Henc) & _) end.
  unfold auth_user_with_wallet, bind. rewrite auth_user_run, (Hj _ _ _ Henc).
  cbn [cl_exp]. destruct (_ <? _); cbn; eauto.
Qed.
End Consequences.

(** ** Concrete runs *)

(** Mallory signs in through Google; a wallet "first" belongs to the same user. *)
Definition db_mallory : Db :=
  set_oauth (fun _ => [mkAuthOauth (uid x01) "google" "mallory" 900]) db_accounts.
Definition contacts_request (email : string) : UpdateContactsRequest :=
  mkUpdateContacts (Some email) None None.
Definition app_hex : AppState :=
  app_demo (hex_demo (repeat x01 32)) (hex_demo (repeat x02 32))
    (cfg_vault_min_sol_circuit_breaker config_demo) 0.

Lemma aes_correct_demo : @aes_correct ext_demo.
Proof.
  intros key nonce text ct [= <-]. unfold aes256gcm_decrypt. cbn -[pad_to].
  assert (Hl : (length (pad_to 16 (bn_bytes key ++ nonce)) = 16)%nat).
  { unfold pad_to. rewrite length_take, length_app, repeat_length. lia. }
  rewrite length_app, Hl. replace (length text + 16 - 16)%nat with (length text) by lia.
  rewrite take_app_length, drop_app_length. by rewrite bool_decide_eq_true_2.
Qed.

Lemma random_lengths_demo : @random_lengths env_demo.
Proof.
  intros k n. cbn -[pad_to]. unfold pad_to. rewrite length_take, length_app, repeat_length. lia.
Qed.

Lemma contact_email_reaches_worker_witness :
  exists r w', @update_contacts ext_demo env_demo app_hex (mkAuthUser (uid x01) None)
      (contacts_request "eve@example.com") (world_demo db_mallory) = (Ok r, w') /\
    fst (@lookup_user_email ext_demo env_demo app_hex Empty_set "first" w')
      = Ok (Some "eve@example.com").
Proof.
  destruct (@update_contacts ext_demo env_demo app_hex (mkAuthUser (uid x01) None)
      (contacts_request "eve@example.com") (world_demo db_mallory)) as [[r|e] w'] eqn:E;
    [|vm_compute in E; discriminate E].
  exists r, w'. split; [reflexivity|].
  apply (@contact_email_reaches_worker ext_demo env_demo Empty_set app_hex (mkAuthUser (uid x01) None)
    (contacts_request "eve@example.com") "eve@example.com" "first" r (world_demo db_mallory) w' w'
    aes_correct_demo random_lengths_demo); try reflexivity; [exact E | intros k _; reflexivity].
Defined.

Lemma contact_email_captures_signin_witness :
  exists r w' res later', @update_contacts ext_demo env_demo app_hex (mkAuthUser (uid x01) None)
      (contacts_request "eve@example.com") (world_demo db_mallory) = (Ok r, w') /\
    @resolve_or_create_oauth_user ext_demo env_demo app_hex Google "eve" "eve@example.com" w'
      = (Ok res, later') /\
    res = ResolvedUser (uid x01).
Proof.
  destruct (@update_contacts ext_demo env_demo app_hex (mkAuthUser (uid x01) None)
      (contacts_request "eve@example.com") (world_demo db_mallory)) as [[r|e] w'] eqn:E;
    [|vm_compute in E; discriminate E].
  destruct (@resolve_or_create_oauth_user ext_demo env_demo app_hex Google "eve" "eve@example.com" w')
    as [[res|e] later'] eqn:Er.
  2: { exfalso. apply (f_equal snd) in E as Ew. cbn [snd] in Ew. subst w'.
       vm_compute in Er. discriminate Er. }
  exists r, w', res, later'. split; [reflexivity|]. split; [exact Er|].
  pose proof (@contact_email_captures_signin ext_demo env_demo app_hex (mkAuthUser (uid x01) None)
    (contacts_request "eve@example.com") "eve@example.com" Google (world_demo db_mallory) w' r
    (padded 32 (repeat x02 32))) as Ht.
  assert (Hres : if decide (Google = Google) then res = ResolvedUser (uid x01) /\
    oauth_user "google" "eve" (w_db later') = Some (uid x01) else
    res = ResolvedConflict (mkConflict "google" "/auth/link/oauth")).
  { refine (Ht _ eq_refl _ _ _ E Google "eve" w' res later' eq_refl _ Er).
    - vm_compute. reflexivity.
    - eexists. split; [left | reflexivity].
    - intros ao Hao%list_elem_of_singleton _. by subst ao.
    - intros uc Huc. by apply not_elem_of_nil in Huc.
    - apply (f_equal snd) in E. cbn [snd] in E. subst w'. vm_compute. reflexivity. }
  destruct (decide (Google = Google)) as [_|n]; [apply Hres | by destruct n].
Defined.

Definition google_jar : CookieJar := [("oauth_google_state", "s")].

Lemma oauth_callback_resolves_witness :
  exists r w', @oauth_callback ext_demo env_demo app_hex google_jar (mkCallbackQuery "c" "s") Google
      (world_demo db_mallory) = (Ok r, w') /\
    assoc "oauth_google_state" google_jar = Some "s".
Proof.
  destruct (@oauth_callback ext_demo env_demo app_hex google_jar (mkCallbackQuery "c" "s") Google
      (world_demo db_mallory)) as [[r|e] w'] eqn:E; [|vm_compute in E; discriminate E].
  exists r, w'. split; [reflexivity|].
  apply (@oauth_callback_resolves ext_demo env_demo app_hex google_jar (mkCallbackQuery "c" "s")
    Google (world_demo db_mallory) w' r E).
Defined.

Lemma oauth_sessions_lack_wallet_witness :
  exists tokens w' e, @oauth_callback ext_demo env_demo app_hex google_jar (mkCallbackQuery "c" "s")
      Google (world_demo db_mallory) = (Ok (OAuthTokens tokens), w') /\
    fst (@auth_user_with_wallet ext_demo env_demo app_hex
      (Some ("Bearer " +:+ ar_access_token tokens)) w') = Err e.
Proof.
  destruct (@oauth_callback ext_demo env_demo app_hex google_jar (mkCallbackQuery "c" "s") Google
      (world_demo db_mallory)) as [[[tokens|s b]|e] w'] eqn:E;
    [|vm_compute in E; discriminate E|vm_compute in E; discriminate E].
  destruct (@oauth_sessions_lack_wallet ext_demo env_demo app_hex google_jar (mkCallbackQuery "c" "s")
    Google (world_demo db_mallory) w' w' tokens jwt_correct_demo E) as [e He].
  exists tokens, w', e. split; [reflexivity | exact He].
Defined.
