(* ===== verification/Ws.v ===== *)
(** * Ws: WebSocket connections

    src/src/handlers/ws.rs: the checks of the upgrade, the JSON of the events,
    delivery to several users, and the life of the connections over the shared
    map of channels as a step relation.  [handle_upgrade] stores the sender of a
    new channel under the user and removes the user's entry when the connection
    ends, whichever connection the entry belongs to by then. *)

From Stdlib Require Import ZArith Lia.
From Stdlib Require Import Strings.Byte Strings.Ascii Strings.String.
From stdpp Require Import base tactics decidable option list strings countable gmap.
From S2P Require Import Prelude Text Errors Borsh SolanaTypes Health World Concrete Crypto Jwt.

Open Scope string_scope.
Open Scope list_scope.
Open Scope nat_scope.

(** ** The upgrade request *)

Definition WS_ALLOWED_ORIGINS : list string := ["https://pactum.app"; "https://app.pactum.app"].

(** The headers the handler reads, when they are there and are text. *)
Record WsHeaders : Type := mkWsHeaders { wh_origin : option string; wh_authorization : option string }.

Definition is_allowed_origin (h : WsHeaders) : bool :=
  match wh_origin h with
  | None => false
  | Some origin => List.existsb (String.eqb origin) WS_ALLOWED_ORIGINS
  end.

Definition extract_jwt_token (h : WsHeaders) (query_token : option string) : option string :=
  match query_token with
  | Some (String c t) => Some (String c t)
  | _ => a ← wh_authorization h; strip_prefix "Bearer " a
  end.

Inductive WsResponse : Type :=
| WsStatus (code : nat)
| WsUpgrade (user : Uuid).

Definition ws_event_to_json (e : WsEvent) (timestamp : Z) : json :=
  let ev name key value :=
    JObj [("event", JStr name); (key, JStr value); ("timestamp", JNum timestamp)] in
  match e with
  | WsAgreementCreated pda => ev "agreement.created" "agreement_pda" pda
  | WsAgreementSigned pda => ev "agreement.signed" "agreement_pda" pda
  | WsAgreementCompleted pda => ev "agreement.completed" "agreement_pda" pda
  | WsAgreementCancelled pda => ev "agreement.cancelled" "agreement_pda" pda
  | WsAgreementExpired pda => ev "agreement.expired" "agreement_pda" pda
  | WsAgreementRevokeVote pda => ev "agreement.revoke_vote" "agreement_pda" pda
  | WsAgreementRevoked pda => ev "agreement.revoked" "agreement_pda" pda
  | WsDraftReady id => ev "draft.ready_to_submit" "draft_id" id
  | WsDraftInvitationExpired id => ev "draft.invitation_expired" "draft_id" id
  | WsPaymentConfirmed id => ev "payment.confirmed" "draft_id" id
  | WsRefundCompleted id => ev "payment.refund_completed" "draft_id" id
  | WsGenericNotification m => ev "notification.generic" "message" m
  end.

Section Handler.
Context `{Ext, Env}.

Definition ws_handler {E} (cfg : Config) (h : WsHeaders) (query_token : option string)
    : M World E WsResponse :=
  if negb (is_allowed_origin h) then ret (WsStatus 403) else
  match extract_jwt_token h query_token with
  | None => ret (WsStatus 401)
  | Some token =>
      let* claims := attempt (decode_access_token cfg token) in
      ret (match claims with Ok c => WsUpgrade (cl_sub c) | Err _ => WsStatus 401 end)
  end.

(** [send_to_users]: how many of the users were reached. *)
Fixpoint send_to_users {E} (user_ids : list Uuid) (ev : WsEvent) : M World E nat :=
  match user_ids with
  | [] => ret 0
  | u :: user_ids' =>
      let* sent := send_to_user u ev in
      let* n := send_to_users user_ids' ev in
      ret ((if sent : bool then 1 else 0) + n)
  end.
End Handler.

(** ** Connections and the map of channels

    A channel is known by the connection that created it.  Its only sender is
    the one in the map; its receiver is the connection's.  A connection is
    [Serving] in its loop; [Leaving] when the loop has ended, its receiver is
    dropped and it is about to remove the user's entry; then [Ended]. *)

Inductive Phase : Type := Serving | Leaving | Ended.

#[export] Instance Phase_eq_dec : EqDecision Phase.
Proof. solve_decision. Defined.

Record Conn : Type := mkConn { cn_user : Uuid; cn_phase : Phase; cn_queue : list WsEvent }.

Record WsState : Type := mkWsState { ws_channels : gmap Uuid nat; ws_conns : list Conn }.

Definition ws_empty : WsState := mkWsState ∅ [].

(** The sender of connection [i] is still in the map. *)
Definition has_sender (s : WsState) (i : nat) (c : Conn) : bool :=
  bool_decide (ws_channels s !! cn_user c = Some i).

Definition set_conn (s : WsState) (i : nat) (c : Conn) : WsState :=
  mkWsState (ws_channels s) (<[i := c]> (ws_conns s)).

(** [handle_upgrade] up to its first wait *)
Definition handle_upgrade (u : Uuid) (s : WsState) : WsState :=
  mkWsState (<[u := length (ws_conns s)]> (ws_channels s)) (ws_conns s ++ [mkConn u Serving []]).

(** The loop ends: the receiver is dropped. *)
Definition leave (i : nat) (c : Conn) (s : WsState) : WsState :=
  set_conn s i (mkConn (cn_user c) Leaving []).

(** [remove_user_channel] *)
Definition remove_user_channel (i : nat) (c : Conn) (s : WsState) : WsState :=
  mkWsState (delete (cn_user c) (ws_channels s))
    (<[i := mkConn (cn_user c) Ended []]> (ws_conns s)).

(** One step of connection [i].  [forced] steps happen by themselves; the
    others come from the peer: it closes, or a write to it fails.  A receiver
    that lags loses its oldest events and goes on. *)
Inductive conn_step (s : WsState) (i : nat) : bool -> WsState -> Prop :=
| cs_incoming_end c : ws_conns s !! i = Some c -> cn_phase c = Serving ->
    conn_step s i false (leave i c s)
| cs_write_fails c e q : ws_conns s !! i = Some c -> cn_phase c = Serving ->
    cn_queue c = e :: q -> conn_step s i false (leave i c s)
| cs_event c e q : ws_conns s !! i = Some c -> cn_phase c = Serving -> cn_queue c = e :: q ->
    conn_step s i true (set_conn s i (mkConn (cn_user c) Serving q))
| cs_lagged c e q : ws_conns s !! i = Some c -> cn_phase c = Serving -> cn_queue c = e :: q ->
    conn_step s i false (set_conn s i (mkConn (cn_user c) Serving q))
| cs_closed c : ws_conns s !! i = Some c -> cn_phase c = Serving -> cn_queue c = [] ->
    has_sender s i c = false -> conn_step s i true (leave i c s)
| cs_remove c : ws_conns s !! i = Some c -> cn_phase c = Leaving ->
    conn_step s i true (remove_user_channel i c s).

(** What is sent to a user reaches the queue of the connection whose sender is
    in the map, if that one still serves. *)
Inductive send_step (s : WsState) : WsState -> Prop :=
| ss_send u e i c : ws_channels s !! u = Some i -> ws_conns s !! i = Some c ->
    cn_phase c = Serving ->
    send_step s (set_conn s i (mkConn (cn_user c) Serving (cn_queue c ++ [e]))).

(** Everything but new connections. *)
Inductive ws_step (s : WsState) : WsState -> Prop :=
| ws_conn i b s' : conn_step s i b s' -> ws_step s s'
| ws_send s' : send_step s s' -> ws_step s s'.

(** No connection has a step that happens by itself. *)
Definition ws_settled (s : WsState) : Prop := forall i s', ~ conn_step s i true s'.

Definition connected (s : WsState) (u : Uuid) : Prop :=
  exists i c, ws_channels s !! u = Some i /\ ws_conns s !! i = Some c /\ cn_phase c = Serving.
Definition open_conn (s : WsState) (u : Uuid) (i : nat) : Prop :=
  exists c, ws_conns s !! i = Some c /\ cn_user c = u /\ cn_phase c <> Ended.

(** ** Invariants *)

(** An entry of the map belongs to a connection of that user that has not
    ended. *)
Definition ws_wf (s : WsState) : Prop :=
  forall u i, ws_channels s !! u = Some i -> open_conn s u i.

(** Some connection of the user is bound to remove the entry, or there is none. *)
Definition doomed (u : Uuid) (s : WsState) : Prop :=
  ws_channels s !! u = None \/
  exists i c, ws_conns s !! i = Some c /\ cn_user c = u /\
    (cn_phase c = Leaving \/ cn_phase c = Serving /\ ws_channels s !! u <> Some i).

(** Steps of connection [i] as updates: the rows they find and leave. *)
Lemma conn_step_inv s i b s' :
  conn_step s i b s' ->
  exists c c', ws_conns s !! i = Some c /\ ws_conns s' = <[i := c']> (ws_conns s) /\
    cn_user c' = cn_user c /\
    ((cn_phase c = Serving /\ cn_phase c' <> Ended /\ ws_channels s' = ws_channels s) \/
     (cn_phase c = Leaving /\ cn_phase c' = Ended /\
      ws_channels s' = delete (cn_user c) (ws_channels s))).
Proof. destruct 1; do 2 eexists; (split; [eassumption|]); cbn; eauto 10. Qed.

Lemma lookup_insert_case {A} (l : list A) i j x y :
  <[i := x]> l !! j = Some y -> (i = j /\ y = x /\ (i < length l)) \/ (i <> j /\ l !! j = Some y).
Proof.
  destruct (decide (i = j)) as [<-|Hne]; [|rewrite list_lookup_insert_ne by done; auto].
  intros Hl. left. pose proof (lookup_lt_Some _ _ _ Hl) as Hlt. rewrite length_insert in Hlt.
  rewrite list_lookup_insert_eq in Hl by done. by injection Hl as ->.
Qed.

Lemma conn_step_doomed u s i b s' : doomed u s -> conn_step s i b s' -> doomed u s'.
Proof.
  intros Hd Hs. apply conn_step_inv in Hs as (c & c' & Hc & Hcs & Hu & Hcase). unfold doomed in *.
  destruct Hcase as [(Hp & Hp' & Hch)|(Hp & Hp' & Hch)]; rewrite Hch, Hcs.
  - destruct Hd as [Hn|(j & d & Hj & Hdu & Hdp)]; [by left|]. right.
    destruct (decide (j = i)) as [->|Hne].
    + assert (d = c) as -> by congruence. destruct Hdp as [?|[_ Hne]]; [congruence|].
      exists i, c'. rewrite list_lookup_insert_eq by (by eapply lookup_lt_Some).
      split; [done|]. split; [congruence|]. destruct (cn_phase c'); auto. done.
    + exists j, d. rewrite list_lookup_insert_ne by done. auto.
  - destruct (decide (cn_user c = u)) as [<-|Hneu]; [left; apply lookup_delete_eq|].
    rewrite lookup_delete_ne by done.
    destruct Hd as [Hn|(j & d & Hj & Hdu & Hdp)]; [by left|]. right.
    exists j, d. rewrite list_lookup_insert_ne by congruence. auto.
Qed.

Lemma send_step_doomed u s s' : doomed u s -> send_step s s' -> doomed u s'.
Proof.
  intros Hd [v e i c Hi Hc Hp]. unfold doomed in *. cbn [set_conn ws_channels ws_conns].
  destruct Hd as [Hn|(j & d & Hj & Hdu & Hdp)]; [by left|]. right.
  destruct (decide (j = i)) as [->|Hne].
  - assert (d = c) as -> by congruence. eexists i, _.
    rewrite list_lookup_insert_eq by (by eapply lookup_lt_Some). split; [done|]. cbn.
    split; [done|]. destruct Hdp as [?|[_ ?]]; [congruence | auto].
  - exists j, d. rewrite list_lookup_insert_ne by done. auto.
Qed.

(** A second connection displaces the sender of the first. *)
Lemma second_connection_doomed u s i :
  ws_wf s -> ws_channels s !! u = Some i -> doomed u (handle_upgrade u s).
Proof.
  intros Hwf Hi. destruct (Hwf u i Hi) as (c & Hc & Hu & Hp). right. exists i, c.
  pose proof (lookup_lt_Some _ _ _ Hc) as Hlt. cbn. split; [by apply lookup_app_l_Some|].
  split; [done|]. rewrite lookup_insert_eq.
  destruct (cn_phase c); [right | left | done]; [split; [done|] | done]. intros [= E]. lia.
Qed.

(** A doomed user whose connections have settled has none. *)
Lemma settled_doomed u s :
  ws_settled s -> doomed u s ->
  ws_channels s !! u = None /\ forall i, ~ open_conn s u i.
Proof.
  intros Hq Hd.
  assert (Hall : forall i c, ws_conns s !! i = Some c -> cn_user c = u -> cn_phase c <> Ended ->
            cn_phase c = Serving /\ ws_channels s !! u = Some i).
  { intros i c Hc Hu Hp. destruct (cn_phase c) eqn:E; [|by destruct (Hq i _ (cs_remove s i c Hc E))|done].
    split; [done|]. destruct (cn_queue c) as [|e q] eqn:Eq;
      [|by destruct (Hq i _ (cs_event s i c e q Hc E Eq))].
    destruct (has_sender s i c) eqn:Eh; [|by destruct (Hq i _ (cs_closed s i c Hc E Eq Eh))].
    apply bool_decide_eq_true in Eh. congruence. }
  assert (Hn : ws_channels s !! u = None).
  { destruct Hd as [Hn|(i & c & Hc & Hu & Hp)]; [done|]. exfalso.
    destruct (Hall i c Hc Hu ltac:(destruct Hp as [->|[-> _]]; done)) as [Hs Hi].
    destruct Hp as [?|[_ ?]]; congruence. }
  split; [done|]. intros i (c & Hc & Hu & Hp). destruct (Hall i c Hc Hu Hp). congruence.
Qed.

(** Any step, new connections included. *)
Inductive ws_any (s : WsState) : WsState -> Prop :=
| wa_connect u : ws_any s (handle_upgrade u s)
| wa_step s' : ws_step s s' -> ws_any s s'.

Lemma ws_wf_any s s' : ws_wf s -> ws_any s s' -> ws_wf s'.
Proof.
  intros Hwf [u|s1 [i b s2 Hs|s2 [v e i c Hi Hc Hp]]].
  - intros v j Hj. cbn in Hj. destruct (decide (u = v)) as [->|Hne].
    + rewrite lookup_insert_eq in Hj. injection Hj as <-. eexists. cbn.
      rewrite lookup_app_r, Nat.sub_diag by lia. by split.
    + rewrite lookup_insert_ne in Hj by done. destruct (Hwf v j Hj) as (d & Hd & ? & ?).
      exists d. split; [by apply lookup_app_l_Some | done].
  - apply conn_step_inv in Hs as (c & c' & Hc & Hcs & Hu & Hcase). intros v j Hj.
    assert (Hjw : ws_channels s !! v = Some j).
    { destruct Hcase as [(_ & _ & Hch)|(_ & _ & Hch)]; rewrite Hch in Hj; [done|].
      by apply lookup_delete_Some in Hj as [_ ?]. }
    destruct (Hwf v j Hjw) as (d & Hd & Hdu & Hdp).
    unfold open_conn. rewrite Hcs. destruct (decide (i = j)) as [<-|Hne];
      [|rewrite list_lookup_insert_ne by done; eauto].
    rewrite list_lookup_insert_eq by (by eapply lookup_lt_Some). exists c'.
    assert (d = c) as -> by congruence. split; [done|]. split; [congruence|].
    destruct Hcase as [(_ & Hp' & _)|(_ & _ & Hch)]; [done|]. exfalso.
    rewrite Hch, Hdu, lookup_delete_eq in Hj. done.
  - intros u j Hj. destruct (Hwf u j Hj) as (d & Hd & Hdu & Hdp). unfold open_conn.
    cbn [set_conn ws_conns]. destruct (decide (i = j)) as [<-|Hne];
      [|rewrite list_lookup_insert_ne by done; eauto].
    rewrite list_lookup_insert_eq by (by eapply lookup_lt_Some). eexists. split; [done|]. cbn.
    split; [congruence | done].
Qed.

Lemma ws_reachable_wf s : star ws_any ws_empty s -> ws_wf s.
Proof.
  intros Hr. eapply star_invariant; [apply ws_wf_any | exact Hr|]. intros u i Hi.
  change (ws_channels ws_empty) with (∅ : gmap Uuid nat) in Hi. by rewrite lookup_empty in Hi.
Qed.

(** ** Termination

    Steps that are left before a connection has ended. *)
Definition conn_measure (c : Conn) : nat :=
  match cn_phase c with Serving => 2 + length (cn_queue c) | Leaving => 1 | Ended => 0 end.
Definition ws_measure (s : WsState) : nat := list_sum (map conn_measure (ws_conns s)).

Lemma list_sum_insert {A} (f : A -> nat) l i x y :
  l !! i = Some x -> list_sum (map f (<[i := y]> l)) + f x = list_sum (map f l) + f y.
Proof.
  revert i. induction l as [|z l IH]; intros [|i] Hl; try done.
  - injection Hl as ->. unfold list_sum. cbn. lia.
  - specialize (IH _ Hl). unfold list_sum in *. cbn. rewrite <-!Nat.add_assoc. f_equal. exact IH.
Qed.

Lemma conn_step_measure s i b s' : conn_step s i b s' -> ws_measure s' < ws_measure s.
Proof.
  unfold ws_measure. destruct 1; cbn [leave set_conn remove_user_channel ws_conns];
    match goal with
    | Hc : ws_conns s !! i = Some ?c |- list_sum (map _ (<[i := ?c']> _)) < _ =>
        pose proof (list_sum_insert conn_measure _ i c c' Hc) as Hm
    end;
    unfold conn_measure in Hm at 2 4; cbn [cn_phase cn_queue] in Hm;
    repeat match goal with
    | Hp : cn_phase _ = _ |- _ => rewrite Hp in Hm
    | Hp : cn_queue _ = _ |- _ => rewrite Hp in Hm
    end; cbn in Hm; lia.
Qed.

(** Runs of the connections with the number of their steps. *)
Inductive ws_run : nat -> WsState -> WsState -> Prop :=
| wr_refl s : ws_run 0 s s
| wr_step n s i b s1 s2 : conn_step s i b s1 -> ws_run n s1 s2 -> ws_run (S n) s s2.

(** C29: the second connection of a user ends both.  Opening a connection while
    the user has one dooms the two: after any messages, deliveries and events,
    once the connections have no step left that happens by itself, the user has
    no entry in the map of channels and no open connection.  The first one sees
    its channel closed because its sender was replaced, ends, and removes the
    entry of the second, which closes the second.  And the connections always
    get there: they take at most [ws_measure] steps. *)
Theorem reconnect_ends_both (u : Uuid) (s s2 : WsState) :
  star ws_any ws_empty s -> connected s u -> star ws_step (handle_upgrade u s) s2 ->
  (ws_settled s2 -> ~ connected s2 u /\ forall i, ~ open_conn s2 u i) /\
  forall n s3, ws_run n s2 s3 -> n <= ws_measure s2.
Proof.
  intros Hwf%ws_reachable_wf (i & c & Hi & _ & _) Hr. split.
  - intros Hq.
    assert (Hd : doomed u s2).
    { eapply (star_invariant ws_step (doomed u)); [|exact Hr|by eapply second_connection_doomed].
      intros x y Hx Hs. destruct Hs; [by eapply conn_step_doomed | by eapply send_step_doomed]. }
    destruct (settled_doomed u s2 Hq Hd) as [Hn Ho]. split; [|done].
    intros (j & d & Hj & _). congruence.
  - clear. intros n s3 Hrun. induction Hrun as [|n s i b s1 s3 Hs _ IH]; [lia|].
    pose proof (conn_step_measure _ _ _ _ Hs). lia.
Qed.

(** ** Delivery and the upgrade *)

Section Delivery.
Context `{Ext, Env}.

(** The connected users of the shared world are those of the connections. *)
Definition ws_agrees (s : WsState) (w : World) : Prop := forall u, u ∈ w_ws w <-> connected s u.

Lemma send_to_user_run {E} u ev w :
  send_to_user (E:=E) u ev w =
    (Ok (bool_decide (u ∈ w_ws w)),
     if bool_decide (u ∈ w_ws w) then with_effect (EWsDelivered u ev) (tick w) else tick w).
Proof. unfold send_to_user. by case_bool_decide. Qed.

(** The world after the deliveries. *)
Definition deliver (ids : list Uuid) (ev : WsEvent) (w : World) : World :=
  fold_left (fun w u => if bool_decide (u ∈ w_ws w) then with_effect (EWsDelivered u ev) (tick w)
                        else tick w) ids w.

Lemma send_to_users_run {E} ids ev w :
  send_to_users (E:=E) ids ev w =
    (Ok (length (where_ (fun u => bool_decide (u ∈ w_ws w)) ids)), deliver ids ev w).
Proof.
  revert w. induction ids as [|u ids IH]; intros w; [done|]. cbn [send_to_users deliver fold_left].
  unfold bind. rewrite send_to_user_run, IH. unfold where_, ret. cbn [List.filter].
  by case_bool_decide.
Qed.

Lemma deliver_effects ids ev w :
  w_effects (deliver ids ev w) =
    rev (map (fun u => EWsDelivered u ev) (where_ (fun u => bool_decide (u ∈ w_ws w)) ids)) ++ w_effects w.
Proof.
  revert w. induction ids as [|u ids IH]; intros w; [done|]. cbn [deliver fold_left].
  unfold deliver in IH. rewrite IH. unfold where_. cbn [List.filter].
  case_bool_decide; cbn; [by rewrite <-app_assoc | done].
Qed.

(** Sending an event to users reaches exactly the connected ones.  The
    number returned is the number of addressees in the list who are connected,
    the event is delivered to each of them once per mention, in order, and to
    nobody else; and over the connections behind the map of channels, an
    addressee is reached exactly when a delivery step for him exists. *)
Theorem send_to_users_reaches {E} (s : WsState) (ids : list Uuid) (ev : WsEvent) (w : World) :
  ws_agrees s w ->
  let reached := where_ (fun u => bool_decide (u ∈ w_ws w)) ids in
  fst (send_to_users (E:=E) ids ev w) = Ok (length reached) /\
  w_effects (snd (send_to_users (E:=E) ids ev w)) =
    rev (map (fun u => EWsDelivered u ev) reached) ++ w_effects w /\
  forall u, u ∈ reached <-> u ∈ ids /\
    exists i c, ws_channels s !! u = Some i /\ ws_conns s !! i = Some c /\
      send_step s (set_conn s i (mkConn (cn_user c) Serving (cn_queue c ++ [ev]))) /\
      cn_phase c = Serving.
Proof.
  intros Ha. cbv zeta. rewrite send_to_users_run. cbn [fst snd].
  split; [done|]. split; [by apply deliver_effects|].
  intros u. rewrite elem_of_where, bool_decide_eq_true, (Ha u). split.
  - intros [Hu (i & c & Hi & Hc & Hp)]. split; [done|]. exists i, c.
      split; [done|]. split; [done|]. split; [by econstructor | done].
  - intros [Hu (i & c & Hi & Hc & _ & Hp)]. split; [done|]. by exists i, c.
Qed.
End Delivery.

Section Upgrade.
Context `{Ext, Env}.

(** Who may open a WebSocket.  The upgrade goes through exactly when the
    origin is one of the two of the front end and the token decodes, and then
    as the user of the token; a non-empty token of the query counts before the
    header.  Every other request is answered 403 for its origin or 401 for its
    token, and no table changes. *)
Theorem ws_upgrade_authorised {E} (cfg : Config) (h : WsHeaders) (query_token : option string)
    (w : World) :
  exists resp w', ws_handler (E:=E) cfg h query_token w = (Ok resp, w') /\ w_db w' = w_db w /\
    let origin_ok := wh_origin h = Some "https://pactum.app" \/
                     wh_origin h = Some "https://app.pactum.app" in
    match resp with
    | WsUpgrade user => origin_ok /\ exists token c, extract_jwt_token h query_token = Some token /\
        jwt_decode (cfg_jwt_secret cfg) (app_now (w_tick w)) token = Some c /\ cl_sub c = user
    | WsStatus code =>
        (code = 403 /\ ~ origin_ok) \/
        (code = 401 /\ origin_ok /\ forall token, extract_jwt_token h query_token = Some token ->
           jwt_decode (cfg_jwt_secret cfg) (app_now (w_tick w)) token = None)
    end.
Proof.
  assert (Ho : is_allowed_origin h = true <->
    wh_origin h = Some "https://pactum.app" \/ wh_origin h = Some "https://app.pactum.app").
  { unfold is_allowed_origin. destruct (wh_origin h) as [o|]; [|split; [done | by intros [?|?]]].
    cbn. rewrite !orb_true_iff, !String.eqb_eq. split.
    - intros [->|[->|?]]; auto; done.
    - intros [[= ->]|[= ->]]; auto. }
  unfold ws_handler. destruct (is_allowed_origin h) eqn:Eo; cbn [negb].
  - destruct (extract_jwt_token h query_token) as [token|].
    + unfold bind, attempt, decode_access_token, now_secs, of_result, ret. cbn.
      destruct (jwt_decode _ _ token) as [c|] eqn:Ed; do 2 eexists; (split; [reflexivity|]);
        (split; [done|]); cbn.
      * split; [by apply Ho|]. eauto.
      * right. split; [done|]. split; [by apply Ho|]. intros t [= <-]. done.
    + do 2 eexists. split; [reflexivity|]. split; [done|]. right. split; [done|].
      split; [by apply Ho | done].
  - do 2 eexists. split; [reflexivity|]. split; [done|]. left. split; [done|].
    intros Hc. apply Ho in Hc. congruence.
Qed.
End Upgrade.

(** ** Concrete runs *)

Definition alice : Uuid := uid x01.
(** One connection, then a second one of the same user. *)
Definition ws_one : WsState := handle_upgrade alice ws_empty.
(** The first connection is closed and removes the entry; the second follows. *)
Definition ws_after : WsState :=
  mkWsState ∅ [mkConn alice Ended []; mkConn alice Ended []].

Lemma ws_displaced : star ws_step (handle_upgrade alice ws_one) ws_after.
Proof.
  assert (Hb : forall i j : nat, i <> j -> has_sender
    (mkWsState (<[alice := j]> (<[alice := i]> ∅)) []) i (mkConn alice Serving []) = false).
  { intros i j Hij. apply bool_decide_eq_false. cbn. rewrite lookup_insert_eq. intros [= E]. congruence. }
  eapply star_step; [eapply (ws_conn _ 0 true), cs_closed; [reflexivity..|]; exact (Hb 0 1 ltac:(done))|].
  eapply star_step; [eapply (ws_conn _ 0 true), cs_remove; reflexivity|].
  eapply star_step; [eapply (ws_conn _ 1 true), cs_closed; [reflexivity..|]|].
  { apply bool_decide_eq_false. cbn. by rewrite lookup_delete_eq. }
  eapply star_step; [eapply (ws_conn _ 1 true), cs_remove; reflexivity|].
  apply star_refl.
Qed.

Lemma reconnect_ends_both_witness :
  connected ws_one alice /\ ws_settled ws_after /\ ~ connected ws_after alice.
Proof.
  assert (Hc : connected ws_one alice).
  { exists 0. eexists. split; [apply lookup_insert_eq|]. by split. }
  assert (Hs : ws_settled ws_after).
  { intros i s' Hs. apply conn_step_inv in Hs as (c & c' & Hi & _ & _ & Hp).
    destruct i as [|[|i]]; [injection Hi as <-|injection Hi as <-|done];
      destruct Hp as [(? & _)|(? & _)]; discriminate. }
  split; [exact Hc|]. split; [exact Hs|].
  apply (@reconnect_ends_both alice ws_one ws_after); [| exact Hc | exact ws_displaced | exact Hs].
  apply star_one, wa_connect.
Defined.

Lemma send_to_users_reaches_witness :
  fst (send_to_users (E:=Empty_set) [alice; uid x02] (WsDraftReady "d")
    (mkWorld db_empty 0 (PH.new PH.Healthy) [alice] ∅ [])) = Ok 1.
Proof.
  apply (@send_to_users_reaches Empty_set ws_one [alice; uid x02] (WsDraftReady "d")).
  intros u. split.
  - intros Hu%list_elem_of_singleton. subst u. exists 0. eexists.
    split; [apply lookup_insert_eq|]. by split.
  - intros (i & c & Hi & _). cbn in *. destruct (decide (alice = u)) as [<-|Hne]; [left|].
    rewrite lookup_insert_ne, lookup_empty in Hi by done. discriminate Hi.
Defined.
