(* ===== verification/Storage.v ===== *)
(** * Storage: documents and metadata on IPFS and Arweave

    src/src/services/storage.rs and src/src/services/metadata.rs.  The trait of
    the HTTP client is the class [StorageHttpClient]; its [Reqwest] instance
    maps what the network answers to the errors of the API.  Every caller runs
    inside the tokio runtime, so [run_async] awaits in place. *)

From Stdlib Require Import ZArith Lia.
From Stdlib Require Import Strings.Byte Strings.Ascii Strings.String.
From stdpp Require Import base tactics decidable option list strings gmap.
From S2P Require Import Prelude Text Errors Borsh SolanaTypes Health World Concrete Crypto.

Open Scope string_scope.
Open Scope list_scope.
Open Scope Z_scope.

Definition ARWEAVE_UPLOAD_URL : string := "https://arweave.net/tx".

(** [status.is_success()] *)
Definition is_success (status : Z) : bool := (200 <=? status) && (status <? 300).

Fixpoint extract_uri_id (payload : json) (keys : list string) : option string :=
  match keys with
  | [] => None
  | key :: keys' =>
      match json_get key payload ≫= json_as_str with
      | Some v => Some v
      | None => extract_uri_id payload keys'
      end
  end.

Definition get_ipfs_gateway_url (cid : string) (cfg : Config) : string :=
  let clean_cid := default cid (strip_prefix "ipfs://" cid) in
  "https://" +:+ cfg_pinata_gateway_domain cfg +:+ "/ipfs/" +:+ clean_cid.

(** ** The HTTP client *)

Class StorageHttpClient : Type := {
  (** url, bearer token, file *)
  post_ipfs : string -> string -> bytes -> M World AppError json;
  (** url, wallet, file *)
  post_arweave : string -> bytes -> bytes -> M World AppError json;
}.

Section Reqwest.
Context `{Ext, Env}.

(** The error of an answer of Pinata that is not a success. *)
Definition pinata_error (status : Z) (body : string) : AppError :=
  if status =? 401 then PinataAuthError "Invalid JWT token"
  else if status =? 429 then PinataRateLimitError 60
  else if (status =? 400) || (status =? 422) then PinataUploadError ("Upload rejected: " +:+ body)
  else PinataNetworkError ("HTTP " +:+ status_text status +:+ ": " +:+ body).

Definition reqwest_post_ipfs (url bearer_token : string) (data : bytes) : M World AppError json :=
  fun w =>
    (match http_post_ipfs (w_tick w) url bearer_token data with
     | Err e => Err (PinataNetworkError ("Failed to connect to Pinata: " +:+ e))
     | Ok (status, body) =>
         if is_success status
         then ok_or (json_value body) (PinataUploadError "Invalid response from Pinata")
         else Err (pinata_error status body)
     end, with_effect (EIpfsPosted data) (tick w)).

Definition reqwest_post_arweave (url : string) (wallet_json data : bytes) : M World AppError json :=
  fun w =>
    (match http_post_arweave (w_tick w) url wallet_json data with
     | None => Err UploadFailed
     | Some (status, body) =>
         if is_success status then ok_or (json_value body) UploadFailed else Err UploadFailed
     end, with_effect (EArweavePosted wallet_json data) (tick w)).

#[export] Instance ReqwestStorageHttpClient : StorageHttpClient :=
  {| post_ipfs := reqwest_post_ipfs; post_arweave := reqwest_post_arweave |}.
End Reqwest.

(** ** Uploading with any client *)

Section Upload.
Context `{Ext, Env}.

(** [std::fs::read(path).map_err(|_| AppError::InternalError)?] *)
Definition read_wallet (path : string) : M World AppError bytes :=
  fun w => (ok_or (res_ok (read_file (w_tick w) path)) InternalError, tick w).

Section WithClient.
Context `{StorageHttpClient}.

Definition upload_to_ipfs_with_client (data : bytes) (cfg : Config) : M World AppError string :=
  let endpoint := "https://uploads.pinata.cloud/v3/files" in
  let* payload := post_ipfs endpoint (cfg_pinata_jwt cfg) data in
  let* cid := of_result (ok_or (d ← json_get "data" payload; c ← json_get "cid" d; json_as_str c)
                (PinataUploadError "Missing CID in response")) in
  ret ("ipfs://" +:+ cid).

Definition upload_to_arweave_with_client (data : bytes) (cfg : Config) : M World AppError string :=
  let* wallet_json := read_wallet (cfg_arweave_wallet_path cfg) in
  let* payload := post_arweave ARWEAVE_UPLOAD_URL wallet_json data in
  let* tx_id := of_result (ok_or (extract_uri_id payload ["id"; "tx_id"; "transactionId"])
                  UploadFailed) in
  ret ("ar://" +:+ tx_id).

Definition upload_document_with_client (backend : string) (data : bytes) (cfg : Config)
    : M World AppError string :=
  let b := to_ascii_lowercase backend in
  if String.eqb b "ipfs" then upload_to_ipfs_with_client data cfg
  else if String.eqb b "arweave" then upload_to_arweave_with_client data cfg
  else throw PaymentMethodUnsupported.
End WithClient.

Definition upload_to_ipfs (data : bytes) (cfg : Config) : M World AppError string :=
  upload_to_ipfs_with_client data cfg.
Definition upload_to_arweave (data : bytes) (cfg : Config) : M World AppError string :=
  upload_to_arweave_with_client data cfg.
Definition upload_document (backend : string) (data : bytes) (cfg : Config)
    : M World AppError string :=
  upload_document_with_client backend data cfg.

(** ** Metadata *)

Definition PACTUM_SEAL_TX_ID : string := "pactum_seal_arweave_tx_id".

(** [format!("{:?}", ..)] of a status and of a backend *)
Definition status_debug (s : AgreementStatus) : string :=
  match s with
  | Draft => "Draft" | PendingSignatures => "PendingSignatures" | Completed => "Completed"
  | Cancelled => "Cancelled" | Expired => "Expired" | Revoked => "Revoked"
  end.
Definition backend_debug (b : StorageBackend) : string :=
  match b with Ipfs => "Ipfs" | Arweave => "Arweave" end.

Definition attribute (trait_type value : string) : json :=
  JObj [("trait_type", JStr trait_type); ("value", JStr value)].

Definition build_attributes (a : AgreementStateWire) : list json :=
  [ attribute "Status" (status_debug (ag_status a));
    attribute "Parties" (dec_of_nat (length (ag_parties a)));
    attribute "Storage Backend" (backend_debug (ag_storage_backend a));
    attribute "Created At" (dec_of_Z (ag_created_at a));
    attribute "Expires At" (dec_of_Z (ag_expires_at a)) ].

Definition build_metadata_json (a : AgreementStateWire) (pda : string) : json :=
  let id_short := hex_encode (take 4 (bn_bytes (ag_agreement_id a))) in
  JObj [("name", JStr ("Pactum #" +:+ id_short +:+ " — " +:+ ag_title a));
        ("description", JStr "On-chain agreement credential issued via Pactum Protocol.");
        ("image", JStr ("ar://" +:+ PACTUM_SEAL_TX_ID));
        ("animation_url", JStr ("ar://" +:+ ag_storage_uri a));
        ("external_url", JStr ("https://pactum.app/agreement/" +:+ pda));
        ("attributes", JArr (build_attributes a))].

Definition upload_metadata_json (a : AgreementStateWire) (pda backend : string) (cfg : Config)
    : M World AppError string :=
  let metadata := build_metadata_json a pda in
  let* json_bytes := of_result (ok_or (json_to_vec metadata) InternalError) in
  upload_document backend json_bytes cfg.
End Upload.

(** ** Lemmas *)

(** Uploads leave the tables alone. *)
Section Frame.
Context `{Ext, Env} (R : Db -> Db -> Prop) `{!PreOrder R}.

Lemma keeps_read_wallet p : keeps (on_db R) (read_wallet p).
Proof. by apply keeps_db_id. Qed.
Lemma keeps_reqwest_ipfs u t d : keeps (on_db R) (reqwest_post_ipfs u t d).
Proof. by apply keeps_db_id. Qed.
Lemma keeps_reqwest_arweave u wl d : keeps (on_db R) (reqwest_post_arweave u wl d).
Proof. by apply keeps_db_id. Qed.
End Frame.

#[export] Hint Resolve keeps_read_wallet keeps_reqwest_ipfs keeps_reqwest_arweave : keeps.

Section Lemmas.
Context `{Ext, Env}.

Lemma keeps_upload_document (R : Db -> Db -> Prop) `{!PreOrder R} b data cfg :
  keeps (on_db R) (upload_document b data cfg).
Proof.
  unfold upload_document, upload_document_with_client, upload_to_ipfs_with_client,
    upload_to_arweave_with_client. cbn [post_ipfs post_arweave ReqwestStorageHttpClient].
  keeps_auto.
Qed.

(** The client the services use. *)
Lemma upload_document_backend b data cfg :
  upload_document b data cfg =
  if String.eqb (to_ascii_lowercase b) "ipfs" then upload_to_ipfs data cfg
  else if String.eqb (to_ascii_lowercase b) "arweave" then upload_to_arweave data cfg
  else throw PaymentMethodUnsupported.
Proof. reflexivity. Qed.

Lemma upload_to_ipfs_Ok data cfg w uri w' :
  upload_to_ipfs data cfg w = (Ok uri, w') ->
  w_effects w' = EIpfsPosted data :: w_effects w /\
  exists cid, uri = "ipfs://" +:+ cid.
Proof.
  intros Hu. unfold upload_to_ipfs, upload_to_ipfs_with_client in Hu.
  cbn [post_ipfs ReqwestStorageHttpClient] in Hu. run_inv. subst.
  unfold reqwest_post_ipfs in Hs. injection Hs as _ <-. split; [done | eauto].
Qed.

Lemma upload_to_arweave_Ok data cfg w uri w' :
  upload_to_arweave data cfg w = (Ok uri, w') ->
  exists wallet, read_file (w_tick w) (cfg_arweave_wallet_path cfg) = Ok wallet /\
  w_effects w' = EArweavePosted wallet data :: w_effects w /\
  exists id, uri = "ar://" +:+ id.
Proof.
  intros Hu. unfold upload_to_arweave, upload_to_arweave_with_client in Hu.
  cbn [post_arweave ReqwestStorageHttpClient] in Hu. run_inv. subst.
  unfold reqwest_post_arweave in Hs0. injection Hs0 as _ <-.
  unfold read_wallet in Hs. injection Hs as Hw <-.
  destruct (read_file _ _) as [wl|e] eqn:Er; [|discriminate Hw].
  injection Hw as ->. exists a. eauto.
Qed.

(** What was stored, and under which scheme. *)
Lemma upload_document_Ok b data cfg w uri w' :
  upload_document b data cfg w = (Ok uri, w') ->
  exists scheme id e, uri = scheme +:+ id /\ w_effects w' = e :: w_effects w /\
    ((to_ascii_lowercase b = "ipfs" /\ scheme = "ipfs://" /\ e = EIpfsPosted data) \/
     (to_ascii_lowercase b = "arweave" /\ scheme = "ar://" /\ exists wl, e = EArweavePosted wl data)).
Proof.
  rewrite upload_document_backend.
  destruct (String.eqb_spec (to_ascii_lowercase b) "ipfs") as [Ei|_].
  { intros (He & cid & ->)%upload_to_ipfs_Ok. eauto 10. }
  destruct (String.eqb_spec (to_ascii_lowercase b) "arweave") as [Ea|_]; [|done].
  intros (wl & _ & He & id & ->)%upload_to_arweave_Ok. eauto 12.
Qed.

(** What is stored on IPFS is reachable at the gateway.  The URI an IPFS
    upload returns leads, through [get_ipfs_gateway_url], to the URL of the
    content identifier Pinata answered, and the upload posts the given bytes
    once and does not touch the tables. *)
Theorem ipfs_upload_reachable (data : bytes) (cfg : Config) (w w' : World) (uri : string) :
  upload_to_ipfs data cfg w = (Ok uri, w') ->
  exists status body payload d cid,
    http_post_ipfs (w_tick w) "https://uploads.pinata.cloud/v3/files" (cfg_pinata_jwt cfg) data
      = Ok (status, body) /\
    is_success status = true /\ json_value body = Some payload /\
    json_get "data" payload = Some d /\ json_get "cid" d = Some (JStr cid) /\
    get_ipfs_gateway_url uri cfg =
      "https://" +:+ cfg_pinata_gateway_domain cfg +:+ "/ipfs/" +:+ cid /\
    w_effects w' = EIpfsPosted data :: w_effects w /\ w_db w' = w_db w.
Proof.
  intros Hu. unfold upload_to_ipfs, upload_to_ipfs_with_client in Hu.
  cbn [post_ipfs ReqwestStorageHttpClient] in Hu. run_inv. subst.
  unfold reqwest_post_ipfs in Hs. injection Hs as Hp <-.
  destruct (http_post_ipfs _ _ _ _) as [[status body]|e] eqn:Eh; [|discriminate Hp].
  destruct (is_success status) eqn:Es; [|discriminate Hp].
  match goal with Hq : _ ≫= _ = Some _ |- _ =>
    apply bind_Some in Hq as (d & Ed & (c & Ec & Hc)%bind_Some) end.
  destruct c; try discriminate Hc. injection Hc as ->.
  eexists status, body, a, d, _.
  repeat split; eauto.
  by destruct (json_value body); [injection Hp as ->|discriminate].
Qed.

(** The metadata of an agreement never links to its document.  The URI an
    upload returns has its scheme, and the link of the metadata puts "ar://"
    before it: an agreement whose document is on IPFS is linked as
    "ar://ipfs://..", one on Arweave as "ar://ar://..". *)
Theorem metadata_doubles_scheme (b : string) (data : bytes) (cfg : Config) (w w' : World)
    (a : AgreementStateWire) (pda : string) :
  upload_document b data cfg w = (Ok (ag_storage_uri a), w') ->
  exists id, json_get "animation_url" (build_metadata_json a pda) =
    Some (JStr (if String.eqb (to_ascii_lowercase b) "ipfs" then "ar://ipfs://" +:+ id
                else "ar://ar://" +:+ id)).
Proof.
  intros (scheme & id & e & Hu & _ & Hc)%upload_document_Ok. exists id.
  unfold build_metadata_json. cbn [json_get assoc String.eqb Ascii.eqb Bool.eqb]. rewrite Hu.
  by destruct Hc as [(-> & -> & _)|(-> & -> & _)].
Qed.
End Lemmas.

Lemma ipfs_upload_reachable_witness :
  exists uri w', @upload_to_ipfs ext_demo env_demo [x01; x02] config_demo (world_demo db_empty)
      = (Ok uri, w') /\
    get_ipfs_gateway_url uri config_demo = "https://gateway.pinata.cloud/ipfs/Qm1".
Proof.
  exists "ipfs://Qm1", (snd (@upload_to_ipfs ext_demo env_demo [x01; x02] config_demo
    (world_demo db_empty))).
  split; [vm_compute; reflexivity|].
  destruct (@ipfs_upload_reachable ext_demo env_demo [x01; x02] config_demo (world_demo db_empty)
    (snd (@upload_to_ipfs ext_demo env_demo [x01; x02] config_demo (world_demo db_empty)))
    "ipfs://Qm1") as (st & body & payload & d & cid & Hh & _ & Hj & Hd & Hc & Hg & _);
    [vm_compute; reflexivity|].
  rewrite Hg. injection Hh as <- <-. injection Hj as <-. injection Hd as <-. injection Hc as <-.
  reflexivity.
Defined.

Definition agreement_stored (uri : string) : AgreementStateWire :=
  mkAgreementState (key x01) (uid x0c) (padded 32 [x05]) "Lease" uri Ipfs [key x01; key x02]
    [] [] PendingSignatures 10 20 None None None (key x00) (key x00) [] [] x00.

Lemma metadata_doubles_scheme_witness :
  exists id, json_get "animation_url"
    (@build_metadata_json ext_demo (agreement_stored "ipfs://Qm1") "pda") =
    Some (JStr ("ar://ipfs://" +:+ id)).
Proof.
  apply (@metadata_doubles_scheme ext_demo env_demo "IPFS" [x01] config_demo (world_demo db_empty)
    (snd (@upload_document ext_demo env_demo "IPFS" [x01] config_demo (world_demo db_empty)))
    (agreement_stored "ipfs://Qm1") "pda").
  vm_compute. reflexivity.
Defined.
