(* ===== verification/Upload.v ===== *)
(** * Upload: the upload endpoint

    src/src/handlers/upload.rs: reading the multipart form, the checks on it, and
    the hand-over to the storage service.  The type and the size of a file are
    checked when its field is read and again before the upload; the theorem
    [upload_handler_reference] shows that the second checks never decide. *)

From Stdlib Require Import ZArith Lia.
From Stdlib Require Import Strings.Byte Strings.Ascii Strings.String.
From stdpp Require Import base tactics decidable option list strings gmap.
From S2P Require Import Prelude Text Errors Borsh SolanaTypes Health World Concrete Crypto.
From S2P Require Import Jwt Storage.

Open Scope string_scope.
Open Scope list_scope.
Open Scope Z_scope.

Definition MAX_FILE_SIZE_BYTES : Z := 50 * 1024 * 1024.
Definition ALLOWED_MIME_TYPES : list string := ["application/pdf"; "image/png"; "image/jpeg"].

Record UploadResponse : Type := mkUploadResponse {
  ur_storage_uri : string; ur_content_hash : string; ur_storage_backend : string }.

Definition file_len (file_bytes : bytes) : Z := Z.of_nat (length file_bytes).
Definition mime_allowed (content_type : string) : bool :=
  List.existsb (String.eqb content_type) ALLOWED_MIME_TYPES.

(** ** Validation *)

Section Validate.
Context `{Ext, Env}.

Definition validate_and_upload_with_size_limit (file_bytes : bytes)
    (content_type client_hash backend : string) (max_file_size_bytes : Z)
    (upload_fn : bytes -> M World AppError string) : M World AppError UploadResponse :=
  if max_file_size_bytes <? file_len file_bytes then throw FileTooLarge else
  if negb (mime_allowed content_type) then throw InvalidFileType else
  let storage_backend := to_ascii_lowercase backend in
  if negb (String.eqb storage_backend "ipfs") && negb (String.eqb storage_backend "arweave")
  then throw UploadFailed else
  let* server_hash := of_result (verify_client_hash file_bytes client_hash) in
  let* storage_uri := map_err (fun _ => UploadFailed) (upload_fn file_bytes) in
  ret (mkUploadResponse storage_uri (hex_encode (bn_bytes server_hash)) storage_backend).

Definition validate_and_upload (file_bytes : bytes) (content_type client_hash backend : string)
    (upload_fn : bytes -> M World AppError string) : M World AppError UploadResponse :=
  validate_and_upload_with_size_limit file_bytes content_type client_hash backend
    MAX_FILE_SIZE_BYTES upload_fn.
End Validate.

(** ** The form

    The fields in the order of the request; [None] for one that cannot be
    read.  The content of a field read as bytes and as text: [None] when it does
    not arrive. *)

Record Field : Type := mkField {
  fd_name : option string;
  fd_content_type : option string;
  fd_bytes : option bytes;
  fd_text : option string;
}.
Definition Multipart : Type := list (option Field).

(** The variables of the loop. *)
Record Form : Type := mkForm {
  fm_file_bytes : option bytes;
  fm_content_type : option string;
  fm_client_hash : option string;
  fm_backend : option string;
}.
Definition form_empty : Form := mkForm None None None None.

(** The body of the loop. *)
Definition read_field (field : Field) (s : Form) : result AppError Form :=
  let field_name := default "" (fd_name field) in
  if String.eqb field_name "file" then
    match fd_content_type field with
    | None => Err MissingContentType
    | Some field_content_type =>
        if negb (mime_allowed field_content_type) then Err InvalidFileType else
        match fd_bytes field with
        | None => Err UploadFailed
        | Some bytes =>
            if MAX_FILE_SIZE_BYTES <? file_len bytes then Err FileTooLarge
            else Ok (mkForm (Some bytes) (Some field_content_type) (fm_client_hash s) (fm_backend s))
        end
    end
  else if String.eqb field_name "client_hash" then
    match fd_text field with
    | None => Err UploadFailed
    | Some value => Ok (mkForm (fm_file_bytes s) (fm_content_type s) (Some value) (fm_backend s))
    end
  else if String.eqb field_name "backend" then
    match fd_text field with
    | None => Err UploadFailed
    | Some value => Ok (mkForm (fm_file_bytes s) (fm_content_type s) (fm_client_hash s) (Some value))
    end
  else Ok s.

Fixpoint read_fields (multipart : Multipart) (s : Form) : result AppError Form :=
  match multipart with
  | [] => Ok s
  | None :: _ => Err UploadFailed
  | Some field :: multipart' =>
      match read_field field s with
      | Ok s' => read_fields multipart' s'
      | Err e => Err e
      end
  end.

Section Handler.
Context `{Ext, Env}.

Definition upload_handler (cfg : Config) (_auth : AuthUserWithWallet) (multipart : Multipart)
    : M World AppError UploadResponse :=
  let* s := of_result (read_fields multipart form_empty) in
  let* file_bytes := of_result (ok_or (fm_file_bytes s) UploadFailed) in
  let* content_type := of_result (ok_or (fm_content_type s) MissingContentType) in
  let* client_hash := of_result (ok_or (fm_client_hash s) InvalidHash) in
  let* backend := of_result (ok_or (fm_backend s) UploadFailed) in
  validate_and_upload file_bytes content_type client_hash backend
    (fun bytes => upload_document backend bytes cfg).

(** ** A reference definition

    A form is the first error of its fields, or the last value of each. *)

Definition named (n : string) (f : Field) : bool := String.eqb (default "" (fd_name f)) n.

Definition field_error (fo : option Field) : option AppError :=
  match fo with
  | None => Some UploadFailed
  | Some f =>
      if named "file" f then
        match fd_content_type f, fd_bytes f with
        | None, _ => Some MissingContentType
        | Some t, b =>
            if mime_allowed t then
              match b with
              | None => Some UploadFailed
              | Some b => if file_len b <=? MAX_FILE_SIZE_BYTES then None else Some FileTooLarge
              end
            else Some InvalidFileType
        end
      else if named "client_hash" f || named "backend" f then
        match fd_text f with None => Some UploadFailed | Some _ => None end
      else None
  end.

Fixpoint first_error (m : Multipart) : option AppError :=
  match m with
  | [] => None
  | f :: m' => match field_error f with Some e => Some e | None => first_error m' end
  end.

(** The last field of that name, with a default. *)
Fixpoint last_of {A} (n : string) (get : Field -> option A) (m : Multipart) (d : option A)
    : option A :=
  match m with
  | [] => d
  | Some f :: m' => last_of n get m' (if named n f then get f else d)
  | None :: m' => last_of n get m' d
  end.

Definition upload_spec (cfg : Config) (m : Multipart) : M World AppError UploadResponse :=
  match first_error m with
  | Some e => throw e
  | None =>
      match last_of "file" fd_bytes m None, last_of "client_hash" fd_text m None,
            last_of "backend" fd_text m None with
      | None, _, _ => throw UploadFailed
      | Some _, None, _ => throw InvalidHash
      | Some _, Some _, None => throw UploadFailed
      | Some file, Some hash, Some backend =>
          let b := to_ascii_lowercase backend in
          if String.eqb b "ipfs" || String.eqb b "arweave" then
            let* h := of_result (verify_client_hash file hash) in
            let* uri := map_err (fun _ => UploadFailed) (upload_document backend file cfg) in
            ret (mkUploadResponse uri (hex_encode (bn_bytes h)) b)
          else throw UploadFailed
      end
  end.
End Handler.

(** ** Lemmas *)

(** A file in the form has passed the checks. *)
Definition form_wf (s : Form) : Prop :=
  match fm_file_bytes s, fm_content_type s with
  | Some b, Some t => file_len b <= MAX_FILE_SIZE_BYTES /\ mime_allowed t = true
  | None, None => True
  | _, _ => False
  end.

Lemma named_distinct n n' f : named n f = true -> String.eqb n n' = false -> named n' f = false.
Proof. unfold named. by intros ->%String.eqb_eq. Qed.

Lemma read_field_spec f s :
  form_wf s ->
  match field_error (Some f) with
  | Some e => read_field f s = Err e
  | None => exists s', read_field f s = Ok s' /\ form_wf s' /\
      fm_file_bytes s' = (if named "file" f then fd_bytes f else fm_file_bytes s) /\
      fm_client_hash s' = (if named "client_hash" f then fd_text f else fm_client_hash s) /\
      fm_backend s' = (if named "backend" f then fd_text f else fm_backend s)
  end.
Proof.
  intros Hs. unfold field_error, read_field. cbv zeta.
  change (String.eqb (default "" (fd_name f)) ?n) with (named n f).
  destruct (named "file" f) eqn:Ef.
  { rewrite (named_distinct "file" "client_hash" f), (named_distinct "file" "backend" f) by done.
    destruct (fd_content_type f) as [t|]; [|done].
    destruct (mime_allowed t) eqn:Em; [|done]. cbn [negb].
    destruct (fd_bytes f) as [b|]; [|done].
    rewrite Z.ltb_antisym. destruct (file_len b <=? _) eqn:El; [|done]. cbn [negb].
    eexists. split; [done|]. cbn. split; [|done]. by apply Z.leb_le in El. }
  destruct (named "client_hash" f) eqn:Eh.
  { rewrite (named_distinct "client_hash" "backend" f) by done. cbn [orb].
    destruct (fd_text f); [|done]. by eexists. }
  cbn [orb]. destruct (named "backend" f) eqn:Eb; [|by eexists].
  destruct (fd_text f); [|done]. by eexists.
Qed.

Lemma read_fields_spec m s :
  form_wf s ->
  match first_error m with
  | Some e => read_fields m s = Err e
  | None => exists s', read_fields m s = Ok s' /\ form_wf s' /\
      fm_file_bytes s' = last_of "file" fd_bytes m (fm_file_bytes s) /\
      fm_client_hash s' = last_of "client_hash" fd_text m (fm_client_hash s) /\
      fm_backend s' = last_of "backend" fd_text m (fm_backend s)
  end.
Proof.
  revert s. induction m as [|[f|] m IH]; intros s Hs; cbn [first_error]; [by eexists| |done].
  pose proof (read_field_spec f s Hs) as Hf. cbn [read_fields last_of].
  destruct (field_error (Some f)) as [e|]; [by rewrite Hf|].
  destruct Hf as (s1 & -> & Hs1 & <- & <- & <-). by apply IH.
Qed.

Section Lemmas.
Context `{Ext, Env}.

(** The checks of the second round on a form that passed the first. *)
Lemma validate_checked file ct hash backend fn :
  file_len file <= MAX_FILE_SIZE_BYTES -> mime_allowed ct = true ->
  validate_and_upload file ct hash backend fn =
  (let b := to_ascii_lowercase backend in
   if String.eqb b "ipfs" || String.eqb b "arweave" then
     let* h := of_result (verify_client_hash file hash) in
     let* uri := map_err (fun _ => UploadFailed) (fn file) in
     ret (mkUploadResponse uri (hex_encode (bn_bytes h)) b)
   else throw UploadFailed).
Proof.
  intros Hl Hm. unfold validate_and_upload, validate_and_upload_with_size_limit. cbv zeta.
  rewrite (proj2 (Z.ltb_ge _ _) Hl), Hm, <-negb_orb. cbn [negb].
  by destruct (_ || _).
Qed.

Lemma bind_of_ok {E A B} (a : A) (k : A -> M World E B) : bind (of_result (Ok a)) k = k a.
Proof. reflexivity. Qed.

Lemma upload_handler_spec cfg auth m w : upload_handler cfg auth m w = upload_spec cfg m w.
Proof.
  unfold upload_handler, upload_spec.
  pose proof (read_fields_spec m form_empty I) as Hr.
  destruct (first_error m) as [e|]; [by rewrite Hr|].
  destruct Hr as (s & -> & Hs & Hf & Hh & Hb). rewrite bind_of_ok. unfold form_wf in Hs.
  cbn [form_empty fm_file_bytes fm_client_hash fm_backend] in Hf, Hh, Hb.
  rewrite <-Hf, <-Hh, <-Hb.
  destruct (fm_file_bytes s) as [file|]; [|reflexivity].
  destruct (fm_content_type s) as [ct|]; [|done]. destruct Hs as [Hl Hm].
  destruct (fm_client_hash s) as [hash|]; [|reflexivity].
  destruct (fm_backend s) as [backend|]; [|reflexivity].
  cbn [ok_or]. rewrite !bind_of_ok. by rewrite validate_checked.
Qed.

Lemma verify_client_hash_Ok file hx h :
  verify_client_hash file hx = Ok h ->
  h = sha256 file /\ hex_decode hx = Some (bn_bytes (sha256 file)).
Proof.
  unfold verify_client_hash, compute_sha256. destruct (hex_decode hx) as [b|]; [|done].
  destruct (bytes_eqb _ b) eqn:Eb; cbn; [|done]. intros [= <-].
  unfold bytes_eqb in Eb. apply bool_decide_eq_true in Eb as ->. done.
Qed.

Lemma keeps_upload_handler (R : Db -> Db -> Prop) `{!PreOrder R} cfg auth m :
  keeps (on_db R) (upload_handler cfg auth m).
Proof.
  intros w. rewrite upload_handler_spec. revert w. fold (keeps (on_db R) (upload_spec cfg m)).
  unfold upload_spec. cbv zeta. pose proof (keeps_upload_document R).
  keeps_auto; auto with keeps.
Qed.

(** The upload endpoint checks each field once.  It behaves like the
    definition that answers the first error of the form's fields in their
    order and otherwise takes the last file, hash and backend: the second
    checks of type and size before the upload, and the one for a missing
    content type, never decide anything. *)
Theorem upload_handler_reference (cfg : Config) (auth : AuthUserWithWallet) (m : Multipart)
    (w : World) : upload_handler cfg auth m w = upload_spec cfg m w.
Proof. apply upload_handler_spec. Qed.

(** C26: what the upload endpoint stores is the file whose hash it answers.  A
    successful upload posted exactly one file, the last one of the form, of at
    most 50 MiB and with an allowed content type; the client's hash decodes to
    its SHA-256, which the answer carries; it went to the backend the answer
    names, under that backend's scheme; and no table changed. *)
Theorem upload_stores_hashed_file (cfg : Config) (auth : AuthUserWithWallet) (m : Multipart)
    (w w' : World) (resp : UploadResponse) :
  upload_handler cfg auth m w = (Ok resp, w') ->
  exists file hash e id,
    last_of "file" fd_bytes m None = Some file /\
    last_of "client_hash" fd_text m None = Some hash /\
    hex_decode hash = Some (bn_bytes (sha256 file)) /\
    ur_content_hash resp = hex_encode (bn_bytes (sha256 file)) /\
    w_effects w' = e :: w_effects w /\ w_db w' = w_db w /\
    ((ur_storage_backend resp = "ipfs" /\ e = EIpfsPosted file /\
      ur_storage_uri resp = "ipfs://" +:+ id) \/
     (ur_storage_backend resp = "arweave" /\ (exists wl, e = EArweavePosted wl file) /\
      ur_storage_uri resp = "ar://" +:+ id)).
Proof.
  rewrite upload_handler_spec. unfold upload_spec.
  destruct (first_error m); [done|].
  destruct (last_of "file" _ _ _) as [file|]; [|done].
  destruct (last_of "client_hash" _ _ _) as [hash|]; [|done].
  destruct (last_of "backend" _ _ _) as [backend|]; [|done].
  cbv zeta. destruct (_ || _); [|done]. intros Hu. run_inv. subst.
  match goal with Hv : verify_client_hash _ _ = Ok _ |- _ =>
    apply verify_client_hash_Ok in Hv as [-> Hx] end.
  match goal with Hd : upload_document _ _ _ _ = (Ok _, _) |- _ =>
    pose proof (keeps_upload_document eq backend file cfg w) as Hw;
    unfold on_db in Hw; rewrite Hd in Hw; cbn in Hw;
    apply upload_document_Ok in Hd as (scheme & id & e & -> & He & Hc) end.
  exists file, hash, e, id. cbn. repeat (split; [by eauto|]).
  destruct Hc as [(Hb & -> & ->)|(Hb & -> & Hwl)]; [left|right]; auto.
Qed.

(** The errors of the endpoint. *)
Definition upload_error (e : AppError) : Prop :=
  In e [UploadFailed; MissingContentType; InvalidFileType; FileTooLarge; InvalidHash; HashMismatch].

Lemma first_error_upload m e : first_error m = Some e -> upload_error e.
Proof.
  induction m as [|fo m IH]; [done|]. cbn [first_error].
  destruct (field_error fo) as [e'|] eqn:Ef; [|exact IH]. intros [= ->].
  unfold upload_error. revert Ef. unfold field_error. repeat case_match; intros [= <-]; cbn; tauto.
Qed.

Lemma verify_client_hash_Err file hx e :
  verify_client_hash file hx = Err e -> upload_error e.
Proof.
  unfold verify_client_hash, upload_error. repeat case_match; intros [= <-]; cbn; tauto.
Qed.

(** The endpoint refuses with six errors, never with those of the storage
    provider.  Whatever went wrong at Pinata or Arweave (credentials, rate
    limit, outage) the client is answered 422 "upload_failed"; any other refusal
    happens before a byte is posted. *)
Theorem upload_refusals (cfg : Config) (auth : AuthUserWithWallet) (m : Multipart)
    (w w' : World) (e : AppError) :
  upload_handler cfg auth m w = (Err e, w') ->
  upload_error e /\
  resp_status (into_response e) = (if decide (e = HashMismatch) then 400%nat else 422%nat) /\
  (e <> UploadFailed -> w' = w).
Proof.
  intros Hu. cut (upload_error e /\ (e <> UploadFailed -> w' = w)).
  { intros [He Hw]. split; [done|]. split; [|done].
    destruct He as [<-|[<-|[<-|[<-|[<-|[<-|[]]]]]]]; reflexivity. }
  revert Hu. rewrite upload_handler_spec. unfold upload_spec.
  destruct (first_error m) as [e'|] eqn:Ef.
  { intros [= -> <-]. split; [by eapply first_error_upload | done]. }
  destruct (last_of "file" _ _ _) as [file|]; [|intros [= <- <-]; cbn; tauto].
  destruct (last_of "client_hash" _ _ _) as [hash|]; [|intros [= <- <-]; cbn; tauto].
  destruct (last_of "backend" _ _ _) as [backend|]; [|intros [= <- <-]; cbn; tauto].
  cbv zeta. destruct (_ || _); [|intros [= <- <-]; cbn; tauto].
  unfold bind at 1, of_result.
  destruct (verify_client_hash file hash) as [h|e'] eqn:Ev.
  2:{ intros [= -> <-]. split; [by eapply verify_client_hash_Err | done]. }
  unfold bind, map_err. destruct (upload_document _ _ _ _) as [[uri|e'] w1]; [done|].
  intros [= <- <-]. split; [left; done | done].
Qed.
End Lemmas.

(** ** Examples *)

Definition form_demo (hash backend : string) : Multipart :=
  [ Some (mkField (Some "note") None (Some []) (Some "x"));
    Some (mkField (Some "file") (Some "application/pdf") (Some [x01; x02]) None);
    Some (mkField (Some "client_hash") None None (Some hash));
    Some (mkField (Some "backend") None None (Some backend)) ].

Definition caller_demo : AuthUserWithWallet := mkAuthWalletUser (uid x01) "alice".
Definition hash_demo : string := hex_demo (pad_to 32 [x01; x02]).

Lemma upload_stores_hashed_file_witness :
  exists w' e id, snd (@upload_handler ext_demo env_demo config_demo caller_demo
       (form_demo hash_demo "IPFS") (world_demo db_empty)) = w' /\
    w_effects w' = [e] /\ e = EIpfsPosted [x01; x02] /\ "ipfs://Qm1" = "ipfs://" +:+ id.
Proof.
  destruct (@upload_handler ext_demo env_demo config_demo caller_demo
       (form_demo hash_demo "IPFS") (world_demo db_empty)) as [[resp|e] w'] eqn:E;
    [|vm_compute in E; discriminate E].
  destruct (@upload_stores_hashed_file ext_demo env_demo config_demo caller_demo
    (form_demo hash_demo "IPFS") (world_demo db_empty) w' resp E)
    as (file & hash & e & id & Hf & _ & _ & _ & He & _ & Hc).
  exists w', e, id. split; [reflexivity|]. split; [exact He|].
  assert (Hr : Ok resp = Ok (E:=AppError) (mkUploadResponse "ipfs://Qm1" hash_demo "ipfs")).
  { transitivity (fst (@upload_handler ext_demo env_demo config_demo caller_demo
       (form_demo hash_demo "IPFS") (world_demo db_empty))); [by rewrite E | vm_compute; reflexivity]. }
  injection Hr as ->. injection Hf as <-.
  destruct Hc as [(_ & -> & Hu)|(Hb & _)]; [split; [reflexivity | exact Hu] | discriminate Hb].
Defined.

Lemma upload_refusals_witness :
  resp_status (into_response HashMismatch) = 400%nat /\
  snd (@upload_handler ext_demo env_demo config_demo caller_demo (form_demo "00" "ipfs")
    (world_demo db_empty)) = world_demo db_empty.
Proof.
  destruct (@upload_handler ext_demo env_demo config_demo caller_demo (form_demo "00" "ipfs")
    (world_demo db_empty)) as [[resp|e] w'] eqn:E; [vm_compute in E; discriminate E|].
  destruct (@upload_refusals ext_demo env_demo config_demo caller_demo (form_demo "00" "ipfs")
    (world_demo db_empty) w' e E) as (_ & Hs & Hw).
  assert (He : Err (A:=UploadResponse) e = Err HashMismatch).
  { transitivity (fst (@upload_handler ext_demo env_demo config_demo caller_demo
       (form_demo "00" "ipfs") (world_demo db_empty))); [by rewrite E | vm_compute; reflexivity]. }
  injection He as ->. split; [exact Hs | apply Hw; discriminate].
Defined.
