(* ===== verification/DraftData.v ===== *)
(** * DraftData: the JSON columns of a draft

    [DraftPayload] and [DraftPartyEntry] as src/src/handlers/agreement.rs
    writes them and src/src/handlers/draft.rs and src/src/handlers/invite.rs
    read them back, with the derived serde conversions. *)

From Stdlib Require Import ZArith Lia.
From Stdlib Require Import Strings.Byte Strings.Ascii Strings.String.
From stdpp Require Import base tactics decidable option list strings gmap.
From S2P Require Import Prelude Text Errors Borsh SolanaTypes Health World Concrete.

Open Scope string_scope.
Open Scope list_scope.
Open Scope Z_scope.

(** A field of an object as it is read from text, where names may repeat.  One
    of type [Option<T>]: absent and null are [None], a repeated field and a
    value of another type are errors. *)
Definition members (k : string) (l : list (string * json)) : list json :=
  omap (fun kv => if String.eqb (fst kv) k then Some (snd kv) else None) l.

Definition opt_field {A} (f : json -> option A) (k : string) (l : list (string * json))
    : option (option A) :=
  match members k l with
  | [] => Some None
  | [JNull] => Some None
  | [v] => option_map Some (f v)
  | _ => None
  end.

(** One that is required. *)
Definition req_field {A} (f : json -> option A) (k : string) (l : list (string * json)) : option A :=
  match members k l with [v] => f v | _ => None end.

Record DraftPartyEntry : Type := mkEntry {
  de_pubkey : option string; de_invite_id : option Uuid }.

Record DraftPayload : Type := mkPayload {
  dp_title : string; dp_expires_in_secs : Z; dp_parties : list DraftPartyEntry }.

Section Json.
Context `{Ext}.

(** ** [serde_json::to_value] *)

Definition opt_to_value {A} (f : A -> string) (o : option A) : json :=
  match o with Some a => JStr (f a) | None => JNull end.

Definition entry_to_value (e : DraftPartyEntry) : json :=
  JObj [("pubkey", opt_to_value (fun s => s) (de_pubkey e));
        ("invite_id", opt_to_value uuid_to_string (de_invite_id e))].

Definition slots_to_value (l : list DraftPartyEntry) : json := JArr (map entry_to_value l).

Definition payload_to_value (p : DraftPayload) : json :=
  JObj [("title", JStr (dp_title p)); ("expires_in_secs", JNum (dp_expires_in_secs p));
        ("parties", slots_to_value (dp_parties p))].

(** ** [serde_json::from_value], with [deny_unknown_fields]; a struct may also
    be given as the sequence of its fields. *)

Definition opt_from_value {A} (f : string -> option A) (j : json) : option (option A) :=
  match j with
  | JNull => Some None
  | JStr s => option_map Some (f s)
  | _ => None
  end.

Definition only_fields (fields : list string) (l : list (string * json)) : bool :=
  List.forallb (fun kv => List.existsb (String.eqb (fst kv)) fields) l.

Definition entry_fields (pk iv : json) : option DraftPartyEntry :=
  p ← opt_from_value Some pk; i ← opt_from_value uuid_parse iv; Some (mkEntry p i).

Definition entry_from_value (j : json) : option DraftPartyEntry :=
  match j with
  | JObj l =>
      if only_fields ["pubkey"; "invite_id"] l
      then entry_fields (default JNull (assoc "pubkey" l)) (default JNull (assoc "invite_id" l))
      else None
  | JArr [pk; iv] => entry_fields pk iv
  | _ => None
  end.

Fixpoint entries_from (l : list json) : option (list DraftPartyEntry) :=
  match l with
  | [] => Some []
  | j :: l' => e ← entry_from_value j; es ← entries_from l'; Some (e :: es)
  end.

Definition slots_from_value (j : json) : option (list DraftPartyEntry) :=
  match j with JArr l => entries_from l | _ => None end.

Definition u64_from_value (j : json) : option Z :=
  match j with JNum z => if (0 <=? z) && (z <? two64) then Some z else None | _ => None end.

Definition payload_fields (t x p : json) : option DraftPayload :=
  title ← json_as_str t; secs ← u64_from_value x; parties ← slots_from_value p;
  Some (mkPayload title secs parties).

Definition payload_from_value (j : json) : option DraftPayload :=
  match j with
  | JObj l =>
      if only_fields ["title"; "expires_in_secs"; "parties"] l then
        t ← assoc "title" l; x ← assoc "expires_in_secs" l; p ← assoc "parties" l;
        payload_fields t x p
      else None
  | JArr [t; x; p] => payload_fields t x p
  | _ => None
  end.

(** ** Round trips *)

(** The text form of a UUID can be parsed back (the uuid crate). *)
Definition uuid_text : Prop := forall u, uuid_parse (uuid_to_string u) = Some u.

Lemma entry_roundtrip e : uuid_text -> entry_from_value (entry_to_value e) = Some e.
Proof.
  intros Hu. destruct e as [[p|] [i|]]; cbn; rewrite ?Hu; done.
Qed.

Lemma slots_roundtrip l : uuid_text -> slots_from_value (slots_to_value l) = Some l.
Proof.
  intros Hu. cbn. induction l as [|e l IH]; cbn [map entries_from]; [done|].
  rewrite entry_roundtrip by done. cbn. by rewrite IH.
Qed.

Lemma payload_roundtrip (p : DraftPayload) :
  uuid_text -> 0 <= dp_expires_in_secs p < two64 ->
  payload_from_value (payload_to_value p) = Some p.
Proof.
  intros Hu Hx.
  destruct p as [t x ps]; cbn [dp_expires_in_secs] in Hx.
  unfold payload_from_value, payload_to_value.
  cbn [only_fields List.forallb List.existsb fst String.eqb assoc orb andb Ascii.eqb Bool.eqb
       dp_title dp_expires_in_secs dp_parties].
  change (payload_fields (JStr t) (JNum x) (slots_to_value ps) = Some (mkPayload t x ps)).
  unfold payload_fields. cbn [json_as_str u64_from_value].
  rewrite (proj2 (Z.leb_le _ _)), (proj2 (Z.ltb_lt _ _)) by lia.
  change (slots_from_value (slots_to_value ps) ≫= (fun parties => Some (mkPayload t x parties))
          = Some (mkPayload t x ps)).
  by rewrite slots_roundtrip.
Qed.

(** What a draft stores is what is read back.  The payload and the party
    slots written when the draft is created parse to the same values, for any
    title, any [u64] expiry and any parties. *)
Theorem draft_columns_roundtrip (p : DraftPayload) :
  uuid_text -> 0 <= dp_expires_in_secs p < two64 ->
  payload_from_value (payload_to_value p) = Some p /\
  slots_from_value (slots_to_value (dp_parties p)) = Some (dp_parties p).
Proof. intros Hu Hx. split; [by apply payload_roundtrip | by apply slots_roundtrip]. Qed.
End Json.

Lemma hex_byte_val b :
  let n := N.to_nat (Byte.to_N b) in
  hex_val (hex_char (n / 16)) = Some (n / 16)%nat /\
  hex_val (hex_char (n mod 16)) = Some (n mod 16)%nat /\
  byte_of_Z (Z.of_nat (16 * (n / 16) + n mod 16)) = b.
Proof. destruct b; vm_compute; auto. Qed.

Lemma unhex_demo_hex l : unhex_demo (hex_demo l) = Some l.
Proof.
  unfold hex_demo. induction l as [|b l IH]; [done|].
  cbn [List.flat_map app string_of_list_ascii unhex_demo].
  destruct (hex_byte_val b) as (E1 & E2 & E3). rewrite E1, E2, IH, E3. done.
Qed.

Lemma uuid_text_demo : @uuid_text ext_demo.
Proof. intros u. cbn -[to_bytesN]. rewrite unhex_demo_hex. apply to_bytesN_bytes. Qed.

Definition payload_demo : DraftPayload :=
  mkPayload "Lease" 1209600 [mkEntry (Some "alice") None; mkEntry None (Some (uid x08))].

Lemma draft_columns_roundtrip_witness :
  @payload_from_value ext_demo (@payload_to_value ext_demo payload_demo) = Some payload_demo.
Proof.
  apply (@draft_columns_roundtrip ext_demo payload_demo).
  - exact uuid_text_demo.
  - cbn. unfold two64. lia.
Defined.
