(* ===== verification/Routes.v ===== *)
(** * Routes: the table of the API and what a request must show

    [build_router] of src/src/router.rs: methods, paths and handlers, with the
    extractor by which each handler identifies its caller.  How a path is
    matched is the router library's: [path_match] is a parameter, and
    [matchit_spec] states its documentation.  The layers for CORS, rate limiting
    and tracing run outside the model; the extractors of paths, queries and
    bodies are in Wire.v and Api.v. *)

From Stdlib Require Import ZArith Lia.
From Stdlib Require Import Strings.Byte Strings.Ascii Strings.String.
From stdpp Require Import base tactics decidable option list strings gmap.
From S2P Require Import Prelude Text Errors Borsh SolanaTypes Health World Concrete Crypto.
From S2P Require Import Jwt OAuth DraftData Ws.

Open Scope string_scope.
Open Scope list_scope.
Open Scope nat_scope.

Inductive Method : Type := GET | HEAD | POST | PUT | DELETE | OtherMethod.

Inductive Endpoint : Type :=
| health_handler
| ep_challenge | ep_verify | oauth_google | oauth_google_callback | oauth_microsoft
| oauth_microsoft_callback | ep_link_wallet | ep_refresh | ep_logout
| ep_upload
| ep_create_agreement | ep_get_agreement | ep_list_agreements | ep_sign_agreement
| ep_cancel_agreement | ep_vote_revoke | ep_retract_revoke_vote
| ep_get_draft | ep_delete_draft | ep_reinvite_draft | ep_submit_draft
| ep_get_invite | ep_accept_invite
| ep_initiate_payment | ep_payment_status
| ep_get_profile | ep_update_profile | ep_update_contacts | ep_delete_contacts
| ep_ws.

#[export] Instance Method_eq_dec : EqDecision Method.
Proof. solve_decision. Defined.
#[export] Instance Endpoint_eq_dec : EqDecision Endpoint.
Proof. solve_decision. Defined.

(** The extractor of the handler's caller. *)
Inductive Access : Type := Anyone | NeedsUser | NeedsWallet.

Definition endpoint_access (e : Endpoint) : Access :=
  match e with
  | ep_link_wallet | ep_list_agreements | ep_get_draft | ep_delete_draft | ep_reinvite_draft
  | ep_payment_status | ep_get_profile | ep_update_profile | ep_update_contacts
  | ep_delete_contacts => NeedsUser
  | ep_upload | ep_create_agreement | ep_sign_agreement | ep_cancel_agreement | ep_vote_revoke
  | ep_retract_revoke_vote | ep_submit_draft | ep_accept_invite | ep_initiate_payment => NeedsWallet
  | _ => Anyone
  end.

Record Route : Type := mkRoute { ro_method : Method; ro_path : string; ro_endpoint : Endpoint }.

Definition auth_routes : list Route :=
  [ mkRoute GET "/auth/challenge" ep_challenge;
    mkRoute POST "/auth/verify" ep_verify;
    mkRoute GET "/auth/oauth/google" oauth_google;
    mkRoute GET "/auth/oauth/google/callback" oauth_google_callback;
    mkRoute GET "/auth/oauth/microsoft" oauth_microsoft;
    mkRoute GET "/auth/oauth/microsoft/callback" oauth_microsoft_callback;
    mkRoute POST "/auth/link/wallet" ep_link_wallet;
    mkRoute POST "/auth/refresh" ep_refresh;
    mkRoute POST "/auth/logout" ep_logout ].

Definition upload_routes : list Route := [ mkRoute POST "/upload" ep_upload ].

Definition agreement_routes : list Route :=
  [ mkRoute POST "/agreement" ep_create_agreement;
    mkRoute GET "/agreement/:pda" ep_get_agreement;
    mkRoute GET "/agreements" ep_list_agreements;
    mkRoute POST "/agreement/:pda/sign" ep_sign_agreement;
    mkRoute POST "/agreement/:pda/cancel" ep_cancel_agreement;
    mkRoute POST "/agreement/:pda/revoke" ep_vote_revoke;
    mkRoute POST "/agreement/:pda/retract" ep_retract_revoke_vote ].

Definition draft_routes : list Route :=
  [ mkRoute GET "/draft/:id" ep_get_draft;
    mkRoute DELETE "/draft/:id" ep_delete_draft;
    mkRoute PUT "/draft/:id/reinvite" ep_reinvite_draft;
    mkRoute POST "/draft/:id/submit" ep_submit_draft ].

Definition invite_routes : list Route :=
  [ mkRoute GET "/invite/:token" ep_get_invite;
    mkRoute POST "/invite/:token/accept" ep_accept_invite ].

Definition payment_routes : list Route :=
  [ mkRoute POST "/payment/initiate/:draft_id" ep_initiate_payment;
    mkRoute GET "/payment/status/:draft_id" ep_payment_status ].

Definition user_routes : list Route :=
  [ mkRoute GET "/user/me" ep_get_profile;
    mkRoute PUT "/user/me" ep_update_profile;
    mkRoute PUT "/user/contacts" ep_update_contacts;
    mkRoute DELETE "/user/contacts" ep_delete_contacts ].

Definition ws_routes : list Route := [ mkRoute GET "/ws" ep_ws ].

(** The routes behind the rate limiter. *)
Definition api_routes : list Route :=
  auth_routes ++ upload_routes ++ agreement_routes ++ draft_routes ++ invite_routes
  ++ payment_routes ++ user_routes ++ ws_routes.

Definition build_router : list Route := mkRoute GET "/health" health_handler :: api_routes.

(** ** The layers

    What [build_router] gives the layers for cross-origin requests and for rate
    limits; their behaviour is that of their libraries. *)

Record CorsLayer : Type := mkCors {
  cors_origins : list string; cors_methods : list Method; cors_headers : list string }.

Definition cors : CorsLayer :=
  mkCors ["https://pactum.app"; "https://app.pactum.app"] [GET; POST; PUT; DELETE]
    ["authorization"; "content-type"].

(** [per_second(n)] is the interval in seconds at which one request of the
    burst is given back. *)
Record Governor : Type := mkGovernor { gv_interval_secs : nat; gv_burst : nat }.
Definition governor : Governor := mkGovernor 60 100.

(** ** Dispatch *)

(** A GET route also answers HEAD. *)
Definition method_allows (route requested : Method) : bool :=
  bool_decide (route = requested) || (bool_decide (route = GET) && bool_decide (requested = HEAD)).

(** The caller a handler is given. *)
Inductive Caller : Type :=
| Nobody
| CallerUser (auth : AuthUser)
| CallerWallet (auth : AuthUserWithWallet).

Inductive Served : Type :=
| NotRouted
| MethodNotAllowed
| Refused (r : Rejection)
| Handled (e : Endpoint) (c : Caller).

Section Dispatch.
Context (path_match : string -> string -> bool).

Definition routes_of (path : string) : list Route :=
  List.filter (fun r => path_match (ro_path r) path) build_router.

Definition route_of (m : Method) (path : string) : option Route :=
  List.find (fun r => method_allows (ro_method r) m) (routes_of path).

Context `{Ext, Env}.

(** The caller, by the extractor of the endpoint. *)
Definition identify (cfg : Config) (a : Access) (authorization : option string)
    : M World Rejection Caller :=
  match a with
  | Anyone => ret Nobody
  | NeedsUser => let* u := auth_user cfg authorization in ret (CallerUser u)
  | NeedsWallet => let* u := auth_user_with_wallet cfg authorization in ret (CallerWallet u)
  end.

Definition serve {E} (cfg : Config) (m : Method) (path : string) (authorization : option string)
    : M World E Served :=
  match routes_of path, route_of m path with
  | [], _ => ret NotRouted
  | _, None => ret MethodNotAllowed
  | _, Some r =>
      let* c := attempt (identify cfg (endpoint_access (ro_endpoint r)) authorization) in
      ret (match c with Ok c => Handled (ro_endpoint r) c | Err e => Refused e end)
  end.
End Dispatch.

(** ** Matching *)

Fixpoint segments_from (cur : string) (s : string) : list string :=
  match s with
  | EmptyString => [rev_string cur]
  | String c s' =>
      if Ascii.eqb c "/" then rev_string cur :: segments_from EmptyString s'
      else segments_from (String c cur) s'
  end.
Definition segments (s : string) : list string := segments_from EmptyString s.

(** A segment [:name] of a pattern takes any text but the empty one. *)
Definition segment_match (p s : string) : bool :=
  match p with
  | String ":" _ => negb (String.eqb s "")
  | _ => String.eqb p s
  end.

Fixpoint segments_match (ps ss : list string) : bool :=
  match ps, ss with
  | [], [] => true
  | p :: ps', s :: ss' => segment_match p s && segments_match ps' ss'
  | _, _ => false
  end.

(** What the router library documents: a pattern matches a path segment by
    segment. *)
Definition matchit_spec (path_match : string -> string -> bool) : Prop :=
  forall pattern path, path_match pattern path = segments_match (segments pattern) (segments path).

(** ** Lemmas *)

Lemma str_app_nil s : s +:+ EmptyString = s.
Proof.
  induction s as [|c s IH]; [done|]. change (String c s +:+ "") with (String c (s +:+ "")).
  by rewrite IH.
Qed.

Lemma str_app_char a c b : (a +:+ String c EmptyString) +:+ b = a +:+ String c b.
Proof.
  induction a as [|d a IH]; [done|].
  change (String d ((a +:+ String c EmptyString) +:+ b) = String d (a +:+ String c b)). by rewrite IH.
Qed.

Lemma rev_string_cons c s : rev_string (String c s) = rev_string s +:+ String c EmptyString.
Proof.
  unfold rev_string. cbn [list_ascii_of_string rev].
  generalize (rev (list_ascii_of_string s)) as l. induction l as [|d l IH]; cbn; [done|].
  by rewrite IH.
Qed.

Lemma segments_from_last cur s :
  str_contains "/" s = false -> segments_from cur s = [rev_string cur +:+ s].
Proof.
  revert cur. induction s as [|c s IH]; intros cur Hs; cbn [segments_from].
  - by rewrite str_app_nil.
  - cbn [str_contains] in Hs. apply orb_false_iff in Hs as [Hc Hs].
    rewrite Ascii.eqb_sym, Hc, IH, rev_string_cons by done. by rewrite str_app_char.
Qed.

(** Two patterns that may match the same path. *)
Definition segment_overlap (p q : string) : bool :=
  match p, q with
  | String ":" _, _ | _, String ":" _ => true
  | _, _ => String.eqb p q
  end.

Fixpoint overlap (ps qs : list string) : bool :=
  match ps, qs with
  | [], [] => true
  | p :: ps', q :: qs' => segment_overlap p q && overlap ps' qs'
  | _, _ => false
  end.

Lemma segment_literal p s :
  segment_match p s = true -> (exists n, p = String ":" n) \/ p = s.
Proof.
  unfold segment_match.
  repeat (case_match; try (by intros ?%String.eqb_eq; right)). by left; eexists.
Qed.

Lemma segment_overlap_refl s : segment_overlap s s = true.
Proof.
  unfold segment_overlap. repeat (case_match; try apply String.eqb_refl; try done).
Qed.

Lemma segment_overlap_param p n :
  segment_overlap p (String ":" n) = true /\ segment_overlap (String ":" n) p = true.
Proof. unfold segment_overlap. split; [|done]. repeat (case_match; try done). Qed.

Lemma matches_overlap ps qs ss :
  segments_match ps ss = true -> segments_match qs ss = true -> overlap ps qs = true.
Proof.
  revert qs ss. induction ps as [|p ps IH]; intros [|q qs] [|s ss]; cbn; try done.
  intros [Hp Hps]%andb_true_iff [Hq Hqs]%andb_true_iff. apply andb_true_iff.
  split; [|by eapply IH].
  apply segment_literal in Hp as [[n ->] | ->]; [apply segment_overlap_param|].
  apply segment_literal in Hq as [[n ->] | ->]; [apply segment_overlap_param|].
  apply segment_overlap_refl.
Qed.

Definition methods_meet (a b : Method) : bool :=
  bool_decide (a = b) || (bool_decide (a = GET) && bool_decide (b = HEAD))
  || (bool_decide (a = HEAD) && bool_decide (b = GET)).

Lemma methods_allow_meet a b m :
  method_allows a m = true -> method_allows b m = true -> methods_meet a b = true.
Proof. by destruct a, b, m. Qed.

#[export] Instance Route_eq_dec : EqDecision Route.
Proof. solve_decision. Defined.

(** Checked by evaluation over the table. *)
Lemma table_unambiguous :
  List.forallb (fun r1 => List.forallb (fun r2 =>
    negb (methods_meet (ro_method r1) (ro_method r2)
          && overlap (segments (ro_path r1)) (segments (ro_path r2)))
    || bool_decide (r1 = r2)) build_router) build_router = true.
Proof. vm_compute. reflexivity. Qed.

(** The layers fit the routes.  Browsers of the two origins, the same that the
    WebSocket endpoint accepts, may send every route its method; the health
    route, and it alone, is not rate limited. *)
Theorem layers_fit_routes :
  cors_origins cors = WS_ALLOWED_ORIGINS /\
  forall r, In r build_router ->
    In (ro_method r) (cors_methods cors) /\ (ro_endpoint r = health_handler <-> ~ In r api_routes).
Proof.
  split; [reflexivity|].
  assert (Hb : List.forallb (fun r => bool_decide (ro_method r ∈ cors_methods cors)
      && eqb (bool_decide (ro_endpoint r = health_handler)) (negb (bool_decide (r ∈ api_routes))))
    build_router = true) by (vm_compute; reflexivity).
  rewrite List.forallb_forall in Hb. intros r Hr.
  specialize (Hb r Hr). apply andb_true_iff in Hb as [Hm%bool_decide_eq_true He%eqb_prop].
  split; [by apply list_elem_of_In|]. rewrite <-list_elem_of_In.
  rewrite <-(bool_decide_eq_true (ro_endpoint r = _)), He, negb_true_iff. apply bool_decide_eq_false.
Qed.

Section Facts.
Context (path_match : string -> string -> bool) (Hmatch : matchit_spec path_match).

Lemma routes_of_spec path r :
  In r (routes_of path_match path) <->
  In r build_router /\ segments_match (segments (ro_path r)) (segments path) = true.
Proof. unfold routes_of. by rewrite List.filter_In, Hmatch. Qed.

Lemma routes_of_eval path :
  routes_of path_match path =
  List.filter (fun r => segments_match (segments (ro_path r)) (segments path)) build_router.
Proof. unfold routes_of. apply List.filter_ext. intros r. apply Hmatch. Qed.

Lemma route_unique r1 r2 m path :
  In r1 (routes_of path_match path) -> In r2 (routes_of path_match path) ->
  method_allows (ro_method r1) m = true -> method_allows (ro_method r2) m = true -> r1 = r2.
Proof.
  rewrite !routes_of_spec. intros [H1 M1] [H2 M2] A1 A2.
  pose proof table_unambiguous as Ht. rewrite List.forallb_forall in Ht.
  specialize (Ht r1 H1). rewrite List.forallb_forall in Ht. specialize (Ht r2 H2).
  rewrite (methods_allow_meet _ _ _ A1 A2), (matches_overlap _ _ _ M1 M2) in Ht.
  by apply bool_decide_eq_true in Ht.
Qed.

(** The table of routes is unambiguous.  A request is dispatched to a
    route exactly when the route's pattern matches its path and the route takes
    its method, so no route hides another and the order in which the groups
    are merged does not matter. *)
Theorem dispatch_unambiguous (m : Method) (path : string) (r : Route) :
  route_of path_match m path = Some r <->
  In r build_router /\ segments_match (segments (ro_path r)) (segments path) = true /\
  method_allows (ro_method r) m = true.
Proof.
  unfold route_of. split.
  - intros [Hin Ha]%List.find_some. apply routes_of_spec in Hin. tauto.
  - intros (Hin & Hm & Ha).
    assert (Hr : In r (routes_of path_match path)) by (by apply routes_of_spec).
    destruct (List.find _ _) as [r'|] eqn:Ef.
    + apply List.find_some in Ef as [Hin' Ha']. f_equal. by eapply route_unique.
    + exfalso. pose proof (List.find_none _ _ Ef r Hr) as Hn. cbn in Hn. congruence.
Qed.

(** The links in the API's errors, but one, are routes.  The link of
    [WalletRequired] and of [EmailRequired] and the initiate URL of
    [PaymentRequired] lead to the endpoints they are for; the link that an
    OAuth conflict gives, "/auth/link/oauth", is no route for any method. *)
Theorem error_links_routed `{Ext, Env} (existing current : string) (c : EmailConflictDetails)
    (id : Uuid) :
  detect_email_conflict existing current = Some c ->
  str_contains "/" (uuid_to_string id) = false -> uuid_to_string id <> "" ->
  option_map ro_endpoint (route_of path_match POST "/auth/link/wallet") = Some ep_link_wallet /\
  option_map ro_endpoint (route_of path_match PUT "/user/contacts") = Some ep_update_contacts /\
  option_map ro_endpoint (route_of path_match POST ("/payment/initiate/" +:+ uuid_to_string id))
    = Some ep_initiate_payment /\
  (forall cfg m authorization (w : World),
     serve path_match (E:=AppError) cfg m (ec_link_url c) authorization w = (Ok NotRouted, w)).
Proof.
  intros Hc Hs Hne. unfold route_of. rewrite !routes_of_eval.
  split; [reflexivity|]. split; [reflexivity|]. split.
  - assert (E : segments ("/payment/initiate/" +:+ uuid_to_string id)
                = ["";"payment";"initiate"; uuid_to_string id]).
    { transitivity ("" :: "payment" :: "initiate" :: segments_from "" (uuid_to_string id));
        [reflexivity|]. by rewrite segments_from_last. }
    rewrite E. apply String.eqb_neq in Hne.
    revert Hne. generalize (uuid_to_string id) as x. intros x Hne. cbn. by rewrite Hne.
  - intros cfg m authz w. unfold detect_email_conflict in Hc.
    destruct (eq_ignore_ascii_case _ _); [done|]. injection Hc as <-.
    unfold serve. by rewrite routes_of_eval.
Qed.
End Facts.

Section Guards.
Context `{Ext, Env}.

Lemma bearer_token h token : (a ← h; strip_prefix "Bearer " a) = Some token ->
  h = Some ("Bearer " +:+ token).
Proof. intros (a & -> & Hs%strip_prefix_Some)%bind_Some. by rewrite Hs. Qed.

Lemma auth_user_Ok cfg h w a w' :
  auth_user cfg h w = (Ok a, w') ->
  w' = tick w /\ exists token claims, h = Some ("Bearer " +:+ token) /\
    jwt_decode (cfg_jwt_secret cfg) (app_now (w_tick w)) token = Some claims /\
    a = mkAuthUser (cl_sub claims) (cl_pubkey claims).
Proof.
  intros Ha. unfold auth_user in Ha. apply bind_Ok in Ha as (token & w1 & Ht & Ha).
  apply of_result_Ok in Ht as [Ht%ok_or_Ok ->]. apply bearer_token in Ht as ->.
  unfold decode_access_token in Ha. world_inv. subst. split; [done|]. eauto.
Qed.

(** The caller of an endpoint, as the claims of a bearer token name it. *)
Definition speaks_for (cfg : Config) (authorization : option string) (w : World) (user : Uuid)
    (wallet : option string) : Prop :=
  exists token claims, authorization = Some ("Bearer " +:+ token) /\
    jwt_decode (cfg_jwt_secret cfg) (app_now (w_tick w)) token = Some claims /\
    cl_sub claims = user /\ cl_pubkey claims = wallet.

Definition caller_shown (cfg : Config) (authorization : option string) (w : World) (e : Endpoint)
    (c : Caller) : Prop :=
  match endpoint_access e with
  | Anyone => c = Nobody
  | NeedsUser => exists user wallet, speaks_for cfg authorization w user wallet /\
      c = CallerUser (mkAuthUser user wallet)
  | NeedsWallet => exists user wallet, speaks_for cfg authorization w user (Some wallet) /\
      c = CallerWallet (mkAuthWalletUser user wallet)
  end.

Lemma serve_route {E} path_match cfg m path authorization w w' e c :
  serve path_match (E:=E) cfg m path authorization w = (Ok (Handled e c), w') ->
  option_map ro_endpoint (route_of path_match m path) = Some e.
Proof.
  intros Hs. unfold serve in Hs. destruct (routes_of _ _) as [|r0 rs0]; [done|].
  destruct (route_of _ _ _) as [r|]; [|done]. unfold bind, attempt in Hs.
  destruct (identify _ _ _ w) as [[c'|rej] w1]; [|done]. by injection Hs as <- _ _.
Qed.

Lemma serve_fits {E} path_match cfg m path authorization w w' e c :
  serve path_match (E:=E) cfg m path authorization w = (Ok (Handled e c), w') ->
  w_db w' = w_db w /\ w_effects w' = w_effects w /\ caller_shown cfg authorization w e c.
Proof.
  intros Hs. unfold serve in Hs. destruct (routes_of _ _) as [|r0 rs0]; [done|].
  destruct (route_of _ _ _) as [r|]; [|done]. unfold bind, attempt in Hs.
  destruct (identify _ _ _ w) as [[c'|rej] w1] eqn:Ei; [|done]. injection Hs as <- <- <-.
  unfold identify in Ei. unfold caller_shown. destruct (endpoint_access (ro_endpoint r)).
  - injection Ei as <- <-. done.
  - apply bind_Ok in Ei as (u & w2 & Hu & Ei). injection Ei as <- <-.
    apply auth_user_Ok in Hu as [-> (token & claims & -> & Hd & ->)]. unfold speaks_for. eauto 12.
  - apply bind_Ok in Ei as (u & w2 & Hu & Ei). injection Ei as <- <-.
    unfold auth_user_with_wallet in Hu. apply bind_Ok in Hu as (a & w3 & Ha & Hu).
    apply auth_user_Ok in Ha as [-> (token & claims & -> & Hd & ->)]. cbn [au_pubkey au_user_id] in Hu.
    destruct (cl_pubkey claims) as [p|] eqn:Ep; [|done]. injection Hu as <- <-. unfold speaks_for. eauto 14.
Qed.

(** The guards of the API.  A request reaches a handler as the extractor
    of its route demands: handlers without one run for anyone and as nobody; the
    others only for the user, and where a wallet is needed the wallet, in the
    claims of a bearer token that decodes under the secret at the time of
    the request.  Guarding a request changes no table and sends nothing. *)
Theorem handlers_are_guarded (path_match : string -> string -> bool) (cfg : Config) (m : Method)
    (path : string) (authorization : option string) (w w' : World) (e : Endpoint) (c : Caller) :
  serve path_match (E:=AppError) cfg m path authorization w = (Ok (Handled e c), w') ->
  w_db w' = w_db w /\ w_effects w' = w_effects w /\
  match endpoint_access e with
  | Anyone => c = Nobody
  | NeedsUser => exists token claims, authorization = Some ("Bearer " +:+ token) /\
      jwt_decode (cfg_jwt_secret cfg) (app_now (w_tick w)) token = Some claims /\
      c = CallerUser (mkAuthUser (cl_sub claims) (cl_pubkey claims))
  | NeedsWallet => exists token claims wallet, authorization = Some ("Bearer " +:+ token) /\
      jwt_decode (cfg_jwt_secret cfg) (app_now (w_tick w)) token = Some claims /\
      cl_pubkey claims = Some wallet /\
      c = CallerWallet (mkAuthWalletUser (cl_sub claims) wallet)
  end.
Proof.
  intros Hs. destruct (serve_fits _ _ _ _ _ _ _ _ _ Hs) as (Hdb & Heff & Hc).
  split; [done|]. split; [done|]. unfold caller_shown in Hc. destruct (endpoint_access e); [done|..].
  - destruct Hc as (u & p & (token & claims & Ha & Hd & <- & <-) & ->). eauto.
  - destruct Hc as (u & p & (token & claims & Ha & Hd & <- & Hp) & ->). eauto 8.
Qed.
End Guards.

(** ** Examples *)

Definition match_demo (pattern path : string) : bool :=
  segments_match (segments pattern) (segments path).

Lemma dispatch_unambiguous_witness :
  route_of match_demo HEAD "/draft/17" = Some (mkRoute GET "/draft/:id" ep_get_draft) /\
  route_of match_demo POST "/draft/17" = None.
Proof.
  split; [|vm_compute; reflexivity].
  apply (dispatch_unambiguous match_demo (fun _ _ => eq_refl) HEAD "/draft/17"
    (mkRoute GET "/draft/:id" ep_get_draft)).
  split; [cbn; tauto|]. split; vm_compute; reflexivity.
Defined.

Lemma error_links_routed_witness :
  option_map ro_endpoint (route_of match_demo POST
    ("/payment/initiate/" +:+ @uuid_to_string ext_demo (uid x01))) = Some ep_initiate_payment /\
  @serve match_demo ext_demo env_demo AppError config_demo GET "/auth/link/oauth" None
    (world_demo db_empty) = (Ok NotRouted, world_demo db_empty).
Proof.
  destruct (@error_links_routed match_demo (fun _ _ => eq_refl) ext_demo env_demo "google"
    "microsoft" (mkConflict "google" "/auth/link/oauth") (uid x01))
    as (_ & _ & Hp & Hn); [reflexivity | vm_compute; reflexivity | vm_compute; discriminate |].
  split; [exact Hp | exact (Hn config_demo GET None (world_demo db_empty))].
Defined.

Definition header_demo : option string :=
  Some ("Bearer " +:+ jwt_text "secret" (mkClaims (uid x01) (Some "alice") 2000 1000 (uid x02))).

Lemma handlers_are_guarded_witness :
  exists c w', @serve match_demo ext_demo env_demo AppError config_demo POST "/upload" header_demo
      (world_demo db_empty) = (Ok (Handled ep_upload c), w') /\ w_db w' = db_empty.
Proof.
  pose proof (eq_refl (Some ep_upload) : match fst (@serve match_demo ext_demo env_demo AppError
    config_demo POST "/upload" header_demo (world_demo db_empty)) with
    | Ok (Handled e _) => Some e | _ => None end = Some ep_upload) as He.
  destruct (@serve match_demo ext_demo env_demo AppError config_demo POST "/upload" header_demo
      (world_demo db_empty)) as [[[| |rej|e c]|e] w'] eqn:E; try discriminate He.
  injection He as ->. exists c, w'. split; [reflexivity|].
  apply (@handlers_are_guarded ext_demo env_demo match_demo config_demo POST "/upload" header_demo
    (world_demo db_empty) w' ep_upload c E).
Defined.
