(* ===== verification/Solana.v ===== *)
(** * Solana: transaction construction (src/src/services/solana.rs)

    PDAs, instruction discriminators and the builders of the program's
    transactions.  Addresses, hashes and the serialization of a transaction
    come from the SDK, whose functions are fields of [Ext]; what the builders
    put into a transaction is modelled in full. *)

From Stdlib Require Import ZArith Lia.
From Stdlib Require Import Strings.Byte Strings.Ascii Strings.String.
From stdpp Require Import base tactics decidable option list strings gmap.
From S2P Require Import Prelude Text Errors Borsh SolanaTypes Health World Concrete.

Open Scope string_scope.
Open Scope list_scope.
Open Scope nat_scope.

(** ** Constants *)

Definition byte_list (l : list nat) : bytes := as_bytes (byte_str l).

Definition SYSTEM_PROGRAM_ID : Pubkey := fill 32 x00.
Definition MPL_CORE_PROGRAM : string := "CoREENxT6tW1HoK8ypY1SxRMZTcVPm7R94rH4PZNhX7d".
Definition AGREEMENT_STATE_SIZE : nat := 1813.
Definition VAULT_BUFFER : Z := 10000000.

Definition CREATE_AGREEMENT_DISCRIMINATOR : bytes := byte_list [220; 156; 65; 172; 252; 68; 74; 233].
Definition SIGN_AGREEMENT_DISCRIMINATOR : bytes := byte_list [113; 163; 162; 101; 44; 101; 65; 204].
Definition CANCEL_AGREEMENT_DISCRIMINATOR : bytes := byte_list [75; 89; 85; 4; 100; 216; 143; 37].
Definition EXPIRE_AGREEMENT_DISCRIMINATOR : bytes := byte_list [238; 66; 118; 206; 71; 195; 75; 132].
Definition VOTE_REVOKE_DISCRIMINATOR : bytes := byte_list [37; 199; 69; 222; 97; 220; 96; 2].
Definition RETRACT_REVOKE_VOTE_DISCRIMINATOR : bytes :=
  byte_list [221; 206; 3; 95; 171; 167; 185; 239].
Definition INITIALIZE_COLLECTION_DISCRIMINATOR : bytes :=
  byte_list [112; 62; 53; 139; 173; 152; 98; 93].

(** ** The SDK's transaction value *)

(** [AccountMeta::new] (writable) and [AccountMeta::new_readonly] *)
Definition meta_new (k : Pubkey) (signer : bool) : AccountMeta := mkMeta k signer true.
Definition meta_new_readonly (k : Pubkey) (signer : bool) : AccountMeta := mkMeta k signer false.

(** [Transaction::new_unsigned(Message::new(ixs, Some(payer)))] *)
Definition new_unsigned (ixs : list Instruction) (payer : Pubkey) : Transaction :=
  mkTransaction ixs payer [] (fill 32 x00).

(** The keys a message needs signatures of: the fee payer and every account
    marked as a signer. *)
Definition required_signers (t : Transaction) : list Pubkey :=
  tx_payer t ::
  map am_pubkey (where_ am_is_signer (List.flat_map ix_accounts (tx_instructions t))).

(** [tx.try_partial_sign(&[keypair], blockhash)]: refused when the key is not a
    required signer. *)
Definition try_partial_sign (t : Transaction) (k : Pubkey) (bh : bytesN 32) : option Transaction :=
  if bool_decide (k ∈ required_signers t)
  then Some (mkTransaction (tx_instructions t) (tx_payer t) (k :: tx_signed_by t) bh)
  else None.

Definition set_blockhash (t : Transaction) (bh : bytesN 32) : Transaction :=
  mkTransaction (tx_instructions t) (tx_payer t) (tx_signed_by t) bh.

Record InitializeCollectionArgs : Type := mkInitCollection { ic_name : string; ic_uri : string }.

Definition c_init_collection `{BorshFormat} : Codec InitializeCollectionArgs.
Proof.
  refine (c_iso (fun p => mkInitCollection (fst p) (snd p)) (fun r => (ic_name r, ic_uri r))
            _ _ (c_pair b_string b_string)); by intros [].
Defined.

Section Builders.
Context `{Ext, Env}.

(** The program's id.  The constant is a valid key (the process stops at the
    first use otherwise); the zero key stands for that stop. *)
Definition pactum_program_pubkey : Pubkey :=
  default (fill 32 x00) (pubkey_from_str PROGRAM_ID).
Definition MPL_CORE_PROGRAM_ID : Pubkey :=
  default (fill 32 x00) (pubkey_from_str MPL_CORE_PROGRAM).

(** ** Addresses *)

Definition derive_agreement_pda (creator : Pubkey) (agreement_id : bytesN 16) : Pubkey * byte :=
  find_program_address [as_bytes "agreement"; bn_bytes creator; bn_bytes agreement_id]
    pactum_program_pubkey.

Definition derive_collection_state_pda (creator : Pubkey) : Pubkey * byte :=
  find_program_address [as_bytes "collection"; bn_bytes creator] pactum_program_pubkey.

Definition derive_pda_authority (vault_funder : Pubkey) : Pubkey * byte :=
  find_program_address [as_bytes "mint_authority"; as_bytes "v1"; bn_bytes vault_funder]
    pactum_program_pubkey.

Definition compute_discriminator (name : string) : bytes :=
  take 8 (bn_bytes (sha256 (as_bytes ("global:" +:+ name)))).

Definition build_anchor_instruction (program_id : Pubkey) (discriminator : bytes)
    (accounts : list AccountMeta) (args_data : bytes) : Instruction :=
  mkInstruction program_id accounts (discriminator ++ args_data).

Definition calculate_vault_deposit : M World AppError Z :=
  let* rent_exempt := get_rent_exemption AGREEMENT_STATE_SIZE in
  ret (u64_wrap (rent_exempt + VAULT_BUFFER)).

(** ** Builders *)

(** The common end of the vault-signed builders: latest blockhash, message
    paid by the vault, partial signature, serialization. *)
Definition vault_signed (ix : Instruction) (vault : Pubkey) : M World AppError string :=
  let* recent_blockhash := get_latest_blockhash in
  let tx := new_unsigned [ix] vault in
  let* tx := of_result (ok_or (try_partial_sign tx vault recent_blockhash)
                          TransactionSigningFailed) in
  of_result (ok_or (tx_encode tx) InternalError).

Definition build_create_agreement_instruction (args : CreateAgreementArgs)
    (creator agreement_pda collection_state_pda vault : Pubkey) (vault_deposit : Z)
    : Instruction :=
  let args_data := enc c_create_args args in
  mkInstruction pactum_program_pubkey
    [meta_new vault true; meta_new_readonly creator true;
     meta_new collection_state_pda false; meta_new agreement_pda false;
     meta_new_readonly SYSTEM_PROGRAM_ID false]
    (CREATE_AGREEMENT_DISCRIMINATOR ++ args_data).

Definition build_create_agreement_tx (args : CreateAgreementArgs) (creator vault : Pubkey)
    : M World AppError string :=
  let agreement_pda := fst (derive_agreement_pda creator (ca_agreement_id args)) in
  let collection_state_pda := fst (derive_collection_state_pda creator) in
  let* vault_deposit := calculate_vault_deposit in
  vault_signed (build_create_agreement_instruction args creator agreement_pda
                  collection_state_pda vault vault_deposit) vault.

Definition build_sign_agreement_tx (creator : Pubkey) (agreement_id : bytesN 16)
    (signer : Pubkey) (metadata_uri : option string) (vault_funder : Pubkey)
    : M World AppError string :=
  let agreement_pda := fst (derive_agreement_pda creator agreement_id) in
  let pda_authority := fst (derive_pda_authority vault_funder) in
  let args_data := enc c_sign_args (mkSignArgs metadata_uri) in
  let instruction := mkInstruction pactum_program_pubkey
    [meta_new vault_funder true; meta_new signer true; meta_new_readonly creator false;
     meta_new agreement_pda false; meta_new_readonly pda_authority false;
     meta_new_readonly MPL_CORE_PROGRAM_ID false; meta_new_readonly SYSTEM_PROGRAM_ID false]
    (SIGN_AGREEMENT_DISCRIMINATOR ++ args_data) in
  let* recent_blockhash := get_latest_blockhash in
  let tx := new_unsigned [instruction] signer in
  of_result (ok_or (tx_encode (set_blockhash tx recent_blockhash)) InternalError).

Definition build_cancel_agreement_tx (creator : Pubkey) (agreement_id : bytesN 16)
    (canceller vault : Pubkey) : M World AppError string :=
  let agreement_pda := fst (derive_agreement_pda creator agreement_id) in
  vault_signed (mkInstruction pactum_program_pubkey
    [meta_new vault true; meta_new_readonly canceller true; meta_new agreement_pda false;
     meta_new_readonly SYSTEM_PROGRAM_ID false]
    CANCEL_AGREEMENT_DISCRIMINATOR) vault.

Definition build_expire_agreement_tx (creator : Pubkey) (agreement_id : bytesN 16)
    (vault : Pubkey) : M World AppError string :=
  let agreement_pda := fst (derive_agreement_pda creator agreement_id) in
  vault_signed (mkInstruction pactum_program_pubkey
    [meta_new vault true; meta_new agreement_pda false; meta_new_readonly creator false;
     meta_new_readonly SYSTEM_PROGRAM_ID false]
    EXPIRE_AGREEMENT_DISCRIMINATOR) vault.

Definition build_vote_revoke_tx (creator : Pubkey) (agreement_id : bytesN 16)
    (voter nft_asset vault : Pubkey) : M World AppError string :=
  let agreement_pda := fst (derive_agreement_pda creator agreement_id) in
  let pda_authority := fst (derive_pda_authority vault) in
  vault_signed (mkInstruction pactum_program_pubkey
    [meta_new vault true; meta_new voter true; meta_new_readonly creator false;
     meta_new agreement_pda false; meta_new nft_asset false;
     meta_new_readonly pda_authority false; meta_new_readonly MPL_CORE_PROGRAM_ID false;
     meta_new_readonly SYSTEM_PROGRAM_ID false]
    VOTE_REVOKE_DISCRIMINATOR) vault.

Definition build_retract_revoke_vote_tx (creator : Pubkey) (agreement_id : bytesN 16)
    (voter vault : Pubkey) : M World AppError string :=
  let creator := voter in
  let agreement_pda := fst (derive_agreement_pda creator agreement_id) in
  vault_signed (mkInstruction pactum_program_pubkey
    [meta_new vault true; meta_new voter true; meta_new agreement_pda false]
    RETRACT_REVOKE_VOTE_DISCRIMINATOR) vault.

Definition build_initialize_collection_tx (creator collection_asset : Pubkey)
    (name uri : string) (vault : Pubkey) : M World AppError string :=
  let collection_state_pda := fst (derive_collection_state_pda creator) in
  let pda_authority := fst (derive_pda_authority vault) in
  let args_data := enc c_init_collection (mkInitCollection name uri) in
  vault_signed (mkInstruction pactum_program_pubkey
    [meta_new vault true; meta_new_readonly creator true; meta_new collection_asset true;
     meta_new collection_state_pda false; meta_new_readonly pda_authority false;
     meta_new_readonly MPL_CORE_PROGRAM_ID false; meta_new_readonly SYSTEM_PROGRAM_ID false]
    (INITIALIZE_COLLECTION_DISCRIMINATOR ++ args_data)) vault.
End Builders.

(** ** Requests

    One value per builder, so that a property of every transaction the backend
    hands out is one theorem. *)

Inductive TxRequest : Type :=
| RqCreate (args : CreateAgreementArgs) (creator : Pubkey)
| RqSign (creator : Pubkey) (agreement_id : bytesN 16) (signer : Pubkey)
    (metadata_uri : option string)
| RqCancel (creator : Pubkey) (agreement_id : bytesN 16) (canceller : Pubkey)
| RqExpire (creator : Pubkey) (agreement_id : bytesN 16)
| RqVote (creator : Pubkey) (agreement_id : bytesN 16) (voter nft_asset : Pubkey)
| RqRetract (creator : Pubkey) (agreement_id : bytesN 16) (voter : Pubkey)
| RqCollection (creator collection_asset : Pubkey) (name uri : string).

Section Requests.
Context `{Ext, Env}.

Definition build (rq : TxRequest) (vault : Pubkey) : M World AppError string :=
  match rq with
  | RqCreate args creator => build_create_agreement_tx args creator vault
  | RqSign creator id signer uri => build_sign_agreement_tx creator id signer uri vault
  | RqCancel creator id canceller => build_cancel_agreement_tx creator id canceller vault
  | RqExpire creator id => build_expire_agreement_tx creator id vault
  | RqVote creator id voter nft => build_vote_revoke_tx creator id voter nft vault
  | RqRetract creator id voter => build_retract_revoke_vote_tx creator id voter vault
  | RqCollection creator asset name uri =>
      build_initialize_collection_tx creator asset name uri vault
  end.

(** Who must still sign on the client, besides the vault. *)
Definition client_signers (rq : TxRequest) : list Pubkey :=
  match rq with
  | RqCreate _ creator => [creator]
  | RqSign _ _ signer _ => [signer]
  | RqCancel _ _ canceller => [canceller]
  | RqExpire _ _ => []
  | RqVote _ _ voter _ => [voter]
  | RqRetract _ _ voter => [voter]
  | RqCollection creator asset _ _ => [creator; asset]
  end.

(** The fee payer, and the signatures the backend adds. *)
Definition payer_of (rq : TxRequest) (vault : Pubkey) : Pubkey :=
  match rq with RqSign _ _ signer _ => signer | _ => vault end.
Definition backend_signatures (rq : TxRequest) (vault : Pubkey) : list Pubkey :=
  match rq with RqSign _ _ _ _ => [] | _ => [vault] end.

Definition discriminator_of (rq : TxRequest) : bytes :=
  match rq with
  | RqCreate _ _ => CREATE_AGREEMENT_DISCRIMINATOR
  | RqSign _ _ _ _ => SIGN_AGREEMENT_DISCRIMINATOR
  | RqCancel _ _ _ => CANCEL_AGREEMENT_DISCRIMINATOR
  | RqExpire _ _ => EXPIRE_AGREEMENT_DISCRIMINATOR
  | RqVote _ _ _ _ => VOTE_REVOKE_DISCRIMINATOR
  | RqRetract _ _ _ => RETRACT_REVOKE_VOTE_DISCRIMINATOR
  | RqCollection _ _ _ _ => INITIALIZE_COLLECTION_DISCRIMINATOR
  end.

(** What follows the discriminator. *)
Definition args_of (rq : TxRequest) : bytes :=
  match rq with
  | RqCreate args _ => enc c_create_args args
  | RqSign _ _ _ uri => enc c_sign_args (mkSignArgs uri)
  | RqCollection _ _ name uri => enc c_init_collection (mkInitCollection name uri)
  | _ => []
  end.

(** The agreement the request is about, by its creator and id. *)
Definition agreement_of (rq : TxRequest) : option (Pubkey * bytesN 16) :=
  match rq with
  | RqCreate args creator => Some (creator, ca_agreement_id args)
  | RqSign creator id _ _ | RqCancel creator id _ | RqExpire creator id
  | RqVote creator id _ _ | RqRetract creator id _ => Some (creator, id)
  | RqCollection _ _ _ _ => None
  end.

Lemma try_partial_sign_payer ixs k bh :
  try_partial_sign (new_unsigned ixs k) k bh = Some (mkTransaction ixs k [k] bh).
Proof. unfold try_partial_sign. rewrite bool_decide_eq_true_2; [done | left]. Qed.

(** The vault is the payer, so signing cannot fail. *)
Lemma vault_signed_run ix vault w :
  vault_signed ix vault w =
    (match rpc_blockhash (w_tick w) with
     | Some bh => ok_or (tx_encode (mkTransaction [ix] vault [vault] bh)) InternalError
     | None => Err SolanaRpcError
     end, tick w).
Proof.
  unfold vault_signed, bind, get_latest_blockhash, of_result.
  destruct (rpc_blockhash (w_tick w)) as [bh|]; cbn; [|done].
  by rewrite try_partial_sign_payer.
Qed.

Lemma vault_signed_Ok ix vault w s w' :
  vault_signed ix vault w = (Ok s, w') ->
  exists bh, tx_encode (mkTransaction [ix] vault [vault] bh) = Some s /\ w' = tick w.
Proof.
  rewrite vault_signed_run. destruct (rpc_blockhash (w_tick w)) as [bh|]; [|discriminate].
  intros [= He%ok_or_Ok <-]. eauto.
Qed.

Lemma calculate_vault_deposit_Ok w z w' :
  calculate_vault_deposit w = (Ok z, w') ->
  w' = tick w /\ exists r, rpc_rent_exempt (w_tick w) 1813 = Some r /\ z = u64_wrap (r + VAULT_BUFFER).
Proof.
  unfold calculate_vault_deposit, bind, get_rent_exemption, AGREEMENT_STATE_SIZE, ret.
  destruct (rpc_rent_exempt (w_tick w) 1813) as [r|]; cbn; [|discriminate].
  intros [= <- <-]. eauto.
Qed.

Ltac signer_set :=
  unfold required_signers; cbn;
  let k := fresh "k" in
  intros k; pose proof (not_elem_of_nil k); rewrite !elem_of_cons; tauto.
Ltac built_by_vault Hb :=
  apply vault_signed_Ok in Hb as (? & He & ->); eexists _, _; split; [exact He|];
  split; [split; try done; signer_set | done].

(** What every built transaction looks like. *)
Record well_built (rq : TxRequest) (vault : Pubkey) (t : Transaction) (ix : Instruction)
    : Prop := mkWellBuilt {
  wb_ixs : tx_instructions t = [ix];
  wb_payer : tx_payer t = payer_of rq vault;
  wb_signed : tx_signed_by t = backend_signatures rq vault;
  wb_signers : forall k, k ∈ required_signers t <-> k = vault \/ k ∈ client_signers rq;
  wb_program : ix_program_id ix = pactum_program_pubkey;
  wb_data : ix_data ix = discriminator_of rq ++ args_of rq;
}.

Lemma built_frame rq vault w s w' :
  build rq vault w = (Ok s, w') ->
  exists t ix, tx_encode t = Some s /\ well_built rq vault t ix /\
    w_db w' = w_db w /\ w_effects w' = w_effects w.
Proof.
  destruct rq; cbn [build]; intros Hb;
    try (built_by_vault Hb).
  - unfold build_create_agreement_tx in Hb. apply bind_Ok in Hb as (z & w1 & Hz & Hb).
    apply calculate_vault_deposit_Ok in Hz as [-> _]. built_by_vault Hb.
  - unfold build_sign_agreement_tx in Hb. run_inv.
    unfold get_latest_blockhash in Hs. injection Hs as _ <-.
    match goal with Hx : tx_encode _ = Some _ |- _ => eexists _, _; split; [exact Hx|] end.
    split; [split; try done; signer_set | done].
Qed.

(** C39: every transaction the backend hands out.  Whichever builder ran, the
    returned text serializes one instruction of the program whose data is the
    discriminator followed by the borsh form of the arguments; the signatures
    it needs are those of the vault and of the named client keys and nobody
    else, the backend has added the vault's signature (none for a signing
    transaction, which the party pays), and neither tables nor the chain were
    touched. *)
Theorem built_transaction (rq : TxRequest) (vault : Pubkey) (w w' : World) (s : string) :
  build rq vault w = (Ok s, w') ->
  exists t ix, tx_encode t = Some s /\ well_built rq vault t ix /\
    w_db w' = w_db w /\ w_effects w' = w_effects w.
Proof. apply built_frame. Qed.

(** The program reads back the arguments.  The bytes after the
    discriminator of a create instruction decode to exactly the arguments the
    backend was given. *)
Theorem create_instruction_roundtrip (args : CreateAgreementArgs)
    (creator pda collection vault : Pubkey) (deposit : Z) :
  valid c_create_args args ->
  let ix := build_create_agreement_instruction args creator pda collection vault deposit in
  take 8 (ix_data ix) = CREATE_AGREEMENT_DISCRIMINATOR /\
  try_from_slice c_create_args (drop 8 (ix_data ix)) = Some args.
Proof. intros Hv ix. split; [done|]. by apply try_from_slice_enc. Qed.

(** The agreement account an instruction names, by its position. *)
Definition agreement_account (rq : TxRequest) (ix : Instruction) : option Pubkey :=
  option_map am_pubkey
    (match rq with
     | RqCreate _ _ | RqSign _ _ _ _ | RqVote _ _ _ _ => ix_accounts ix !! 3
     | RqCancel _ _ _ | RqRetract _ _ _ => ix_accounts ix !! 2
     | RqExpire _ _ => ix_accounts ix !! 1
     | RqCollection _ _ _ _ => None
     end).

Lemma retract_account creator id voter vault w s w' :
  build (RqRetract creator id voter) vault w = (Ok s, w') ->
  exists t ix, tx_encode t = Some s /\ tx_instructions t = [ix] /\
    agreement_account (RqRetract creator id voter) ix = Some (fst (derive_agreement_pda voter id)).
Proof.
  intros Hb. apply vault_signed_Ok in Hb as (bh & He & ->). eexists _, _. split; [exact He|].
  done.
Qed.

(** The retraction of a revocation vote addresses the wrong account.  A
    voter who is not the creator gets a transaction for the agreement address
    derived from the voter's own key, which is not the agreement's. *)
Theorem retract_targets_wrong_account (creator : Pubkey) (id : bytesN 16)
    (voter vault : Pubkey) (w w' : World) (s : string) :
  fst (derive_agreement_pda voter id) <> fst (derive_agreement_pda creator id) ->
  build (RqRetract creator id voter) vault w = (Ok s, w') ->
  exists t ix, tx_encode t = Some s /\ tx_instructions t = [ix] /\
    agreement_account (RqRetract creator id voter) ix
      <> Some (fst (derive_agreement_pda creator id)).
Proof.
  intros Hne Hb. destruct (retract_account _ _ _ _ _ _ _ Hb) as (t & ix & He & Hix & Ha).
  exists t, ix. repeat split; [done | done |]. rewrite Ha. congruence.
Qed.

(** Every other builder addresses the agreement of its request. *)
Theorem builders_target_agreement (rq : TxRequest) (vault : Pubkey) (w w' : World)
    (s : string) (creator : Pubkey) (id : bytesN 16) :
  agreement_of rq = Some (creator, id) ->
  (forall c i v, rq <> RqRetract c i v) ->
  build rq vault w = (Ok s, w') ->
  exists t ix, tx_encode t = Some s /\ tx_instructions t = [ix] /\
    agreement_account rq ix = Some (fst (derive_agreement_pda creator id)).
Proof.
  intros Ha Hnr. destruct rq; cbn in Ha; try discriminate; injection Ha as <- <-;
    cbn [build]; intros Hb;
    try (apply vault_signed_Ok in Hb as (? & He & ->); eexists _, _; split; [exact He | done]).
  - unfold build_create_agreement_tx in Hb. apply bind_Ok in Hb as (z & w1 & Hz & Hb).
    apply vault_signed_Ok in Hb as (? & He & ->). eexists _, _. split; [exact He | done].
  - unfold build_sign_agreement_tx in Hb. run_inv.
    match goal with Hx : tx_encode _ = Some _ |- _ => eexists _, _; split; [exact Hx | done] end.
  - by destruct (Hnr creator0 agreement_id voter).
Qed.
End Requests.

(** ** Witnesses *)

Definition args_demo : CreateAgreementArgs :=
  mkCreateArgs (uid x03) "Lease" (fill 32 x0f) "ipfs://cid" Ipfs [key x0c; key x0d] 86400.

Lemma built_transaction_witness :
  exists t ix, @tx_encode ext_demo t = Some "dHg=" /\
    @well_built ext_demo (RqCancel (key x0c) (uid x03) (key x0c)) (key x01) t ix.
Proof.
  destruct (@built_transaction ext_demo env_demo (RqCancel (key x0c) (uid x03) (key x0c)) (key x01)
    (world_demo db_empty) (tick (world_demo db_empty)) "dHg=") as (t & ix & He & Hw & _).
  - vm_compute. reflexivity.
  - exists t, ix. split; [exact He | exact Hw].
Defined.

Lemma create_instruction_roundtrip_witness :
  @try_from_slice _ (@c_create_args borsh_demo) (drop 8 (ix_data
    (@build_create_agreement_instruction ext_demo args_demo (key x0c) (key x02) (key x02)
       (key x01) 5%Z))) = Some args_demo.
Proof.
  apply (@create_instruction_roundtrip ext_demo args_demo (key x0c) (key x02) (key x02) (key x01) 5%Z).
  cbn. repeat split; try (vm_compute; reflexivity); try (vm_compute; discriminate);
    try apply Forall_true; done.
Defined.

Lemma retract_targets_wrong_account_witness :
  exists t ix, @tx_encode ext_demo t = Some "dHg=" /\ tx_instructions t = [ix] /\
    agreement_account (RqRetract (key x0c) (uid x03) (key x0d)) ix
      <> Some (fst (@derive_agreement_pda ext_demo (key x0c) (uid x03))).
Proof.
  apply (@retract_targets_wrong_account ext_demo env_demo (key x0c) (uid x03) (key x0d) (key x01)
    (world_demo db_empty) (tick (world_demo db_empty)) "dHg=").
  - intros E. apply (f_equal bn_bytes) in E. vm_compute in E. discriminate E.
  - vm_compute. reflexivity.
Defined.

Lemma builders_target_agreement_witness :
  exists t ix, @tx_encode ext_demo t = Some "dHg=" /\ tx_instructions t = [ix] /\
    agreement_account (RqExpire (key x0c) (uid x03)) ix
      = Some (fst (@derive_agreement_pda ext_demo (key x0c) (uid x03))).
Proof.
  apply (@builders_target_agreement ext_demo env_demo (RqExpire (key x0c) (uid x03)) (key x01)
    (world_demo db_empty) (tick (world_demo db_empty)) "dHg=" (key x0c) (uid x03)).
  - reflexivity.
  - intros c i v E. discriminate E.
  - vm_compute. reflexivity.
Defined.
