(* ===== verification/Agreement.v ===== *)
(** * Agreement: the agreement endpoints (src/src/handlers/agreement.rs) *)

From Stdlib Require Import ZArith Lia.
From Stdlib Require Import Strings.Byte Strings.Ascii Strings.String.
From stdpp Require Import base tactics decidable option list strings gmap.
From S2P Require Import Prelude Text Errors Borsh SolanaTypes Health World Concrete Crypto.
From S2P Require Import DraftData Solana.

Open Scope string_scope.
Open Scope list_scope.
Open Scope Z_scope.

(** ** Requests and responses *)

Inductive PartyInput : Type :=
| PartyPubkey (pubkey : string)
| PartyEmail (email : string).

Record CreateAgreementRequest : Type := mkCreateRequest {
  cr_title : string; cr_parties : list PartyInput; cr_expires_in_secs : Z }.

Record PendingInvitation : Type := mkPending { pv_email_hint : string; pv_invited_at : Z }.

Inductive CreateAgreementResponse : Type :=
| Submitted (transaction agreement_pda : string)
| AwaitingPartyWallets (draft_id : Uuid) (pending_invitations : list PendingInvitation).

Record SignAgreementResponse : Type := mkSignResponse {
  sr_transaction : string; sr_suggest_email : bool; sr_suggest_email_reason : option string }.

Record GetAgreementResponse : Type := mkGetAgreement {
  ga_creator : string; ga_agreement_id : string; ga_title : string; ga_storage_uri : string;
  ga_storage_backend : string; ga_status : string; ga_created_at : Z; ga_expires_at : Z;
  ga_parties : list string; ga_signed_by : list string }.

Record ListAgreementsQuery : Type := mkListQuery {
  lq_status : option string; lq_role : option string; lq_page : option Z; lq_limit : option Z }.

Record ListAgreementsResponse : Type := mkListResponse {
  lr_page : Z; lr_limit : Z; lr_items : list AgreementPartyRow }.

Record InvitationInsertRow : Type := mkInvitationInsert {
  ii_id : Uuid; ii_email_index : bytes; ii_email_enc : bytes; ii_email_nonce : bytes;
  ii_token : string; ii_email_hint : string; ii_invited_at : Z; ii_expires_at : Z }.

Inductive AgreementListRole : Type := RoleCreator | RoleParty | RoleAny.

(** ** Pure helpers *)

Definition validate_invite_window (invite_expiry_seconds expires_in_secs : Z)
    : result AppError unit :=
  if expires_in_secs <=? invite_expiry_seconds then Err InviteWindowExceedsSigningWindow
  else Ok tt.

Definition email_hint (email : string) : string :=
  match split_once "@" email with
  | None => "***"
  | Some (local, domain) =>
      default "*" (first_char local) +:+ "***@" +:+ domain
  end.

Definition contains_pubkey_bytes (pubkeys : list (bytesN 32)) (pubkey : Pubkey) : bool :=
  List.existsb (fun candidate => bool_decide (candidate = pubkey)) pubkeys.

Definition is_final_signature (parties_len signed_by_len : nat) (signer_already_signed : bool)
    : bool := (parties_len =? signed_by_len + 1)%nat && negb signer_already_signed.

Definition parse_role (role : option string) : AgreementListRole :=
  match role with
  | Some value =>
      if eq_ignore_ascii_case value "creator" then RoleCreator
      else if eq_ignore_ascii_case value "party" then RoleParty
      else RoleAny
  | None => RoleAny
  end.

(** [sanitize_pagination(page, limit)]: page, limit, SQL limit and offset. *)
Definition sanitize_pagination (page limit : option Z) : Z * Z * Z * Z :=
  let page := Z.max (default 1 page) 1 in
  let limit := Z.min (Z.max (default 20 limit) 1) 100 in
  let offset := u32_sat_mul (u_sat_sub page 1) limit in
  (page, limit, limit, offset).

Definition agreement_status_to_string (s : AgreementStatus) : string :=
  match s with
  | Draft => "draft"
  | PendingSignatures => "pending_signatures"
  | Completed => "completed"
  | Cancelled => "cancelled"
  | Expired => "expired"
  | Revoked => "revoked"
  end.

Definition storage_backend_to_string (b : StorageBackend) : string :=
  match b with Ipfs => "ipfs" | Arweave => "arweave" end.

(** [q.status] after trimming; an empty filter is none. *)
Definition status_filter (status : option string) : option string :=
  match status with
  | Some value => let trimmed := trim value in
                  if String.eqb trimmed "" then None else Some trimmed
  | None => None
  end.

(** ** Statements *)

(** [SELECT aw.pubkey FROM user_contacts uc JOIN auth_wallet aw ..] *)
Definition pubkey_of_email (email_index : bytes) (d : Db) : option string :=
  fetch_optional (List.flat_map (fun uc =>
      map aw_pubkey (where_ (fun aw => uuid_eqb (aw_user_id aw) (uc_user_id uc)) (db_wallets d)))
    (where_ (fun uc => match uc_email_index uc with
                       | Some i => bytes_eqb i email_index | None => false end) (db_contacts d))).

Definition free_used_by (user : Uuid) (d : Db) : option Z :=
  option_map uac_free_used
    (fetch_optional (where_ (fun r => uuid_eqb (uac_user_id r) user) (db_counts d))).

Definition insert_draft_stmt (id : Uuid) (creator : string) (payload slots : json)
    (status : string) : Stmt unit :=
  insert_prepared T_agreement_drafts ["creator_pubkey"; "draft_payload"; "party_slots"; "status"]
    (fun now d =>
      if exists_row (fun r => uuid_eqb (ad_id r) id) (db_drafts d) then None
      else Some (tt, set_drafts (fun t => t ++
        [mkAgreementDraft id creator payload slots status (epoch_bigint now) None false None false
           None None]) d)).

(** Rejected when the draft does not exist or the id or token is taken. *)
Definition insert_invitation_stmt (id draft_id : Uuid) (index_ enc_ nonce_ : bytes)
    (token : string) (expires_at : Z) : Stmt unit :=
  insert_prepared T_party_invitations
    ["draft_id"; "invited_email_index"; "invited_email_enc"; "invited_email_nonce"; "token";
     "expires_at"]
    (fun now d =>
      if exists_row (fun r => uuid_eqb (ad_id r) draft_id) (db_drafts d)
         && negb (exists_row (fun r => uuid_eqb (pi_id r) id || String.eqb (pi_token r) token)
                    (db_invitations d))
      then Some (tt, set_invitations (fun t => t ++
        [mkPartyInvitation id draft_id index_ enc_ nonce_ token "pending" None 0
           (epoch_bigint now) expires_at]) d)
      else None).

Definition email_enc_of (user : Uuid) (d : Db) : option (option bytes) :=
  option_map uc_email_enc
    (fetch_optional (where_ (fun r => uuid_eqb (uc_user_id r) user) (db_contacts d))).

Definition role_matches (role : AgreementListRole) (pubkey : string) (r : AgreementPartyRow)
    : bool :=
  match role with
  | RoleAny => String.eqb (ap_party_pubkey r) pubkey || String.eqb (ap_creator_pubkey r) pubkey
  | RoleCreator => String.eqb (ap_creator_pubkey r) pubkey
  | RoleParty => String.eqb (ap_party_pubkey r) pubkey
  end.

Definition status_matches (status : option string) (r : AgreementPartyRow) : bool :=
  match status with None => true | Some s => String.eqb (ap_status r) s end.

(** [ORDER BY created_at DESC LIMIT $3 OFFSET $4] *)
Definition list_rows (role : AgreementListRole) (pubkey : string) (status : option string)
    (sql_limit sql_offset : Z) (d : Db) : list AgreementPartyRow :=
  take (Z.to_nat sql_limit) (drop (Z.to_nat sql_offset)
    (order_by (fun r => - ap_created_at r)
      (where_ (fun r => role_matches role pubkey r && status_matches status r) (db_parties d)))).

Section Handlers.
Context `{Ext, Env} (cfg : AppState).

Definition hex_to_bytes32 (hex_str : string) : option (bytesN 32) :=
  match hex_decode hex_str with Some b => to_bytesN 32 b | None => None end.

Definition zeros (n : nat) : string := string_of_list_ascii (repeat "0"%char n).

(** The loop over the parties of a create request: slots, invitations and
    whether every party has a wallet. *)
Fixpoint resolve_parties (encryption_key encryption_index_key : bytesN 32)
    (invited_at expires_at : Z) (parties : list PartyInput)
    (slots : list DraftPartyEntry) (invites : list InvitationInsertRow) (all_resolved : bool)
    : M World AppError (list DraftPartyEntry * list InvitationInsertRow * bool) :=
  match parties with
  | [] => ret (slots, invites, all_resolved)
  | PartyPubkey pubkey :: rest =>
      resolve_parties encryption_key encryption_index_key invited_at expires_at rest
        (slots ++ [mkEntry (Some pubkey) None]) invites all_resolved
  | PartyEmail email :: rest =>
      let email_index := hmac_index email encryption_index_key in
      let* resolved_pubkey := internal (sql (query (pubkey_of_email email_index))) in
      match resolved_pubkey with
      | Some pubkey =>
          resolve_parties encryption_key encryption_index_key invited_at expires_at rest
            (slots ++ [mkEntry (Some pubkey) None]) invites all_resolved
      | None =>
          let* invite_id := new_uuid in
          let* token_bytes := fill_random 32 in
          let token := hex_encode token_bytes in
          let* (email_enc, email_nonce) := encrypt email encryption_key in
          resolve_parties encryption_key encryption_index_key invited_at expires_at rest
            (slots ++ [mkEntry None (Some invite_id)])
            (invites ++ [mkInvitationInsert invite_id email_index email_enc email_nonce token
                           (email_hint email) invited_at expires_at])
            false
      end
  end.

Definition insert_invitation (draft_id : Uuid) (i : InvitationInsertRow)
    : M World AppError unit :=
  internal (sql (insert_invitation_stmt (ii_id i) draft_id (ii_email_index i) (ii_email_enc i)
    (ii_email_nonce i) (ii_token i) (ii_expires_at i))).

Definition create_agreement (auth_user : Uuid) (auth_pubkey : string)
    (req : CreateAgreementRequest) : M World AppError CreateAgreementResponse :=
  of_result (validate_invite_window (cfg_invite_expiry_seconds cfg) (cr_expires_in_secs req)) ;;;
  let* encryption_key := of_result (decode_hex_key_32 (cfg_encryption_key cfg)) in
  let* encryption_index_key := of_result (decode_hex_key_32 (cfg_encryption_index_key cfg)) in
  let* free := internal (sql (query (free_used_by auth_user))) in
  let free_used := default 0 free in
  let payment_requirement_is_free := free_used <? i32_wrap (cfg_platform_fee_free_tier cfg) in
  let* invited_at := now_secs in
  let* window := of_result (ok_or (i64_try_from (cfg_invite_expiry_seconds cfg)) InternalError) in
  let expires_at := i64_wrap (invited_at + window) in
  let* (party_slots, invitation_rows, all_parties_resolved) :=
    resolve_parties encryption_key encryption_index_key invited_at expires_at
      (cr_parties req) [] [] true in
  if all_parties_resolved && payment_requirement_is_free then
    let* creator_pubkey := of_result (ok_or (pubkey_from_str auth_pubkey) InternalError) in
    let* agreement_id := new_uuid in
    let agreement_pda := fst (derive_agreement_pda creator_pubkey agreement_id) in
    let content_hash := default (fill 32 x00) (hex_to_bytes32 (zeros 64)) in
    let parties := omap pubkey_from_str (omap de_pubkey party_slots) in
    let args := mkCreateArgs agreement_id (cr_title req) content_hash "ipfs://placeholder"
                  Ipfs parties (i64_wrap (cr_expires_in_secs req)) in
    let* transaction := build_create_agreement_tx args creator_pubkey (vault_keypair cfg) in
    ret (Submitted transaction (pubkey_to_string agreement_pda))
  else
    let draft_payload := mkPayload (cr_title req) (cr_expires_in_secs req) party_slots in
    let* draft_id := new_uuid in
    internal (sql (insert_draft_stmt draft_id auth_pubkey (payload_to_value draft_payload)
      (slots_to_value party_slots) "awaiting_party_wallets")) ;;;
    for_each invitation_rows (insert_invitation draft_id) ;;;
    ret (AwaitingPartyWallets draft_id
           (map (fun i => mkPending (ii_email_hint i) (ii_invited_at i)) invitation_rows)).

(** ** Handlers over an on-chain agreement *)

(** The account check every handler repeats: a discriminator of eight bytes,
    then the borsh form of the state up to the end of the data. *)
Definition decode_agreement (e : AppError) (data : bytes) : result AppError AgreementStateWire :=
  if (length data <? 8)%nat then Err e
  else ok_or (try_from_slice c_agreement (drop 8 data)) e.

Definition load_agreement (e : AppError) (pda : Pubkey) : M World AppError AgreementStateWire :=
  let* account_data := get_account_data e pda in
  of_result (decode_agreement e account_data).

Definition sign_agreement (auth_user : Uuid) (auth_pubkey pda : string)
    (metadata_uri : option string) : M World AppError SignAgreementResponse :=
  let* pda_pubkey := of_result (ok_or (pubkey_from_str pda) InternalError) in
  let* signer_pubkey := of_result (ok_or (pubkey_from_str auth_pubkey) InternalError) in
  let* agreement := load_agreement InternalError pda_pubkey in
  if negb (contains_pubkey_bytes (ag_parties agreement) signer_pubkey) then throw Unauthorized
  else
  let signer_already_signed := contains_pubkey_bytes (ag_signed_by agreement) signer_pubkey in
  if is_final_signature (length (ag_parties agreement)) (length (ag_signed_by agreement))
       signer_already_signed
     && match metadata_uri with None => true | Some _ => false end
  then throw InternalError
  else
  let* transaction := build_sign_agreement_tx (ag_creator agreement) (ag_agreement_id agreement)
    signer_pubkey metadata_uri (ag_vault_funder agreement) in
  let* email_enc := internal (sql (query (email_enc_of auth_user))) in
  let suggest_email := negb (match email_enc with Some (Some _) => true | _ => false end) in
  ret (mkSignResponse transaction suggest_email
    (if suggest_email
     then Some "Add your email to be notified when all parties sign and your credential is ready."
     else None)).

Definition tx_response (transaction pda : string) : json :=
  JObj [("transaction", JStr transaction); ("agreement_pda", JStr pda)].

Definition cancel_agreement (auth_pubkey pda : string) : M World AppError json :=
  let* pda_pubkey := of_result (ok_or (pubkey_from_str pda) InternalError) in
  let* canceller_pubkey := of_result (ok_or (pubkey_from_str auth_pubkey) InternalError) in
  let* agreement := load_agreement InternalError pda_pubkey in
  if negb (bool_decide (canceller_pubkey = ag_creator agreement)) then throw Unauthorized else
  let* transaction := build_cancel_agreement_tx (ag_creator agreement)
    (ag_agreement_id agreement) canceller_pubkey (vault_keypair cfg) in
  ret (tx_response transaction pda).

Definition vote_revoke (auth_pubkey pda : string) : M World AppError json :=
  let* pda_pubkey := of_result (ok_or (pubkey_from_str pda) InternalError) in
  let* voter_pubkey := of_result (ok_or (pubkey_from_str auth_pubkey) InternalError) in
  let* agreement := load_agreement InternalError pda_pubkey in
  if negb (contains_pubkey_bytes (ag_parties agreement) voter_pubkey) then throw Unauthorized else
  let* nft_asset := of_result (ok_or (ag_nft_asset agreement) InternalError) in
  let* transaction := build_vote_revoke_tx (ag_creator agreement) (ag_agreement_id agreement)
    voter_pubkey nft_asset (vault_keypair cfg) in
  ret (tx_response transaction pda).

Definition retract_revoke_vote (auth_pubkey pda : string) : M World AppError json :=
  let* pda_pubkey := of_result (ok_or (pubkey_from_str pda) InternalError) in
  let* voter_pubkey := of_result (ok_or (pubkey_from_str auth_pubkey) InternalError) in
  let* agreement := load_agreement InternalError pda_pubkey in
  if negb (contains_pubkey_bytes (ag_parties agreement) voter_pubkey) then throw Unauthorized else
  let* transaction := build_retract_revoke_vote_tx (ag_creator agreement)
    (ag_agreement_id agreement) voter_pubkey (vault_keypair cfg) in
  ret (tx_response transaction pda).

Definition get_agreement (pda : string) : M World AppError GetAgreementResponse :=
  let* pda_pubkey := of_result (ok_or (pubkey_from_str pda) InternalError) in
  let* agreement := load_agreement NotFound pda_pubkey in
  ret (mkGetAgreement (pubkey_to_string (ag_creator agreement))
    (uuid_to_string (ag_agreement_id agreement)) (ag_title agreement)
    (ag_storage_uri agreement) (storage_backend_to_string (ag_storage_backend agreement))
    (agreement_status_to_string (ag_status agreement)) (ag_created_at agreement)
    (ag_expires_at agreement) (map pubkey_to_string (ag_parties agreement))
    (map pubkey_to_string (ag_signed_by agreement))).

Definition list_agreements (auth_pubkey : option string) (q : ListAgreementsQuery)
    : M World AppError ListAgreementsResponse :=
  let '(page, limit, sql_limit, sql_offset) := sanitize_pagination (lq_page q) (lq_limit q) in
  match auth_pubkey with
  | None => ret (mkListResponse page limit [])
  | Some pubkey =>
      let* rows := internal (sql (query (list_rows (parse_role (lq_role q)) pubkey
                     (status_filter (lq_status q)) sql_limit sql_offset))) in
      ret (mkListResponse page limit rows)
  end.
End Handlers.

(** ** Lists and pages *)

(** Paging is bounded.  Whatever the query asks, a page holds between one
    and a hundred rows, only rows of the caller (in the asked role and status)
    are returned, and for pages whose offset fits 32 bits the offset is
    [(page - 1) * limit]. *)
Theorem list_agreements_sound `{Env} (pubkey : string) (q : ListAgreementsQuery)
    (w w' : World) (r : ListAgreementsResponse) :
  list_agreements (Some pubkey) q w = (Ok r, w') ->
  1 <= lr_page r /\ 1 <= lr_limit r <= 100 /\
  Z.of_nat (length (lr_items r)) <= lr_limit r /\
  (forall x, x ∈ lr_items r -> x ∈ db_parties (w_db w) /\
     role_matches (parse_role (lq_role q)) pubkey x = true /\
     status_matches (status_filter (lq_status q)) x = true) /\
  ((lr_page r - 1) * lr_limit r < 4294967296 ->
   lr_items r = list_rows (parse_role (lq_role q)) pubkey (status_filter (lq_status q))
                  (lr_limit r) ((lr_page r - 1) * lr_limit r) (w_db w)) /\
  w_db w' = w_db w.
Proof.
  unfold list_agreements, internal. destruct (sanitize_pagination _ _) as [[[pg lm] sl] so] eqn:E.
  intros Hr. world_inv. subst. cbn [lr_page lr_limit lr_items].
  unfold sanitize_pagination in E. injection E as <- <- <- <-.
  set (page := Z.max (default 1 (lq_page q)) 1).
  set (limit := Z.min (Z.max (default 20 (lq_limit q)) 1) 100).
  assert (Hl : 1 <= limit <= 100) by (unfold limit; lia).
  assert (Hp : 1 <= page) by (unfold page; lia).
  split; [done|]. split; [done|]. split; [|split; [|split; [|done]]].
  - unfold list_rows. rewrite length_take. lia.
  - intros x Hx. apply subseteq_take, subseteq_drop, order_by_elem, elem_of_where in Hx as [Hx Hm].
    apply andb_true_iff in Hm. tauto.
  - intros Hlt. unfold u32_sat_mul, u_sat_sub.
    rewrite (Z.max_r 0 (page - 1)), Z.min_r by lia. done.
Qed.

Definition query_demo : ListAgreementsQuery := mkListQuery None (Some "Party") (Some 0) (Some 500).
Definition db_list : Db :=
  set_parties (fun _ => [mkAgreementParty "bob" "a1" "alice" "PendingSignatures" None 5 9 "t";
                         mkAgreementParty "carol" "a2" "bob" "PendingSignatures" None 6 9 "t"])
    db_empty.

Lemma list_agreements_sound_witness :
  exists r w', @list_agreements env_demo (Some "bob") query_demo (world_demo db_list)
    = (Ok r, w') /\ length (lr_items r) = 1%nat /\ lr_limit r <= 100.
Proof.
  destruct (@list_agreements env_demo (Some "bob") query_demo (world_demo db_list))
    as [[r|e] w'] eqn:E; [|vm_compute in E; discriminate E].
  exists r, w'. split; [reflexivity|]. split.
  - vm_compute in E. injection E as <- <-. reflexivity.
  - apply (@list_agreements_sound env_demo "bob" query_demo (world_demo db_list) w' r E).
Defined.

(** ** Reading the on-chain account *)

Section Account.
Context `{Ext, Env} (cfg : AppState).

Lemma decode_exact e d8 a :
  length d8 = 8%nat -> agreement_encodable a ->
  decode_agreement e (d8 ++ enc c_agreement a) = Ok a.
Proof.
  intros Hl Ha. unfold decode_agreement. rewrite length_app, Hl.
  destruct (Nat.ltb_spec (8 + length (enc c_agreement a)) 8) as [|_]; [lia|].
  rewrite <-Hl, drop_app_length, try_from_slice_enc by by apply c_agreement_valid. done.
Qed.

Lemma decode_padded e d8 a b rest :
  length d8 = 8%nat -> agreement_encodable a ->
  decode_agreement e (d8 ++ enc c_agreement a ++ b :: rest) = Err e.
Proof.
  intros Hl Ha. unfold decode_agreement. rewrite length_app, Hl.
  destruct (Nat.ltb_spec (8 + length (enc c_agreement a ++ b :: rest)) 8) as [|_]; [lia|].
  rewrite <-Hl, drop_app_length, try_from_slice_trailing by by apply c_agreement_valid. done.
Qed.

Lemma load_run e pda w data :
  rpc_account (w_tick w) pda = Some data ->
  load_agreement e pda w = (decode_agreement e data, tick w).
Proof.
  intros Hd. unfold load_agreement, bind, get_account_data, of_result. by rewrite Hd.
Qed.

(** An agreement account is read exactly.  When the account holds a
    discriminator and the borsh form of a state and nothing else,
    [get_agreement] answers with that state's fields and changes nothing. *)
Theorem get_agreement_reads (pda : string) (k : Pubkey) (d8 : bytes) (a : AgreementStateWire)
    (w : World) :
  pubkey_from_str pda = Some k -> length d8 = 8%nat -> agreement_encodable a ->
  rpc_account (w_tick w) k = Some (d8 ++ enc c_agreement a) ->
  get_agreement pda w =
    (Ok (mkGetAgreement (pubkey_to_string (ag_creator a)) (uuid_to_string (ag_agreement_id a))
           (ag_title a) (ag_storage_uri a) (storage_backend_to_string (ag_storage_backend a))
           (agreement_status_to_string (ag_status a)) (ag_created_at a) (ag_expires_at a)
           (map pubkey_to_string (ag_parties a)) (map pubkey_to_string (ag_signed_by a))),
     tick w).
Proof.
  intros Hk Hl Ha Hd. unfold get_agreement. rewrite Hk. cbn [ok_or].
  erewrite bind_step by reflexivity.
  erewrite bind_step; [reflexivity|]. erewrite load_run by exact Hd. by rewrite decode_exact.
Qed.

(** An account with room after its state is never readable.  An account
    that is larger than the state it holds (a fixed allocation zero-padded at
    the end, as the size constant of the rent computation suggests) makes
    every handler fail: reading answers not-found, and signing, cancelling,
    voting and retracting answer an internal error, for every caller. *)
Theorem padded_account_unreadable (pda auth : string) (user : Uuid) (uri : option string)
    (k signer : Pubkey) (d8 : bytes) (a : AgreementStateWire) (b : byte) (rest : bytes)
    (w : World) :
  pubkey_from_str pda = Some k -> pubkey_from_str auth = Some signer ->
  length d8 = 8%nat -> agreement_encodable a ->
  rpc_account (w_tick w) k = Some (d8 ++ enc c_agreement a ++ b :: rest) ->
  get_agreement pda w = (Err NotFound, tick w) /\
  sign_agreement user auth pda uri w = (Err InternalError, tick w) /\
  cancel_agreement cfg auth pda w = (Err InternalError, tick w) /\
  vote_revoke cfg auth pda w = (Err InternalError, tick w) /\
  retract_revoke_vote cfg auth pda w = (Err InternalError, tick w).
Proof.
  intros Hk Hs Hl Ha Hd.
  assert (Hload : forall e, load_agreement e k w = (Err e, tick w)).
  { intros e. erewrite load_run by exact Hd. by rewrite decode_padded. }
  unfold get_agreement, sign_agreement, cancel_agreement, vote_revoke, retract_revoke_vote.
  rewrite Hk, Hs. cbn [ok_or].
  repeat split; (erewrite bind_step by reflexivity); try (erewrite bind_step by reflexivity);
    erewrite bind_fail by apply Hload; done.
Qed.

(** ** Authorization *)

Lemma contains_spec l k : contains_pubkey_bytes l k = true <-> k ∈ l.
Proof.
  unfold contains_pubkey_bytes. rewrite List.existsb_exists. setoid_rewrite <-list_elem_of_In.
  split.
  - intros (x & Hx & E%bool_decide_eq_true_1). by subst.
  - intros Hk. exists k. split; [done|]. by apply bool_decide_eq_true_2.
Qed.

(** The four handlers that hand out a transaction for an agreement. *)
Inductive AgreementAction : Type :=
| ActSign (user : Uuid) (metadata_uri : option string) | ActCancel | ActVote | ActRetract.

Definition run_action (act : AgreementAction) (auth pda : string) (w : World) : bool * World :=
  match act with
  | ActSign user uri => let '(r, w') := sign_agreement user auth pda uri w in (is_ok r, w')
  | ActCancel => let '(r, w') := cancel_agreement cfg auth pda w in (is_ok r, w')
  | ActVote => let '(r, w') := vote_revoke cfg auth pda w in (is_ok r, w')
  | ActRetract => let '(r, w') := retract_revoke_vote cfg auth pda w in (is_ok r, w')
  end.

(** What each action demands of the caller. *)
Definition may_act (act : AgreementAction) (caller : Pubkey) (a : AgreementStateWire) : Prop :=
  match act with
  | ActSign _ uri => caller ∈ ag_parties a /\
      (length (ag_parties a) = S (length (ag_signed_by a)) -> caller ∉ ag_signed_by a ->
       uri <> None)
  | ActCancel => caller = ag_creator a
  | ActVote => caller ∈ ag_parties a /\ ag_nft_asset a <> None
  | ActRetract => caller ∈ ag_parties a
  end.

Lemma load_Ok e k w a w' :
  load_agreement e k w = (Ok a, w') ->
  exists data, rpc_account (w_tick w) k = Some data /\ (8 <= length data)%nat /\
    try_from_slice c_agreement (drop 8 data) = Some a /\ w' = tick w.
Proof.
  unfold load_agreement. intros Hl. run_inv. unfold get_account_data in Hs.
  injection Hs as Hd <-. apply ok_or_Ok in Hd. subst.
  match goal with Hx : decode_agreement _ _ = _ |- _ => rename Hx into Hdec end.
  unfold decode_agreement in Hdec.
  destruct (Nat.ltb_spec (length a0) 8); [discriminate|].
  apply ok_or_Ok in Hdec. eauto.
Qed.

(** C11: agreement transactions are only built for who may act.  When signing,
    cancelling, voting or retracting succeeds, the account at the address
    decoded to an agreement whose parties (or creator, for a cancellation)
    include the caller's key, a final signature came with a metadata URI, a
    vote found a minted credential, and no table changed. *)
Theorem agreement_actions_authorized (act : AgreementAction) (auth pda : string)
    (w w' : World) :
  run_action act auth pda w = (true, w') ->
  exists k caller data a, pubkey_from_str pda = Some k /\ pubkey_from_str auth = Some caller /\
    rpc_account (w_tick w) k = Some data /\
    try_from_slice c_agreement (drop 8 data) = Some a /\
    may_act act caller a /\ w_db w' = w_db w /\ w_effects w' = w_effects w.
Proof.
  destruct act as [user uri| | |]; cbn [run_action may_act].
  - destruct (sign_agreement user auth pda uri w) as [[r|e] w2] eqn:Er; [|discriminate].
    intros [= ->]. unfold sign_agreement, internal in Er. world_inv.
    match goal with Hl : load_agreement _ _ _ = _ |- _ =>
      apply load_Ok in Hl as (data & Hd & Hlen & Ha & ->) end.
    destruct (contains_pubkey_bytes _ _) eqn:Ec in Er; cbn [negb] in Er; [|discriminate].
    destruct (is_final_signature _ _ _ && _) eqn:Ef in Er; [discriminate|]. world_inv.
    match goal with Hb : build_sign_agreement_tx _ _ _ _ _ _ = _ |- _ => rename Hb into Hbuild end.
    apply (built_frame (RqSign _ _ _ _)) in Hbuild as (t & ix & _ & _ & Hdb & Heff).
    subst. do 4 eexists. repeat (split; [eassumption|]). split; [|split; [exact Hdb | exact Heff]].
    split; [by apply contains_spec|]. intros Hlen' Hns ->.
    rewrite andb_true_r in Ef. unfold is_final_signature in Ef.
    apply andb_false_iff in Ef as [Ef|Ef].
    + apply Nat.eqb_neq in Ef. lia.
    + apply negb_false_iff, contains_spec in Ef. done.
  - destruct (cancel_agreement cfg auth pda w) as [[r|e] w2] eqn:Er; [|discriminate].
    intros [= ->]. unfold cancel_agreement in Er. run_inv.
    match goal with Hl : load_agreement _ _ _ = _ |- _ =>
      apply load_Ok in Hl as (data & Hd & Hlen & Ha & ->) end.
    case_bool_decide as Ec; cbn [negb] in Er; [|discriminate]. run_inv.
    match goal with Hb : build_cancel_agreement_tx _ _ _ _ _ = _ |- _ => rename Hb into Hbuild end.
    apply (built_frame (RqCancel _ _ _)) in Hbuild as (t & ix & _ & _ & Hdb & Heff).
    subst. do 4 eexists. repeat (split; [eassumption|]). done.
  - destruct (vote_revoke cfg auth pda w) as [[r|e] w2] eqn:Er; [|discriminate].
    intros [= ->]. unfold vote_revoke in Er. run_inv.
    match goal with Hl : load_agreement _ _ _ = _ |- _ =>
      apply load_Ok in Hl as (data & Hd & Hlen & Ha & ->) end.
    destruct (contains_pubkey_bytes _ _) eqn:Ec in Er; cbn [negb] in Er; [|discriminate]. run_inv.
    match goal with Hb : build_vote_revoke_tx _ _ _ _ _ _ = _ |- _ => rename Hb into Hbuild end.
    apply (built_frame (RqVote _ _ _ _)) in Hbuild as (t & ix & _ & _ & Hdb & Heff).
    subst. do 4 eexists. repeat (split; [eassumption|]). split; [|done].
    split; [by apply contains_spec | congruence].
  - destruct (retract_revoke_vote cfg auth pda w) as [[r|e] w2] eqn:Er; [|discriminate].
    intros [= ->]. unfold retract_revoke_vote in Er. run_inv.
    match goal with Hl : load_agreement _ _ _ = _ |- _ =>
      apply load_Ok in Hl as (data & Hd & Hlen & Ha & ->) end.
    destruct (contains_pubkey_bytes _ _) eqn:Ec in Er; cbn [negb] in Er; [|discriminate]. run_inv.
    match goal with Hb : build_retract_revoke_vote_tx _ _ _ _ _ = _ |- _ => rename Hb into Hbuild end.
    apply (built_frame (RqRetract _ _ _)) in Hbuild as (t & ix & _ & _ & Hdb & Heff).
    subst. do 4 eexists. repeat (split; [eassumption|]). split; [|done].
    by apply contains_spec.
Qed.
End Account.

(** *** Witnesses *)

Definition state_demo : AgreementStateWire :=
  mkAgreementState (key x0c) (uid x03) (fill 32 x0f) "Lease" "ipfs://cid" Ipfs
    [key x0c; key x0d] [key x0c] [900] PendingSignatures 800 90000 None None None
    (key x0e) (key x01) [] [] xfe.

Definition disc_demo : bytes := byte_list [1; 2; 3; 4; 5; 6; 7; 8]%nat.
Definition carol : string := hex_demo (bn_bytes (key x0d)).
Definition pda_demo : string := hex_demo (bn_bytes (key x0f)).

Lemma state_demo_encodable : @agreement_encodable borsh_demo state_demo.
Proof.
  split; cbn; try lia; try done.
  - split; [split; [cbn; lia | by apply Forall_true] | reflexivity].
  - split; [split; [cbn; lia | by apply Forall_true] | reflexivity].
  - repeat constructor; unfold in_i64; cbn; lia.
Qed.

Lemma get_agreement_reads_witness :
  exists r, @get_agreement ext_demo
      (env_account (Some (disc_demo ++ enc (@c_agreement borsh_demo) state_demo)))
      pda_demo (world_demo db_empty) = (Ok r, tick (world_demo db_empty)) /\
    ga_title r = "Lease".
Proof.
  eexists. split.
  - apply (@get_agreement_reads ext_demo
      (env_account (Some (disc_demo ++ enc (@c_agreement borsh_demo) state_demo)))
      pda_demo (key x0f) disc_demo state_demo (world_demo db_empty)).
    + vm_compute. reflexivity.
    + reflexivity.
    + exact state_demo_encodable.
    + reflexivity.
  - reflexivity.
Defined.

Lemma padded_account_unreadable_witness :
  @get_agreement ext_demo
      (env_account (Some (disc_demo ++ enc (@c_agreement borsh_demo) state_demo ++ [x00])))
      pda_demo (world_demo db_empty) = (Err NotFound, tick (world_demo db_empty)).
Proof.
  apply (@padded_account_unreadable ext_demo
    (env_account (Some (disc_demo ++ enc (@c_agreement borsh_demo) state_demo ++ [x00])))
    config_demo pda_demo carol (uid x01) None (key x0f) (key x0d) disc_demo state_demo x00 []
    (world_demo db_empty)).
  - vm_compute. reflexivity.
  - vm_compute. reflexivity.
  - reflexivity.
  - exact state_demo_encodable.
  - reflexivity.
Defined.

Lemma agreement_actions_authorized_witness :
  exists w', @run_action ext_demo
      (env_account (Some (disc_demo ++ enc (@c_agreement borsh_demo) state_demo)))
      config_demo (ActSign (uid x01) (Some "uri")) carol pda_demo (world_demo db_empty)
    = (true, w') /\ w_db w' = db_empty.
Proof.
  destruct (@run_action ext_demo
      (env_account (Some (disc_demo ++ enc (@c_agreement borsh_demo) state_demo)))
      config_demo (ActSign (uid x01) (Some "uri")) carol pda_demo (world_demo db_empty))
    as [[] w'] eqn:E; [|vm_compute in E; discriminate E].
  exists w'. split; [reflexivity|].
  destruct (@agreement_actions_authorized ext_demo
      (env_account (Some (disc_demo ++ enc (@c_agreement borsh_demo) state_demo)))
      config_demo (ActSign (uid x01) (Some "uri")) carol pda_demo (world_demo db_empty) w' E)
    as (? & ? & ? & ? & _ & _ & _ & _ & _ & Hdb & _).
  exact Hdb.
Defined.

(** ** Creation *)

Section Create.
Context `{Ext, Env} (cfg : AppState).

(** The slots and invitations a run of the loop has built belong together:
    the slots without a wallet carry the ids of the invitations, in order. *)
Definition slots_match (slots : list DraftPartyEntry) (invites : list InvitationInsertRow) : Prop :=
  omap de_invite_id slots = map ii_id invites /\
  Forall (fun s => de_pubkey s = None <-> de_invite_id s <> None) slots.

Definition all_known (slots : list DraftPartyEntry) : bool :=
  List.forallb (fun s => match de_pubkey s with Some _ => true | None => false end) slots.

Lemma slots_match_known slots invites pk :
  slots_match slots invites -> slots_match (slots ++ [mkEntry (Some pk) None]) invites.
Proof.
  intros [Ho Hf]. split.
  - rewrite omap_app. cbn. by rewrite app_nil_r.
  - apply Forall_app. split; [done|]. apply Forall_singleton. cbn. naive_solver.
Qed.

Lemma slots_match_invited slots invites i :
  slots_match slots invites ->
  slots_match (slots ++ [mkEntry None (Some (ii_id i))]) (invites ++ [i]).
Proof.
  intros [Ho Hf]. split.
  - rewrite omap_app, map_app, Ho. done.
  - apply Forall_app. split; [done|]. apply Forall_singleton. cbn. naive_solver.
Qed.

(** What the tables know of a party, and the address of one they do not know. *)
Definition known_key (ik : bytesN 32) (d : Db) (p : PartyInput) : option string :=
  match p with
  | PartyPubkey pubkey => Some pubkey
  | PartyEmail email => pubkey_of_email (hmac_index email ik) d
  end.
Definition unknown_email (ik : bytesN 32) (d : Db) (p : PartyInput) : option string :=
  match p with
  | PartyPubkey _ => None
  | PartyEmail email =>
      match pubkey_of_email (hmac_index email ik) d with Some _ => None | None => Some email end
  end.

Lemma unknown_iff ik d ps :
  omap (unknown_email ik d) ps = [] <-> Forall (fun k => is_Some k) (map (known_key ik d) ps).
Proof.
  induction ps as [|[pk|email] ps IH]; cbn; [by split|..].
  - rewrite IH, Forall_cons. split; [intros Hf; split; [by eexists | exact Hf] | by intros [_ Hf]].
  - rewrite Forall_cons. destruct (pubkey_of_email _ _) as [pk|]; cbn.
    { rewrite IH. split; [intros Hf; split; [by eexists | exact Hf] | by intros [_ Hf]]. }
    split; [discriminate|]. by intros [[? ?] _].
Qed.

(** An invitation to be stored for an address. *)
Definition invites_email (ek ik : bytesN 32) (email : string) (i : InvitationInsertRow) : Prop :=
  ii_email_index i = hmac_index email ik /\ ii_email_hint i = email_hint email /\
  exists w1 w2 : World, encrypt email ek w1 = (Ok (ii_email_enc i, ii_email_nonce i), w2).

Lemma resolve_parties_spec ek ik at_ ex parties : forall slots invites b w slots' invites' b' w',
  resolve_parties ek ik at_ ex parties slots invites b w = (Ok (slots', invites', b'), w') ->
  slots_match slots invites -> b = all_known slots ->
  slots_match slots' invites' /\ b' = all_known slots' /\ w_db w' = w_db w /\
  map de_pubkey slots' = map de_pubkey slots ++ map (known_key ik (w_db w)) parties /\
  exists new, invites' = invites ++ new /\
    Forall2 (invites_email ek ik) (omap (unknown_email ik (w_db w)) parties) new.
Proof.
  assert (Hknown : forall slots pk, map de_pubkey (slots ++ [mkEntry (Some pk) None]) =
    map de_pubkey slots ++ [Some pk]) by (intros; by rewrite map_app).
  assert (Hall : forall slots pk, all_known (slots ++ [mkEntry (Some pk) None]) = all_known slots)
    by (intros; unfold all_known; rewrite List.forallb_app; cbn; by rewrite andb_true_r).
  induction parties as [|[pk|email] parties IH]; intros slots invites b w slots' invites' b' w';
    cbn [resolve_parties].
  - intros [= <- <- <- <-]. rewrite app_nil_r. intros Hm Hb. do 4 (split; [done|]).
    exists []. by rewrite app_nil_r.
  - intros Hr Hm Hb. apply IH in Hr as (? & ? & ? & Hk & Hn); [|by apply slots_match_known | by rewrite Hall].
    rewrite Hknown, <-app_assoc in Hk. by repeat (split; [done|]).
  - unfold internal. intros Hr Hm Hb. world_inv. subst. cbn [map omap list_omap known_key unknown_email].
    destruct (pubkey_of_email _ _) as [pk|] in Hr |- *; cbn in Hr.
    + apply IH in Hr as (? & ? & ? & Hk & Hn); [|by apply slots_match_known | by rewrite Hall].
      rewrite Hknown, <-app_assoc in Hk. by repeat (split; [done|]).
    + apply bind_Ok in Hr as ([ct nonce] & w1 & He & Hr).
      pose proof (encrypt_frame _ _ _ _ _ He) as [Hd _]. cbn [w_db tick] in Hd.
      apply IH in Hr as (? & ? & Hd' & Hk & new & -> & Hn).
      * rewrite Hd in *. rewrite map_app, <-app_assoc in Hk. do 4 (split; [done|]).
        rewrite <-app_assoc. eexists. split; [reflexivity|]. constructor; [|exact Hn].
        split; [done|]. split; [done|]. by eexists _, _.
      * by apply (slots_match_invited slots invites (mkInvitationInsert _ _ _ _ _ _ _ _)).
      * unfold all_known. rewrite List.forallb_app. cbn. by rewrite !andb_false_r.
Qed.

Lemma all_known_keys slots :
  all_known slots = true <-> Forall (fun k => is_Some k) (map de_pubkey slots).
Proof.
  unfold all_known. rewrite List.forallb_forall, Forall_forall. split.
  - intros Ha k (s & -> & Hs)%list_elem_of_fmap. apply list_elem_of_In in Hs. specialize (Ha s Hs).
    by destruct (de_pubkey s).
  - intros Ha s Hs. destruct (Ha (de_pubkey s)) as [k ->]; [|done].
    by apply list_elem_of_fmap_2, list_elem_of_In.
Qed.

(** The rows of the invitations a request inserts. *)
Definition invited (draft_id : Uuid) (invites : list InvitationInsertRow)
    (rows : list PartyInvitationRow) : Prop :=
  Forall2 (fun i r => pi_id r = ii_id i /\ pi_token r = ii_token i /\ pi_draft_id r = draft_id /\
    pi_status r = "pending" /\ pi_expires_at r = ii_expires_at i /\
    pi_email_index r = ii_email_index i /\ pi_email_enc r = ii_email_enc i /\
    pi_email_nonce r = ii_email_nonce i) invites rows.

Lemma insert_invitations_spec draft_id invites : forall w w',
  for_each invites (insert_invitation draft_id) w = (Ok tt, w') ->
  exists rows, invited draft_id invites rows /\
    w_db w' = set_invitations (fun t => t ++ rows) (w_db w).
Proof.
  induction invites as [|i invites IH]; intros w w'; cbn [for_each].
  - intros [= <-]. exists []. split; [constructor|]. unfold set_invitations.
    rewrite app_nil_r. by destruct (w_db w).
  - unfold insert_invitation at 1, internal. intros Hr. run_inv.
    apply sql_Ok in Hs as (d & Hs & ->). unfold insert_invitation_stmt in Hs.
    rewrite insert_prepared_ok in Hs by reflexivity.
    destruct (_ && _); [|discriminate]. injection Hs as _ <-.
    apply IH in Hr as (rows & Hf & Hdb). eexists (_ :: rows). split; [constructor; [|exact Hf]|].
    2:{ rewrite Hdb. unfold set_invitations; cbn. by rewrite <-app_assoc. }
    cbn. by repeat split.
Qed.

(** A pending invitation of a draft for an address. *)
Definition invitation_for (ek ik : bytesN 32) (draft_id : Uuid) (email : string)
    (r : PartyInvitationRow) : Prop :=
  pi_draft_id r = draft_id /\ pi_status r = "pending" /\ pi_email_index r = hmac_index email ik /\
  exists w1 w2 : World, encrypt email ek w1 = (Ok (pi_email_enc r, pi_email_nonce r), w2).

Lemma invited_for ek ik draft_id emails invites rows :
  Forall2 (invites_email ek ik) emails invites -> invited draft_id invites rows ->
  Forall2 (invitation_for ek ik draft_id) emails rows /\ map pi_id rows = map ii_id invites /\
  map ii_email_hint invites = map email_hint emails.
Proof.
  intros He. revert rows. induction He as [|e i emails invites (Hi & Hh & w1 & w2 & Henc) He IH];
    intros rows Hr; inversion Hr as [|? r ? rows' (Hid & _ & Hd & Hs & _ & Hx & Hc & Hn) Hr']; subst;
    [by split; [constructor|]|].
  destruct (IH _ Hr') as (Hf & Hids & Hhs). cbn. rewrite Hids, Hhs, Hid, Hh. split; [|done].
  constructor; [|done]. split; [done|]. split; [done|]. split; [congruence|].
  exists w1, w2. by rewrite Hc, Hn.
Qed.

Lemma create_agreement_run (user : Uuid) (pubkey : string) (req : CreateAgreementRequest)
    (w w' : World) (resp : CreateAgreementResponse) :
  create_agreement cfg user pubkey req w = (Ok resp, w') ->
  cfg_invite_expiry_seconds cfg < cr_expires_in_secs req /\
  exists ek ik, decode_hex_key_32 (cfg_encryption_key cfg) = Ok ek /\
    decode_hex_key_32 (cfg_encryption_index_key cfg) = Ok ik /\
    let keys := map (known_key ik (w_db w)) (cr_parties req) in
    let unknown := omap (unknown_email ik (w_db w)) (cr_parties req) in
    let is_free := default 0 (free_used_by user (w_db w)) < i32_wrap (cfg_platform_fee_free_tier cfg) in
    match resp with
    | Submitted transaction agreement_pda =>
        w_db w' = w_db w /\ is_free /\ Forall (fun k => is_Some k) keys /\ unknown = [] /\
        exists creator t ix args, pubkey_from_str pubkey = Some creator /\
          tx_encode t = Some transaction /\ tx_instructions t = [ix] /\
          ix_data ix = CREATE_AGREEMENT_DISCRIMINATOR ++ enc c_create_args args /\
          ca_title args = cr_title req /\ ca_parties args = omap pubkey_from_str (omap id keys) /\
          agreement_pda = pubkey_to_string (fst (derive_agreement_pda creator (ca_agreement_id args)))
    | AwaitingPartyWallets draft_id pending =>
        ~ (is_free /\ Forall (fun k => is_Some k) keys) /\
        exists slots created rows,
          map de_pubkey slots = keys /\
          Forall (fun s => de_pubkey s = None <-> de_invite_id s <> None) slots /\
          w_db w' = set_invitations (fun t => t ++ rows) (set_drafts (fun t => t ++
            [mkAgreementDraft draft_id pubkey
               (payload_to_value (mkPayload (cr_title req) (cr_expires_in_secs req) slots))
               (slots_to_value slots) "awaiting_party_wallets" created None false None false
               None None]) (w_db w)) /\
          map pi_id rows = omap de_invite_id slots /\
          Forall2 (invitation_for ek ik draft_id) unknown rows /\
          map pv_email_hint pending = map email_hint unknown
    end.
Proof.
  unfold create_agreement, internal. intros Hr. run_inv.
  match goal with Hv : validate_invite_window _ _ = _ |- _ =>
    unfold validate_invite_window in Hv;
    destruct (Z.leb_spec (cr_expires_in_secs req) (cfg_invite_expiry_seconds cfg));
      [discriminate Hv|] end.
  split; [lia|]. world_inv. subst.
  match goal with Hx : resolve_parties _ _ _ _ _ _ _ _ _ = (Ok ?a, _) |- _ =>
    destruct a as [[slots invites] known]; rename Hx into Hres end.
  do 2 eexists. split; [eassumption|]. split; [eassumption|]. cbv zeta.
  apply resolve_parties_spec in Hres as ([Hids Hopt] & Hk & Hdb1 & Hkeys & new & Hnew & Hinv);
    [| split; [done | constructor] | done].
  cbn [map app w_db tick] in Hdb1, Hkeys, Hnew, Hinv. subst invites.
  assert (Hall : known = true <-> Forall (fun k => is_Some k)
    (map (known_key _ (w_db w)) (cr_parties req))) by (rewrite Hk, all_known_keys, Hkeys; done).
  destruct (known && _) eqn:Eb in Hr.
  - apply andb_true_iff in Eb as [Eknown Hlt]. world_inv. subst.
    match goal with Hb : build_create_agreement_tx _ _ _ _ = _ |- _ =>
      apply (built_frame (RqCreate _ _)) in Hb as (t & ix & Ht & [Hix _ _ _ _ Hdata] & Hdb & _) end.
    apply Z.ltb_lt in Hlt. split; [rewrite Hdb; exact Hdb1|]. split; [exact Hlt|].
    apply Hall in Eknown. split; [done|]. split; [by apply unknown_iff|].
    do 4 eexists. split; [eassumption|]. split; [exact Ht|]. split; [exact Hix|].
    split; [exact Hdata|]. split; [done|]. split; [|done]. cbn. rewrite <-Hkeys.
    f_equal. clear. induction slots as [|x slots IH]; [done|]. cbn. by rewrite IH.
  - world_inv. subst.
    match goal with Hi : sql (insert_draft_stmt _ _ _ _ _) _ = _ |- _ =>
      apply sql_Ok in Hi as (d & Hi & ->); unfold insert_draft_stmt in Hi;
      rewrite insert_prepared_ok in Hi by reflexivity;
      destruct (exists_row _ _) in Hi; [discriminate|]; injection Hi as _ <- end.
    match goal with Hf : for_each _ _ _ = (Ok ?u, _) |- _ =>
      destruct u; apply insert_invitations_spec in Hf as (rows & Hrows & Hdb2) end.
    destruct (invited_for _ _ _ _ _ _ Hinv Hrows) as (Hfor & Hrids & Hhints).
    split.
    { intros [Hlt%Z.ltb_lt Hks%Hall]. rewrite Hks in Eb. cbn in Eb. congruence. }
    eexists slots, _, rows. split; [exact Hkeys|]. split; [exact Hopt|].
    split; [rewrite Hdb2; cbn; rewrite Hdb1; reflexivity|].
    split; [by rewrite Hids|]. split; [exact Hfor|].
    rewrite map_map. exact Hhints.
Qed.

(** C24: what creating an agreement stores.  A transaction is returned only when
    every party has a known wallet and the creator has free submissions left;
    then no table changes, and the instruction creates the agreement for the
    parties' keys in their order.  Otherwise, and only when a wallet is unknown
    or nothing is free, exactly one draft is added, awaiting wallets and
    unpaid, whose slots hold the known keys of the parties in their order,
    together with exactly one pending invitation of that draft for each address
    without a wallet, in order, which its slot names and which holds the
    address encrypted and indexed. *)
Theorem create_agreement_stores (user : Uuid) (pubkey : string) (req : CreateAgreementRequest)
    (w w' : World) (resp : CreateAgreementResponse) :
  create_agreement cfg user pubkey req w = (Ok resp, w') ->
  cfg_invite_expiry_seconds cfg < cr_expires_in_secs req /\
  exists ek ik, decode_hex_key_32 (cfg_encryption_key cfg) = Ok ek /\
    decode_hex_key_32 (cfg_encryption_index_key cfg) = Ok ik /\
    let keys := map (known_key ik (w_db w)) (cr_parties req) in
    let unknown := omap (unknown_email ik (w_db w)) (cr_parties req) in
    let is_free := default 0 (free_used_by user (w_db w)) < i32_wrap (cfg_platform_fee_free_tier cfg) in
    match resp with
    | Submitted transaction agreement_pda =>
        w_db w' = w_db w /\ is_free /\ Forall (fun k => is_Some k) keys /\ unknown = [] /\
        exists creator t ix args, pubkey_from_str pubkey = Some creator /\
          tx_encode t = Some transaction /\ tx_instructions t = [ix] /\
          ix_data ix = CREATE_AGREEMENT_DISCRIMINATOR ++ enc c_create_args args /\
          ca_title args = cr_title req /\ ca_parties args = omap pubkey_from_str (omap id keys) /\
          agreement_pda = pubkey_to_string (fst (derive_agreement_pda creator (ca_agreement_id args)))
    | AwaitingPartyWallets draft_id pending =>
        ~ (is_free /\ Forall (fun k => is_Some k) keys) /\
        exists slots created rows,
          map de_pubkey slots = keys /\
          Forall (fun s => de_pubkey s = None <-> de_invite_id s <> None) slots /\
          w_db w' = set_invitations (fun t => t ++ rows) (set_drafts (fun t => t ++
            [mkAgreementDraft draft_id pubkey
               (payload_to_value (mkPayload (cr_title req) (cr_expires_in_secs req) slots))
               (slots_to_value slots) "awaiting_party_wallets" created None false None false
               None None]) (w_db w)) /\
          map pi_id rows = omap de_invite_id slots /\
          Forall2 (invitation_for ek ik draft_id) unknown rows /\
          map pv_email_hint pending = map email_hint unknown
    end.
Proof. apply create_agreement_run. Qed.
End Create.

Definition request_demo : CreateAgreementRequest :=
  mkCreateRequest "Lease" [PartyPubkey "alice"; PartyEmail "bob@example.com"] 1209600.

Definition config_hex : AppState :=
  app_demo (hex_demo (repeat x01 32)) (hex_demo (repeat x02 32))
    (cfg_vault_min_sol_circuit_breaker config_demo) 0.

Lemma create_agreement_stores_witness :
  exists draft pending w', @create_agreement ext_demo env_demo config_hex (uid x01) "alice"
      request_demo (world_demo db_empty) = (Ok (AwaitingPartyWallets draft pending), w') /\
    length pending = 1%nat /\ cfg_invite_expiry_seconds config_hex < cr_expires_in_secs request_demo.
Proof.
  destruct (@create_agreement ext_demo env_demo config_hex (uid x01) "alice"
      request_demo (world_demo db_empty)) as [[[t p|draft pending]|e] w'] eqn:E;
    try (vm_compute in E; discriminate E).
  exists draft, pending, w'. split; [reflexivity|]. split.
  - vm_compute in E. injection E as _ <- _. reflexivity.
  - apply (@create_agreement_stores ext_demo env_demo config_hex (uid x01) "alice"
      request_demo (world_demo db_empty) w' _ E).
Defined.
