(* ===== verification/Draft.v ===== *)
(** * Draft: the draft endpoints (src/src/handlers/draft.rs) *)

From Stdlib Require Import ZArith Lia.
From Stdlib Require Import Strings.Byte Strings.Ascii Strings.String.
From stdpp Require Import base tactics decidable option list strings gmap.
From S2P Require Import Prelude Text Errors Borsh SolanaTypes Health World Concrete Crypto.
From S2P Require Import DraftData Solana Agreement.

Open Scope string_scope.
Open Scope list_scope.
Open Scope Z_scope.

Record PendingInvitationView : Type := mkPendingView {
  pw_id : Uuid; pw_status : string; pw_expires_at : Z }.

Record GetDraftResponse : Type := mkGetDraft {
  gd_id : Uuid; gd_status : string; gd_party_slots : json;
  gd_pending_invitations : list PendingInvitationView }.

Record ReinviteResponse : Type := mkReinvite { ri_invitation_id : Uuid; ri_expires_at : Z }.

Record SubmitDraftRequest : Type := mkSubmitRequest {
  sb_content_hash : string; sb_storage_uri : string; sb_storage_backend : string }.

Record SubmitDraftResponse : Type := mkSubmitResponse {
  sd_transaction : string; sd_agreement_pda : string }.

(** ** Pure helpers *)

Definition ensure_creator_only (auth_pubkey : option string) (draft_creator_pubkey : string)
    : result AppError unit :=
  match auth_pubkey with
  | Some pubkey => if String.eqb pubkey draft_creator_pubkey then Ok tt else Err Unauthorized
  | None => Err Unauthorized
  end.

Definition parse_storage_backend (raw : string) : result AppError StorageBackend :=
  let s := to_ascii_lowercase raw in
  if String.eqb s "ipfs" then Ok Ipfs
  else if String.eqb s "arweave" then Ok Arweave
  else Err UploadFailed.

Definition validate_content_hash (content_hash : string) : result AppError unit :=
  if negb (String.length content_hash =? 64)%nat then Err InvalidHash
  else if negb (string_forallb is_ascii_hexdigit content_hash) then Err InvalidHash
  else Ok tt.

(** ** Statements *)

Definition draft_where (id : Uuid) (r : AgreementDraftRow) : bool := uuid_eqb (ad_id r) id.

Definition draft_row (id : Uuid) (d : Db) : option AgreementDraftRow :=
  fetch_optional (where_ (draft_where id) (db_drafts d)).

Definition set_draft_status (st : string) (r : AgreementDraftRow) : AgreementDraftRow :=
  mkAgreementDraft (ad_id r) (ad_creator_pubkey r) (ad_draft_payload r) (ad_party_slots r) st
    (ad_created_at r) (ad_ready_at r) (ad_paid r) (ad_storage_uri r) (ad_storage_uploaded r)
    (ad_agreement_pda r) (ad_agreement_id r).

Definition set_draft_storage (uri : string) (r : AgreementDraftRow) : AgreementDraftRow :=
  mkAgreementDraft (ad_id r) (ad_creator_pubkey r) (ad_draft_payload r) (ad_party_slots r)
    (ad_status r) (ad_created_at r) (ad_ready_at r) (ad_paid r) (Some uri) true
    (ad_agreement_pda r) (ad_agreement_id r).

Definition set_draft_agreement (pda : string) (id : bytes) (r : AgreementDraftRow)
    : AgreementDraftRow :=
  mkAgreementDraft (ad_id r) (ad_creator_pubkey r) (ad_draft_payload r) (ad_party_slots r)
    (ad_status r) (ad_created_at r) (ad_ready_at r) (ad_paid r) (ad_storage_uri r)
    (ad_storage_uploaded r) (Some pda) (Some id).

Definition discard_stmt (id : Uuid) : Stmt unit :=
  prepared T_agreement_drafts ["status"] (execute (fun _ =>
    set_drafts (update_where (draft_where id) (set_draft_status "discarded")))).

Definition store_uri_stmt (id : Uuid) (uri : string) : Stmt unit :=
  prepared T_agreement_drafts ["storage_uri"; "storage_uploaded"] (execute (fun _ =>
    set_drafts (update_where (draft_where id) (set_draft_storage uri)))).

Definition store_agreement_stmt (id : Uuid) (pda : string) (agreement_id : bytes) : Stmt unit :=
  prepared T_agreement_drafts ["agreement_pda"; "agreement_id"] (execute (fun _ =>
    set_drafts (update_where (draft_where id) (set_draft_agreement pda agreement_id)))).

Definition set_payment_pda (pda : string) (r : AgreementPaymentRow) : AgreementPaymentRow :=
  mkAgreementPayment (py_id r) (py_draft_id r) (py_user_id r) (py_method r) (py_status r)
    (py_usd_amount_cents r) (py_token_reference_pubkey r) (py_token_mint r)
    (py_token_amount r) (py_token_tx_signature r) (py_refund_amount r)
    (py_refund_tx_signature r) (py_refund_initiated_at r) (py_refund_completed_at r)
    (py_created_at r) (py_confirmed_at r) (Some pda).

Definition link_payment_stmt (draft_id : Uuid) (pda : string) : Stmt unit :=
  prepared T_agreement_payments ["agreement_pda"] (execute (fun _ => set_payments
    (update_where (fun r => uuid_eqb (py_draft_id r) draft_id && String.eqb (py_status r) "confirmed")
       (set_payment_pda pda)))).

Definition pending_views (draft_id : Uuid) (d : Db) : list PendingInvitationView :=
  map (fun r => mkPendingView (pi_id r) (pi_status r) (pi_expires_at r))
    (order_by pi_created_at
      (where_ (fun r => uuid_eqb (pi_draft_id r) draft_id && String.eqb (pi_status r) "pending")
         (db_invitations d))).

Definition expired_invitation (invitation_id draft_id : Uuid) (d : Db)
    : option (bytes * bytes * bytes) :=
  option_map (fun r => (pi_email_index r, pi_email_enc r, pi_email_nonce r))
    (fetch_optional (where_ (fun r => uuid_eqb (pi_id r) invitation_id
       && uuid_eqb (pi_draft_id r) draft_id && String.eqb (pi_status r) "expired")
       (db_invitations d))).

Definition pubkey_of_user (user : Uuid) (d : Db) : option string :=
  option_map aw_pubkey
    (fetch_optional (where_ (fun r => uuid_eqb (aw_user_id r) user) (db_wallets d))).

Definition user_has_email (user : Uuid) (d : Db) : bool :=
  exists_row (fun r => uuid_eqb (uc_user_id r) user
    && match uc_email_enc r with Some _ => true | None => false end) (db_contacts d).

Section Handlers.
Context `{Ext, Env} (cfg : AppState).

Definition evaluate_submit_gates (paid : bool) (status : string) (has_email : bool)
    (draft_id : Uuid) : result AppError unit :=
  if negb paid then
    Err (PaymentRequired (uuid_to_string draft_id)
           ("/payment/initiate/" +:+ uuid_to_string draft_id))
  else if negb (String.eqb status "ready_to_submit") then Err DraftNotReady
  else if negb has_email then
    Err (EmailRequired "Add an email address to receive agreement notifications."
           "/user/contacts")
  else Ok tt.

Definition get_draft_row (draft_id : Uuid) : M World AppError AgreementDraftRow :=
  let* row := internal (sql (query (draft_row draft_id))) in
  of_result (ok_or row NotFound).

Definition has_contact_email (user : Uuid) : M World AppError bool :=
  internal (sql (query (user_has_email user))).

Definition ensure_creator_from_user_id (user : Uuid) (draft_creator_pubkey : string)
    : M World AppError unit :=
  let* auth_pubkey := internal (sql (query (pubkey_of_user user))) in
  of_result (ensure_creator_only auth_pubkey draft_creator_pubkey).

Definition get_draft (draft_id : Uuid) : M World AppError GetDraftResponse :=
  let* draft := get_draft_row draft_id in
  let* pending := internal (sql (query (pending_views draft_id))) in
  ret (mkGetDraft (ad_id draft) (ad_status draft) (ad_party_slots draft) pending).

Definition delete_draft (auth_user draft_id : Uuid) : M World AppError unit :=
  let* draft := get_draft_row draft_id in
  ensure_creator_from_user_id auth_user (ad_creator_pubkey draft) ;;;
  internal (sql (discard_stmt draft_id)).

Definition reinvite_draft (auth_user draft_id invitation_id : Uuid)
    : M World AppError ReinviteResponse :=
  let* draft := get_draft_row draft_id in
  ensure_creator_from_user_id auth_user (ad_creator_pubkey draft) ;;;
  let* row := internal (sql (query (expired_invitation invitation_id draft_id))) in
  let* (index_, enc_, nonce_) := of_result (ok_or row NotFound) in
  let* token_bytes := fill_random 32 in
  let token := hex_encode token_bytes in
  let* now := now_secs in
  let* window := of_result (ok_or (i64_try_from (cfg_invite_expiry_seconds cfg)) InternalError) in
  let expires_at := i64_wrap (now + window) in
  let* new_id := new_uuid in
  internal (sql (insert_invitation_stmt new_id draft_id index_ enc_ nonce_ token expires_at)) ;;;
  ret (mkReinvite new_id expires_at).

Definition submit_draft (auth_user : Uuid) (auth_pubkey : string) (draft_id : Uuid)
    (req : SubmitDraftRequest) : M World AppError SubmitDraftResponse :=
  of_result (validate_content_hash (sb_content_hash req)) ;;;
  let* storage_backend := of_result (parse_storage_backend (sb_storage_backend req)) in
  let* draft := get_draft_row draft_id in
  of_result (ensure_creator_only (Some auth_pubkey) (ad_creator_pubkey draft)) ;;;
  let* has_email := has_contact_email auth_user in
  of_result (evaluate_submit_gates (ad_paid draft) (ad_status draft) has_email draft_id) ;;;
  internal (sql (store_uri_stmt draft_id (sb_storage_uri req))) ;;;
  let* payload := of_result (ok_or (payload_from_value (ad_draft_payload draft)) InternalError) in
  let parties := omap pubkey_from_str (omap de_pubkey (dp_parties payload)) in
  let* creator_pubkey := of_result (ok_or (pubkey_from_str auth_pubkey) InternalError) in
  let* agreement_id := new_uuid in
  let* content_hash := of_result (ok_or (hex_to_bytes32 (sb_content_hash req)) InvalidHash) in
  let args := mkCreateArgs agreement_id (dp_title payload) content_hash (sb_storage_uri req)
                storage_backend parties (i64_wrap (dp_expires_in_secs payload)) in
  let* transaction := build_create_agreement_tx args creator_pubkey (vault_keypair cfg) in
  let agreement_pda := fst (derive_agreement_pda creator_pubkey agreement_id) in
  let agreement_pda_str := pubkey_to_string agreement_pda in
  internal (sql (store_agreement_stmt draft_id agreement_pda_str (bn_bytes agreement_id))) ;;;
  internal (sql (link_payment_stmt draft_id agreement_pda_str)) ;;;
  ret (mkSubmitResponse transaction agreement_pda_str).
End Handlers.

(** ** Gates *)

(** Submission needs payment, readiness and an email, in this order.  A
    submitted draft passed all the checks: the hash is 64 hexadecimal digits,
    the caller created the draft, the draft is paid and ready, and the caller
    has an email; each missing requirement is answered with its own error, the
    first one in that order. *)
Theorem submit_gates `{Ext} (paid : bool) (status : string) (has_email : bool) (id : Uuid) :
  match evaluate_submit_gates paid status has_email id with
  | Ok _ => paid = true /\ status = "ready_to_submit" /\ has_email = true
  | Err (PaymentRequired d u) => paid = false /\ d = uuid_to_string id /\ u = "/payment/initiate/" +:+ d
  | Err DraftNotReady => paid = true /\ status <> "ready_to_submit"
  | Err (EmailRequired _ _) => paid = true /\ status = "ready_to_submit" /\ has_email = false
  | Err _ => False
  end.
Proof.
  unfold evaluate_submit_gates. destruct paid; cbn; [|auto].
  destruct (String.eqb_spec status "ready_to_submit"); cbn; [|auto].
  destruct has_email; cbn; auto.
Qed.

Section Submit.
Context `{Ext, Env} (cfg : AppState).

(** The parties a draft's payload names, as the instruction carries them. *)
Definition payload_parties (payload : json) (parties : list Pubkey) : Prop :=
  exists p, payload_from_value payload = Some p /\
    parties = omap pubkey_from_str (omap de_pubkey (dp_parties p)).

Lemma draft_row_elem id d r : draft_row id d = Some r -> r ∈ db_drafts d /\ ad_id r = id.
Proof.
  intros [Hr Hid]%fetch_optional_Some%elem_of_where. split; [done|].
  unfold draft_where, uuid_eqb in Hid. by apply bool_decide_eq_true_1 in Hid.
Qed.

Lemma submit_draft_run (user : Uuid) (pubkey : string) (id : Uuid)
    (req : SubmitDraftRequest) (w w' : World) (resp : SubmitDraftResponse) :
  submit_draft cfg user pubkey id req w = (Ok resp, w') ->
  exists r t ix args, draft_row id (w_db w) = Some r /\ ad_creator_pubkey r = pubkey /\
    ad_paid r = true /\ ad_status r = "ready_to_submit" /\
    user_has_email user (w_db w) = true /\
    tx_encode t = Some (sd_transaction resp) /\ tx_instructions t = [ix] /\
    ix_data ix = CREATE_AGREEMENT_DISCRIMINATOR ++ enc c_create_args args /\
    payload_parties (ad_draft_payload r) (ca_parties args) /\
    (forall r', r' ∈ db_drafts (w_db w') -> ad_id r' = id ->
       ad_agreement_pda r' = Some (sd_agreement_pda resp)).
Proof.
  unfold submit_draft, get_draft_row, has_contact_email, internal. intros Hr. world_inv. subst.
  repeat match goal with Hx : sql _ _ = (Ok ?u, _) |- _ =>
    apply sql_Ok in Hx as (? & Hx & ->) end.
  match goal with Hx : draft_row _ _ = Some ?r |- _ => rename Hx into Hrow; rename r into draft end.
  match goal with Hx : ensure_creator_only _ _ = Ok _ |- _ => rename Hx into Hcr end.
  match goal with Hx : evaluate_submit_gates _ _ _ _ = Ok _ |- _ => rename Hx into Hg end.
  match goal with Hx : build_create_agreement_tx _ _ _ _ = _ |- _ =>
    apply (built_frame (RqCreate _ _)) in Hx as (t & ix & Ht & Hwell & Hdb & _) end.
  match goal with Hx : link_payment_stmt _ _ _ _ = _ |- _ =>
    unfold link_payment_stmt in Hx; rewrite prepared_ok in Hx by reflexivity;
    injection Hx as _ <- end.
  match goal with Hx : store_agreement_stmt _ _ _ _ _ = _ |- _ =>
    unfold store_agreement_stmt in Hx; rewrite prepared_ok in Hx by reflexivity;
    injection Hx as _ <- end.
  unfold ensure_creator_only in Hcr.
  destruct (String.eqb_spec pubkey (ad_creator_pubkey draft)) as [->|]; [|discriminate].
  unfold evaluate_submit_gates in Hg.
  destruct (ad_paid draft) eqn:Hpaid; [|discriminate].
  destruct (String.eqb_spec (ad_status draft) "ready_to_submit") as [Hst|]; [|discriminate].
  destruct (user_has_email _ _) eqn:Hem in Hg; [|discriminate].
  destruct Hwell as [Hixs _ _ _ _ Hdata]. exists draft, t, ix. eexists.
  split; [exact Hrow|]. split; [done|]. split; [done|].
  split; [exact Hst|]. split; [exact Hem|]. split; [exact Ht|]. split; [exact Hixs|].
  split; [exact Hdata|]. split.
  - eexists. split; [eassumption | reflexivity].
  - intros r' Hr' Hid'. cbn in Hr'. apply elem_of_update_where in Hr' as (x & _ & ->).
    destruct (draft_where id x) eqn:Ex; [done|].
    unfold draft_where, uuid_eqb in Ex. by rewrite bool_decide_eq_true_2 in Ex.
Qed.

(** C14: who gets a submission transaction, and for what.  When [submit_draft]
    succeeds, the draft exists, was created by the caller's wallet, is paid
    and ready, and the caller has an email; the draft then carries the
    agreement address of the response, and the transaction is a create
    instruction whose parties are those of the draft's payload. *)
Theorem submit_draft_sound (user : Uuid) (pubkey : string) (id : Uuid)
    (req : SubmitDraftRequest) (w w' : World) (resp : SubmitDraftResponse) :
  submit_draft cfg user pubkey id req w = (Ok resp, w') ->
  exists r t ix args, r ∈ db_drafts (w_db w) /\ ad_id r = id /\ ad_creator_pubkey r = pubkey /\
    ad_paid r = true /\ ad_status r = "ready_to_submit" /\
    user_has_email user (w_db w) = true /\
    tx_encode t = Some (sd_transaction resp) /\ tx_instructions t = [ix] /\
    ix_data ix = CREATE_AGREEMENT_DISCRIMINATOR ++ enc c_create_args args /\
    payload_parties (ad_draft_payload r) (ca_parties args) /\
    (forall r', r' ∈ db_drafts (w_db w') -> ad_id r' = id ->
       ad_agreement_pda r' = Some (sd_agreement_pda resp)).
Proof.
  intros (r & t & ix & args & [Hin Hid]%draft_row_elem & Hrest)%submit_draft_run.
  by exists r, t, ix, args.
Qed.
End Submit.
