(* ===== verification/Wire.v ===== *)
(** * Wire: what a request carries

    The bodies and queries of the API, from the [Deserialize] structs of
    src/src/handlers.  A body is a JSON value whose objects may repeat a name;
    a query is a list of pairs.  The conversions are those that serde derives:
    a struct is an object or the sequence of its fields, unknown names are
    errors where the struct denies them and ignored otherwise. *)

From Stdlib Require Import ZArith Lia.
From Stdlib Require Import Strings.Byte Strings.Ascii Strings.String.
From stdpp Require Import base tactics decidable option list strings gmap.
From S2P Require Import Prelude Text Errors Borsh SolanaTypes Health World Concrete Crypto.
From S2P Require Import Jwt Auth OAuth User Startup DraftData Agreement Draft.

Open Scope string_scope.
Open Scope list_scope.
Open Scope Z_scope.

(** ** Derived conversions *)

Definition struct_from {A} (deny_unknown : bool) (fields : list string)
    (build : list (string * json) -> option A) (j : json) : option A :=
  match j with
  | JObj l => if deny_unknown && negb (only_fields fields l) then None else build l
  | JArr vs => if bool_decide (length vs = length fields) then build (zip fields vs) else None
  | _ => None
  end.

(** [Vec<T>] *)
Fixpoint all_from {A} (f : json -> option A) (l : list json) : option (list A) :=
  match l with
  | [] => Some []
  | j :: l' => a ← f j; t ← all_from f l'; Some (a :: t)
  end.

Definition vec_from {A} (f : json -> option A) (j : json) : option (list A) :=
  match j with JArr l => all_from f l | _ => None end.

(** A field of a query of type [Option<T>] *)
Definition values (k : string) (l : list (string * string)) : list string :=
  omap (fun kv => if String.eqb (fst kv) k then Some (snd kv) else None) l.
Definition opt_param {A} (f : string -> option A) (k : string) (l : list (string * string))
    : option (option A) :=
  match values k l with
  | [] => Some None
  | [v] => option_map Some (f v)
  | _ => None
  end.
Definition req_param (k : string) (l : list (string * string)) : option string :=
  match values k l with [v] => Some v | _ => None end.

Definition known_params (fields : list string) (l : list (string * string)) : bool :=
  List.forallb (fun kv => List.existsb (String.eqb (fst kv)) fields) l.

(** ** src/src/handlers/auth.rs *)

Definition verify_request_from : json -> option VerifyRequest :=
  struct_from false ["pubkey"; "signature"; "nonce"] (fun l =>
    p ← req_field json_as_str "pubkey" l; s ← req_field json_as_str "signature" l;
    n ← req_field json_as_str "nonce" l; Some (mkVerifyRequest p s n)).

Definition link_wallet_request_from : json -> option LinkWalletRequest :=
  struct_from false ["pubkey"; "signature"; "nonce"] (fun l =>
    p ← req_field json_as_str "pubkey" l; s ← req_field json_as_str "signature" l;
    n ← req_field json_as_str "nonce" l; Some (mkLinkWalletRequest p s n)).

(** [RefreshRequest] *)
Definition refresh_request_from : json -> option string :=
  struct_from false ["refresh_token"] (req_field json_as_str "refresh_token").

Definition callback_query_from (l : list (string * string)) : option OAuthCallbackQuery :=
  c ← req_param "code" l; s ← req_param "state" l; Some (mkCallbackQuery c s).

(** ** src/src/handlers/agreement.rs *)

(** [untagged]: the first variant that takes the value *)
Definition party_input_from (j : json) : option PartyInput :=
  match struct_from true ["pubkey"] (req_field json_as_str "pubkey") j with
  | Some k => Some (PartyPubkey k)
  | None => option_map PartyEmail (struct_from true ["email"] (req_field json_as_str "email") j)
  end.

Definition create_request_from : json -> option CreateAgreementRequest :=
  struct_from true ["title"; "parties"; "expires_in_secs"] (fun l =>
    t ← req_field json_as_str "title" l; ps ← req_field (vec_from party_input_from) "parties" l;
    x ← req_field u64_from_value "expires_in_secs" l; Some (mkCreateRequest t ps x)).

(** [SignAgreementRequest] *)
Definition sign_request_from : json -> option (option string) :=
  struct_from true ["metadata_uri"] (opt_field json_as_str "metadata_uri").

Definition parse_u32 (s : string) : option Z :=
  match parse_uint two32 s with Ok z => Some z | Err _ => None end.

Definition list_query_from (l : list (string * string)) : option ListAgreementsQuery :=
  if known_params ["status"; "role"; "page"; "limit"] l then
    s ← opt_param Some "status" l; r ← opt_param Some "role" l;
    p ← opt_param parse_u32 "page" l; n ← opt_param parse_u32 "limit" l;
    Some (mkListQuery s r p n)
  else None.

(** ** src/src/handlers/draft.rs, payment.rs, user.rs and ws.rs *)

Section Requests.
Context `{Ext}.

(** [ReinviteRequest] *)
Definition reinvite_request_from : json -> option Uuid :=
  struct_from true ["invitation_id"]
    (req_field (fun j => json_as_str j ≫= uuid_parse) "invitation_id").
End Requests.

Definition submit_request_from : json -> option SubmitDraftRequest :=
  struct_from true ["content_hash"; "storage_uri"; "storage_backend"] (fun l =>
    h ← req_field json_as_str "content_hash" l; u ← req_field json_as_str "storage_uri" l;
    b ← req_field json_as_str "storage_backend" l; Some (mkSubmitRequest h u b)).

(** [InitiatePaymentRequest] *)
Definition initiate_request_from : json -> option string :=
  struct_from true ["method"] (req_field json_as_str "method").

(** [UpdateProfileRequest] *)
Definition profile_request_from : json -> option (option string) :=
  struct_from false ["display_name"] (opt_field json_as_str "display_name").

Definition contacts_request_from : json -> option UpdateContactsRequest :=
  struct_from false ["email"; "phone"; "push_token"] (fun l =>
    e ← opt_field json_as_str "email" l; p ← opt_field json_as_str "phone" l;
    t ← opt_field json_as_str "push_token" l; Some (mkUpdateContacts e p t)).

(** [WsQuery] *)
Definition ws_query_from (l : list (string * string)) : option (option string) :=
  opt_param Some "token" l.

(** ** Lemmas *)

Lemma members_In k v l : In v (members k l) <-> In (k, v) l.
Proof.
  unfold members. rewrite <-!list_elem_of_In, list_elem_of_omap. split.
  - intros ([k' v'] & Hin & Hv). cbn in Hv. destruct (String.eqb_spec k' k); [|done].
    by injection Hv as ->; subst.
  - intros Hin. exists (k, v). split; [done|]. cbn. by rewrite String.eqb_refl.
Qed.

Lemma members_cons k kv l :
  members k (kv :: l) = (if String.eqb (fst kv) k then [snd kv] else []) ++ members k l.
Proof. unfold members. cbn. by destruct (String.eqb (fst kv) k). Qed.

Lemma req_field_Some {A} (f : json -> option A) k l a :
  req_field f k l = Some a <-> exists v, members k l = [v] /\ f v = Some a.
Proof.
  unfold req_field. split; [|by intros (v & -> & Hv)].
  destruct (members k l) as [|v [|]]; try done. by exists v.
Qed.

(** Exactly one member for each field and no other: the names are the fields. *)
Lemma exact_names fields l :
  NoDup fields -> only_fields fields l = true ->
  (forall k, In k fields -> length (members k l) = 1%nat) -> map fst l ≡ₚ fields.
Proof.
  intros Hnd Ho Hm. symmetry. apply NoDup_Permutation; [done | |].
  - clear Hnd. assert (Hone : forall k, (length (members k l) <= 1)%nat).
    { intros k. destruct (List.in_dec String.string_dec k fields) as [Hi|Hi]; [by rewrite (Hm k Hi)|].
      destruct (members k l) as [|v t] eqn:E; cbn; [lia|]. exfalso. apply Hi.
      assert (Hin : In (k, v) l) by (apply members_In; rewrite E; by left).
      unfold only_fields in Ho. rewrite List.forallb_forall in Ho. specialize (Ho _ Hin).
      apply List.existsb_exists in Ho as (k' & Hk & Hkk). cbn in Hkk.
      apply String.eqb_eq in Hkk. by subst. }
    clear Hm Ho. induction l as [|[k v] l IH]; cbn; [constructor|]. constructor.
    + intros (kv & Hk & Hin)%list_elem_of_fmap. specialize (Hone k). rewrite members_cons in Hone.
      cbn in Hone. rewrite String.eqb_refl in Hone. cbn in Hone.
      assert (Hin' : In (snd kv) (members k l)).
      { apply members_In. apply list_elem_of_In in Hin. cbn in Hk. subst k. by destruct kv. }
      destruct (members k l); [done | cbn in Hone; lia].
    + apply IH. intros k'. specialize (Hone k'). rewrite members_cons, length_app in Hone. lia.
  - intros k. split.
    + intros Hk%list_elem_of_In. specialize (Hm k Hk). destruct (members k l) as [|v t] eqn:E; [done|].
      apply list_elem_of_fmap. exists (k, v). split; [done|]. apply list_elem_of_In, members_In.
      rewrite E. by left.
    + intros (kv & -> & Hin)%list_elem_of_fmap. apply list_elem_of_In in Hin.
      unfold only_fields in Ho. rewrite List.forallb_forall in Ho. specialize (Ho _ Hin).
      apply List.existsb_exists in Ho as (k' & Hk & Hkk%String.eqb_eq). rewrite Hkk.
      by apply list_elem_of_In.
Qed.

Lemma exact_members fields val l :
  NoDup fields -> only_fields fields l = true ->
  (forall k, In k fields -> members k l = [val k]) -> l ≡ₚ map (fun k => (k, val k)) fields.
Proof.
  intros Hnd Ho Hm.
  assert (Hn : map fst l ≡ₚ fields) by (apply exact_names; [done..|]; intros k Hk; by rewrite Hm).
  apply NoDup_Permutation.
  - apply (NoDup_fmap_1 fst). by rewrite Hn.
  - apply (NoDup_fmap_1 fst). change (NoDup (map fst (map (fun k => (k, val k)) fields))).
    rewrite map_map, map_id. done.
  - intros [k v]. rewrite !list_elem_of_In, in_map_iff. split.
    + intros Hin. assert (Hk : In k fields).
      { apply list_elem_of_In. rewrite <-Hn. apply list_elem_of_In, in_map_iff. by exists (k, v). }
      exists k. split; [|done]. apply members_In in Hin. rewrite Hm in Hin by done.
      destruct Hin as [->|[]]; done.
    + intros (k' & [= -> <-] & Hk). apply members_In. rewrite Hm by done. by left.
Qed.

Lemma members_perm k l l' : l ≡ₚ l' -> members k l ≡ₚ members k l'.
Proof. intros Hp. unfold members. by rewrite Hp. Qed.

Lemma members_one k v l l' : l ≡ₚ l' -> members k l' = [v] -> members k l = [v].
Proof. intros Hp Hm. apply Permutation_singleton_r. by rewrite <-Hm, (members_perm k l l'). Qed.

Lemma only_fields_perm fields l l' : l ≡ₚ l' -> only_fields fields l = only_fields fields l'.
Proof.
  intros Hp. unfold only_fields. apply eq_true_iff_eq. rewrite !List.forallb_forall.
  split; intros Ha x Hx; apply Ha, list_elem_of_In; apply list_elem_of_In in Hx; [by rewrite Hp | by rewrite <-Hp].
Qed.

Lemma all_from_spec {A} (f : json -> option A) l t :
  all_from f l = Some t <-> Forall2 (fun v a => f v = Some a) l t.
Proof.
  revert t. induction l as [|v l IH]; intros t; cbn.
  - split; [by intros [= <-]; constructor | by inversion 1].
  - split.
    + intros (a & Ha & (t' & Ht & [= <-])%bind_Some)%bind_Some. constructor; [done | by apply IH].
    + inversion 1 as [|?? ?? Ha Ht]; subst. rewrite Ha. cbn. apply IH in Ht as ->. done.
Qed.

Lemma as_str_Some j s : json_as_str j = Some s <-> j = JStr s.
Proof. destruct j; cbn; split; by intros [= ->]. Qed.

(** A strict struct with one required text. *)
Lemma one_text_spec k j s :
  struct_from true [k] (req_field json_as_str k) j = Some s <->
  j = JObj [(k, JStr s)] \/ j = JArr [JStr s].
Proof.
  unfold struct_from. destruct j as [| | | |vs|l]; cbn [andb]; try (by split; [|intros [|]]).
  - split.
    + case_bool_decide as Hl; [|done]. destruct vs as [|v [|]]; try done. cbn.
      intros (v' & Hm & Hs)%req_field_Some. apply as_str_Some in Hs as ->. cbn in Hm.
      rewrite String.eqb_refl in Hm. injection Hm as ->. by right.
    + intros [|[= ->]]; [done|]. cbn. apply req_field_Some. exists (JStr s). cbn.
      by rewrite String.eqb_refl.
  - split.
    + destruct (only_fields [k] l) eqn:Ho; [cbn|done].
      intros (v & Hm & ->%as_str_Some)%req_field_Some. left. f_equal.
      apply Permutation_singleton_r. apply (exact_members [k] (fun _ => JStr s)); [|done|].
      * apply NoDup_singleton.
      * by intros k' [<-|[]].
    + intros [[= ->]|]; [|done]. cbn. rewrite String.eqb_refl. cbn. apply req_field_Some.
      exists (JStr s). cbn. by rewrite String.eqb_refl.
Qed.

(** ** Theorems *)

(** The texts of a party: a key is the object with the one member "pubkey" or the
    list of one text, an address the object with the one member "email". *)
Definition party_json (j : json) (p : PartyInput) : Prop :=
  match p with
  | PartyPubkey k => j = JObj [("pubkey", JStr k)] \/ j = JArr [JStr k]
  | PartyEmail e => j = JObj [("email", JStr e)]
  end.

(** A party with both members, with a further one, or with a repeated one, is
    refused, and a lone text in a list is never read as an address. *)
Lemma party_input_spec (j : json) (p : PartyInput) :
  party_input_from j = Some p <-> party_json j p.
Proof.
  unfold party_input_from, party_json.
  destruct (struct_from true ["pubkey"] _ j) as [k|] eqn:E.
  - apply one_text_spec in E. split.
    + intros [= <-]. done.
    + destruct p as [k'|e].
      * intros Hk. destruct E as [-> | ->], Hk as [[= ->]|[= ->]]; done.
      * intros ->. by destruct E.
  - split.
    + intros (e & He & ->)%fmap_Some. apply one_text_spec in He as [-> | ->]; [done|].
      exfalso. assert (Hs : struct_from true ["pubkey"] (req_field json_as_str "pubkey") (JArr [JStr e])
        = Some e) by (apply one_text_spec; by right). congruence.
    + destruct p as [k|e].
      * intros Hk. assert (Hs : struct_from true ["pubkey"] (req_field json_as_str "pubkey") j = Some k)
          by (apply one_text_spec; exact Hk). congruence.
      * intros Hj. apply fmap_Some. exists e. split; [|done]. apply one_text_spec. by left.
Qed.

(** The text of a creation. *)
Definition create_members (t : string) (ps : list json) (x : Z) : list (string * json) :=
  [("title", JStr t); ("parties", JArr ps); ("expires_in_secs", JNum x)].

Lemma u64_Some j x : u64_from_value j = Some x <-> j = JNum x /\ 0 <= x < two64.
Proof.
  destruct j as [| |z| | |]; cbn; try (by split; [|intros [? ?]]).
  destruct (Z.leb_spec 0 z), (Z.ltb_spec z two64); cbn; split; try (by intros [= ->]);
    try (intros [[= ->] ?]; done || lia); done.
Qed.

Lemma vec_Some {A} (f : json -> option A) j t :
  vec_from f j = Some t <-> exists vs, j = JArr vs /\ Forall2 (fun v a => f v = Some a) vs t.
Proof.
  unfold vec_from. destruct j as [| | | |vs|]; try (by split; [|intros (vs & ? & ?)]).
  rewrite all_from_spec. split; [by exists vs | by intros (vs' & [= ->] & ?)].
Qed.

Lemma parties_Some v ps :
  vec_from party_input_from v = Some ps <-> exists vs, v = JArr vs /\ Forall2 party_json vs ps.
Proof.
  rewrite vec_Some. split; intros (vs & -> & Hf); exists vs; (split; [done|]);
    (eapply Forall2_impl; [exact Hf|]); intros; by apply party_input_spec.
Qed.

(** The three fields of a creation, from the members of an object. *)
Lemma create_fields_Some l req :
  (t ← req_field json_as_str "title" l; ps ← req_field (vec_from party_input_from) "parties" l;
   x ← req_field u64_from_value "expires_in_secs" l; Some (mkCreateRequest t ps x)) = Some req <->
  0 <= cr_expires_in_secs req < two64 /\
  exists vs, Forall2 party_json vs (cr_parties req) /\
    members "title" l = [JStr (cr_title req)] /\ members "parties" l = [JArr vs] /\
    members "expires_in_secs" l = [JNum (cr_expires_in_secs req)].
Proof.
  split.
  - intros (t & Ht & (ps & Hps & (x & Hx & [= <-])%bind_Some)%bind_Some)%bind_Some.
    apply req_field_Some in Ht as (vt & Ht & ->%as_str_Some).
    apply req_field_Some in Hps as (vp & Hp & (vs & -> & Hvs)%parties_Some).
    apply req_field_Some in Hx as (vx & Hx & [-> Hb]%u64_Some). cbn. split; [done|]. by exists vs.
  - destruct req as [t ps x]; cbn. intros (Hb & vs & Hvs & Ht & Hp & Hx).
    rewrite (proj2 (req_field_Some json_as_str "title" l t)) by (by eexists).
    rewrite (proj2 (req_field_Some (vec_from party_input_from) "parties" l ps))
      by (eexists; split; [exact Hp | apply parties_Some; by exists vs]).
    by rewrite (proj2 (req_field_Some u64_from_value "expires_in_secs" l x))
      by (eexists; split; [exact Hx | by apply u64_Some]).
Qed.

(** C25: creations are read exactly.  A body is taken as a creation exactly when
    it is an object that has, in some order and nothing else, a title, a list of
    parties and a number of seconds of 64 bits without sign, or the list of
    these three; and a party exactly when it is the object of one text "pubkey"
    or the list of one text, read as a key, or the object of one text "email",
    read as an address. *)
Theorem create_request_exact (j : json) (req : CreateAgreementRequest) :
  create_request_from j = Some req <->
  0 <= cr_expires_in_secs req < two64 /\
  exists ps,
    Forall2 (fun v p =>
      match p with
      | PartyPubkey k => v = JObj [("pubkey", JStr k)] \/ v = JArr [JStr k]
      | PartyEmail e => v = JObj [("email", JStr e)]
      end) ps (cr_parties req) /\
    ((exists l, j = JObj l /\ l ≡ₚ create_members (cr_title req) ps (cr_expires_in_secs req)) \/
     j = JArr [JStr (cr_title req); JArr ps; JNum (cr_expires_in_secs req)]).
Proof.
  change (fun v p => match p with PartyPubkey _ => _ | PartyEmail _ => _ end) with party_json.
  unfold create_request_from, struct_from. destruct j as [| | | |vs|l]; cbn [andb];
    try (split; [done | intros (_ & ps & _ & [(l & E & _)|E]); discriminate E]).
  - case_bool_decide as Hl.
    + destruct vs as [|vt [|vp [|vx [|]]]]; try done. rewrite create_fields_Some. cbn.
      split; intros (Hb & ps & Hps & Hm); (split; [done|]); exists ps; (split; [done|]).
      * destruct Hm as ([= ->] & [= ->] & [= ->]). by right.
      * destruct Hm as [(l & E & _)|[= -> -> ->]]; [discriminate E | done].
    + split; [done|]. intros (_ & ps & _ & [(l & E & _)|[= ->]]); [discriminate E | done].
  - split.
    + destruct (only_fields _ l) eqn:Ho; [cbn [negb]|done].
      intros (Hb & ps & Hps & Ht & Hp & Hx)%create_fields_Some. split; [done|]. exists ps.
      split; [done|]. left. exists l. split; [done|].
      apply (exact_members ["title"; "parties"; "expires_in_secs"]
        (fun k => if String.eqb k "title" then JStr (cr_title req)
                  else if String.eqb k "parties" then JArr ps else JNum (cr_expires_in_secs req)));
        [|done|].
      * apply (bool_decide_unpack _). vm_compute. done.
      * intros k [<-|[<-|[<-|[]]]]; done.
    + intros (Hb & ps & Hps & [(l' & [= <-] & Hl)|E]); [|discriminate E].
      rewrite (only_fields_perm _ _ _ Hl). cbn [create_members only_fields List.forallb List.existsb fst
        String.eqb Ascii.eqb Bool.eqb orb andb negb].
      apply create_fields_Some. split; [done|]. exists ps. split; [done|].
      repeat split; by apply (members_one _ _ _ _ Hl).
Qed.

Lemma opt_param_Some {A} (f : string -> option A) k l o a :
  opt_param f k l = Some o -> o = Some a -> exists s, f s = Some a.
Proof.
  unfold opt_param. intros Ho ->. destruct (values k l) as [|v [|]]; try done.
  exists v. destruct (f v); [by injection Ho as -> | done].
Qed.

(** Pages are 32 bits.  A query of the list that is taken names only the four
    parameters, and its page and limit, where it has them, are 32-bit numbers
    without sign. *)
Theorem list_query_bounds (l : list (string * string)) (q : ListAgreementsQuery) :
  list_query_from l = Some q ->
  known_params ["status"; "role"; "page"; "limit"] l = true /\
  (forall z, lq_page q = Some z \/ lq_limit q = Some z -> 0 <= z < 2 ^ 32).
Proof.
  unfold list_query_from. destruct (known_params _ l); [|done].
  intros (s & _ & (r & _ & (p & Hp & (n & Hn & [= <-])%bind_Some)%bind_Some)%bind_Some)%bind_Some.
  split; [done|]. cbn.
  assert (Hu : forall k o z, opt_param parse_u32 k l = Some o -> o = Some z -> 0 <= z < two32).
  { intros k o z Ho Hz. destruct (opt_param_Some _ _ _ _ _ Ho Hz) as [v Hv]. unfold parse_u32 in Hv.
    destruct (parse_uint two32 v) eqn:Ev; [|done]. injection Hv as ->. by apply parse_uint_bound in Ev. }
  change (2 ^ 32) with two32. intros z [Hz|Hz]; [exact (Hu _ _ _ Hp Hz) | exact (Hu _ _ _ Hn Hz)].
Qed.

Lemma party_input_spec_witness :
  party_input_from (JObj [("pubkey", JStr "k"); ("email", JStr "e@x")]) = None /\
  (JObj [("email", JStr "e@x")] = JObj [("email", JStr "e@x")] ->
   party_input_from (JObj [("email", JStr "e@x")]) = Some (PartyEmail "e@x")).
Proof. split; [reflexivity | apply (party_input_spec (JObj [("email", JStr "e@x")]) (PartyEmail "e@x"))]. Defined.

Lemma list_query_bounds_witness :
  exists q, list_query_from [("page", "7"); ("role", "Party")] = Some q /\ 0 <= 7 < 2 ^ 32.
Proof.
  exists (mkListQuery None (Some "Party") (Some 7) None). split; [reflexivity|].
  apply (list_query_bounds [("page", "7"); ("role", "Party")] (mkListQuery None (Some "Party") (Some 7) None));
    [reflexivity | by left].
Defined.
