(* ===== verification/Invite.v ===== *)
(** * Invite: viewing and accepting an invitation (src/src/handlers/invite.rs) *)

From Stdlib Require Import ZArith Lia.
From Stdlib Require Import Strings.Byte Strings.Ascii Strings.String.
From stdpp Require Import base tactics decidable option list strings gmap.
From S2P Require Import Prelude Text Errors Borsh SolanaTypes Health World Concrete Crypto.
From S2P Require Import Notification DraftData Solana Agreement Draft.

Open Scope string_scope.
Open Scope list_scope.
Open Scope Z_scope.

Definition RATE_LIMIT_MAX_REQUESTS : nat := 5.
Definition RATE_LIMIT_WINDOW_SECS : Z := 60.

Record GetInviteResponse : Type := mkGetInvite {
  gi_agreement_title : string; gi_creator_display : string; gi_expires_at : Z;
  gi_has_account : bool; gi_has_wallet : bool }.

(** The headers the handler reads, when they are visible ASCII. *)
Record IpHeaders : Type := mkIpHeaders {
  ih_forwarded_for : option string; ih_real_ip : option string }.

(** ** Pure helpers *)

Definition validate_pending_invitation (status : string) (expires_at now : Z)
    : result AppError unit :=
  if negb (String.eqb status "pending") || (expires_at <? now) then Err NotFound else Ok tt.

Fixpoint resolve_party_slot_pubkey (slots : list DraftPartyEntry) (invite_id : Uuid)
    (pubkey : string) : result AppError (list DraftPartyEntry) :=
  match slots with
  | [] => Err NotFound
  | slot :: rest =>
      if bool_decide (de_invite_id slot = Some invite_id)
      then Ok (mkEntry (Some pubkey) None :: rest)
      else match resolve_party_slot_pubkey rest invite_id pubkey with
           | Ok rest' => Ok (slot :: rest')
           | Err e => Err e
           end
  end.

Definition all_pubkeys_resolved (slots : list DraftPartyEntry) : bool :=
  List.forallb (fun s => match de_pubkey s with Some _ => true | None => false end) slots.

Definition parse_ip_header (value : option string) : option string :=
  match value with
  | Some raw => let v := trim (split_first "," raw) in
                if String.eqb v "" then None else Some v
  | None => None
  end.

Definition extract_request_ip (h : IpHeaders) : string :=
  match parse_ip_header (ih_forwarded_for h) with
  | Some ip => ip
  | None => default "unknown" (parse_ip_header (ih_real_ip h))
  end.

(** The limiter's entry of an address after a request at [now]. *)
Definition limiter_step (now : Z) (entry : list Z) : bool * list Z :=
  let kept := where_ (fun t => now - t <? RATE_LIMIT_WINDOW_SECS) entry in
  if (RATE_LIMIT_MAX_REQUESTS <=? length kept)%nat then (false, kept) else (true, kept ++ [now]).

(** ** Statements *)

Record InviteViewRow : Type := mkInviteView {
  iv_status : string; iv_expires_at : Z; iv_agreement_title : option string;
  iv_creator_display : option string; iv_has_account : bool; iv_has_wallet : bool }.

Section Statements.
Context `{Ext}.

(** [draft_payload->>'title'] *)
Definition json_text_field (k : string) (j : json) : option string :=
  match json_get k j with
  | Some (JStr s) => Some s
  | Some JNull | None => None
  | Some v => Some (jsonb_text v)
  end.

Definition contact_matches (email_index : bytes) (uc : UserContactRow) : bool :=
  match uc_email_index uc with Some i => bytes_eqb i email_index | None => false end.

(** The display name over the two LEFT JOINs. *)
Definition creator_display_of (creator : string) (d : Db) : option string :=
  match fetch_optional (where_ (fun aw => String.eqb (aw_pubkey aw) creator) (db_wallets d)) with
  | Some aw =>
      match fetch_optional (where_ (fun u => uuid_eqb (ua_id u) (aw_user_id aw)) (db_users d)) with
      | Some u => ua_display_name u
      | None => None
      end
  | None => None
  end.

Definition invite_view (token : string) (d : Db) : option InviteViewRow :=
  fetch_optional (List.flat_map (fun pi =>
      map (fun ad => mkInviteView (pi_status pi) (pi_expires_at pi)
             (json_text_field "title" (ad_draft_payload ad))
             (creator_display_of (ad_creator_pubkey ad) d)
             (exists_row (contact_matches (pi_email_index pi)) (db_contacts d))
             (exists_row (fun uc => contact_matches (pi_email_index pi) uc
                && exists_row (fun aw => uuid_eqb (aw_user_id aw) (uc_user_id uc)) (db_wallets d))
                (db_contacts d)))
        (where_ (draft_where (pi_draft_id pi)) (db_drafts d)))
    (where_ (fun pi => String.eqb (pi_token pi) token) (db_invitations d))).
End Statements.

Definition invite_by_token (token : string) (d : Db) : option PartyInvitationRow :=
  fetch_optional (where_ (fun pi => String.eqb (pi_token pi) token) (db_invitations d)).

Definition set_invitation_status (st : string) (r : PartyInvitationRow) : PartyInvitationRow :=
  mkPartyInvitation (pi_id r) (pi_draft_id r) (pi_email_index r) (pi_email_enc r)
    (pi_email_nonce r) (pi_token r) st (pi_reminder_sent_at r) (pi_reminder_count r)
    (pi_created_at r) (pi_expires_at r).

Definition accept_stmt (id : Uuid) : Stmt unit :=
  prepared T_party_invitations ["status"] (execute (fun _ => set_invitations
    (update_where (fun r => uuid_eqb (pi_id r) id) (set_invitation_status "accepted")))).

Definition set_draft_slots (slots : json) (r : AgreementDraftRow) : AgreementDraftRow :=
  mkAgreementDraft (ad_id r) (ad_creator_pubkey r) (ad_draft_payload r) slots (ad_status r)
    (ad_created_at r) (ad_ready_at r) (ad_paid r) (ad_storage_uri r) (ad_storage_uploaded r)
    (ad_agreement_pda r) (ad_agreement_id r).

Definition set_draft_ready (slots : json) (ready_at : Z) (r : AgreementDraftRow)
    : AgreementDraftRow :=
  mkAgreementDraft (ad_id r) (ad_creator_pubkey r) (ad_draft_payload r) slots "ready_to_submit"
    (ad_created_at r) (Some ready_at) (ad_paid r) (ad_storage_uri r) (ad_storage_uploaded r)
    (ad_agreement_pda r) (ad_agreement_id r).

Definition slots_stmt (id : Uuid) (slots : json) : Stmt unit :=
  prepared T_agreement_drafts ["party_slots"] (execute (fun _ => set_drafts
    (update_where (draft_where id) (set_draft_slots slots)))).

Definition ready_stmt (id : Uuid) (slots : json) (ready_at : Z) : Stmt unit :=
  prepared T_agreement_drafts ["party_slots"; "status"; "ready_at"] (execute (fun _ => set_drafts
    (update_where (draft_where id) (set_draft_ready slots ready_at)))).

Section Handlers.
Context `{Ext, Env}.

(** The limiter keeps the filtered entry also when it rejects. *)
Definition enforce_get_invite_rate_limit (h : IpHeaders) (now : Z) : M World AppError unit :=
  fun w =>
    let ip := extract_request_ip h in
    let '(ok, entry) := limiter_step now (default [] (w_limiter w !! ip)) in
    (if ok then Ok tt else Err RateLimited, with_limiter (<[ip := entry]> (w_limiter w)) w).

Definition get_invite (h : IpHeaders) (token : string) : M World AppError GetInviteResponse :=
  let* t := now_secs in
  enforce_get_invite_rate_limit h t ;;;
  let* row := internal (sql (query (invite_view token))) in
  let* r := of_result (ok_or row NotFound) in
  let* now := now_secs in
  of_result (validate_pending_invitation (iv_status r) (iv_expires_at r) now) ;;;
  ret (mkGetInvite (default "" (iv_agreement_title r))
         (default "Unknown creator" (iv_creator_display r)) (iv_expires_at r)
         (iv_has_account r) (iv_has_wallet r)).

(** The statements between [begin] and [commit]. *)
Definition accept_body (now : Z) (auth_pubkey token : string)
    : M World AppError (Uuid * string * bool) :=
  let* row := internal (sql (query (invite_by_token token))) in
  let* invite := of_result (ok_or row NotFound) in
  of_result (validate_pending_invitation (pi_status invite) (pi_expires_at invite) now) ;;;
  let* drow := internal (sql (query (draft_row (pi_draft_id invite)))) in
  let* draft := of_result (ok_or drow NotFound) in
  let* party_slots := of_result (ok_or (slots_from_value (ad_party_slots draft)) InternalError) in
  let* party_slots := of_result (resolve_party_slot_pubkey party_slots (pi_id invite) auth_pubkey) in
  let all_resolved := all_pubkeys_resolved party_slots in
  let party_slots_json := slots_to_value party_slots in
  internal (sql (accept_stmt (pi_id invite))) ;;;
  (if all_resolved
   then internal (sql (ready_stmt (pi_draft_id invite) party_slots_json now))
   else internal (sql (slots_stmt (pi_draft_id invite) party_slots_json))) ;;;
  ret (pi_draft_id invite, ad_creator_pubkey draft, all_resolved).

Definition accept_invite (auth_pubkey token : string) : M World AppError unit :=
  let* now := now_secs in
  let* (draft_id, creator_pubkey, all_resolved) := transaction (accept_body now auth_pubkey token) in
  if all_resolved then
    let draft_id_string := uuid_to_string draft_id in
    let* creator_user_id := internal (sql (query (wallet_user creator_pubkey))) in
    match creator_user_id with
    | Some user_id =>
        let* delivered := send_to_user user_id (WsDraftReady draft_id_string) in
        if delivered then ret tt
        else enqueue_notification "DraftReadyToSubmit" (Some draft_id_string) creator_pubkey
    | None => ret tt
    end
  else ret tt.
End Handlers.
