(* ===== verification/InviteFacts.v ===== *)
(** * InviteFacts: the rate limit and the acceptance of invitations

    Theorems about Invite.v: the limiter's bound, the all-or-nothing effect of
    an acceptance under database failures, and the invitations that cannot be
    accepted. *)

From Stdlib Require Import ZArith Lia.
From Stdlib Require Import Strings.Byte Strings.Ascii Strings.String.
From stdpp Require Import base tactics decidable option list strings gmap.
From S2P Require Import Prelude Text Errors Borsh SolanaTypes Health World Concrete Crypto.
From S2P Require Import Notification DraftData Solana Agreement Draft Invite.

Open Scope string_scope.
Open Scope list_scope.
Open Scope Z_scope.

(** ** Rate limit *)

(** Requests of one address at the given times: the times that were let
    through. *)
Fixpoint limiter_run (times entry : list Z) : list Z :=
  match times with
  | [] => []
  | now :: rest =>
      let '(ok, entry') := limiter_step now entry in
      (if ok then [now] else []) ++ limiter_run rest entry'
  end.

(** Requests within the last minute of [now]. *)
Definition upto (now : Z) (t : list Z) : list Z := where_ (fun s => s <=? now) t.
Definition recent (now : Z) (t : list Z) : list Z := where_ (fun s => now - s <? 60) t.

Lemma recent_recent now now' t : now <= now' -> recent now' (recent now t) = recent now' t.
Proof.
  intros Hle. unfold recent, where_. induction t as [|s t IH]; cbn; [done|].
  destruct (Z.ltb_spec (now - s) 60); cbn; destruct (Z.ltb_spec (now' - s) 60);
    rewrite ?IH; try done. lia.
Qed.

Lemma recent_app now t1 t2 : recent now (t1 ++ t2) = recent now t1 ++ recent now t2.
Proof. apply List.filter_app. Qed.

Lemma recent_length now t : (length (recent now t) <= length t)%nat.
Proof. apply List.filter_length_le. Qed.

Lemma limiter_step_recent now entry :
  limiter_step now entry =
    if (5 <=? length (recent now entry))%nat then (false, recent now entry)
    else (true, recent now entry ++ [now]).
Proof. reflexivity. Qed.

Fixpoint nondecreasing (from : Z) (times : list Z) : Prop :=
  match times with [] => True | t :: rest => from <= t /\ nondecreasing t rest end.

Lemma limiter_bound times : forall entry accepted from now,
  nondecreasing from times -> (length entry <= 5)%nat -> now ∈ accepted ++ limiter_run times entry ->
  (forall t, from <= t -> recent t accepted = recent t entry) ->
  (forall t, t ∈ accepted -> t <= from) ->
  (forall t, t ∈ accepted ->
     (length (recent t (upto t accepted)) <= 5)%nat) ->
  (length (recent now (upto now (accepted ++ limiter_run times entry))) <= 5)%nat.
Proof.
  induction times as [|t times IH]; intros entry accepted from now Hmono Hlen Hin Hrec Hle Hold.
  - cbn in *. rewrite app_nil_r in *. by apply Hold.
  - cbn [limiter_run] in *. destruct Hmono as [Hft Hmono].
    rewrite limiter_step_recent in *.
    destruct (Nat.leb_spec 5 (length (recent t entry))) as [Hfull|Hroom].
    + cbn [app] in *. apply (IH _ accepted t); try done.
      * pose proof (recent_length t entry). lia.
      * intros t' Ht'. rewrite recent_recent by lia. apply Hrec. lia.
      * intros t' Ht'. specialize (Hle t' Ht'). lia.
    + rewrite app_assoc in *. apply (IH _ (accepted ++ [t]) t); try done.
      * rewrite length_app. cbn. lia.
      * intros t' Ht'. rewrite !recent_app, recent_recent by lia. by rewrite Hrec by lia.
      * intros t' [Ht'|Ht'%list_elem_of_singleton]%elem_of_app; [|lia]. specialize (Hle t' Ht'). lia.
      * intros t' Ht'. unfold upto, where_ at 1. rewrite List.filter_app. cbn [List.filter].
        destruct (Z.leb_spec t t') as [Htt|Htt].
        -- assert (t' = t) as -> by
             (apply elem_of_app in Ht' as [Ht'|Ht'%list_elem_of_singleton];
              [specialize (Hle t' Ht'); lia | done]).
           rewrite recent_app.
           assert (Hall : List.filter (fun s => s <=? t) accepted = accepted).
           { clear -Hle Hft. induction accepted as [|s l IHl]; cbn; [done|].
             destruct (Z.leb_spec s t) as [|Hgt].
             - f_equal. apply IHl. intros x Hx. apply Hle. by right.
             - specialize (Hle s ltac:(left)). lia. }
           rewrite Hall, Hrec by lia. rewrite length_app.
           pose proof (recent_length t [t]). cbn [length] in *. lia.
        -- rewrite app_nil_r. apply Hold.
           apply elem_of_app in Ht' as [?|Ht'%list_elem_of_singleton]; [done | lia].
Qed.

(** C38: the invite endpoint's rate limit.  For requests of one address in the
    order of their times, from an empty entry, at most five of those let
    through fall into the minute up to and including any one of them. *)
Theorem rate_limit_holds (times : list Z) (from now : Z) :
  nondecreasing from times -> now ∈ limiter_run times [] ->
  (length (recent now (upto now (limiter_run times []))) <= 5)%nat.
Proof.
  intros Hm Hin. apply (limiter_bound times [] [] from now); try done; [cbn; lia | |];
    intros t Ht; by apply not_elem_of_nil in Ht.
Qed.

Lemma rate_limit_holds_witness :
  limiter_run [0; 10; 20; 30; 40; 50; 59; 60; 61] [] = [0; 10; 20; 30; 40; 60] /\
  (length (recent 60 (upto 60
     (limiter_run [0; 10; 20; 30; 40; 50; 59; 60; 61]%Z []))) <= 5)%nat.
Proof.
  split; [reflexivity|].
  apply (rate_limit_holds [0; 10; 20; 30; 40; 50; 59; 60; 61] 0 60).
  - cbn. lia.
  - vm_compute. do 5 right. left.
Defined.

(** ** Slots *)

(** The ids of the invitations the slots still wait for. *)
Definition slot_ids (slots : list DraftPartyEntry) : list Uuid := omap de_invite_id slots.

Lemma resolve_slot_none slots id pk :
  id ∉ slot_ids slots -> resolve_party_slot_pubkey slots id pk = Err NotFound.
Proof.
  induction slots as [|[p i] slots IH]; cbn; [done|]. intros Hni.
  case_bool_decide as E.
  - subst i. exfalso. apply Hni. cbn. left.
  - rewrite IH; [done|]. intros Hin. apply Hni. destruct i; [by right | done].
Qed.

Lemma resolve_slot_Ok slots id pk slots' :
  resolve_party_slot_pubkey slots id pk = Ok slots' ->
  exists l1 p l2, slots = l1 ++ mkEntry p (Some id) :: l2 /\ (id ∉ slot_ids l1) /\
    slots' = l1 ++ mkEntry (Some pk) None :: l2.
Proof.
  revert slots'. induction slots as [|[p i] slots IH]; intros slots'; cbn; [discriminate|].
  case_bool_decide as E.
  - intros [= <-]. cbn in E. subst i. exists [], p, slots. split; [done|]. split; [|done].
    apply not_elem_of_nil.
  - destruct (resolve_party_slot_pubkey slots id pk) as [rest|e]; [|discriminate].
    intros [= <-]. destruct (IH rest eq_refl) as (l1 & p' & l2 & -> & Hni & ->).
    exists (mkEntry p i :: l1), p', l2. split; [done|]. split; [|done].
    unfold slot_ids. cbn. destruct i as [j|]; [|done].
    intros [->|Hin]%elem_of_cons; [by apply E | by apply Hni].
Qed.

Lemma slot_ids_app l1 l2 : slot_ids (l1 ++ l2) = slot_ids l1 ++ slot_ids l2.
Proof. apply omap_app. Qed.

(** Resolving removes one id and adds none. *)
Lemma resolve_slot_ids slots id pk slots' :
  resolve_party_slot_pubkey slots id pk = Ok slots' ->
  slot_ids slots ≡ₚ id :: slot_ids slots' /\ length slots' = length slots.
Proof.
  intros (l1 & p & l2 & -> & _ & ->)%resolve_slot_Ok. rewrite !slot_ids_app. cbn.
  split; [by rewrite Permutation_middle | by rewrite !length_app].
Qed.

(** ** Acceptance *)

Section Accept.
Context `{Ext, Env}.

(** The complete effect of accepting an invitation. *)
Definition accept_effect (invite : PartyInvitationRow) (slots : list DraftPartyEntry) (now : Z)
    (d : Db) : Db :=
  set_drafts (update_where (draft_where (pi_draft_id invite))
      (if all_pubkeys_resolved slots then set_draft_ready (slots_to_value slots) now
       else set_draft_slots (slots_to_value slots)))
    (set_invitations (update_where (fun r => uuid_eqb (pi_id r) (pi_id invite))
       (set_invitation_status "accepted")) d).

(** What an acceptance needs, and the new slots. *)
Definition acceptable (now : Z) (pk token : string) (d : Db) (invite : PartyInvitationRow)
    (draft : AgreementDraftRow) (slots slots' : list DraftPartyEntry) : Prop :=
  invite_by_token token d = Some invite /\ pi_status invite = "pending" /\
  now <= pi_expires_at invite /\ draft_row (pi_draft_id invite) d = Some draft /\
  slots_from_value (ad_party_slots draft) = Some slots /\
  resolve_party_slot_pubkey slots (pi_id invite) pk = Ok slots'.

Lemma validate_Ok st ex now u :
  validate_pending_invitation st ex now = Ok u -> st = "pending" /\ now <= ex.
Proof.
  unfold validate_pending_invitation. destruct (String.eqb_spec st "pending"); cbn; [|discriminate].
  destruct (Z.ltb_spec ex now); [discriminate | done].
Qed.

Lemma accept_body_Ok now pk token w draft_id creator all w' :
  accept_body now pk token w = (Ok (draft_id, creator, all), w') ->
  exists invite draft slots slots',
    acceptable now pk token (w_db w) invite draft slots slots' /\
    draft_id = pi_draft_id invite /\ creator = ad_creator_pubkey draft /\
    all = all_pubkeys_resolved slots' /\
    w_db w' = accept_effect invite slots' now (w_db w) /\ w_effects w' = w_effects w.
Proof.
  unfold accept_body, internal. intros Hr. world_inv. subst.
  match goal with Hv : validate_pending_invitation _ _ _ = Ok _ |- _ =>
    apply validate_Ok in Hv as [Hst Hex] end.
  repeat match goal with Hx : sql _ _ = (Ok ?u, _) |- _ =>
    apply sql_Ok in Hx as (? & Hx & ->) end.
  do 4 eexists. split; [repeat (split; [eassumption|]); eassumption|].
  split; [done|]. split; [done|]. split; [done|].
  match goal with Ha : accept_stmt _ _ _ = _ |- _ =>
    unfold accept_stmt in Ha; rewrite prepared_ok in Ha by reflexivity; injection Ha as _ <- end.
  unfold accept_effect.
  destruct (all_pubkeys_resolved _);
    match goal with Hx : map_err _ _ _ = _ |- _ => rename Hx into Hq end;
    apply map_err_Ok, sql_Ok in Hq as (? & Hq & ->);
    [unfold ready_stmt in Hq | unfold slots_stmt in Hq];
    rewrite prepared_ok in Hq by reflexivity; injection Hq as _ <-; done.
Qed.

(** The tables without the notification queue. *)
Definition core (d : Db) : Db := set_notifications (fun _ => []) d.
Definition same_core (d d' : Db) : Prop := core d' = core d.

#[local] Instance same_core_preorder : PreOrder same_core.
Proof. split; [done | intros x y z Hxy Hyz; unfold same_core in *; congruence]. Qed.

Lemma enqueue_core ty pda who : keeps (on_db same_core) (enqueue_notification ty pda who).
Proof.
  unfold enqueue_notification, internal. keeps_auto.
  apply keeps_sql; [typeclasses eauto|]. apply stmt_keeps_insert_prepared.
  intros t d u d'. destruct pda; [|discriminate]. by intros [= _ <-].
Qed.
Hint Resolve enqueue_core : keeps.

(** C16: accepting an invitation is all or nothing.  Whatever fails, and
    whenever (the connection can be lost between any two statements and at
    the commit), the tables other than the notification queue are either as
    before or show the whole acceptance of a pending, unexpired invitation:
    it is accepted, its slot holds the caller's key, and the draft is ready
    exactly when every slot has a key.  An answer of success means the latter. *)
Theorem accept_invite_atomic (pk token : string) (w w' : World) (r : result AppError unit) :
  accept_invite pk token w = (r, w') ->
  (core (w_db w') = core (w_db w) /\ exists e, r = Err e) \/
  (exists invite draft slots slots',
     acceptable (app_now (w_tick w)) pk token (w_db w) invite draft slots slots' /\
     core (w_db w') = core (accept_effect invite slots' (app_now (w_tick w)) (w_db w))).
Proof.
  unfold accept_invite. erewrite bind_step by reflexivity.
  set (body := accept_body _ pk token).
  destruct (transaction body (tick w)) as [rt w1] eqn:Et.
  pose proof (transaction_cases _ _ _ _ Et) as [[Hdb [e ->]]|(a & w2 & Hm & Hdb & Hr)].
  - erewrite bind_fail by exact Et. intros [= <- <-]. left. rewrite Hdb. eauto.
  - intros Hrun. right. destruct a as [[draft_id creator] all].
    pose proof (accept_body_Ok _ _ _ _ _ _ _ _ Hm)
      as (invite & draft & slots & slots' & Hacc & _ & _ & _ & Hdb2 & _).
    exists invite, draft, slots, slots'. split; [exact Hacc|].
    change (w_db (tick (tick w))) with (w_db w) in Hdb2. rewrite <-Hdb2, <-Hdb.
    destruct Hr as [->|[e ->]]; [|erewrite bind_fail in Hrun by exact Et; by injection Hrun as _ <-].
    erewrite bind_step in Hrun by exact Et.
    match type of Hrun with ?m w1 = _ => assert (Hk : keeps (on_db same_core) m) end.
    { unfold internal. keeps_auto. }
    replace w' with (snd (r, w')) by done. rewrite <-Hrun. exact (Hk w1).
Qed.

(** An invitation that no slot names can never be accepted.  That is the
    fate of every renewed invitation: [reinvite_draft] stores a new id in the
    invitation and leaves the slots alone.  The attempt answers an error and
    changes no table. *)
Theorem unnamed_invitation_rejected (pk token : string) (w w' : World)
    (r : result AppError unit) (invite : PartyInvitationRow) :
  invite_by_token token (w_db w) = Some invite ->
  (forall draft slots, draft_row (pi_draft_id invite) (w_db w) = Some draft ->
     slots_from_value (ad_party_slots draft) = Some slots -> pi_id invite ∉ slot_ids slots) ->
  accept_invite pk token w = (r, w') ->
  core (w_db w') = core (w_db w) /\ exists e, r = Err e.
Proof.
  intros Hinv Hno Hrun. unfold accept_invite in Hrun. erewrite bind_step in Hrun by reflexivity.
  set (body := accept_body _ pk token) in *.
  destruct (transaction body (tick w)) as [rt w1] eqn:Et.
  pose proof (transaction_cases _ _ _ _ Et) as [[Hdb [e ->]]|(a & w2 & Hm & Hdb & Hr)].
  - erewrite bind_fail in Hrun by exact Et. injection Hrun as <- <-. rewrite Hdb. eauto.
  - exfalso. destruct a as [[draft_id creator] all].
    apply accept_body_Ok in Hm as (i & draft & slots & slots' & Hacc & _).
    destruct Hacc as (Hi & _ & _ & Hd & Hs & Hres).
    change (w_db (tick (tick w))) with (w_db w) in *. rewrite Hinv in Hi. injection Hi as <-.
    rewrite resolve_slot_none in Hres by (by eapply Hno). discriminate.
Qed.

Lemma accept_body_run now pk token w invite draft slots slots' :
  db_up_from (w_tick w) -> acceptable now pk token (w_db w) invite draft slots slots' ->
  exists w', accept_body now pk token w =
      (Ok (pi_draft_id invite, ad_creator_pubkey draft, all_pubkeys_resolved slots'), w') /\
    w_db w' = accept_effect invite slots' now (w_db w) /\ (w_tick w <= w_tick w')%nat.
Proof.
  intros Hup (Hinv & Hst & Hex & Hd & Hs & Hres). unfold accept_body, internal.
  erewrite bind_step by (apply map_err_step, sql_query, Hup; done).
  rewrite Hinv. cbn [ok_or]. erewrite bind_step by reflexivity.
  unfold validate_pending_invitation. rewrite Hst.
  rewrite String.eqb_refl. cbn [negb orb]. rewrite (proj2 (Z.ltb_ge _ _)) by done.
  erewrite bind_step by reflexivity.
  erewrite bind_step by (apply map_err_step, sql_query, Hup; cbn; lia).
  change (w_db (tick w)) with (w_db w). rewrite Hd. cbn [ok_or].
  erewrite bind_step by reflexivity. rewrite Hs. cbn [ok_or].
  erewrite bind_step by reflexivity. rewrite Hres. erewrite bind_step by reflexivity.
  erewrite bind_step.
  2:{ apply map_err_step. unfold accept_stmt. rewrite prepared_ok by reflexivity.
      apply sql_execute, Hup. cbn; lia. }
  unfold accept_effect. destruct (all_pubkeys_resolved slots').
  - erewrite bind_step.
    2:{ apply map_err_step. unfold ready_stmt. rewrite prepared_ok by reflexivity.
        apply sql_execute, Hup. cbn; lia. }
    eexists. split; [reflexivity|]. split; [reflexivity|]. cbn; lia.
  - erewrite bind_step.
    2:{ apply map_err_step. unfold slots_stmt. rewrite prepared_ok by reflexivity.
        apply sql_execute, Hup. cbn; lia. }
    eexists. split; [reflexivity|]. split; [reflexivity|]. cbn; lia.
Qed.

Lemma enqueue_run ty pda who w :
  db_up_from (w_tick w) ->
  exists w', enqueue_notification ty (Some pda) who w = (Ok tt, w') /\
    core (w_db w') = core (w_db w) /\ (w_tick w <= w_tick w')%nat.
Proof.
  intros Hup. unfold enqueue_notification, internal.
  erewrite bind_step by reflexivity. erewrite bind_step by reflexivity.
  eexists. split; [apply map_err_step, sql_up; [apply Hup; cbn; lia|]|].
  - unfold insert_notification_stmt. rewrite insert_prepared_ok by reflexivity. reflexivity.
  - split; [reflexivity | cbn; lia].
Qed.

(** With the database up an acceptance that may be made is made. *)
Lemma accept_invite_run pk token w invite draft slots slots' :
  db_up_from (w_tick w) ->
  acceptable (app_now (w_tick w)) pk token (w_db w) invite draft slots slots' ->
  exists w', accept_invite pk token w = (Ok tt, w') /\
    core (w_db w') = core (accept_effect invite slots' (app_now (w_tick w)) (w_db w)) /\
    (w_tick w <= w_tick w')%nat.
Proof.
  intros Hup Hacc.
  destruct (accept_body_run (app_now (w_tick w)) pk token (tick (tick w)) invite draft slots slots')
    as (w1 & Hb & Hdb & Ht); [intros k Hk; apply Hup; cbn in Hk; lia | exact Hacc |].
  assert (Htr : transaction (accept_body (app_now (w_tick w)) pk token) (tick w) =
    (Ok (pi_draft_id invite, ad_creator_pubkey draft, all_pubkeys_resolved slots'), tick w1)).
  { unfold transaction. rewrite Hup by (cbn; lia). rewrite Hb. by rewrite Hup by (cbn in Ht; lia). }
  change (w_db (tick (tick w))) with (w_db w) in Hdb. rewrite <-Hdb. cbn in Ht.
  unfold accept_invite, internal. erewrite bind_step by reflexivity.
  erewrite bind_step by exact Htr.
  destruct (all_pubkeys_resolved slots'); [|exists (tick w1); cbn; split; [done|]; split; [done | lia]].
  erewrite bind_step by (apply map_err_step, sql_query, Hup; cbn; lia).
  destruct (wallet_user _ _) as [u|]; [|eexists; split; [reflexivity|]; split; [done | cbn; lia]].
  unfold send_to_user, bind at 1.
  destruct (bool_decide _); [eexists; split; [reflexivity|]; split; [done | cbn; lia]|].
  destruct (enqueue_run "DraftReadyToSubmit" (uuid_to_string (pi_draft_id invite))
    (ad_creator_pubkey draft) (tick (tick (tick w1)))) as (w' & He & Hc & Hk).
  { intros k Hk. apply Hup. cbn in Hk. lia. }
  exists w'. split; [exact He|]. split; [exact Hc|]. cbn in Hk. lia.
Qed.

(** The last acceptance makes a draft ready whatever its status was.  With
    the database up, accepting the invitation that fills the last slot
    succeeds and leaves the draft ready to submit, also when its creator had
    discarded it. *)
Theorem accept_makes_ready (pk token : string) (w : World) (invite : PartyInvitationRow)
    (draft : AgreementDraftRow) (slots slots' : list DraftPartyEntry) :
  db_up_from (w_tick w) ->
  acceptable (app_now (w_tick w)) pk token (w_db w) invite draft slots slots' ->
  all_pubkeys_resolved slots' = true ->
  exists w', accept_invite pk token w = (Ok tt, w') /\
    forall r, r ∈ db_drafts (w_db w') -> ad_id r = pi_draft_id invite ->
      ad_status r = "ready_to_submit" /\ ad_party_slots r = slots_to_value slots'.
Proof.
  intros Hup Hacc Hall.
  destruct (accept_invite_run _ _ _ _ _ _ _ Hup Hacc) as (w' & Hw' & Hcore & _).
  exists w'. split; [exact Hw'|]. intros r Hr Hid.
  apply (f_equal db_drafts) in Hcore. change (db_drafts (core ?d)) with (db_drafts d) in Hcore.
  rewrite Hcore in Hr. unfold accept_effect in Hr. rewrite Hall in Hr. cbn in Hr.
  apply elem_of_update_where in Hr as (x & _ & ->).
  destruct (draft_where (pi_draft_id invite) x) eqn:Ex; [done|].
  unfold draft_where, uuid_eqb in Ex. by rewrite bool_decide_eq_true_2 in Ex.
Qed.
End Accept.

(** *** Witnesses *)

(** A draft waiting for one invited party, discarded by its creator, and a
    renewed invitation no slot names. *)
Definition invitation_demo (id : byte) (token : string) : PartyInvitationRow :=
  mkPartyInvitation (uid id) (uid x05) [] [] [] token "pending" None 0 0 5000.

Definition draft_waiting (st : string) : AgreementDraftRow :=
  mkAgreementDraft (uid x05) "alice" JNull
    (@slots_to_value ext_demo [mkEntry (Some "alice") None; mkEntry None (Some (uid x08))])
    st 0 None true None false None None.

Definition db_invited (st : string) : Db :=
  set_invitations (fun _ => [invitation_demo x08 "t1"; invitation_demo x09 "t2"])
    (set_drafts (fun _ => [draft_waiting st]) db_empty).

Lemma acceptable_demo :
  @acceptable ext_demo 1000 "bob" "t1" (db_invited "discarded") (invitation_demo x08 "t1")
    (draft_waiting "discarded") [mkEntry (Some "alice") None; mkEntry None (Some (uid x08))]
    [mkEntry (Some "alice") None; mkEntry (Some "bob") None].
Proof.
  split; [reflexivity|]. split; [reflexivity|]. split; [cbn; lia|].
  split; [vm_compute; reflexivity|]. split; vm_compute; reflexivity.
Qed.

Lemma accept_makes_ready_witness :
  exists w', @accept_invite ext_demo env_demo "bob" "t1" (world_demo (db_invited "discarded"))
      = (Ok tt, w') /\
    forall r, r ∈ db_drafts (w_db w') -> ad_id r = uid x05 -> ad_status r = "ready_to_submit".
Proof.
  destruct (@accept_makes_ready ext_demo env_demo "bob" "t1" (world_demo (db_invited "discarded"))
    (invitation_demo x08 "t1") (draft_waiting "discarded")
    [mkEntry (Some "alice") None; mkEntry None (Some (uid x08))]
    [mkEntry (Some "alice") None; mkEntry (Some "bob") None]) as (w' & E & Hr).
  - intros k _. reflexivity.
  - exact acceptable_demo.
  - reflexivity.
  - exists w'. split; [exact E|]. intros r Hin Hid. by apply (Hr r Hin Hid).
Defined.

Lemma unnamed_invitation_rejected_witness :
  exists r w', @accept_invite ext_demo env_demo "bob" "t2"
      (world_demo (db_invited "awaiting_party_wallets")) = (r, w') /\ exists e, r = Err e.
Proof.
  destruct (@accept_invite ext_demo env_demo "bob" "t2"
      (world_demo (db_invited "awaiting_party_wallets"))) as [r w'] eqn:E.
  exists r, w'. split; [reflexivity|].
  apply (@unnamed_invitation_rejected ext_demo env_demo "bob" "t2"
      (world_demo (db_invited "awaiting_party_wallets")) w' r (invitation_demo x09 "t2")).
  - vm_compute. reflexivity.
  - intros draft slots Hd Hs. vm_compute in Hd. injection Hd as <-. vm_compute in Hs.
    injection Hs as <-. apply (bool_decide_unpack _). vm_compute. exact I.
  - exact E.
Defined.

Lemma accept_invite_atomic_witness :
  exists r w', @accept_invite ext_demo env_demo "bob" "t1"
      (world_demo (db_invited "awaiting_party_wallets")) = (r, w') /\
    ((core (w_db w') = core (db_invited "awaiting_party_wallets") /\ exists e, r = Err e) \/
     exists invite draft slots slots',
       @acceptable ext_demo 1000 "bob" "t1" (db_invited "awaiting_party_wallets")
         invite draft slots slots' /\
       core (w_db w') = core (@accept_effect ext_demo invite slots' 1000
                                (db_invited "awaiting_party_wallets"))).
Proof.
  destruct (@accept_invite ext_demo env_demo "bob" "t1"
      (world_demo (db_invited "awaiting_party_wallets"))) as [r w'] eqn:E.
  exists r, w'. split; [reflexivity|].
  exact (@accept_invite_atomic ext_demo env_demo "bob" "t1"
      (world_demo (db_invited "awaiting_party_wallets")) w' r E).
Defined.
