(* ===== verification/Amounts.v ===== *)
(** * Amounts: the arithmetic and the texts of payments

    The refund share of src/src/services/refund.rs, the price of
    src/src/handlers/payment.rs and the Solana Pay links of
    src/src/services/solana_pay.rs: bounds and rounding of the computations,
    and the round trips of the amount and URL texts. *)

From Stdlib Require Import ZArith NArith Lia.
From Stdlib Require Import Strings.Byte Strings.Ascii Strings.String.
From Stdlib Require Import DecimalString DecimalN DecimalPos.
From stdpp Require Import base tactics decidable option list strings.
From S2P Require Import Prelude Text.

Open Scope string_scope.
Open Scope list_scope.
Open Scope Z_scope.

(** ** Definitions *)

(** [calculate_refund_amount(paid_units: u64, nonrefundable_cents: u32,
    total_fee_cents: u32) -> u64] *)
Definition calculate_refund_amount (paid_units nonrefundable_cents total_fee_cents : Z) : Z :=
  if (total_fee_cents =? 0) || (paid_units =? 0) then 0
  else
    let refundable_cents := u_sat_sub total_fee_cents nonrefundable_cents in
    u64_wrap (paid_units * refundable_cents) / total_fee_cents.

(** [cents_to_token_units(cents: u32, decimals: u8) -> i64]: [10i64.pow(d)] and
    the product wrap. *)
Definition cents_to_token_units (cents decimals : Z) : Z :=
  let factor := i64_wrap (10 ^ decimals) in
  Z.quot (i64_wrap (cents * factor)) 100.

(** [format!("{fractional:06}")] *)
Definition pad_left (width : nat) (s : string) : string :=
  string_of_list_ascii (repeat "0"%char (width - String.length s)) +:+ s.

(** [while frac.ends_with('0') { frac.pop(); }] *)
Fixpoint strip_zeros_rev (l : list ascii) : list ascii :=
  match l with
  | "0"%char :: l' => strip_zeros_rev l'
  | _ => l
  end.
Definition strip_trailing_zeros (s : string) : string :=
  string_of_list_ascii (rev (strip_zeros_rev (rev (list_ascii_of_string s)))).

(** [format_amount_6dp(amount_units: i64)] *)
Definition format_amount_6dp (amount_units : Z) : string :=
  let sign := if amount_units <? 0 then "-" else "" in
  let abs := Z.abs amount_units in
  let whole := abs / 1000000 in
  let fractional := abs mod 1000000 in
  if fractional =? 0 then sign +:+ dec_of_N (Z.to_N whole)
  else sign +:+ dec_of_N (Z.to_N whole) +:+ "." +:+
       strip_trailing_zeros (pad_left 6 (dec_of_N (Z.to_N fractional))).

(** [format!("{byte:02X}")] *)
Definition hex_digit (n : nat) : ascii :=
  if (n <? 10)%nat then ascii_of_nat (48 + n) else ascii_of_nat (55 + n).
Definition hex_byte (c : ascii) : string :=
  String (hex_digit (nat_of_ascii c / 16)) (String (hex_digit (nat_of_ascii c mod 16)) EmptyString).

Definition is_unreserved (c : ascii) : bool :=
  is_ascii_alphanumeric c || Ascii.eqb c "-" || Ascii.eqb c "_" || Ascii.eqb c "."
  || Ascii.eqb c "~".

(** [percent_encode_minimal] *)
Fixpoint percent_encode_minimal (input : string) : string :=
  match input with
  | EmptyString => EmptyString
  | String c rest =>
      if is_unreserved c then String c (percent_encode_minimal rest)
      else String "%" (hex_byte c +:+ percent_encode_minimal rest)
  end.

Definition build_solana_pay_url (treasury_ata : string) (amount_units : Z)
    (mint reference label memo : string) : string :=
  "solana:" +:+ treasury_ata +:+ "?amount=" +:+ format_amount_6dp amount_units
  +:+ "&spl-token=" +:+ mint +:+ "&reference=" +:+ reference
  +:+ "&label=" +:+ percent_encode_minimal label
  +:+ "&memo=" +:+ percent_encode_minimal memo.

(** ** Refund amounts *)

(** [calculate_refund_amount] without overflow.  When the product of the
    paid units and the fee fits 64 bits, the refund is the paid amount times
    the refundable share, rounded down; it never exceeds what was paid, it is
    the whole payment when nothing is retained, and nothing when all of the fee
    is retained. *)
Theorem calculate_refund_amount_spec (paid nonref total : Z) :
  0 <= paid -> 0 <= nonref -> 0 < total -> paid * total < two64 ->
  calculate_refund_amount paid nonref total = paid * Z.max 0 (total - nonref) / total /\
  0 <= calculate_refund_amount paid nonref total <= paid /\
  (nonref = 0 -> calculate_refund_amount paid nonref total = paid) /\
  (total <= nonref -> calculate_refund_amount paid nonref total = 0).
Proof.
  intros Hp Hn Ht Hb. unfold calculate_refund_amount, u_sat_sub.
  destruct (Z.eqb_spec total 0) as [->|_]; [lia|]. cbn [orb].
  assert (Hm : 0 <= Z.max 0 (total - nonref) <= total) by lia.
  assert (Hu : u64_wrap (paid * Z.max 0 (total - nonref)) = paid * Z.max 0 (total - nonref)).
  { apply u64_wrap_id. unfold in_u64. nia. }
  assert (Hle : 0 <= paid * Z.max 0 (total - nonref) / total <= paid).
  { split; [apply Z.div_pos; nia|]. apply Z.div_le_upper_bound; nia. }
  destruct (Z.eqb_spec paid 0) as [->|_].
  - rewrite Z.mul_0_l, Z.div_0_l by lia. lia.
  - rewrite Hu. repeat split; try lia; intros Hc.
    + rewrite Hc, Z.sub_0_r, Z.max_r, Z.div_mul; lia.
    + rewrite Z.max_l, Z.mul_0_r, Z.div_0_l; lia.
Qed.

Lemma calculate_refund_amount_spec_witness :
  calculate_refund_amount 1990000 99 199 = 1000000 /\
  calculate_refund_amount 1990000 99 199 = 1990000 * Z.max 0 (199 - 99) / 199.
Proof.
  split; [reflexivity|].
  apply (calculate_refund_amount_spec 1990000 99 199); [lia | lia | lia | reflexivity].
Defined.

(** The price in token units is exact.  For a price in the range of [u32]
    cents and a token with at most eight decimals, [cents_to_token_units] does
    not overflow and is [cents * 10^decimals / 100], which is lossless for the
    stablecoins (at least two decimals). *)
Theorem cents_to_token_units_spec (cents decimals : Z) :
  in_u32 cents -> 0 <= decimals <= 8 ->
  cents_to_token_units cents decimals = cents * 10 ^ decimals / 100 /\
  0 <= cents_to_token_units cents decimals < 9223372036854775808 /\
  (2 <= decimals -> cents_to_token_units cents decimals * 100 = cents * 10 ^ decimals).
Proof.
  intros Hc Hd. unfold in_u32 in Hc. unfold cents_to_token_units.
  assert (Hf : 1 <= 10 ^ decimals <= 10 ^ 8).
  { split; [|apply Z.pow_le_mono_r; lia].
    pose proof (Z.pow_pos_nonneg 10 decimals). lia. }
  change (10 ^ 8) with 100000000 in Hf.
  rewrite (i64_wrap_id (10 ^ decimals)) by (unfold in_i64; lia).
  rewrite i64_wrap_id by (unfold in_i64; nia).
  rewrite Z.quot_div_nonneg by nia.
  split; [done|]. split.
  - split; [apply Z.div_pos; nia|]. apply Z.div_lt_upper_bound; nia.
  - intros H2. replace decimals with (2 + (decimals - 2)) by lia.
    rewrite Z.pow_add_r by lia. change (10 ^ 2) with 100.
    rewrite (Z.mul_comm 100), Z.mul_assoc, Z.div_mul; lia.
Qed.

Lemma cents_to_token_units_spec_witness :
  cents_to_token_units 199 6 = 1990000 /\ cents_to_token_units 199 6 * 100 = 199 * 10 ^ 6.
Proof.
  split; [reflexivity|].
  apply (cents_to_token_units_spec 199 6); unfold in_u32; lia.
Defined.

(** ** The amount of a Solana Pay link *)

(** Reading such an amount back. *)
Definition pad_right (width : nat) (s : string) : string :=
  s +:+ string_of_list_ascii (repeat "0"%char (width - String.length s)).

Definition parse_unsigned_6dp (s : string) : option Z :=
  match split_once "." s with
  | None => n ← N_of_dec s; Some (Z.of_N n * 1000000)
  | Some (w, f) =>
      n ← N_of_dec w; m ← N_of_dec (pad_right 6 f);
      Some (Z.of_N n * 1000000 + Z.of_N m)
  end.

Definition parse_amount_6dp (s : string) : option Z :=
  match s with
  | String "-" r => option_map Z.opp (parse_unsigned_6dp r)
  | _ => parse_unsigned_6dp s
  end.

(** *** Decimal digits *)

#[local] Arguments Ascii.eqb : simpl never.
#[local] Arguments String.append !_ _ : simpl nomatch.

Lemma uint_no_char c d :
  is_ascii_digit c = false -> str_contains c (NilEmpty.string_of_uint d) = false.
Proof.
  intros Hc. assert (Hne : forall x, is_ascii_digit x = true -> Ascii.eqb c x = false).
  { intros x Hx. apply Ascii.eqb_neq. intros ->. congruence. }
  induction d; cbn; rewrite ?IHd, ?Hne; done.
Qed.

Lemma dec_no_char c n : is_ascii_digit c = false -> str_contains c (dec_of_N n) = false.
Proof. apply uint_no_char. Qed.

Lemma N_of_dec_zeros k s :
  N_of_dec (string_of_list_ascii (repeat "0"%char k) +:+ s) = N_of_dec s.
Proof.
  induction k as [|k IH]; cbn; [done|]. rewrite <-IH. unfold N_of_dec; cbn.
  by destruct (NilEmpty.uint_of_string _).
Qed.

Lemma uint_length d : String.length (NilEmpty.string_of_uint d) = Decimal.nb_digits d.
Proof. induction d; cbn; auto. Qed.

Lemma of_uint_acc_lower d acc :
  (Z.pos acc * 10 ^ Z.of_nat (Decimal.nb_digits d) <= Z.pos (Pos.of_uint_acc d acc)).
Proof.
  revert acc. induction d; intros acc; [cbn; lia|..];
    cbn [Decimal.nb_digits Pos.of_uint_acc]; rewrite Nat2Z.inj_succ, Z.pow_succ_r by lia;
    etransitivity; [| apply IHd | | apply IHd | | apply IHd | | apply IHd | | apply IHd
                    | | apply IHd | | apply IHd | | apply IHd | | apply IHd | | apply IHd];
    pose proof (Z.pow_nonneg 10 (Z.of_nat (Decimal.nb_digits d))); nia.
Qed.

Lemma dec_length_upper n k :
  (Z.of_N n < 10 ^ Z.of_nat (S k)) -> (String.length (dec_of_N n) <= S k)%nat.
Proof.
  intros Hn. unfold dec_of_N. rewrite uint_length.
  destruct (decide (Decimal.nb_digits (N.to_uint n) <= S k)%nat) as [|Hgt]; [done|].
  exfalso. assert (Hof : N.of_uint (N.to_uint n) = n) by apply DecimalN.Unsigned.of_to.
  assert (Hlow : forall d p, (S k < S (Decimal.nb_digits d))%nat -> n = Npos (Pos.of_uint_acc d p) -> False).
  { intros d p Hd ->. pose proof (of_uint_acc_lower d p) as Hl.
    assert (10 ^ Z.of_nat (S k) <= 10 ^ Z.of_nat (Decimal.nb_digits d)).
    { apply Z.pow_le_mono_r; lia. }
    pose proof (Z.pow_nonneg 10 (Z.of_nat (Decimal.nb_digits d)) ltac:(lia)). cbn in Hn. nia. }
  destruct n as [|p]; [cbn in Hgt; lia|].
  pose proof (DecimalPos.Unsigned.to_uint_nonnil p) as Hnn.
  pose proof (DecimalN.Unsigned.to_of (N.to_uint (N.pos p))) as Hto.
  rewrite Hof in Hto.
  destruct (N.to_uint (N.pos p)) as [|d|d|d|d|d|d|d|d|d|d] eqn:Ed; cbn in Hof, Hgt;
    try (eapply Hlow; [|symmetry; exact Hof]; lia).
  - done.
  - cbn in Hto. unfold Decimal.unorm in Hto. cbn in Hto.
    destruct (Decimal.nzhead d) eqn:Enz; try discriminate.
    + injection Hto as Hto. rewrite Hto in Hgt. cbn in Hgt. lia.
    + by apply DecimalFacts.nzhead_nonzero in Enz.
Qed.

(** *** Padding *)

Lemma soa_app l1 l2 :
  string_of_list_ascii (l1 ++ l2) = string_of_list_ascii l1 +:+ string_of_list_ascii l2.
Proof. induction l1 as [|c l1 IH]; cbn; [done|]. by rewrite IH. Qed.

Lemma soa_length l : String.length (string_of_list_ascii l) = length l.
Proof. induction l; cbn; auto. Qed.

Lemma strip_zeros_rev_spec l :
  exists k, l = repeat "0"%char k ++ strip_zeros_rev l.
Proof.
  induction l as [|c l [k IH]]; [by exists O|].
  destruct (Ascii.ascii_dec c "0") as [->|Hc].
  - exists (S k). cbn. by rewrite <-IH.
  - exists O. cbn. by destruct c as [[] [] [] [] [] [] [] []].
Qed.

(** Padding on the right restores the zeros that were stripped. *)
Lemma pad_right_strip s n :
  String.length s = n -> pad_right n (strip_trailing_zeros s) = s.
Proof.
  intros Hn. unfold pad_right, strip_trailing_zeros. rewrite soa_length, <-soa_app.
  destruct (strip_zeros_rev_spec (rev (list_ascii_of_string s))) as [k Hk].
  rewrite <-(string_of_list_ascii_of_string s) at 3. f_equal.
  assert (Hr : list_ascii_of_string s =
    rev (strip_zeros_rev (rev (list_ascii_of_string s))) ++ repeat "0"%char k).
  { rewrite <-(rev_involutive (list_ascii_of_string s)) at 1. rewrite Hk at 1.
    rewrite rev_app_distr. f_equal. clear. induction k as [|k IH]; cbn; [done|].
    rewrite IH. clear IH. induction k as [|k IH]; cbn; [done|]. by rewrite IH. }
  rewrite Hr at 3. do 2 f_equal.
  assert (Hl : length (list_ascii_of_string s) = n).
  { rewrite <-Hn, <-soa_length. by rewrite string_of_list_ascii_of_string. }
  rewrite Hr, length_app, repeat_length in Hl. lia.
Qed.

Lemma append_length a b : String.length (a +:+ b) = (String.length a + String.length b)%nat.
Proof. induction a as [|c a IH]; cbn; [done|]. by rewrite IH. Qed.

Lemma pad_left_length width s :
  (String.length s <= width)%nat -> String.length (pad_left width s) = width.
Proof.
  intros Hs. unfold pad_left. rewrite append_length, soa_length, repeat_length. lia.
Qed.

Lemma str_contains_cons_not c d s :
  str_contains c (String d s) = false -> d <> c.
Proof. cbn. intros Hs ->. by rewrite Ascii.eqb_refl in Hs. Qed.

Lemma parse_unsigned_format z :
  0 <= z ->
  parse_unsigned_6dp
    (if z mod 1000000 =? 0 then dec_of_N (Z.to_N (z / 1000000))
     else dec_of_N (Z.to_N (z / 1000000)) +:+ "." +:+
          strip_trailing_zeros (pad_left 6 (dec_of_N (Z.to_N (z mod 1000000))))) = Some z.
Proof.
  intros Hz. pose proof (Z.div_mod z 1000000 ltac:(lia)) as Hdm.
  pose proof (Z.mod_pos_bound z 1000000 ltac:(lia)) as Hm.
  pose proof (Z.div_pos z 1000000 Hz ltac:(lia)) as Hd.
  unfold parse_unsigned_6dp. destruct (Z.eqb_spec (z mod 1000000) 0) as [E|E].
  - destruct (split_once "." _) as [[a b]|] eqn:Es.
    + apply split_once_Some in Es as [Es _].
      pose proof (dec_no_char "." (Z.to_N (z / 1000000)) eq_refl) as Hn.
      rewrite Es in Hn. exfalso. clear -Hn.
      induction a as [|c a IH]; cbn in Hn; [by rewrite Ascii.eqb_refl in Hn|].
      apply orb_false_elim in Hn as [_ Hn]. auto.
    + rewrite N_of_dec_of_N. cbn. f_equal. lia.
  - rewrite (proj2 (split_once_Some "." _ (dec_of_N (Z.to_N (z / 1000000)))
      (strip_trailing_zeros (pad_left 6 (dec_of_N (Z.to_N (z mod 1000000))))))).
    + rewrite N_of_dec_of_N, pad_right_strip.
      * unfold pad_left. rewrite N_of_dec_zeros, N_of_dec_of_N. cbn. f_equal. lia.
      * apply pad_left_length, dec_length_upper. cbn. lia.
    + split; [done | by apply dec_no_char].
Qed.

(** The amount text of a Solana Pay link is exact: for every 64-bit amount
    of token units, reading the text that [format_amount_6dp] writes gives the
    amount back.  In particular two different amounts never share a text. *)
Theorem format_amount_6dp_roundtrip (z : Z) :
  parse_amount_6dp (format_amount_6dp z) = Some z.
Proof.
  unfold format_amount_6dp. destruct (Z.ltb_spec z 0) as [Hz|Hz].
  - cbv zeta. pose proof (parse_unsigned_format (Z.abs z) ltac:(lia)) as Hp.
    destruct (_ =? 0); cbn [String.append] in *; unfold parse_amount_6dp;
      rewrite Hp; cbn; f_equal; lia.
  - cbv zeta. pose proof (parse_unsigned_format (Z.abs z) ltac:(lia)) as Hp.
    pose proof (dec_no_char "-" (Z.to_N (Z.abs z / 1000000)) eq_refl) as Hn.
    rewrite (Z.abs_eq z) in * by lia.
    destruct (_ =? 0); cbn [String.append]; unfold parse_amount_6dp;
      destruct (dec_of_N (Z.to_N (z / 1000000))) as [|c s]; cbn [String.append] in *;
      try exact Hp; apply str_contains_cons_not in Hn;
      destruct c as [[] [] [] [] [] [] [] []]; try exact Hp; done.
Qed.

(** ** Percent encoding *)

Definition percent_decode_step (dec : string -> option string) (s : string) : option string :=
  match s with
  | EmptyString => Some EmptyString
  | String "%" (String a (String b r)) =>
      let val c := let n := nat_of_ascii c in
                   if (n <? 58)%nat then (n - 48)%nat else (n - 55)%nat in
      option_map (String (ascii_of_nat (16 * val a + val b))) (dec r)
  | String "%" _ => None
  | String c r => option_map (String c) (dec r)
  end.

Fixpoint percent_decode (fuel : nat) (s : string) : option string :=
  match fuel with O => None | S f => percent_decode_step (percent_decode f) s end.

Lemma percent_decode_plain dec c s :
  is_unreserved c = true ->
  percent_decode_step dec (String c s) = option_map (String c) (dec s).
Proof. destruct c as [[] [] [] [] [] [] [] []]; try discriminate; reflexivity. Qed.

Lemma percent_decode_hex dec c s :
  percent_decode_step dec (String "%" (hex_byte c +:+ s)) = option_map (String c) (dec s).
Proof. destruct c as [[] [] [] [] [] [] [] []]; reflexivity. Qed.

(** The characters of an encoded text. *)
Definition url_safe (c : ascii) : bool := is_unreserved c || Ascii.eqb c "%".

Lemma hex_byte_safe c : string_forallb url_safe (hex_byte c) = true.
Proof. destruct c as [[] [] [] [] [] [] [] []]; reflexivity. Qed.

Lemma string_forallb_app p a b :
  string_forallb p (a +:+ b) = string_forallb p a && string_forallb p b.
Proof. induction a as [|c a IH]; cbn; [done|]. by rewrite IH, andb_assoc. Qed.

(** Labels and memos survive percent encoding.  Decoding the encoded text
    gives the text back, and the encoded text holds only unreserved characters
    and percent signs, so it cannot break the query string of the link. *)
Theorem percent_encode_roundtrip (s : string) :
  percent_decode (S (String.length s)) (percent_encode_minimal s) = Some s /\
  string_forallb url_safe (percent_encode_minimal s) = true.
Proof.
  induction s as [|c s [IH1 IH2]]; [done|].
  change (percent_encode_minimal (String c s)) with
    (if is_unreserved c then String c (percent_encode_minimal s)
     else String "%" (hex_byte c +:+ percent_encode_minimal s)).
  change (String.length (String c s)) with (S (String.length s)).
  cbn [percent_decode]. destruct (is_unreserved c) eqn:E.
  - rewrite percent_decode_plain by done. cbn [percent_decode] in IH1. rewrite IH1.
    split; [done|]. cbn [string_forallb]. unfold url_safe at 1. by rewrite E.
  - rewrite percent_decode_hex. cbn [percent_decode] in IH1. rewrite IH1.
    split; [done|]. cbn [string_forallb]. rewrite string_forallb_app, hex_byte_safe. done.
Qed.
