(* ===== verification/Payments.v ===== *)
(** * Payments: initiation, confirmation, expiry and refunds

    src/src/handlers/payment.rs, src/src/services/solana_pay.rs,
    src/src/services/refund.rs, src/src/workers/refund_worker.rs, the payment
    scans of src/src/workers/keeper.rs and the refund trigger of
    src/src/workers/event_listener.rs. *)

From Stdlib Require Import ZArith Lia.
From Stdlib Require Import Strings.Byte Strings.Ascii Strings.String.
From Stdlib Require Import Floats.SpecFloat.
From stdpp Require Import base tactics decidable option list strings gmap.
From S2P Require Import Prelude Text Errors Borsh SolanaTypes Health World Amounts.

Open Scope string_scope.
Open Scope list_scope.
Open Scope Z_scope.

(** ** Doubles *)

(** [a as f64 / b] on IEEE doubles *)
Definition f64_of_Z (z : Z) : spec_float := binary_normalize 53 1024 z 0 false.
Definition f64_div (a b : spec_float) : spec_float := SFdiv 53 1024 a b.

(** ** Statements *)

Definition set_py_status (st : string) (r : AgreementPaymentRow) : AgreementPaymentRow :=
  mkAgreementPayment (py_id r) (py_draft_id r) (py_user_id r) (py_method r) st
    (py_usd_amount_cents r) (py_token_reference_pubkey r) (py_token_mint r)
    (py_token_amount r) (py_token_tx_signature r) (py_refund_amount r)
    (py_refund_tx_signature r) (py_refund_initiated_at r) (py_refund_completed_at r)
    (py_created_at r) (py_confirmed_at r) (py_agreement_pda r).

Definition py_is (st : string) (r : AgreementPaymentRow) : bool := String.eqb (py_status r) st.

(** The unique index on [token_tx_signature]. *)
Fixpoint tx_sigs_unique (t : list AgreementPaymentRow) : bool :=
  match t with
  | [] => true
  | r :: t' =>
      match py_token_tx_signature r with
      | Some s => negb (exists_row (fun r' => sql_eq (py_token_tx_signature r') s) t')
      | None => true
      end && tx_sigs_unique t'
  end.

Definition confirm_row (now : Z) (tx_signature mint : string) (amount : Z)
    (r : AgreementPaymentRow) : AgreementPaymentRow :=
  mkAgreementPayment (py_id r) (py_draft_id r) (py_user_id r) (py_method r) "confirmed"
    (py_usd_amount_cents r) (py_token_reference_pubkey r) (Some mint) (Some amount)
    (Some tx_signature) (py_refund_amount r) (py_refund_tx_signature r)
    (py_refund_initiated_at r) (py_refund_completed_at r) (py_created_at r)
    (Some (epoch_bigint now)) (py_agreement_pda r).

Definition confirm_where (reference : string) (r : AgreementPaymentRow) : bool :=
  sql_eq (py_token_reference_pubkey r) reference && py_is "pending" r.

Definition confirm_stmt (reference tx_signature mint : string) (amount : Z)
    : Stmt (option Uuid) :=
  prepared T_agreement_payments
    ["status"; "token_tx_signature"; "token_mint"; "token_amount"; "confirmed_at"]
    (fun now d =>
      let t := update_where (confirm_where reference)
                 (confirm_row now tx_signature mint amount) (db_payments d) in
      if tx_sigs_unique t
      then Some (fetch_optional (map py_id (where_ (confirm_where reference) (db_payments d))),
                 set_payments (fun _ => t) d)
      else None).

(** [UPDATE .. SET status = 'refund_pending', refund_initiated_at = now WHERE id = $1] *)
Definition refund_pending_row (now : Z) (r : AgreementPaymentRow) : AgreementPaymentRow :=
  mkAgreementPayment (py_id r) (py_draft_id r) (py_user_id r) (py_method r) "refund_pending"
    (py_usd_amount_cents r) (py_token_reference_pubkey r) (py_token_mint r)
    (py_token_amount r) (py_token_tx_signature r) (py_refund_amount r)
    (py_refund_tx_signature r) (Some (epoch_bigint now)) (py_refund_completed_at r)
    (py_created_at r) (py_confirmed_at r) (py_agreement_pda r).

Definition mark_refund_pending_stmt (id : Uuid) : Stmt unit :=
  prepared T_agreement_payments ["status"; "refund_initiated_at"]
    (execute (fun now => set_payments
      (update_where (fun r => uuid_eqb (py_id r) id) (refund_pending_row now)))).

Definition refunded_row (sig : string) (at_ : Z) (r : AgreementPaymentRow) : AgreementPaymentRow :=
  mkAgreementPayment (py_id r) (py_draft_id r) (py_user_id r) (py_method r) "refunded"
    (py_usd_amount_cents r) (py_token_reference_pubkey r) (py_token_mint r)
    (py_token_amount r) (py_token_tx_signature r) (py_refund_amount r)
    (Some sig) (py_refund_initiated_at r) (Some at_)
    (py_created_at r) (py_confirmed_at r) (py_agreement_pda r).

Definition expire_payments_stmt (threshold : Z) : Stmt unit :=
  prepared T_agreement_payments ["status"] (execute (fun _ => set_payments
    (update_where (fun r => py_is "pending" r && (py_created_at r <? threshold))
      (set_py_status "expired")))).

Definition mark_refunded_stmt (id : Uuid) (sig : string) (at_ : Z) : Stmt unit :=
  prepared T_agreement_payments ["status"; "refund_tx_signature"; "refund_completed_at"]
    (execute (fun _ => set_payments
      (update_where (fun r => uuid_eqb (py_id r) id && py_is "refund_pending" r)
         (refunded_row sig at_)))).

(** Responses of the payment endpoints. *)
Inductive InitiatePaymentResponse : Type :=
| Free
| Pending (method token_mint treasury_ata : string) (amount_units : Z)
    (usd_equivalent : spec_float) (reference_pubkey solana_pay_url : string).

(** A row of the pending-refund query: a payment joined with one party row of
    its agreement. *)
Definition RefundRow : Type := AgreementPaymentRow * AgreementPartyRow.

(** [ORDER BY refund_initiated_at ASC]: NULL sorts last, above every BIGINT. *)
Definition refund_order (r : RefundRow) : Z :=
  default 9223372036854775808 (py_refund_initiated_at (fst r)).

Definition joined_refunds (d : Db) : list RefundRow :=
  flat_map (fun p => map (fun a => (p, a))
      (where_ (fun a => sql_eq (py_agreement_pda p) (ap_agreement_pda a)) (db_parties d)))
    (where_ (py_is "refund_pending") (db_payments d)).

Definition pending_refunds (d : Db) : list RefundRow :=
  take 10 (order_by refund_order (joined_refunds d)).

Section Handlers.
Context `{Ext, Env} (cfg : AppState).

(** ** src/src/services/solana_pay.rs *)

(** A placeholder: no payment is ever found. *)
Definition poll_payment_confirmation (_reference_pubkey : Pubkey)
    : option (string * string * Z) := None.

Definition confirm_payment_atomic (reference tx_signature token_mint : string)
    (token_amount : Z) : M World AppError bool :=
  let* row := internal (sql (confirm_stmt reference tx_signature token_mint token_amount)) in
  ret (match row with Some _ => true | None => false end).

(** ** src/src/handlers/payment.rs *)

Definition free_used_of (user : Uuid) (d : Db) : option Z :=
  option_map uac_free_used
    (fetch_optional (where_ (fun r => uuid_eqb (uac_user_id r) user) (db_counts d))).

Definition mark_paid_stmt (draft_id : Uuid) : Stmt unit :=
  prepared T_agreement_drafts ["paid"] (execute (fun _ => set_drafts
    (update_where (fun r => uuid_eqb (ad_id r) draft_id)
      (fun r => mkAgreementDraft (ad_id r) (ad_creator_pubkey r) (ad_draft_payload r)
         (ad_party_slots r) (ad_status r) (ad_created_at r) (ad_ready_at r) true
         (ad_storage_uri r) (ad_storage_uploaded r) (ad_agreement_pda r)
         (ad_agreement_id r))))).

(** [INSERT .. VALUES ($1, 1) ON CONFLICT (user_id) DO UPDATE SET free_used =
    free_used + 1]: rejected when the user does not exist or the counter
    leaves the INT range. *)
Definition count_free_stmt (user : Uuid) : Stmt unit :=
  insert_prepared T_user_agreement_counts ["user_id"; "free_used"] (fun _ d =>
    match free_used_of user d with
    | Some n =>
        if n + 1 <? 2147483648 then
          Some (tt, set_counts (update_where (fun r => uuid_eqb (uac_user_id r) user)
            (fun r => mkUserAgreementCount (uac_user_id r) (uac_total_submitted r)
                        (uac_free_used r + 1))) d)
        else None
    | None =>
        if exists_row (fun u => uuid_eqb (ua_id u) user) (db_users d) then
          Some (tt, set_counts (fun t => t ++ [mkUserAgreementCount user 0 1]) d)
        else None
    end).

(** The INSERT of a pending payment, with the columns it names.  The value of
    [user_id] is never reached: the statement does not give it. *)
Definition insert_payment_stmt (id draft_id : Uuid) (method creator mint : string)
    (amount : Z) (reference ata : string) : Stmt unit :=
  insert_prepared T_agreement_payments
    ["id"; "draft_id"; "method"; "creator_pubkey"; "token_mint"; "token_amount";
     "token_reference_pubkey"; "treasury_ata"; "status"]
    (fun now d =>
      if exists_row (fun r => uuid_eqb (ad_id r) draft_id) (db_drafts d) then
        Some (tt, set_payments (fun t => t ++
          [mkAgreementPayment id draft_id (fill 16 x00) method "pending" 0
             (Some reference) (Some mint) (Some amount) None None None None None
             (epoch_bigint now) None None]) d)
      else None).

Definition draft_creator_of (draft_id : Uuid) (d : Db) : option string :=
  option_map ad_creator_pubkey
    (fetch_optional (where_ (fun r => uuid_eqb (ad_id r) draft_id) (db_drafts d))).

Definition initiate_payment (auth_user : Uuid) (auth_pubkey : string) (draft_id : Uuid)
    (method : string) : M World AppError InitiatePaymentResponse :=
  let* creator := internal (sql (query (draft_creator_of draft_id))) in
  let* draft_creator := of_result (ok_or creator NotFound) in
  if negb (String.eqb draft_creator auth_pubkey) then throw Unauthorized else
  let* free := internal (sql (query (free_used_of auth_user))) in
  let free_used := default 0 free in
  if free_used <? i32_wrap (cfg_platform_fee_free_tier cfg) then
    internal (sql (mark_paid_stmt draft_id)) ;;;
    internal (sql (count_free_stmt auth_user)) ;;;
    ret Free
  else
    let* token_info := of_result (ok_or (resolve (cfg_stablecoin_registry cfg) method)
                                    PaymentMethodUnsupported) in
    let token_mint := sc_mint token_info in
    let treasury_ata := sc_ata token_info in
    let* reference_keypair := new_keypair in
    let reference_pubkey := pubkey_to_string reference_keypair in
    let token_amount :=
      cents_to_token_units (cfg_platform_fee_usd_cents cfg) (sc_decimals token_info) in
    let solana_pay_url := build_solana_pay_url treasury_ata token_amount token_mint
      reference_pubkey "Pactum Pro" (uuid_to_string draft_id +:+ "/1") in
    let* id := new_uuid in
    internal (sql (insert_payment_stmt id draft_id method auth_pubkey token_mint
      token_amount reference_pubkey treasury_ata)) ;;;
    ret (Pending method token_mint treasury_ata token_amount
           (f64_div (f64_of_Z (cfg_platform_fee_usd_cents cfg)) (f64_of_Z 100))
           reference_pubkey solana_pay_url).

(** [ORDER BY created_at DESC LIMIT 1] *)
Definition payment_status (draft_id : Uuid)
    : M World AppError (string * string * option Z) :=
  let* row := internal (sql (query (fun d =>
    fetch_optional (order_by (fun r => - py_created_at r)
      (where_ (fun r => uuid_eqb (py_draft_id r) draft_id) (db_payments d)))))) in
  let* r := of_result (ok_or row NotFound) in
  ret (py_status r, py_method r, py_confirmed_at r).

(** ** Keeper scans 5 and 6: src/src/workers/keeper.rs *)

Definition expire_timed_out_payments : M World SqlError unit :=
  let* now := now_secs in
  let threshold := now - 900 in
  attempt (sql (expire_payments_stmt threshold)) ;;;
  ret tt.

Definition late_payments (threshold : Z) (d : Db) : list (Uuid * string) :=
  omap (fun r => match py_token_reference_pubkey r with
                 | Some reference => Some (py_id r, reference)
                 | None => None
                 end)
    (where_ (fun r => py_is "expired" r && (threshold <? py_created_at r)) (db_payments d)).

Definition reconcile_one (p : Uuid * string) : M World SqlError unit :=
  match pubkey_from_str (snd p) with
  | None => ret tt
  | Some ref_pubkey =>
      let* account := attempt (get_account_data InternalError ref_pubkey) in
      when (is_ok account)
        (attempt (sql (mark_refund_pending_stmt (fst p))) ;;; ret tt)
  end.

Definition reconcile_late_payments : M World SqlError unit :=
  let* now := now_secs in
  let* rows := attempt (sql (query (late_payments (now - 3600)))) in
  for_each (match rows with Ok ps => ps | Err _ => [] end) reconcile_one.

(** ** The refund trigger: src/src/workers/event_listener.rs *)

Definition initiate_refund_if_eligible (agreement_pda : string) : M World SqlError unit :=
  let* payment_id := sql (query (fun d =>
    option_map py_id (fetch_optional (where_ (fun r =>
      sql_eq (py_agreement_pda r) agreement_pda && py_is "confirmed" r)
      (db_payments d))))) in
  match payment_id with
  | Some id => sql (mark_refund_pending_stmt id)
  | None => ret tt
  end.

(** ** src/src/services/refund.rs *)

Definition execute_refund (creator_pubkey_str token_mint_str : string) (amount : Z)
    : M World AppError string :=
  let treasury_pubkey := treasury_keypair cfg in
  let* creator_pubkey := of_result (ok_or (pubkey_from_str creator_pubkey_str) InternalError) in
  let* token_mint := of_result (ok_or (pubkey_from_str token_mint_str) InternalError) in
  let source_ata := get_associated_token_address treasury_pubkey token_mint in
  let destination_ata := get_associated_token_address creator_pubkey token_mint in
  let* destination_exists := account_exists destination_ata in
  if negb destination_exists then throw NotFound else
  let* transfer_ix := of_result (ok_or
    (spl_transfer source_ata destination_ata treasury_pubkey amount)
    TransactionSigningFailed) in
  let* recent_blockhash := get_latest_blockhash in
  let tx := mkTransaction [transfer_ix] treasury_pubkey [treasury_pubkey] recent_blockhash in
  let* _ := of_result (ok_or (tx_encode tx) TransactionSigningFailed) in
  send_transaction tx.

(** ** src/src/workers/refund_worker.rs *)

Definition report_degraded {E} (reason : DegradationReason) : M World E WorkerStatus :=
  fun w => let '(st, h) := status_for_reason (w_health w) reason in
           (Ok st, with_health h w).

Definition process_refund (row : RefundRow) : M World SqlError unit :=
  let '(p, a) := row in
  let token_mint := default "" (py_token_mint p) in
  let refund_amount := default 0 (py_refund_amount p) in
  let creator_pubkey := ap_creator_pubkey a in
  if String.eqb creator_pubkey "" then ret tt else
  let* refund_result :=
    attempt (execute_refund creator_pubkey token_mint (u64_wrap refund_amount)) in
  match refund_result with
  | Ok sig =>
      let* now := now_secs in
      let* res := attempt (sql (mark_refunded_stmt (py_id p) sig now)) in
      match res with
      | Ok _ => ret tt
      | Err _ => report_degraded RetryBackoff ;;; ret tt
      end
  | Err _ => report_degraded RetryBackoff ;;; ret tt
  end.

Definition process_pending_refunds : M World SqlError WorkerStatus :=
  let* rows := attempt (sql (query pending_refunds)) in
  match rows with
  | Err _ => report_degraded RpcUnavailable
  | Ok rows => for_each rows process_refund ;;; ret Healthy
  end.

(** One iteration of the worker's loop. *)
Definition refund_worker_cycle (status : WorkerStatus) : M World SqlError WorkerStatus :=
  if bool_decide (status = Disabled) then ret status else process_pending_refunds.
End Handlers.
