(* ===== verification/PaymentLifecycle.v ===== *)
(** * PaymentLifecycle: the life cycle of a payment and its refinement

    The abstract specification of the payment table: which status changes a
    payment may undergo, and the theorem that every operation of Payments.v
    that writes the table follows it. *)

From Stdlib Require Import ZArith Lia.
From Stdlib Require Import Strings.Byte Strings.Ascii Strings.String.
From stdpp Require Import base tactics decidable option list strings gmap.
From S2P Require Import Prelude Text Errors Borsh SolanaTypes Health World Payments.

Open Scope string_scope.
Open Scope list_scope.
Open Scope Z_scope.

(** ** The abstract life cycle *)

Inductive pay_trans : string -> string -> Prop :=
| pt_confirm : pay_trans "pending" "confirmed"
| pt_expire : pay_trans "pending" "expired"
| pt_late : pay_trans "expired" "refund_pending"
| pt_refund : pay_trans "confirmed" "refund_pending"
| pt_refunded : pay_trans "refund_pending" "refunded".

(** [row_evolves r r']: the row keeps its identity, its status moves along the
    life cycle, and a refunded payment is final. *)
Record row_evolves (r r' : AgreementPaymentRow) : Prop := mkEvolves {
  re_id : py_id r' = py_id r;
  re_draft : py_draft_id r' = py_draft_id r;
  re_user : py_user_id r' = py_user_id r;
  re_reference : py_token_reference_pubkey r' = py_token_reference_pubkey r;
  re_created : py_created_at r' = py_created_at r;
  re_refund_amount : py_refund_amount r' = py_refund_amount r;
  re_status : star pay_trans (py_status r) (py_status r');
  re_final : py_status r = "refunded" -> r' = r;
}.

Definition payments_evolve (d d' : Db) : Prop :=
  Forall2 row_evolves (db_payments d) (db_payments d').

(** Primary key of the table. *)
Definition payments_keyed (d : Db) : Prop := NoDup (map py_id (db_payments d)).

#[export] Instance row_evolves_preorder : PreOrder row_evolves.
Proof.
  split.
  - intros r. split; try done; apply star_refl.
  - intros r1 r2 r3 [] []. split; try congruence.
    + etransitivity; eassumption.
    + intros Hr. assert (r2 = r1) as -> by auto. auto.
Qed.

#[export] Instance payments_evolve_preorder : PreOrder payments_evolve.
Proof.
  unfold payments_evolve. split.
  - intros d. reflexivity.
  - intros d1 d2 d3 H12 H23. etransitivity; [exact H12 | exact H23].
Qed.

(** Statements on the other tables. *)
Lemma evolve_same d d' : db_payments d' = db_payments d -> payments_evolve d d'.
Proof. unfold payments_evolve. intros ->. reflexivity. Qed.

Lemma py_is_spec st r : py_is st r = true <-> py_status r = st.
Proof. unfold py_is. apply String.eqb_eq. Qed.

Lemma uuid_eqb_spec a b : uuid_eqb a b = true <-> a = b.
Proof. unfold uuid_eqb. apply bool_decide_eq_true. Qed.

(** An UPDATE follows the life cycle when it does on the rows it selects. *)
Lemma update_evolves p f t :
  (forall r, r ∈ t -> p r = true -> row_evolves r (f r)) ->
  Forall2 row_evolves t (update_where p f t).
Proof.
  intros Hf. unfold update_where. induction t as [|r t IH]; cbn; [constructor|].
  constructor.
  - destruct (p r) eqn:Ep; [apply Hf; set_solver | reflexivity].
  - apply IH. intros; apply Hf; [set_solver | done].
Qed.

Lemma update_keeps p f :
  (forall r, p r = true -> row_evolves r (f r)) ->
  forall d, payments_evolve d (set_payments (update_where p f) d).
Proof. intros Hf d. apply update_evolves. auto. Qed.

Lemma evolve_keyed d d' : payments_evolve d d' -> payments_keyed d -> payments_keyed d'.
Proof.
  unfold payments_evolve, payments_keyed. intros HF.
  assert (map py_id (db_payments d') = map py_id (db_payments d)) as ->; [|done].
  induction HF as [|r r' t t' Hr _ IH]; cbn; [done|]. by rewrite (re_id _ _ Hr), IH.
Qed.

Ltac evolve_one tr :=
  split; cbn; try done;
  [ apply star_one; try (match goal with H : py_status _ = _ |- _ => rewrite H end); exact tr
  | congruence ].

(** The rows each guarded statement rewrites. *)
Lemma confirm_row_evolves now sig mint amount r :
  py_status r = "pending" -> row_evolves r (confirm_row now sig mint amount r).
Proof. intros Hs. evolve_one pt_confirm. Qed.

Lemma expired_row_evolves r :
  py_status r = "pending" -> row_evolves r (set_py_status "expired" r).
Proof. intros Hs. evolve_one pt_expire. Qed.

Lemma refunded_row_evolves sig at_ r :
  py_status r = "refund_pending" -> row_evolves r (refunded_row sig at_ r).
Proof. intros Hs. evolve_one pt_refunded. Qed.

Lemma refund_pending_row_evolves now r :
  py_status r = "expired" \/ py_status r = "confirmed" ->
  row_evolves r (refund_pending_row now r).
Proof. intros [Hs|Hs]; [evolve_one pt_late | evolve_one pt_refund]. Qed.

Lemma confirm_stmt_keeps reference sig mint amount :
  stmt_keeps payments_evolve (confirm_stmt reference sig mint amount).
Proof.
  unfold confirm_stmt. apply stmt_keeps_prepared. intros now d a d'.
  destruct (tx_sigs_unique _); [|done]. intros [= _ <-].
  apply (update_keeps _ _). intros r Hr. apply confirm_row_evolves.
  unfold confirm_where in Hr. apply andb_true_iff in Hr as [_ Hr]. by apply py_is_spec.
Qed.

Lemma expire_stmt_keeps th :
  stmt_keeps payments_evolve (expire_payments_stmt th).
Proof.
  apply stmt_keeps_prepared, stmt_keeps_execute. intros _ d.
  apply update_keeps. intros r Hr. apply andb_true_iff in Hr as [Hr _].
  by apply expired_row_evolves, py_is_spec.
Qed.

Lemma refunded_stmt_keeps id sig at_ :
  stmt_keeps payments_evolve (mark_refunded_stmt id sig at_).
Proof.
  apply stmt_keeps_prepared, stmt_keeps_execute. intros _ d.
  apply update_keeps. intros r Hr. apply andb_true_iff in Hr as [_ Hr].
  by apply refunded_row_evolves, py_is_spec.
Qed.

Lemma mark_paid_stmt_keeps draft : stmt_keeps payments_evolve (mark_paid_stmt draft).
Proof. apply stmt_keeps_prepared, stmt_keeps_execute. intros _ d. by apply evolve_same. Qed.

Lemma count_free_stmt_keeps user : stmt_keeps payments_evolve (count_free_stmt user).
Proof.
  apply stmt_keeps_insert_prepared. intros now d a d'.
  destruct (free_used_of user d); [destruct (_ <? _) | destruct (exists_row _ _)];
    try done; intros [= _ <-]; by apply evolve_same.
Qed.

(** The INSERT of the paid path is rejected whatever the database holds: it
    names two columns the table does not have. *)
Lemma insert_payment_rejected id draft method creator mint amount reference ata now d :
  insert_payment_stmt id draft method creator mint amount reference ata now d = None.
Proof. reflexivity. Qed.

Lemma insert_payment_stmt_keeps id draft method creator mint amount reference ata :
  stmt_keeps payments_evolve
    (insert_payment_stmt id draft method creator mint amount reference ata).
Proof. intros now d a d'. by rewrite insert_payment_rejected. Qed.

#[export] Hint Resolve confirm_stmt_keeps expire_stmt_keeps refunded_stmt_keeps
  mark_paid_stmt_keeps count_free_stmt_keeps insert_payment_stmt_keeps : keeps.

Section Operations.
Context `{Ext, Env} (cfg : AppState).
Abbreviation evolves := (on_db payments_evolve).

Lemma confirm_keeps reference sig mint amount :
  keeps evolves (confirm_payment_atomic reference sig mint amount).
Proof. unfold confirm_payment_atomic, internal. keeps_auto. Qed.

Lemma expire_keeps : keeps evolves expire_timed_out_payments.
Proof. unfold expire_timed_out_payments. keeps_auto. Qed.

Lemma initiate_keeps user pubkey draft method :
  keeps evolves (initiate_payment cfg user pubkey draft method).
Proof. unfold initiate_payment, internal. keeps_auto. Qed.

Lemma report_degraded_keeps {E} r : keeps evolves (report_degraded (E:=E) r).
Proof.
  apply keeps_db_id; [typeclasses eauto|]. intros w. unfold report_degraded.
  by destruct (status_for_reason _ _).
Qed.

Lemma execute_refund_keeps creator mint amount :
  keeps evolves (execute_refund cfg creator mint amount).
Proof. unfold execute_refund. keeps_auto. Qed.

Hint Resolve report_degraded_keeps execute_refund_keeps : keeps.

Lemma process_refund_keeps row : keeps evolves (process_refund cfg row).
Proof. unfold process_refund. keeps_auto. Qed.
Hint Resolve process_refund_keeps : keeps.

Lemma refund_cycle_keeps st : keeps evolves (refund_worker_cycle cfg st).
Proof. unfold refund_worker_cycle, process_pending_refunds. keeps_auto. Qed.
End Operations.

(** ** The two operations whose UPDATE names only the id

    [reconcile_late_payments] and [initiate_refund_if_eligible] select a payment
    by its status and then update it by its id alone.  They follow the life
    cycle because nothing runs between the two statements and the id is the
    primary key. *)

Lemma keyed_unique d r1 r2 :
  payments_keyed d -> r1 ∈ db_payments d -> r2 ∈ db_payments d ->
  py_id r1 = py_id r2 -> r1 = r2.
Proof. apply NoDup_map_eq. Qed.

(** Every row with one of these ids has the given status. *)
Definition all_status (st : string) (ids : list Uuid) (d : Db) : Prop :=
  forall r, r ∈ db_payments d -> py_id r ∈ ids -> py_status r = st.

Lemma mark_refund_pending_evolves st id now d :
  st = "expired" \/ st = "confirmed" -> all_status st [id] d ->
  forall a d', mark_refund_pending_stmt id now d = Some (a, d') -> payments_evolve d d'.
Proof.
  intros Hst Hall a d'. unfold mark_refund_pending_stmt. rewrite prepared_ok by reflexivity.
  intros [= _ <-]. unfold payments_evolve; cbn. apply update_evolves.
  intros r Hr Hid. apply uuid_eqb_spec in Hid. apply refund_pending_row_evolves.
  rewrite (Hall r Hr); [exact Hst | by apply list_elem_of_singleton].
Qed.

(** Ids other than the updated one keep their status. *)
Lemma mark_refund_pending_other st id ids now d a d' :
  id ∉ ids -> all_status st ids d ->
  mark_refund_pending_stmt id now d = Some (a, d') -> all_status st ids d'.
Proof.
  intros Hni Hall. unfold mark_refund_pending_stmt. rewrite prepared_ok by reflexivity.
  intros [= _ <-] r Hr Hin. cbn in Hr. apply elem_of_update_where in Hr as (x & Hx & ->).
  destruct (uuid_eqb (py_id x) id) eqn:E; [|by apply Hall].
  apply uuid_eqb_spec in E. cbn in Hin. congruence.
Qed.

Section Reconcile.
Context `{Ext, Env}.

(** What [sql] does to the tables, in terms of its statement. *)
Lemma sql_db {E} {A} (s : Stmt A) (P : Db -> Prop) w :
  P (w_db w) ->
  (forall a d, s (db_now (w_tick w)) (w_db w) = Some (a, d) -> P d) ->
  P (w_db (snd (attempt (F:=E) (sql s) w))).
Proof.
  intros HP Hs. unfold attempt, sql.
  destruct (db_fault (w_tick w)); cbn; [|done|];
    destruct (s _ _) as [[a d]|] eqn:Es; cbn; eauto.
Qed.

Lemma reconcile_one_db p w (P : Db -> Prop) :
  P (w_db w) ->
  (forall now a d, mark_refund_pending_stmt (fst p) now (w_db w) = Some (a, d) -> P d) ->
  P (w_db (snd (reconcile_one p w))).
Proof.
  intros HP Hm. unfold reconcile_one. destruct (pubkey_from_str (snd p)); [|done].
  unfold bind, attempt at 1, get_account_data. cbn.
  destruct (is_ok _); [|done]. cbn. unfold bind.
  pose proof (sql_db (E:=SqlError) (mark_refund_pending_stmt (fst p)) P (tick w) HP
                ltac:(intros; eapply Hm; eassumption)) as Hdb.
  by destruct (attempt _ (tick w)) as [[]?].
Qed.

Lemma reconcile_loop ps w :
  NoDup (map fst ps) -> all_status "expired" (map fst ps) (w_db w) ->
  on_db payments_evolve w (snd (for_each ps reconcile_one w)).
Proof.
  intros Hn Hall.
  apply (for_each_inv (on_db payments_evolve) (fun ps w =>
    NoDup (map fst ps) /\ all_status "expired" (map fst ps) (w_db w))); [|done].
  clear. intros p ps w [Hn Hall]. cbn in Hn. apply NoDup_cons in Hn as [Hnot Hn].
  split.
  - unfold on_db. apply reconcile_one_db; [reflexivity|]. intros now a d Hm.
    eapply mark_refund_pending_evolves; [by left| |exact Hm].
    intros r Hr Hid. apply Hall; [done|]. apply list_elem_of_singleton in Hid as ->. left.
  - split; [done|].
    apply (reconcile_one_db p w (fun d => all_status "expired" (map fst ps) d)).
    + intros r Hr Hid. apply Hall; [done | by right].
    + intros now a d. apply mark_refund_pending_other; [done|].
      intros r Hr Hid. apply Hall; [done | by right].
Qed.

Lemma late_payments_ids th d :
  payments_keyed d ->
  NoDup (map fst (late_payments th d)) /\
  all_status "expired" (map fst (late_payments th d)) d.
Proof.
  intros Hk.
  assert (Hin : forall id, id ∈ map fst (late_payments th d) ->
    exists r, r ∈ db_payments d /\ py_id r = id /\ py_status r = "expired").
  { intros id Hid. apply list_elem_of_fmap in Hid as ([i ref] & -> & Hl).
    unfold late_payments in Hl. apply list_elem_of_omap in Hl as (r & Hr & Hs).
    apply elem_of_where in Hr as [Hr Hp]. apply andb_true_iff in Hp as [Hp _].
    apply py_is_spec in Hp. destruct (py_token_reference_pubkey r); naive_solver. }
  split.
  - revert Hk. unfold payments_keyed, late_payments, where_. clear.
    induction (db_payments d) as [|r t IH]; cbn; [intros; constructor|].
    intros Hn. apply NoDup_cons in Hn as [Hnot Hn].
    destruct (_ && _); cbn; [|by apply IH].
    destruct (py_token_reference_pubkey r); cbn; [|by apply IH].
    apply NoDup_cons. split; [|by apply IH].
    intros Hf. apply Hnot. apply list_elem_of_fmap in Hf as ([i ref] & -> & Hl).
    apply list_elem_of_omap in Hl as (x & Hx & Hs).
    apply elem_of_where in Hx as [Hx _]. cbn.
    destruct (py_token_reference_pubkey x); simplify_eq. by apply list_elem_of_fmap_2.
  - intros r Hr Hid. destruct (Hin _ Hid) as (x & Hx & Hxid & Hst).
    by rewrite (keyed_unique d r x).
Qed.

Lemma reconcile_evolves w :
  payments_keyed (w_db w) ->
  on_db payments_evolve w (snd (reconcile_late_payments w)).
Proof.
  intros Hk. unfold reconcile_late_payments, bind at 1, now_secs. cbn.
  unfold bind. unfold attempt, sql.
  destruct (db_fault (w_tick (tick w))) eqn:Ef; cbn.
  - destruct (late_payments_ids (app_now (w_tick w) - 3600) (w_db w) Hk) as [Hn Hall].
    exact (reconcile_loop _ (with_db (w_db w) (tick (tick w))) Hn Hall).
  - unfold on_db. cbn. reflexivity.
  - unfold on_db. cbn. reflexivity.
Qed.

Lemma initiate_refund_evolves pda w :
  payments_keyed (w_db w) ->
  on_db payments_evolve w (snd (initiate_refund_if_eligible pda w)).
Proof.
  intros Hk. unfold initiate_refund_if_eligible, bind.
  unfold sql at 1. destruct (db_fault (w_tick w)); cbn; try (unfold on_db; cbn; reflexivity).
  destruct (fetch_optional _) as [r|] eqn:Ef; cbn; [|unfold on_db; cbn; reflexivity].
  apply fetch_optional_Some, elem_of_where in Ef as [Hr Hp].
  apply andb_true_iff in Hp as [_ Hp]. apply py_is_spec in Hp.
  pose proof (sql_db (E:=SqlError) (mark_refund_pending_stmt (py_id r))
    (payments_evolve (w_db w)) (with_db (w_db w) (tick w))) as Hs.
  unfold on_db. unfold attempt in Hs.
  destruct (sql _ _) as [res w']; cbn in *. apply Hs; [reflexivity|].
  intros a d Hm. eapply mark_refund_pending_evolves; [by right| |exact Hm].
  intros x Hx Hid. apply list_elem_of_singleton in Hid.
  by rewrite (keyed_unique (w_db w) x r).
Qed.
End Reconcile.

(** ** All operations *)

Inductive pay_op : Type :=
| OpConfirm (reference tx_signature mint : string) (amount : Z)
| OpInitiate (user : Uuid) (pubkey : string) (draft : Uuid) (method : string)
| OpExpireTimedOut
| OpReconcileLate
| OpInitiateRefund (agreement_pda : string)
| OpRefundCycle (status : WorkerStatus).

Section Run.
Context `{Ext, Env} (cfg : AppState).

Definition run_pay_op (o : pay_op) (w : World) : World :=
  match o with
  | OpConfirm reference sig mint amount =>
      snd (confirm_payment_atomic reference sig mint amount w)
  | OpInitiate user pubkey draft method =>
      snd (initiate_payment cfg user pubkey draft method w)
  | OpExpireTimedOut => snd (expire_timed_out_payments w)
  | OpReconcileLate => snd (reconcile_late_payments w)
  | OpInitiateRefund pda => snd (initiate_refund_if_eligible pda w)
  | OpRefundCycle st => snd (refund_worker_cycle cfg st w)
  end.

Definition run_pay_ops (os : list pay_op) (w : World) : World :=
  fold_left (fun w o => run_pay_op o w) os w.

Lemma run_pay_op_evolves o w :
  payments_keyed (w_db w) -> payments_evolve (w_db w) (w_db (run_pay_op o w)).
Proof.
  intros Hk. destruct o; cbn.
  - exact (confirm_keeps _ _ _ _ w).
  - exact (initiate_keeps _ _ _ _ _ w).
  - exact (expire_keeps w).
  - by apply reconcile_evolves.
  - by apply initiate_refund_evolves.
  - exact (refund_cycle_keeps _ _ w).
Qed.
End Run.
