(* ===== verification/EventListener.v ===== *)
(** * EventListener: program logs and the events they trigger

    src/src/services/program_log.rs, src/src/workers/event_listener.rs and the
    construction of src/src/services/solana_logs.rs. *)

From Stdlib Require Import ZArith Lia.
From Stdlib Require Import Strings.Byte Strings.Ascii Strings.String.
From stdpp Require Import base tactics decidable option list strings gmap.
From S2P Require Import Prelude Text Errors Borsh SolanaTypes Health World Concrete Crypto.
From S2P Require Import Notification DraftData Payments PaymentLifecycle.

Open Scope string_scope.
Open Scope list_scope.
Open Scope Z_scope.

(** ** Log parsing: src/src/services/program_log.rs *)

Record ProgramLog : Type := mkProgramLog { pl_signature : string; pl_slot : Z; pl_logs : list string }.

Inductive InstructionType : Type :=
| CreateAgreement | SignAgreement | CancelAgreement | ExpireAgreement | VoteRevoke.

Definition instruction_from_str (s : string) : option InstructionType :=
  if String.eqb s "CreateAgreement" then Some CreateAgreement
  else if String.eqb s "SignAgreement" then Some SignAgreement
  else if String.eqb s "CancelAgreement" then Some CancelAgreement
  else if String.eqb s "ExpireAgreement" then Some ExpireAgreement
  else if String.eqb s "VoteRevoke" then Some VoteRevoke
  else None.

Record ParsedEvent : Type := mkParsedEvent {
  pe_instruction : InstructionType; pe_agreement_pda : string; pe_creator : option string;
  pe_signer : option string; pe_parties : list string }.

Record LogData : Type := mkLogData {
  ld_agreement_pda : option string; ld_creator : option string; ld_signer : option string;
  ld_parties : option (list string) }.

Fixpoint strings_from (l : list json) : option (list string) :=
  match l with
  | [] => Some []
  | JStr s :: l' => option_map (cons s) (strings_from l')
  | _ => None
  end.

Definition log_data_of (j : json) : option LogData :=
  match j with
  | JObj l =>
      p ← opt_field json_as_str "agreement_pda" l; c ← opt_field json_as_str "creator" l;
      s ← opt_field json_as_str "signer" l;
      ps ← opt_field (fun v => match v with JArr vs => strings_from vs | _ => None end) "parties" l;
      Some (mkLogData p c s ps)
  | _ => None
  end.

(** The variables of the loop over the log lines. *)
Record LogState : Type := mkLogState {
  ls_instruction : option InstructionType; ls_agreement_pda : option string;
  ls_creator : option string; ls_signer : option string; ls_parties : list string }.

Definition or_keep {A} (new old : option A) : option A :=
  match new with Some _ => new | None => old end.

Section Parse.
Context `{Ext}.

Definition apply_json (log : string) (st : LogState) : LogState :=
  if starts_with "Program log: {" log then
    match json_from_str (trim_start_matches "Program log: " log) ≫= log_data_of with
    | Some d => mkLogState (ls_instruction st) (or_keep (ld_agreement_pda d) (ls_agreement_pda st))
                  (or_keep (ld_creator d) (ls_creator st)) (or_keep (ld_signer d) (ls_signer st))
                  (default (ls_parties st) (ld_parties d))
    | None => st
    end
  else st.

Definition apply_kv (log : string) (st : LogState) : LogState :=
  match strip_prefix "Program log: " log with
  | Some kv =>
      if starts_with "agreement_pda=" kv then
        mkLogState (ls_instruction st) (Some (trim_start_matches "agreement_pda=" kv))
          (ls_creator st) (ls_signer st) (ls_parties st)
      else if starts_with "creator=" kv then
        mkLogState (ls_instruction st) (ls_agreement_pda st)
          (Some (trim_start_matches "creator=" kv)) (ls_signer st) (ls_parties st)
      else if starts_with "signer=" kv then
        mkLogState (ls_instruction st) (ls_agreement_pda st) (ls_creator st)
          (Some (trim_start_matches "signer=" kv)) (ls_parties st)
      else st
  | None => st
  end.

Definition parse_line (st : LogState) (log : string) : LogState :=
  match strip_prefix "Program log: Instruction: " log with
  | Some instr_str =>
      mkLogState (instruction_from_str (trim instr_str)) (ls_agreement_pda st)
        (ls_creator st) (ls_signer st) (ls_parties st)
  | None => apply_kv log (apply_json log st)
  end.

Definition parse_logs (signature : string) (logs : list string) : option ParsedEvent :=
  let st := fold_left parse_line logs (mkLogState None None None None []) in
  option_map (fun instr => mkParsedEvent instr (default signature (ls_agreement_pda st))
                             (ls_creator st) (ls_signer st) (ls_parties st))
    (ls_instruction st).
End Parse.

(** ** Statements of src/src/workers/event_listener.rs *)

Definition party_key (party pda : string) (r : AgreementPartyRow) : bool :=
  String.eqb (ap_party_pubkey r) party && String.eqb (ap_agreement_pda r) pda.

Definition insert_party_stmt (party pda creator : string) : Stmt unit :=
  insert_prepared T_agreement_parties
    ["party_pubkey"; "agreement_pda"; "creator_pubkey"; "status"; "created_at"; "expires_at"; "title"]
    (fun now d =>
      if exists_row (party_key party pda) (db_parties d) then Some (tt, d)
      else Some (tt, set_parties (fun t => t ++
        [mkAgreementParty party pda creator "PendingSignatures" None (epoch_bigint now)
           (epoch_bigint now + 2592000) "Agreement"]) d)).

Definition set_signed_at (at_ : Z) (r : AgreementPartyRow) : AgreementPartyRow :=
  mkAgreementParty (ap_party_pubkey r) (ap_agreement_pda r) (ap_creator_pubkey r) (ap_status r)
    (Some at_) (ap_created_at r) (ap_expires_at r) (ap_title r).

Definition set_party_status (st : string) (r : AgreementPartyRow) : AgreementPartyRow :=
  mkAgreementParty (ap_party_pubkey r) (ap_agreement_pda r) (ap_creator_pubkey r) st
    (ap_signed_at r) (ap_created_at r) (ap_expires_at r) (ap_title r).

(** [UPDATE .. SET signed_at = now .. RETURNING party_pubkey] *)
Definition sign_party_stmt (party pda : string) : Stmt (option string) :=
  prepared T_agreement_parties ["signed_at"] (fun now d =>
    Some (fetch_optional (map ap_party_pubkey (where_ (party_key party pda) (db_parties d))),
          set_parties (update_where (party_key party pda) (set_signed_at (epoch_bigint now))) d)).

Definition of_agreement (pda : string) (r : AgreementPartyRow) : bool :=
  String.eqb (ap_agreement_pda r) pda.

Definition unsigned_count (pda : string) (d : Db) : nat :=
  length (where_ (fun r => of_agreement pda r
    && match ap_signed_at r with None => true | Some _ => false end) (db_parties d)).

Definition parties_of (pda : string) (d : Db) : list string :=
  map ap_party_pubkey (where_ (of_agreement pda) (db_parties d)).

Definition party_status_stmt (st pda : string) : Stmt unit :=
  prepared T_agreement_parties ["status"] (execute (fun _ => set_parties
    (update_where (of_agreement pda) (set_party_status st)))).

(** ** Handlers *)

Section Handlers.
Context `{Ext, Env}.

Definition notify (event_type pda party : string) : M World SqlError unit :=
  attempt (enqueue_notification event_type (Some pda) party) ;;; ret tt.

Definition broadcast (ev : WsEvent) (party : string) : M World SqlError unit :=
  let* user := lookup_user_id party in
  match user with
  | Some user_id => send_to_user user_id ev ;;; ret tt
  | None => ret tt
  end.

Definition handle_create_agreement (event : ParsedEvent) : M World SqlError unit :=
  let agreement_pda := pe_agreement_pda event in
  let creator := default "unknown" (pe_creator event) in
  for_each (pe_parties event) (fun party => sql (insert_party_stmt party agreement_pda creator)) ;;;
  for_each (pe_parties event) (notify "AgreementCreated" agreement_pda) ;;;
  for_each (pe_parties event) (broadcast (WsAgreementCreated agreement_pda)).

Definition handle_sign_agreement (event : ParsedEvent) : M World SqlError unit :=
  let agreement_pda := pe_agreement_pda event in
  let signer := default "unknown" (pe_signer event) in
  let* result := sql (sign_party_stmt signer agreement_pda) in
  match result with
  | None => ret tt
  | Some _ =>
      let* unsigned := sql (query (unsigned_count agreement_pda)) in
      let is_fully_signed := (unsigned =? 0)%nat in
      let event_type := if is_fully_signed then "Completed" else "Signed" in
      notify event_type agreement_pda signer ;;;
      let ws_event := if is_fully_signed then WsAgreementCompleted agreement_pda
                      else WsAgreementSigned agreement_pda in
      let* parties := sql (query (parties_of agreement_pda)) in
      for_each parties (broadcast ws_event)
  end.

Definition handle_cancellation (event : ParsedEvent) (status : string) : M World SqlError unit :=
  let agreement_pda := pe_agreement_pda event in
  sql (party_status_stmt status agreement_pda) ;;;
  let* parties := sql (query (parties_of agreement_pda)) in
  let event_type := if String.eqb status "Cancelled" then "Cancelled" else "Expired" in
  for_each parties (notify event_type agreement_pda) ;;;
  let ws_event := if String.eqb status "Cancelled" then WsAgreementCancelled agreement_pda
                  else WsAgreementExpired agreement_pda in
  for_each parties (broadcast ws_event) ;;;
  attempt (initiate_refund_if_eligible agreement_pda) ;;;
  ret tt.

Definition handle_cancel_agreement (event : ParsedEvent) : M World SqlError unit :=
  handle_cancellation event "Cancelled".
Definition handle_expire_agreement (event : ParsedEvent) : M World SqlError unit :=
  handle_cancellation event "Expired".

Definition handle_vote_revoke (event : ParsedEvent) : M World SqlError unit :=
  let agreement_pda := pe_agreement_pda event in
  let signer := default "unknown" (pe_signer event) in
  notify "RevokeVote" agreement_pda signer ;;;
  let* parties := sql (query (parties_of agreement_pda)) in
  for_each parties (broadcast (WsAgreementRevokeVote agreement_pda)).

Definition handle_event (event : ParsedEvent) : M World SqlError unit :=
  match pe_instruction event with
  | CreateAgreement => handle_create_agreement event
  | SignAgreement => handle_sign_agreement event
  | CancelAgreement => handle_cancel_agreement event
  | ExpireAgreement => handle_expire_agreement event
  | VoteRevoke => handle_vote_revoke event
  end.

(** One received log. *)
Definition process_log (log : ProgramLog) : M World SqlError unit :=
  match parse_logs (pl_signature log) (pl_logs log) with
  | Some event => attempt (handle_event event) ;;; ret tt
  | None => ret tt
  end.
End Handlers.

(** ** Theorems on the parser *)

Section ParseFacts.
Context `{Ext}.

(** A line that names no instruction keeps the one found before. *)
Definition names_instruction (log : string) : bool :=
  starts_with "Program log: Instruction: " log.

Lemma apply_keeps_instruction log st : ls_instruction (apply_kv log (apply_json log st)) = ls_instruction st.
Proof.
  assert (Hj : ls_instruction (apply_json log st) = ls_instruction st).
  { unfold apply_json. destruct (starts_with _ _); [|done].
    by destruct (_ ≫= _). }
  rewrite <-Hj. unfold apply_kv. destruct (strip_prefix _ _); [|done].
  by repeat (destruct (starts_with _ _); [done|]).
Qed.

Lemma parse_line_keeps log st :
  names_instruction log = false -> ls_instruction (parse_line st log) = ls_instruction st.
Proof.
  unfold names_instruction, starts_with, parse_line.
  destruct (strip_prefix _ _); [discriminate|]. intros _. apply apply_keeps_instruction.
Qed.

Lemma parse_lines_keep logs st :
  Forall (fun l => names_instruction l = false) logs ->
  ls_instruction (fold_left parse_line logs st) = ls_instruction st.
Proof.
  intros Hl. revert st. induction Hl as [|l logs Hl _ IH]; intros st; cbn [fold_left]; [done|].
  rewrite IH. by apply parse_line_keeps.
Qed.

(** The last instruction line decides.  Of all the "Instruction:" lines of a
    transaction's log only the last one counts, and a name the parser does
    not know erases the instructions seen before: a program the agreement
    program calls into (its NFT program logs "Instruction: Create") hides the
    event, and the listener drops it. *)
Theorem last_instruction_wins (signature : string) (before after : list string) (name : string) :
  Forall (fun l => names_instruction l = false) after ->
  option_map pe_instruction
    (parse_logs signature (before ++ ("Program log: Instruction: " +:+ name) :: after))
  = instruction_from_str (trim name).
Proof.
  intros Ha. unfold parse_logs. rewrite fold_left_app. cbn [fold_left].
  set (st := fold_left parse_line before _).
  set (st' := fold_left parse_line after _).
  assert (Hst : ls_instruction st' = instruction_from_str (trim name)).
  { subst st'. rewrite parse_lines_keep by done. unfold parse_line at 1.
    by rewrite strip_prefix_app. }
  rewrite <-Hst. by destruct (ls_instruction st').
Qed.
End ParseFacts.

Lemma last_instruction_wins_witness :
  option_map pe_instruction (@parse_logs ext_demo "sig"
    (["Program P invoke [1]"; "Program log: Instruction: SignAgreement"] ++
     ("Program log: Instruction: " +:+ "Create") :: ["Program P success"])) = None.
Proof.
  apply (@last_instruction_wins ext_demo "sig"
    ["Program P invoke [1]"; "Program log: Instruction: SignAgreement"] ["Program P success"] "Create").
  repeat constructor.
Defined.

(** ** Theorems on the handlers *)

Section SignFacts.
Context `{Ext, Env}.

Lemma broadcast_ok ev party w :
  exists w', broadcast ev party w = (Ok tt, w') /\ w_db w' = w_db w.
Proof.
  unfold broadcast, lookup_user_id, bind, attempt, sql, query, ret.
  destruct (db_fault _); cbn; [destruct (wallet_user _ _) as [u|]|..]; eauto.
  unfold send_to_user. case_bool_decide; cbn; eauto.
Qed.

Lemma broadcasts_ok ev parties w :
  exists w', for_each parties (broadcast ev) w = (Ok tt, w') /\ w_db w' = w_db w.
Proof.
  revert w. induction parties as [|p ps IH]; intros w; cbn [for_each]; [eauto|].
  destruct (broadcast_ok ev p w) as (w1 & E & Hd). erewrite bind_step by exact E.
  destruct (IH w1) as (w2 & E2 & Hd2). exists w2. split; [exact E2|]. congruence.
Qed.

(** Everyone of an agreement has signed. *)
Definition fully_signed (pda : string) (d : Db) : bool := (unsigned_count pda d =? 0)%nat.

(** What a signature event does.  With the database up, the event of a party's
    signature dates that party's row, leaves every status as it is, and
    enqueues one notification for the signer: "Completed" when this was the
    last open signature of the agreement, "Signed" otherwise. *)
Theorem sign_event_records (event : ParsedEvent) (w : World) :
  db_up_from (w_tick w) -> pe_instruction event = SignAgreement ->
  let signer := default "unknown" (pe_signer event) in
  let pda := pe_agreement_pda event in
  exists_row (party_key signer pda) (db_parties (w_db w)) = true ->
  exists w' job, handle_event event w = (Ok tt, w') /\
    db_parties (w_db w') = update_where (party_key signer pda)
      (set_signed_at (epoch_bigint (db_now (w_tick w)))) (db_parties (w_db w)) /\
    map ap_status (db_parties (w_db w')) = map ap_status (db_parties (w_db w)) /\
    db_notifications (w_db w') = db_notifications (w_db w) ++ [job] /\
    nq_recipient_pubkey job = signer /\ nq_agreement_pda job = pda /\
    nq_event_type job = (if fully_signed pda (w_db w') then "Completed" else "Signed").
Proof.
  intros Hup Hi signer pda Hrow. unfold handle_event. rewrite Hi. unfold handle_sign_agreement.
  fold pda signer.
  set (t' := update_where (party_key signer pda) (set_signed_at (epoch_bigint (db_now (w_tick w))))
               (db_parties (w_db w))).
  set (d1 := set_parties (fun _ => t') (w_db w)).
  assert (Hsign : exists who, sql (sign_party_stmt signer pda) w = (Ok (Some who), with_db d1 (tick w))).
  { apply exists_row_spec in Hrow as (r & Hr & Hk).
    assert (Hw : r ∈ where_ (party_key signer pda) (db_parties (w_db w))) by by apply elem_of_where.
    unfold sign_party_stmt. rewrite prepared_ok by reflexivity.
    destruct (where_ (party_key signer pda) (db_parties (w_db w))) as [|x l] eqn:El;
      [by apply not_elem_of_nil in Hw|].
    exists (ap_party_pubkey x). apply sql_up; [by apply Hup|]. cbn. by rewrite El. }
  destruct Hsign as [who Hsign]. erewrite bind_step by exact Hsign. cbv beta iota zeta.
  erewrite bind_step by (apply sql_query, Hup; cbn; lia).
  change (unsigned_count pda (w_db (with_db d1 (tick w))) =? 0)%nat with (fully_signed pda d1).
  set (ty := if fully_signed pda d1 then "Completed" else "Signed").
  set (w3 := tick (with_db d1 (tick w))).
  assert (Hn : exists w4 job, notify ty pda signer w3 = (Ok tt, w4) /\
    w_db w4 = set_notifications (fun t => t ++ [job]) d1 /\ (w_tick w3 <= w_tick w4)%nat /\
    nq_recipient_pubkey job = signer /\ nq_agreement_pda job = pda /\ nq_event_type job = ty).
  { unfold notify, enqueue_notification, internal. do 2 eexists. split.
    - erewrite bind_step; [reflexivity|]. unfold attempt.
      erewrite bind_step by reflexivity. erewrite bind_step by reflexivity.
      unfold map_err. erewrite sql_up; [reflexivity | apply Hup; cbn; lia|].
      unfold insert_notification_stmt. rewrite insert_prepared_ok by reflexivity. reflexivity.
    - cbn. split; [done|]. split; [lia | done]. }
  destruct Hn as (w4 & job & Hn & Hd4 & Ht & Hj1 & Hj2 & Hj3).
  erewrite bind_step by exact Hn.
  erewrite bind_step by (apply sql_query, Hup; cbn in Ht |- *; lia).
  match goal with |- context [for_each ?ps (broadcast ?ev)] =>
    destruct (broadcasts_ok ev ps (tick w4)) as (w5 & E5 & Hd5) end.
  exists w5, job. split; [exact E5|]. rewrite Hd5. change (w_db (tick w4)) with (w_db w4).
  rewrite Hd4. split; [done|]. split.
  - cbn. by apply map_update_where.
  - split; [done|]. split; [done|]. split; [done|]. exact Hj3.
Qed.
End SignFacts.

(** *** Witness *)

Definition party_row_demo (who : string) (signed : option Z) : AgreementPartyRow :=
  mkAgreementParty who "agreement" "alice" "PendingSignatures" signed 0 500 "Agreement".

Definition db_signing : Db :=
  set_parties (fun _ => [party_row_demo "alice" (Some 5); party_row_demo "bob" None]) db_empty.

Definition sign_event_demo : ParsedEvent :=
  mkParsedEvent SignAgreement "agreement" None (Some "bob") [].

Lemma sign_event_records_witness :
  exists w' job, @handle_event env_demo sign_event_demo (world_demo db_signing) = (Ok tt, w') /\
    map ap_status (db_parties (w_db w')) = ["PendingSignatures"; "PendingSignatures"] /\
    db_notifications (w_db w') = [job] /\ nq_recipient_pubkey job = "bob".
Proof.
  destruct (@sign_event_records env_demo sign_event_demo (world_demo db_signing))
    as (w' & job & E & _ & Hs & Hj & Hr & _).
  - intros k _. reflexivity.
  - reflexivity.
  - reflexivity.
  - exists w', job. auto.
Defined.
