(* ===== verification/LogStream.v ===== *)
(** * LogStream: the subscription the event listener reads from

    src/src/services/solana_logs.rs and the loop of
    src/src/workers/event_listener.rs around it.  A subscription is two tasks
    and a bounded channel between them: the streaming task takes notifications
    from the node and sends them, blocking when the channel is full; the
    listener receives and handles one log after the other.  What the node does
    is an event. *)

From Stdlib Require Import ZArith Lia.
From Stdlib Require Import Strings.Byte Strings.Ascii Strings.String.
From stdpp Require Import base tactics decidable option list strings gmap.
From S2P Require Import Prelude Text Errors Borsh SolanaTypes Health World Concrete Crypto.
From S2P Require Import Notification Payments PaymentLifecycle EventListener.

Open Scope string_scope.
Open Scope list_scope.
Open Scope nat_scope.

(** ** src/src/services/solana_logs.rs *)

Inductive SolanaLogsError : Type :=
| InvalidProgramId (e : string)
| ConnectionFailed (e : string)
| SubscriptionError (e : string).

(** [#[error(..)]] of thiserror *)
Definition logs_error_display (e : SolanaLogsError) : string :=
  match e with
  | InvalidProgramId e => "Invalid program ID: " +:+ e
  | ConnectionFailed e => "WebSocket connection failed: " +:+ e
  | SubscriptionError e => "Subscription error: " +:+ e
  end.

Record SolanaLogsService : Type := mkLogsService { ls_ws_url : string; ls_program_id : Pubkey }.

(** A notification of the node: the transaction's error is part of it. *)
Record LogsResponse : Type := mkLogsResponse {
  lr_slot : Z; lr_signature : string; lr_err : option string; lr_logs : list string }.

(** The loop of [connect_and_stream] keeps three of the four fields. *)
Definition program_log_of (r : LogsResponse) : ProgramLog :=
  mkProgramLog (lr_signature r) (lr_slot r) (lr_logs r).

Section Service.
Context `{Ext} (pubkey_error : string -> string).

(** [SolanaLogsService::new]; [pubkey_error] is the text of the parser's error. *)
Definition logs_service_new (ws_url program_id_str : string)
    : result SolanaLogsError SolanaLogsService :=
  match pubkey_from_str program_id_str with
  | Some program_id => Ok (mkLogsService ws_url program_id)
  | None => Err (InvalidProgramId (pubkey_error program_id_str))
  end.
End Service.

(** [mpsc::channel::<ProgramLog>(100)] *)
Definition CHANNEL_CAPACITY : nat := 100.

(** The streaming task: [logs_subscribe], [receiver.recv], [blocking_send], or
    returned. *)
Inductive Streamer : Type :=
| Connecting
| Receiving
| Sending (log : ProgramLog)
| Returned (r : result SolanaLogsError unit).

(** The listener: in [rx.recv], past its loop, or dropped with its task. *)
Inductive Listener : Type := Listening | Finished | Dropped.

(** [sb_delivered] and [sb_handled] are what the node has sent and what the
    listener has handled so far. *)
Record Subscription : Type := mkSubscription {
  sb_streamer : Streamer;
  sb_queue : list ProgramLog;
  sb_listener : Listener;
  sb_world : World;
  sb_delivered : list LogsResponse;
  sb_handled : list ProgramLog;
}.

Inductive NodeEvent : Type :=
| Accepts
| Refuses (e : string)
| Notifies (r : LogsResponse)
| Breaks (e : string).

Inductive StreamEvent : Type :=
| Node (ev : NodeEvent)
| Send
| Receive
| Drop.

Section Stream.
Context `{Ext, Env}.

(** [subscribe_logs]: the streaming task is spawned and the receiver returned
    at once. *)
Definition subscribe_logs (w : World) : Subscription :=
  mkSubscription Connecting [] Listening w [] [].

Definition set_streamer (t : Streamer) (s : Subscription) : Subscription :=
  mkSubscription t (sb_queue s) (sb_listener s) (sb_world s) (sb_delivered s) (sb_handled s).

(** [connect_and_stream] up to its next send *)
Definition on_node (ev : NodeEvent) (s : Subscription) : option Subscription :=
  match sb_streamer s, ev with
  | Connecting, Accepts => Some (set_streamer Receiving s)
  | Connecting, Refuses e => Some (set_streamer (Returned (Err (ConnectionFailed e))) s)
  | Receiving, Notifies r =>
      Some (mkSubscription (Sending (program_log_of r)) (sb_queue s) (sb_listener s) (sb_world s)
              (sb_delivered s ++ [r]) (sb_handled s))
  | Receiving, Breaks e => Some (set_streamer (Returned (Err (SubscriptionError e))) s)
  | _, _ => None
  end.

(** [tx.blocking_send(log)]: waits while the channel is full, fails when the
    receiver is gone. *)
Definition on_send (s : Subscription) : option Subscription :=
  match sb_streamer s with
  | Sending log =>
      match sb_listener s with
      | Listening =>
          if length (sb_queue s) <? CHANNEL_CAPACITY then
            Some (mkSubscription Receiving (sb_queue s ++ [log]) (sb_listener s) (sb_world s)
                    (sb_delivered s) (sb_handled s))
          else None
      | _ => Some (set_streamer (Returned (Ok tt)) s)
      end
  | _ => None
  end.

(** The senders are gone when the streaming task has returned. *)
Definition sender_gone (s : Subscription) : bool :=
  match sb_streamer s with Returned _ => true | _ => false end.

(** One turn of [while let Some(log) = rx.recv().await] *)
Definition on_receive (s : Subscription) : option Subscription :=
  match sb_listener s, sb_queue s with
  | Listening, log :: queue =>
      Some (mkSubscription (sb_streamer s) queue Listening (snd (process_log log (sb_world s)))
              (sb_delivered s) (sb_handled s ++ [log]))
  | Listening, [] =>
      if sender_gone s then
        Some (mkSubscription (sb_streamer s) [] Finished (sb_world s) (sb_delivered s) (sb_handled s))
      else None
  | _, _ => None
  end.

(** The task of the listener is dropped, and its receiver with it. *)
Definition on_drop (s : Subscription) : option Subscription :=
  match sb_listener s with
  | Listening => Some (mkSubscription (sb_streamer s) [] Dropped (sb_world s) (sb_delivered s) (sb_handled s))
  | _ => None
  end.

Definition on_event (e : StreamEvent) (s : Subscription) : option Subscription :=
  match e with
  | Node ev => on_node ev s
  | Send => on_send s
  | Receive => on_receive s
  | Drop => on_drop s
  end.

Definition stream_step (s s' : Subscription) : Prop := exists e, on_event e s = Some s'.

(** A run along given events. *)
Fixpoint stream_run (es : list StreamEvent) (s : Subscription) : option Subscription :=
  match es with
  | [] => Some s
  | e :: es' => on_event e s ≫= stream_run es'
  end.

Lemma stream_run_reaches es s s' : stream_run es s = Some s' -> star stream_step s s'.
Proof.
  revert s. induction es as [|e es IH]; cbn; intros s Hr; [injection Hr as <-; apply star_refl|].
  destruct (on_event e s) as [s1|] eqn:Es; [|done].
  eapply star_step; [by exists e | by apply IH].
Qed.

(** ** src/src/workers/event_listener.rs, around the subscription *)

Section Round.
Context (pubkey_error : string -> string) (ws_url program_id : string).

(** [connect_and_listen] over a subscription that delivers [logs] and closes:
    its result, and the status it leaves in the caller's variable. *)
Definition connect_and_listen (logs : list ProgramLog) (status : WorkerStatus)
    : M World SqlError (result string unit * WorkerStatus) :=
  match logs_service_new pubkey_error ws_url program_id with
  | Err e => ret (Err ("Failed to create logs service: " +:+ logs_error_display e), status)
  | Ok _ =>
      let status := transition_to_healthy status in
      for_each logs process_log ;;; ret (Ok tt, status)
  end.

(** The reason the caller gives for the degradation, which is logged. *)
Definition round_reason (r : result string unit) : DegradationReason :=
  match r with Ok _ => RetryBackoff | Err _ => RpcUnavailable end.

(** One iteration of [run]: degraded whatever the result. *)
Definition listener_round (logs : list ProgramLog) (status : WorkerStatus)
    : M World SqlError (DegradationReason * WorkerStatus) :=
  let* out := connect_and_listen logs status in
  let* status := degrade (snd out) in
  ret (round_reason (fst out), status).
End Round.

(** ** Invariant *)

(** The log the streaming task holds. *)
Definition in_hand (s : Subscription) : list ProgramLog :=
  match sb_streamer s with Sending log => [log] | _ => [] end.

Record stream_inv (w : World) (s : Subscription) : Prop := mkStreamInv {
  si_capacity : length (sb_queue s) <= CHANNEL_CAPACITY;
  si_world : sb_world s = snd (for_each (sb_handled s) process_log w);
  si_order : sb_listener s <> Dropped ->
    sb_handled s ++ sb_queue s ++ in_hand s = map program_log_of (sb_delivered s);
  si_prefix : sb_handled s `prefix_of` map program_log_of (sb_delivered s);
  si_finished : sb_listener s = Finished -> sb_queue s = [] /\ sender_gone s = true;
  si_given_up : sb_streamer s = Returned (Ok tt) -> sb_listener s <> Listening;
}.

(** Handling a log never stops the listener. *)
Lemma process_log_total log w : exists w', process_log log w = (Ok tt, w').
Proof.
  unfold process_log. destruct (parse_logs _ _) as [event|]; [|by exists w].
  unfold bind, attempt. destruct (handle_event event w) as [r w']. by exists w'.
Qed.

Lemma process_logs_total logs w : exists w', for_each logs process_log w = (Ok tt, w').
Proof.
  revert w. induction logs as [|log logs IH]; intros w; [by exists w|]. cbn [for_each]. unfold bind.
  destruct (process_log_total log w) as [w1 ->]. apply IH.
Qed.

Lemma process_logs_snoc logs log w :
  snd (for_each (logs ++ [log]) process_log w) =
  snd (process_log log (snd (for_each logs process_log w))).
Proof.
  revert w. induction logs as [|l logs IH]; intros w; cbn [app for_each]; unfold bind.
  - destruct (process_log_total log w) as [w' E]. cbn. by rewrite E.
  - destruct (process_log_total l w) as [w' ->]. apply IH.
Qed.

Lemma stream_inv_step w s s' : stream_inv w s -> stream_step s s' -> stream_inv w s'.
Proof.
  intros [Hc Hw Ho Hp Hf Hg] [e Hs]. destruct s as [t q l sw dl hd]; cbn in *.
  destruct e as [ev| | |]; cbn in Hs; unfold on_node, on_send, on_receive, on_drop, sender_gone in *;
    cbn -[Nat.ltb CHANNEL_CAPACITY] in *.
  - destruct t, ev; try discriminate Hs; injection Hs as <-; split; cbn in *; auto;
      try (rewrite map_app; cbn); try (intros Hl; rewrite <-Ho by done; by rewrite ?app_nil_r, ?app_assoc);
      try (intros Hl; by destruct (Hf Hl)); try done.
    by apply prefix_app_r.
  - destruct t as [| |log|]; try discriminate Hs. destruct l.
    + destruct (Nat.ltb_spec (length q) CHANNEL_CAPACITY); [|discriminate Hs]. injection Hs as <-.
      split; cbn in *; auto; try done.
      * rewrite length_app. cbn. lia.
      * intros Hl. rewrite <-Ho by done. by rewrite app_nil_r.
    + injection Hs as <-. destruct (Hf eq_refl) as [_ [=]].
    + injection Hs as <-. split; cbn in *; auto; done.
  - destruct l; try discriminate Hs. destruct q as [|log q].
    + destruct t as [| | |r]; try discriminate Hs. injection Hs as <-. split; cbn in *; auto; done.
    + injection Hs as <-. split; cbn in *; auto; try done.
      * lia.
      * rewrite Hw. symmetry. apply process_logs_snoc.
      * intros Hl. rewrite <-Ho by done. by rewrite <-app_assoc.
      * exists (q ++ in_hand (mkSubscription t (log :: q) Listening sw dl hd)).
        rewrite <-Ho by done. by rewrite <-app_assoc.
  - destruct l; try discriminate Hs. injection Hs as <-. split; cbn in *; auto; try done. lia.
Qed.

Lemma stream_inv_reached w s : star stream_step (subscribe_logs w) s -> stream_inv w s.
Proof.
  intros Hs. apply (star_invariant stream_step (stream_inv w) _ _ (stream_inv_step w) Hs).
  split; cbn; try done. unfold CHANNEL_CAPACITY. lia.
Qed.

(** C28: the subscription delivers in order and within its bound.  Whatever the
    node sends and however the two tasks interleave, the channel holds at most
    a hundred logs, the logs handled are the first of those delivered, in their
    order and each once, with nothing lost between the tasks while the listener
    listens, and the tables are what handling them one after the other makes of
    them. *)
Theorem stream_in_order (w : World) (s : Subscription) :
  star stream_step (subscribe_logs w) s ->
  length (sb_queue s) <= 100 /\
  sb_handled s `prefix_of` map program_log_of (sb_delivered s) /\
  (sb_listener s <> Dropped ->
     sb_handled s ++ sb_queue s ++ in_hand s = map program_log_of (sb_delivered s)) /\
  sb_world s = snd (for_each (sb_handled s) process_log w).
Proof. intros Hs. by destruct (stream_inv_reached w s Hs). Qed.

(** The subscription refines the listener's round.  When the listener's
    loop has ended it has handled every log the node delivered; so the round
    ends as the round of the model that is given these logs, in the same tables,
    degraded, with the reason RetryBackoff. *)
Theorem stream_refines_round (pubkey_error : string -> string) (ws_url program_id : string)
    (status : WorkerStatus) (w : World) (s : Subscription) :
  pubkey_from_str program_id <> None ->
  star stream_step (subscribe_logs w) s -> sb_listener s = Finished ->
  listener_round pubkey_error ws_url program_id (map program_log_of (sb_delivered s)) status w =
    (Ok (RetryBackoff, Degraded),
     with_health (snd (transition_to_degraded (transition_to_healthy status) (w_health (sb_world s))))
       (sb_world s)).
Proof.
  intros Hk Hs Hf. destruct (stream_inv_reached w s Hs) as [_ Hw Ho _ Hfin _].
  destruct (Hfin Hf) as [Hq Hg]. assert (Hi : in_hand s = []).
  { unfold in_hand, sender_gone in *. by destruct (sb_streamer s). }
  rewrite Hq, Hi, !app_nil_r in Ho. rewrite <-Ho by congruence.
  unfold listener_round, connect_and_listen, logs_service_new. destruct (pubkey_from_str program_id); [|done].
  destruct (process_logs_total (sb_handled s) w) as [w' E]. rewrite E in Hw. cbn in Hw. subst w'.
  unfold bind. rewrite E. by destruct status.
Qed.

(** ** Progress *)

(** The streaming task waits for the node. *)
Definition awaits_node (s : Subscription) : bool :=
  match sb_streamer s with Connecting | Receiving => true | _ => false end.

(** Receptions alone, until none is possible. *)
Lemma drains n w s :
  stream_inv w s -> sb_listener s = Listening -> sender_gone s = true -> length (sb_queue s) = n ->
  exists s', stream_run (repeat Receive (S n)) s = Some s' /\ sb_listener s' = Finished.
Proof.
  revert s. induction n as [|n IH]; intros [t q l sw dl hd] Hi Hl Hg Hn; cbn in *; subst l.
  - destruct q; [|done]. cbn. destruct t; try discriminate Hg. cbn. eauto.
  - destruct q as [|log q]; [done|]. injection Hn as Hn.
    set (s1 := mkSubscription t q Listening (snd (process_log log sw)) dl (hd ++ [log])).
    destruct (IH s1) as (s' & Hr & Hf); [|done|done|done|].
    + eapply stream_inv_step; [exact Hi|]. by exists Receive.
    + exists s'. split; [|done]. exact Hr.
Qed.

(** The listener never hangs.  As long as it listens, either the streaming
    task waits for the node and the channel is empty, or one of the two tasks
    can take a step; and once the streaming task has returned, the listener's
    loop ends after as many receptions as there are logs in the channel, plus
    one. *)
Theorem stream_never_hangs (w : World) (s : Subscription) :
  star stream_step (subscribe_logs w) s -> sb_listener s = Listening ->
  (awaits_node s = true /\ sb_queue s = [] \/
   exists e s', (e = Send \/ e = Receive) /\ on_event e s = Some s') /\
  (sender_gone s = true ->
   exists s', stream_run (repeat Receive (S (length (sb_queue s)))) s = Some s' /\
     sb_listener s' = Finished).
Proof.
  intros Hs Hl. pose proof (stream_inv_reached w s Hs) as Hi. split.
  - destruct s as [t q l sw dl hd]; cbn in *; subst l. unfold awaits_node; cbn.
    destruct q as [|log q]; [|right; exists Receive; eexists; split; [by right | done]].
    destruct t as [| |log|r]; [by left | by left | right..].
    + exists Send. eexists. split; [by left | done].
    + exists Receive. eexists. split; [by right | done].
  - intros Hg. by eapply drains.
Qed.

(** ** What becomes of an unreachable node *)

(** An unreachable node looks like a closed connection.  [subscribe_logs]
    returns its receiver before anything has connected, so the listener reports
    itself healthy; the error of the connection stays in the streaming task;
    and the round ends as one that has received nothing, with the reason
    RetryBackoff.  RpcUnavailable is reported exactly when the program id does
    not parse. *)
Theorem unreachable_node_unnoticed (pubkey_error : string -> string) (ws_url program_id e : string)
    (status : WorkerStatus) (w : World) :
  (exists s, stream_run [Node (Refuses e); Receive] (subscribe_logs w) = Some s /\
     sb_streamer s = Returned (Err (ConnectionFailed e)) /\ sb_listener s = Finished /\
     sb_delivered s = []) /\
  (forall reason st w',
     listener_round pubkey_error ws_url program_id [] status w = (Ok (reason, st), w') ->
     (reason = RpcUnavailable <-> pubkey_from_str program_id = None)).
Proof.
  split; [eexists; split; [reflexivity | by repeat split]|].
  intros reason st w' Hr. unfold listener_round, connect_and_listen, logs_service_new in Hr.
  destruct (pubkey_from_str program_id), status; injection Hr as <- <- _; done.
Qed.
End Stream.

(** ** Failed transactions *)

Definition failed_cancel (err : option string) : LogsResponse :=
  mkLogsResponse 7 "agreement" err ["Program P invoke [1]"; "Program log: Instruction: CancelAgreement";
    "Program log: AnchorError occurred"; "Program P failed"].

(** An agreement with two parties and its confirmed payment. *)
Definition party_open (who : string) : AgreementPartyRow :=
  mkAgreementParty who "agreement" "creator" "PendingSignatures" None 0 0 "t".
Definition db_open : Db :=
  set_parties (fun _ => [party_open "p1"; party_open "p2"])
    (set_payments (fun _ => [mkAgreementPayment (uid x09) (uid x05) (uid x01) "usdc" "confirmed" 199
      (Some "ref") None None None None None None None 900 None (Some "agreement")]) db_empty).

Definition deliver_one (err : option string) : list StreamEvent :=
  [Node Accepts; Node (Notifies (failed_cancel err)); Send; Node (Breaks "closed"); Receive; Receive].

Definition failed_run (err : option string) : Subscription :=
  default (subscribe_logs (world_demo db_open))
    (@stream_run ext_demo env_demo (deliver_one err) (subscribe_logs (world_demo db_open))).

Lemma failed_run_is err :
  @stream_run ext_demo env_demo (deliver_one err) (subscribe_logs (world_demo db_open))
    = Some (failed_run err).
Proof. vm_compute. reflexivity. Qed.

(** Failed transactions count.  The node notifies of transactions that
    failed as well, with their error, and the service drops the error: the log
    of a cancellation that the program refused, by whomever it was sent, marks
    the agreement's parties as cancelled and its payment for refund, exactly
    as that of one that succeeded. *)
Theorem failed_cancellation_counts (err : option string) :
  exists s, star (@stream_step ext_demo env_demo) (subscribe_logs (world_demo db_open)) s /\
    sb_delivered s = [failed_cancel err] /\ sb_listener s = Finished /\
    map ap_status (db_parties (w_db (sb_world s))) = ["Cancelled"; "Cancelled"] /\
    map py_status (db_payments (w_db (sb_world s))) = ["refund_pending"].
Proof.
  exists (failed_run err). split; [exact (stream_run_reaches _ _ _ (failed_run_is err))|].
  vm_compute. by repeat split.
Qed.

Lemma stream_in_order_witness :
  sb_handled (failed_run None) = [program_log_of (failed_cancel None)] /\
  sb_world (failed_run None) =
    snd (for_each (sb_handled (failed_run None)) (@process_log ext_demo env_demo) (world_demo db_open)).
Proof.
  split; [vm_compute; reflexivity|].
  apply (@stream_in_order ext_demo env_demo (world_demo db_open) (failed_run None)
    (stream_run_reaches _ _ _ (failed_run_is None))).
Defined.

Definition program_text : string := hex_demo (bn_bytes (key x0d)).

Lemma stream_refines_round_witness :
  exists w', @listener_round ext_demo env_demo (fun s => s) "wss://node" program_text
    [program_log_of (failed_cancel None)] Healthy (world_demo db_open) = (Ok (RetryBackoff, Degraded), w').
Proof.
  eexists. apply (@stream_refines_round ext_demo env_demo (fun s => s) "wss://node" program_text Healthy
    (world_demo db_open) (failed_run None)).
  - vm_compute. discriminate.
  - exact (stream_run_reaches _ _ _ (failed_run_is None)).
  - vm_compute. reflexivity.
Defined.

(** The node breaks the connection while two logs wait. *)
Definition waiting_run : Subscription :=
  default (subscribe_logs (world_demo db_open))
    (@stream_run ext_demo env_demo
       [Node Accepts; Node (Notifies (failed_cancel None)); Send; Node (Notifies (failed_cancel None));
        Send; Node (Breaks "closed")] (subscribe_logs (world_demo db_open))).

Lemma stream_never_hangs_witness :
  length (sb_queue waiting_run) = 2 /\
  exists s', @stream_run ext_demo env_demo (repeat Receive 3) waiting_run = Some s' /\
    sb_listener s' = Finished.
Proof.
  split; [vm_compute; reflexivity|].
  refine (proj2 (@stream_never_hangs ext_demo env_demo (world_demo db_open) waiting_run
    (stream_run_reaches [Node Accepts; Node (Notifies (failed_cancel None)); Send;
       Node (Notifies (failed_cancel None)); Send; Node (Breaks "closed")] _ _ _) _) _);
    vm_compute; reflexivity.
Defined.
