(* ===== verification/Expiry.v ===== *)
(** * Expiry: the expiry worker (src/src/workers/expiry_worker.rs) *)

From Stdlib Require Import ZArith Lia.
From Stdlib Require Import Strings.Byte Strings.Ascii Strings.String.
From stdpp Require Import base tactics decidable option list strings gmap.
From S2P Require Import Prelude Text Errors Borsh SolanaTypes Health World Concrete Crypto.
From S2P Require Import Notification DraftData Solana Agreement Payments PaymentLifecycle.
From S2P Require Import EventListener.

Open Scope string_scope.
Open Scope list_scope.
Open Scope Z_scope.

(** ** Statements *)

(** [SELECT DISTINCT agreement_pda, creator_pubkey .. WHERE status =
    'PendingSignatures' AND expires_at < $1] *)
Definition due_where (now : Z) (r : AgreementPartyRow) : bool :=
  String.eqb (ap_status r) "PendingSignatures" && (ap_expires_at r <? now).

Fixpoint distinct_pairs (l : list (string * string)) : list (string * string) :=
  match l with
  | [] => []
  | p :: l' => if bool_decide (p ∈ l') then distinct_pairs l' else p :: distinct_pairs l'
  end.

Definition due_agreements (now : Z) (d : Db) : list (string * string) :=
  distinct_pairs (map (fun r => (ap_agreement_pda r, ap_creator_pubkey r))
                    (where_ (due_where now) (db_parties d))).

Definition in_status (pda st : string) (r : AgreementPartyRow) : bool :=
  of_agreement pda r && String.eqb (ap_status r) st.

(** The UPDATE and its [rows_affected() > 0]. *)
Definition lock_stmt (pda : string) : Stmt bool :=
  prepared T_agreement_parties ["status"] (fun _ d =>
    Some (exists_row (in_status pda "PendingSignatures") (db_parties d),
          set_parties (update_where (in_status pda "PendingSignatures") (set_party_status "expiring")) d)).

Definition unlock_stmt (pda : string) : Stmt unit :=
  prepared T_agreement_parties ["status"] (execute (fun _ => set_parties
    (update_where (in_status pda "expiring") (set_party_status "PendingSignatures")))).

Section Worker.
Context `{Ext, Env} (cfg : AppState).

Definition lock_agreement_for_expiry (pda : string) : M World SqlError bool := sql (lock_stmt pda).
Definition unlock_agreement_from_expiry (pda : string) : M World SqlError unit :=
  sql (unlock_stmt pda).

(** [agreement_account.data[32..48]] *)
Definition account_agreement_id (data : bytes) : option (bytesN 16) :=
  if (48 <=? length data)%nat then to_bytesN 16 (take 16 (drop 32 data)) else None.

Definition submit_transaction_rpc (t : Transaction) : M World AppError (bytesN 64) :=
  let* _ := of_result (ok_or (tx_encode t) InternalError) in
  let* sig_str := send_transaction t in
  of_result (ok_or (signature_from_str sig_str) InternalError).

Definition submit_expire_transaction (agreement_pda creator_pubkey : string)
    : M World AppError (bytesN 64) :=
  let* creator := of_result (ok_or (pubkey_from_str creator_pubkey) InternalError) in
  let* pda := of_result (ok_or (pubkey_from_str agreement_pda) InternalError) in
  let* data := get_account_data SolanaRpcError pda in
  let* agreement_id := of_result (ok_or (account_agreement_id data) InternalError) in
  let* tx := build_expire_agreement_tx creator agreement_id (vault_keypair cfg) in
  let* transaction := of_result (ok_or (tx_decode tx) InternalError) in
  submit_transaction_rpc transaction.

(** The body of the loop over the due agreements. *)
Definition expire_one (row : string * string) : M World SqlError unit :=
  let '(agreement_pda, creator_pubkey) := row in
  let* locked := attempt (lock_agreement_for_expiry agreement_pda) in
  match locked with
  | Ok true =>
      let* submitted := attempt (submit_expire_transaction agreement_pda creator_pubkey) in
      match submitted with
      | Ok _ => ret tt
      | Err _ =>
          report_degraded RetryBackoff ;;;
          let* reverted := attempt (unlock_agreement_from_expiry agreement_pda) in
          match reverted with
          | Ok _ => ret tt
          | Err _ => report_degraded RetryBackoff ;;; ret tt
          end
      end
  | Ok false => ret tt
  | Err _ => report_degraded RetryBackoff ;;; ret tt
  end.

Definition expire_due_agreements : M World SqlError WorkerStatus :=
  let* now := now_secs in
  let* rows := attempt (sql (query (due_agreements now))) in
  match rows with
  | Err _ => report_degraded RpcUnavailable
  | Ok rows => for_each rows expire_one ;;; ret Healthy
  end.

(** One iteration of the worker's loop. *)
Definition expiry_worker_cycle (status : WorkerStatus) : M World SqlError WorkerStatus :=
  if bool_decide (status = Disabled) then ret status else expire_due_agreements.
End Worker.

(** ** The account offsets *)

Section Offsets.
Context `{Ext, Env} (cfg : AppState).

(** The worker takes the agreement id from the wrong bytes.  In an account
    (an 8-byte discriminator, then the state) the id starts at byte 40; the
    worker reads bytes 32 to 48, which are the last eight bytes of the
    creator's key followed by the first eight of the id. *)
Theorem expiry_reads_shifted_id (d8 rest : bytes) (a : AgreementStateWire) :
  length d8 = 8%nat ->
  exists id, account_agreement_id (d8 ++ enc c_agreement a ++ rest) = Some id /\
    bn_bytes id = drop 24 (bn_bytes (ag_creator a)) ++ take 8 (bn_bytes (ag_agreement_id a)) /\
    to_bytesN 16 (take 16 (drop 40 (d8 ++ enc c_agreement a ++ rest))) = Some (ag_agreement_id a).
Proof.
  intros Hl. destruct (c_agreement_layout a) as [tl Htl]. rewrite Htl, <-!app_assoc.
  pose proof (bn_length (ag_creator a)) as Hc. pose proof (bn_length (ag_agreement_id a)) as Hi.
  set (c := bn_bytes (ag_creator a)) in *. set (i := bn_bytes (ag_agreement_id a)) in *.
  assert (Hread : take 16 (drop 32 (d8 ++ c ++ i ++ tl ++ rest)) = drop 24 c ++ take 8 i).
  { rewrite drop_app, drop_ge by lia. rewrite Hl. cbn [app].
    rewrite drop_app_le by lia. rewrite take_app, length_drop, Hc.
    change (32 - (32 - 8))%nat with 8%nat. change (16 - 8)%nat with 8%nat.
    rewrite take_ge by (rewrite length_drop; lia). f_equal. rewrite take_app_le by lia. done. }
  destruct (to_bytesN 16 (drop 24 c ++ take 8 i)) as [id|] eqn:Eid.
  - exists id. split; [|split].
    + unfold account_agreement_id. rewrite !length_app, Hl, Hc, Hi.
      destruct (Nat.leb_spec 48 (8 + (32 + (16 + (length tl + length rest))))); [|lia].
      by rewrite Hread.
    + by apply to_bytesN_Some in Eid.
    + rewrite drop_app, drop_ge by lia. rewrite Hl. cbn [app].
      change (40 - 8)%nat with 32%nat. rewrite <-Hc, drop_app_length.
      rewrite take_app_le by lia. rewrite take_ge by lia. apply to_bytesN_bytes.
  - exfalso. apply to_bytesN_None in Eid. apply Eid.
    rewrite length_app, length_drop, length_take. lia.
Qed.
End Offsets.

Lemma expiry_reads_shifted_id_witness :
  exists id, account_agreement_id (disc_demo ++ enc (@c_agreement borsh_demo) state_demo ++ []) = Some id /\
    bn_bytes id = drop 24 (bn_bytes (ag_creator state_demo))
                  ++ take 8 (bn_bytes (ag_agreement_id state_demo)).
Proof.
  destruct (@expiry_reads_shifted_id ext_demo disc_demo [] state_demo) as (id & E & Hid & _).
  - reflexivity.
  - exists id. split; [exact E | exact Hid].
Defined.

(** ** The lock *)

Section Lock.
Context `{Ext, Env} (cfg : AppState).

Definition locked (pda : string) (d : Db) : Db :=
  set_parties (update_where (in_status pda "PendingSignatures") (set_party_status "expiring")) d.
Definition unlocked (pda : string) (d : Db) : Db :=
  set_parties (update_where (in_status pda "expiring") (set_party_status "PendingSignatures")) d.

Lemma set_same_status r st : ap_status r = st -> set_party_status st r = r.
Proof. destruct r. cbn. by intros ->. Qed.

(** Releasing the lock restores the rows it changed. *)
Lemma unlock_lock pda d :
  Forall (fun r => in_status pda "expiring" r = false) (db_parties d) ->
  unlocked pda (locked pda d) = d.
Proof.
  intros Hn. destruct d. unfold unlocked, locked, set_parties. cbn in *. f_equal.
  unfold update_where. rewrite map_map. rewrite <-(map_id db_parties) at 2.
  apply map_ext_Forall. eapply Forall_impl; [exact Hn|]. intros r Hr.
  destruct (in_status pda "PendingSignatures" r) eqn:E; [|by rewrite Hr].
  unfold in_status in *. apply andb_true_iff in E as [Ea Es]. cbn.
  unfold of_agreement in *. cbn in *. rewrite Ea. cbn. apply String.eqb_eq in Es.
  destruct r; cbn in *. by subst.
Qed.

Lemma submit_expire_db pda creator : keeps (on_db eq) (submit_expire_transaction cfg pda creator).
Proof.
  unfold submit_expire_transaction, build_expire_agreement_tx, submit_transaction_rpc, vault_signed.
  keeps_auto.
Qed.

Lemma report_degraded_run {E} r w :
  exists w', report_degraded (E:=E) r w = (Ok (suggested_status r), w') /\ w_db w' = w_db w /\
    w_tick w' = w_tick w /\ w_effects w' = w_effects w.
Proof. unfold report_degraded, status_for_reason. eauto. Qed.

(** A locked agreement is not selected again. *)
Lemma locked_not_due pda creator now d : (pda, creator) ∉ due_agreements now (locked pda d).
Proof.
  intros Hin. assert (Hsub : forall l p, p ∈ distinct_pairs l -> p ∈ l).
  { induction l as [|q l IH]; intros p; cbn; [done|]. case_bool_decide.
    - right. by apply IH.
    - intros [->|Hp]%elem_of_cons; [left | right; by apply IH]. }
  apply Hsub, list_elem_of_fmap in Hin as (r & [= Hp _] & [Hr Hd]%elem_of_where).
  cbn in Hr. apply elem_of_update_where in Hr as (x & _ & ->).
  destruct (in_status pda "PendingSignatures" x) eqn:E; [done|].
  unfold due_where in Hd. apply andb_true_iff in Hd as [Hs _]. unfold in_status, of_agreement in E.
  by rewrite <-Hp, String.eqb_refl, Hs in E.
Qed.

(** The statement that locks, under every fault. *)
Lemma lock_run {F} pda w :
  attempt (F:=F) (lock_agreement_for_expiry pda) w =
  match db_fault (w_tick w) with
  | DbUp => (Ok (Ok (exists_row (in_status pda "PendingSignatures") (db_parties (w_db w)))),
             with_db (locked pda (w_db w)) (tick w))
  | DbLostBefore => (Ok (Err SqlUnavailable), tick w)
  | DbLostAfter => (Ok (Err SqlUnavailable), with_db (locked pda (w_db w)) (tick w))
  end.
Proof.
  unfold attempt, lock_agreement_for_expiry, sql. by destruct (db_fault _).
Qed.

Lemma unlock_run {F} pda w :
  exists r, attempt (F:=F) (unlock_agreement_from_expiry pda) w =
    (Ok r, with_db (match db_fault (w_tick w) with DbLostBefore => w_db w | _ => unlocked pda (w_db w) end)
             (tick w)).
Proof.
  unfold attempt, unlock_agreement_from_expiry, sql.
  destruct (db_fault _); eexists; [reflexivity | by destruct w | reflexivity].
Qed.

(** Locking without a row that waits changes nothing. *)
Lemma locked_none pda d :
  exists_row (in_status pda "PendingSignatures") (db_parties d) = false -> locked pda d = d.
Proof.
  intros Ex. destruct d. unfold locked, set_parties. cbn in *. f_equal.
  unfold update_where. rewrite <-(map_id db_parties) at 2. apply map_ext_Forall.
  apply Forall_forall. intros r Hr. destruct (in_status _ _ r) eqn:E; [|done].
  rewrite (proj2 (exists_row_spec _ _)) in Ex; [discriminate Ex | eauto].
Qed.

(** C35: the expiry lock, whatever fails.  The worker submits only for an
    agreement of which it could lock a row that waits for signatures, and always
    goes on.  When the submission succeeds, the rows stay locked; when it fails,
    they are released, which restores the tables if no row was locked before,
    unless the connection is lost before the release, which leaves them
    locked; so does a connection lost after the statement that locks.  While its
    rows are locked, no scan selects the agreement, at any time and for any
    creator. *)
Theorem expiry_lock_released (pda creator : string) (w : World) :
  let d := w_db w in
  let submission := submit_expire_transaction cfg pda creator (with_db (locked pda d) (tick w)) in
  exists w', expire_one cfg (pda, creator) w = (Ok tt, w') /\
    match db_fault (w_tick w), exists_row (in_status pda "PendingSignatures") (db_parties d) with
    | DbUp, true =>
        if is_ok (fst submission) then w_db w' = locked pda d
        else
          match db_fault (w_tick (snd submission)) with
          | DbLostBefore => w_db w' = locked pda d
          | _ => w_db w' = unlocked pda (locked pda d)
          end
    | DbLostAfter, _ => w_db w' = locked pda d /\ w_effects w' = w_effects w
    | _, _ => w_db w' = d /\ w_effects w' = w_effects w
    end /\
    (Forall (fun r => in_status pda "expiring" r = false) (db_parties d) ->
     unlocked pda (locked pda d) = d) /\
    (forall now who, (pda, who) ∉ due_agreements now (locked pda d)).
Proof.
  cbv zeta. set (w1 := with_db _ _).
  enough (exists w', expire_one cfg (pda, creator) w = (Ok tt, w') /\
    match db_fault (w_tick w), exists_row (in_status pda "PendingSignatures") (db_parties (w_db w)) with
    | DbUp, true =>
        if is_ok (fst (submit_expire_transaction cfg pda creator w1)) then w_db w' = locked pda (w_db w)
        else
          match db_fault (w_tick (snd (submit_expire_transaction cfg pda creator w1))) with
          | DbLostBefore => w_db w' = locked pda (w_db w)
          | _ => w_db w' = unlocked pda (locked pda (w_db w))
          end
    | DbLostAfter, _ => w_db w' = locked pda (w_db w) /\ w_effects w' = w_effects w
    | _, _ => w_db w' = w_db w /\ w_effects w' = w_effects w
    end) as (w' & Hw' & Hm).
  { exists w'. split; [exact Hw'|]. split; [exact Hm|]. split; [apply unlock_lock|].
    intros. apply locked_not_due. }
  unfold expire_one, bind at 1. rewrite lock_run.
  destruct (db_fault (w_tick w)).
  - destruct (exists_row _ _) eqn:Ex; [|eexists; split; [reflexivity|]; split; [by apply locked_none | done]].
    fold w1. pose proof (submit_expire_db pda creator w1) as Hdb. unfold on_db in Hdb.
    unfold bind at 1, attempt at 1.
    destruct (submit_expire_transaction cfg pda creator w1) as [[sig|e] w2]; cbn [fst snd is_ok] in Hdb |- *.
    + exists w2. by split.
    + destruct (report_degraded_run (E:=SqlError) RetryBackoff w2) as (w3 & E3 & Hd3 & Ht3 & _).
      erewrite bind_step by exact E3. destruct (unlock_run (F:=SqlError) pda w3) as [r E4].
      erewrite bind_step by exact E4. rewrite Hd3, Ht3 in *. rewrite <-Hdb in *. set (w4 := with_db _ _).
      destruct (report_degraded_run (E:=SqlError) RetryBackoff w4) as (w5 & E5 & Hd5 & _).
      destruct r as [u|e']; [exists w4 | exists w5; erewrite bind_step by exact E5; rewrite Hd5];
        (split; [done|]); unfold w4; cbn [w_db with_db]; by destruct (db_fault (w_tick w2)).
  - destruct (report_degraded_run (E:=SqlError) RetryBackoff (tick w)) as (w3 & E3 & Hd3 & _ & He3).
    erewrite bind_step by exact E3. exists w3. rewrite Hd3, He3. done.
  - destruct (report_degraded_run (E:=SqlError) RetryBackoff w1) as (w3 & E3 & Hd3 & _ & He3).
    fold w1. erewrite bind_step by exact E3. exists w3. rewrite Hd3, He3. done.
Qed.
End Lock.

(** The RPC node knows no such account, so the submission fails. *)
Lemma expiry_lock_released_witness :
  exists w', @expire_one ext_demo env_demo config_demo ("agreement", "alice") (world_demo db_signing)
      = (Ok tt, w') /\ w_db w' = db_signing.
Proof.
  destruct (@expiry_lock_released ext_demo env_demo config_demo "agreement" "alice"
      (world_demo db_signing)) as (w' & E & Hw & Hun & _).
  exists w'. split; [exact E|]. etransitivity; [exact Hw | apply Hun; repeat constructor].
Defined.
