(* ===== verification/Keeper.v ===== *)
(** * Keeper: the housekeeping worker (src/src/workers/keeper.rs)

    The scans on invitations, balances, the treasury sweep and authentication
    records; the two payment scans are in Payments.v. *)

From Stdlib Require Import ZArith Lia.
From Stdlib Require Import Strings.Byte Strings.Ascii Strings.String.
From Stdlib Require Import Floats.SpecFloat.
From stdpp Require Import base tactics decidable option list strings gmap.
From S2P Require Import Prelude Text Errors Borsh SolanaTypes Health World Concrete Crypto.
From S2P Require Import Notification Payments PaymentLifecycle.

Open Scope string_scope.
Open Scope list_scope.
Open Scope Z_scope.

(** ** Statements *)

Definition pi_pending (r : PartyInvitationRow) : bool := String.eqb (pi_status r) "pending".

(** The joins of the reminder query: the invitation, its draft, the user whose
    first wallet created the draft, and that user's contact. *)
Definition reminder_ids (threshold : Z) (d : Db) : list Uuid :=
  List.flat_map (fun i =>
    List.flat_map (fun dr =>
      List.flat_map (fun u =>
        map (fun _ => pi_id i)
          (where_ (fun c => uuid_eqb (uc_user_id c) (ua_id u)
                     && match uc_email_enc c with Some _ => true | None => false end)
             (db_contacts d)))
        (where_ (fun u => sql_eq (option_map aw_pubkey
             (fetch_optional (where_ (fun a => uuid_eqb (aw_user_id a) (ua_id u)) (db_wallets d))))
             (ad_creator_pubkey dr)) (db_users d)))
      (where_ (fun dr => uuid_eqb (ad_id dr) (pi_draft_id i)) (db_drafts d)))
    (where_ (fun i => pi_pending i && (pi_reminder_count i =? 0) && (pi_created_at i <? threshold))
       (db_invitations d)).

Definition remind_row (at_ : Z) (r : PartyInvitationRow) : PartyInvitationRow :=
  mkPartyInvitation (pi_id r) (pi_draft_id r) (pi_email_index r) (pi_email_enc r)
    (pi_email_nonce r) (pi_token r) (pi_status r) (Some at_) (pi_reminder_count r + 1)
    (pi_created_at r) (pi_expires_at r).

Definition remind_stmt (id : Uuid) (at_ : Z) : Stmt unit :=
  prepared T_party_invitations ["reminder_sent_at"; "reminder_count"] (fun _ d =>
    if List.forallb (fun r => pi_reminder_count r <? 2147483647)
         (where_ (fun r => uuid_eqb (pi_id r) id) (db_invitations d))
    then Some (tt, set_invitations
      (update_where (fun r => uuid_eqb (pi_id r) id) (remind_row at_)) d)
    else None).

Definition expire_invitation_row (r : PartyInvitationRow) : PartyInvitationRow :=
  mkPartyInvitation (pi_id r) (pi_draft_id r) (pi_email_index r) (pi_email_enc r)
    (pi_email_nonce r) (pi_token r) "expired" (pi_reminder_sent_at r) (pi_reminder_count r)
    (pi_created_at r) (pi_expires_at r).

Definition expire_invitations_stmt (now : Z) : Stmt unit :=
  prepared T_party_invitations ["status"] (execute (fun _ => set_invitations
    (update_where (fun r => pi_pending r && (pi_expires_at r <? now)) expire_invitation_row))).

(** [NOT EXISTS(.. last_sweep_at > extract(epoch from now()) - 86400)], with the
    server's clock in microseconds *)
Definition sweep_due : Stmt bool := fun now d =>
  Some (negb (exists_row (fun r => now - 86400000000 <? sw_last_sweep_at r * 1000000) (db_sweep d)), d).

Definition mark_swept_stmt (now : Z) : Stmt unit :=
  insert_prepared T_sweep_config ["id"; "last_sweep_at"] (execute (fun _ => set_sweep (fun t =>
    if exists_row (fun r => sw_id r =? 1) t
    then update_where (fun r => sw_id r =? 1) (fun r => mkSweepConfig (sw_id r) now) t
    else t ++ [mkSweepConfig 1 now]))).

Definition delete_nonces_stmt (threshold : Z) : Stmt unit :=
  prepared T_siws_nonces [] (execute (fun _ =>
    set_nonces (where_ (fun r => negb (sn_created_at r <? threshold))))).

Definition delete_refresh_stmt (now : Z) : Stmt unit :=
  prepared T_refresh_tokens [] (execute (fun _ =>
    set_refresh (where_ (fun r => negb (rt_expires_at r <? now))))).

(** ** Balances *)

Definition SOL_IN_LAMPORTS : spec_float := f64_of_Z 1000000000.

Definition circuit_breaker_status (vault_sol threshold : spec_float)
    : option (WorkerStatus * DegradationReason) :=
  if SFltb vault_sol threshold
  then Some (suggested_status CircuitBreakerTripped, CircuitBreakerTripped)
  else None.

(** [balance.amount.parse::<u64>().unwrap_or(0)] *)
Definition token_amount (amount : string) : Z := default 0 (parse_u64 amount).

(** A query that fails is logged, and there is no sweep. *)
Definition should_sweep_from_query_result {E} (result : result E bool) : option bool :=
  match result with Ok should => Some should | Err _ => None end.

Section Worker.
Context `{Ext, Env} (cfg : AppState).

Definition remind_one (inv_id : Uuid) : M World SqlError unit :=
  let* sent := attempt (send_email (cfg_resend_api_key cfg) (cfg_email_from cfg)
    "invited@example.com" NE.InvitationReminder None) in
  match sent with
  | Err _ => ret tt
  | Ok _ =>
      let* now := now_secs in
      attempt (sql (remind_stmt inv_id now)) ;;; ret tt
  end.

Definition send_invitation_reminders : M World SqlError unit :=
  let* now := now_secs in
  let threshold := i64_wrap (now - i64_wrap (cfg_invite_reminder_after_seconds cfg)) in
  let* result := attempt (sql (query (reminder_ids threshold))) in
  match result with
  | Ok ids => for_each ids remind_one
  | Err _ => ret tt
  end.

Definition expire_stale_invitations : M World SqlError unit :=
  let* now := now_secs in
  attempt (sql (expire_invitations_stmt now)) ;;; ret tt.

Definition check_hot_wallet_balances : M World SqlError WorkerStatus :=
  let* vault := attempt (get_balance (vault_keypair cfg)) in
  match vault with
  | Err _ => ret Healthy
  | Ok balance =>
      let vault_sol := f64_div (f64_of_Z balance) SOL_IN_LAMPORTS in
      match circuit_breaker_status vault_sol (cfg_vault_min_sol_circuit_breaker cfg) with
      | Some (status, _) => mark_process_degraded ;;; ret status
      | None =>
          match pubkey_from_str (sc_mint (usdc (cfg_stablecoin_registry cfg))) with
          | None => ret Healthy
          | Some usdc_mint =>
              attempt (get_token_account_balance
                (get_associated_token_address (treasury_keypair cfg) usdc_mint)) ;;;
              ret Healthy
          end
      end
  end.

(** One coin of the sweep: the balance is read and reported; no transfer is
    made. *)
Definition sweep_one (coin : StablecoinInfo) : M World SqlError unit :=
  match pubkey_from_str (sc_mint coin) with
  | None => ret tt
  | Some mint =>
      attempt (get_token_account_balance
        (get_associated_token_address (treasury_keypair cfg) mint)) ;;; ret tt
  end.

Definition sweep_treasury_excess : M World SqlError unit :=
  let* due := attempt (sql sweep_due) in
  match should_sweep_from_query_result due with
  | None | Some false => ret tt
  | Some true =>
      match pubkey_from_str (cfg_treasury_sweep_dest cfg) with
      | None => ret tt
      | Some _ =>
          let reg := cfg_stablecoin_registry cfg in
          for_each [usdc reg; usdt reg; pyusd reg] sweep_one ;;;
          let* now := now_secs in
          attempt (sql (mark_swept_stmt now)) ;;; ret tt
      end
  end.

Definition cleanup_expired_auth_records : M World SqlError unit :=
  let* t := now_secs in
  let nonce_threshold := t - 300 in
  attempt (sql (delete_nonces_stmt nonce_threshold)) ;;;
  let* now := now_secs in
  attempt (sql (delete_refresh_stmt now)) ;;; ret tt.

(** One iteration of [run]. *)
Definition keeper_cycle (status : WorkerStatus) : M World SqlError WorkerStatus :=
  if bool_decide (status = Disabled) then ret status else
  send_invitation_reminders ;;;
  expire_stale_invitations ;;;
  let* status := check_hot_wallet_balances in
  if bool_decide (status = Disabled) then ret status else
  sweep_treasury_excess ;;;
  expire_timed_out_payments ;;;
  reconcile_late_payments ;;;
  cleanup_expired_auth_records ;;;
  ret status.

(** [n] iterations. *)
Fixpoint keeper_cycles (n : nat) (status : WorkerStatus) (w : World) : WorkerStatus * World :=
  match n with
  | O => (status, w)
  | S n' => let '(r, w') := keeper_cycle status w in
            keeper_cycles n' (match r with Ok st => st | Err _ => status end) w'
  end.
End Worker.

(** ** The circuit breaker *)

(** Computations that always answer. *)
Definition answers {W E A} (m : M W E A) : Prop := forall w, exists a w', m w = (Ok a, w').

Section Answers.
Context {W E : Type}.

Lemma answers_ret {A} (a : A) : answers (W:=W) (E:=E) (ret a).
Proof. intros w. by do 2 eexists. Qed.
Lemma answers_attempt {F A} (m : M W F A) : answers (attempt (F:=E) m).
Proof. intros w. unfold attempt. destruct (m w). eauto. Qed.
Lemma answers_bind {A B} (m : M W E A) (k : A -> M W E B) :
  answers m -> (forall a, answers (k a)) -> answers (bind m k).
Proof.
  intros Hm Hk w. destruct (Hm w) as (a & w1 & Hw). erewrite bind_step by exact Hw. apply Hk.
Qed.
Lemma answers_for_each {A} (xs : list A) (body : A -> M W E unit) :
  (forall x, answers (body x)) -> answers (for_each xs body).
Proof.
  intros Hb. induction xs as [|x xs IH]; cbn; [apply answers_ret | by apply answers_bind].
Qed.
End Answers.

Section Breaker.
Context `{Ext, Env} (cfg : AppState).

Lemma answers_now {E} : answers (now_secs (E:=E)).
Proof. intros w. by do 2 eexists. Qed.

Lemma remind_one_answers id : answers (remind_one cfg id).
Proof.
  unfold remind_one. apply answers_bind; [apply answers_attempt | intros [?|?]].
  - apply answers_bind; [apply answers_now | intros now].
    apply answers_bind; [apply answers_attempt | intros; apply answers_ret].
  - apply answers_ret.
Qed.

Lemma reminders_answer : answers (send_invitation_reminders cfg).
Proof.
  unfold send_invitation_reminders. apply answers_bind; [apply answers_now | intros now].
  apply answers_bind; [apply answers_attempt | intros [ids|?]].
  - apply answers_for_each. intros ?. apply remind_one_answers.
  - apply answers_ret.
Qed.

Lemma expire_stale_answers : answers expire_stale_invitations.
Proof.
  unfold expire_stale_invitations. apply answers_bind; [apply answers_now | intros now].
  apply answers_bind; [apply answers_attempt | intros; apply answers_ret].
Qed.

(** The tables the later scans of a cycle work on. *)
Definition late_tables (d : Db) :=
  (db_payments d, db_nonces d, db_refresh d, db_sweep d).
Definition same_late (w w' : World) : Prop := late_tables (w_db w') = late_tables (w_db w).

#[local] Instance same_late_preorder : PreOrder same_late.
Proof. split; [done|]. intros x y z ??. unfold same_late in *. congruence. Qed.

Definition late_db (d d' : Db) : Prop := late_tables d' = late_tables d.

#[local] Instance late_db_preorder : PreOrder late_db.
Proof. split; [done|]. intros x y z ??. unfold late_db in *. congruence. Qed.

Lemma remind_late id at_ : stmt_keeps late_db (remind_stmt id at_).
Proof.
  intros now d a d'. unfold remind_stmt. rewrite prepared_ok by reflexivity.
  destruct (List.forallb _ _); [|done]. by intros [= _ <-].
Qed.
Lemma expire_late th : stmt_keeps late_db (expire_invitations_stmt th).
Proof.
  intros now d a d'. unfold expire_invitations_stmt. rewrite prepared_ok by reflexivity.
  by intros [= _ <-].
Qed.
Lemma email_late k from address e pda : keeps (on_db late_db) (send_email k from address e pda).
Proof. apply keeps_send_email. typeclasses eauto. Qed.
Hint Resolve remind_late expire_late email_late : keeps.

Lemma first_scans_late :
  keeps (on_db late_db) (send_invitation_reminders cfg) /\
  keeps (on_db late_db) expire_stale_invitations.
Proof.
  split; unfold send_invitation_reminders, remind_one, expire_stale_invitations; keeps_auto.
Qed.

Lemma keeper_disabled n w : keeper_cycles cfg n Disabled w = (Disabled, w).
Proof.
  induction n as [|n IH]; cbn; [done|]. unfold keeper_cycle.
  rewrite bool_decide_eq_true_2 by done. exact IH.
Qed.

(** C36: a low vault stops all housekeeping for good.  When the vault's balance
    is below the threshold in the first cycle, that cycle ends after the
    balance check and the keeper stays disabled: however many cycles follow,
    payments are never timed out or reconciled, nonces and refresh tokens never
    cleaned up, the treasury never swept, and the process is not healthy. *)
Theorem breaker_stops_keeper (n : nat) (balance : Z) (st : WorkerStatus) (w : World) :
  st <> Disabled ->
  (forall k, rpc_balance k (vault_keypair cfg) = Some balance) ->
  SFltb (f64_div (f64_of_Z balance) SOL_IN_LAMPORTS) (cfg_vault_min_sol_circuit_breaker cfg) = true ->
  exists w', keeper_cycles cfg (S n) st w = (Disabled, w') /\
    late_tables (w_db w') = late_tables (w_db w) /\
    PH.current (w_health w') <> PH.Healthy.
Proof.
  intros Hst Hb Hlow.
  destruct (reminders_answer w) as ([] & w1 & E1). destruct (expire_stale_answers w1) as ([] & w2 & E2).
  set (w3 := with_health (PH.mark_degraded (w_health (tick w2))) (tick w2)).
  assert (E3 : check_hot_wallet_balances cfg w2 = (Ok Disabled, w3)).
  { unfold check_hot_wallet_balances, bind at 1, attempt, get_balance. rewrite Hb. cbn [ok_or].
    unfold circuit_breaker_status. rewrite Hlow. reflexivity. }
  assert (Ec : keeper_cycle cfg st w = (Ok Disabled, w3)).
  { unfold keeper_cycle. rewrite bool_decide_eq_false_2 by done.
    erewrite bind_step by exact E1. erewrite bind_step by exact E2.
    erewrite bind_step by exact E3. by rewrite bool_decide_eq_true_2. }
  exists w3. split; [|split].
  - change (keeper_cycles cfg (S n) st w) with
      (let '(r, w') := keeper_cycle cfg st w in
       keeper_cycles cfg n (match r with Ok st' => st' | Err _ => st end) w').
    rewrite Ec. apply keeper_disabled.
  - pose proof (proj1 first_scans_late w) as K1. pose proof (proj2 first_scans_late w1) as K2.
    unfold on_db, late_db in *. rewrite E1 in K1. rewrite E2 in K2. cbn [snd] in *.
    change (late_tables (w_db w3)) with (late_tables (w_db w2)). congruence.
  - unfold w3. cbn. rewrite PH.mark_degraded_current. by destruct (PH.current _).
Qed.
End Breaker.

Definition config_breaker : AppState := app_demo "k" "i" (f64_of_Z 10) 0.

Lemma breaker_stops_keeper_witness :
  exists w', @keeper_cycles ext_demo env_demo config_breaker 5 Healthy (world_demo db_empty) = (Disabled, w') /\
    PH.current (w_health w') <> PH.Healthy.
Proof.
  destruct (@breaker_stops_keeper ext_demo env_demo config_breaker 4 5000000000 Healthy
      (world_demo db_empty)) as (w' & E & _ & Hh).
  - discriminate.
  - intros k. reflexivity.
  - vm_compute. reflexivity.
  - exists w'. split; [exact E | exact Hh].
Defined.
