(* ===== verification/PaymentFacts.v ===== *)
(** * PaymentFacts: what the payment endpoints and the refund worker do

    The functional behaviour of [initiate_payment] on its free and paid
    branches, and the transfers of the refund worker. *)

From Stdlib Require Import ZArith Lia.
From Stdlib Require Import Strings.Byte Strings.Ascii Strings.String.
From stdpp Require Import base tactics decidable option list strings gmap.
From S2P Require Import Prelude Text Errors Borsh SolanaTypes Health World Concrete Payments.
From S2P Require Import PaymentLifecycle.

Open Scope string_scope.
Open Scope list_scope.
Open Scope Z_scope.

(** ** Initiation *)

Section Initiate.
Context `{Ext, Env} (cfg : AppState).

(** The user has submissions left in the free tier. *)
Definition has_free_submission (user : Uuid) (d : Db) : Prop :=
  default 0 (free_used_of user d) < i32_wrap (cfg_platform_fee_free_tier cfg).

(** C37: the paid path cannot succeed.  Whatever the tables hold and whatever
    the environment answers, when [initiate_payment] returns a response it is
    [Free], the caller is the draft's creator and had free submissions left;
    a request beyond the free tier never gets a payment row. *)
Theorem initiate_payment_only_free (user : Uuid) (pubkey : string) (draft : Uuid)
    (method : string) (w w' : World) (r : InitiatePaymentResponse) :
  initiate_payment cfg user pubkey draft method w = (Ok r, w') ->
  r = Free /\
  draft_creator_of draft (w_db w) = Some pubkey /\
  has_free_submission user (w_db w) /\
  db_payments (w_db w') = db_payments (w_db w).
Proof.
  unfold initiate_payment, internal. intros Hr. world_inv. subst.
  match goal with Hc : draft_creator_of _ _ = Some ?c |- _ => rename Hc into Hcr end.
  destruct (String.eqb_spec a0 pubkey) as [->|]; cbn [negb] in Hr; world_inv. subst.
  change (w_db (tick w)) with (w_db w) in *.
  destruct (Z.ltb_spec (default 0 (free_used_of user (w_db w)))
              (i32_wrap (cfg_platform_fee_free_tier cfg))) as [Hlt|Hge]; world_inv; subst.
  - apply sql_Ok in Hs as (d1 & E1 & ->). apply sql_Ok in Hs0 as (d2 & E2 & ->).
    repeat split; try done.
    unfold mark_paid_stmt in E1. rewrite prepared_ok in E1 by reflexivity.
    injection E1 as _ <-. cbn [w_db w_tick with_db tick] in E2 |- *.
    unfold count_free_stmt in E2. rewrite insert_prepared_ok in E2 by reflexivity.
    destruct (free_used_of _ _); [destruct (_ <? _) | destruct (exists_row _ _)];
      try discriminate; injection E2 as _ <-; done.
  - exfalso. match goal with Hi : sql (insert_payment_stmt _ _ _ _ _ _ _ _) _ = _ |- _ =>
      apply sql_Ok in Hi as (d & E & _) end.
    by rewrite insert_payment_rejected in E.
Qed.
End Initiate.

Definition draft_demo (creator : string) : AgreementDraftRow :=
  mkAgreementDraft (uid x05) creator JNull JNull "ready_to_submit" 0 None false None false None None.

Definition db_free : Db :=
  set_users (fun _ => [mkUserAccount (uid x01) None 0])
    (set_drafts (fun _ => [draft_demo "alice"]) db_empty).

Lemma initiate_payment_only_free_witness :
  fst (@initiate_payment ext_demo env_demo config_demo (uid x01) "alice" (uid x05) "usdc"
         (world_demo db_free)) = Ok Free /\
  draft_creator_of (uid x05) db_free = Some "alice".
Proof.
  split; [vm_compute; reflexivity|].
  destruct (@initiate_payment ext_demo env_demo config_demo (uid x01) "alice" (uid x05) "usdc"
              (world_demo db_free)) as [r w'] eqn:E.
  assert (r = Ok Free) as ->.
  { transitivity (fst (r, w')); [reflexivity|]. rewrite <-E. vm_compute. reflexivity. }
  apply (@initiate_payment_only_free ext_demo env_demo config_demo (uid x01) "alice" (uid x05)
           "usdc" (world_demo db_free) w' Free E).
Defined.

(** *** The free tier *)

Section FreeTier.
Context `{Ext, Env} (cfg : AppState).

Definition bump (r : UserAgreementCountRow) : UserAgreementCountRow :=
  mkUserAgreementCount (uac_user_id r) (uac_total_submitted r) (uac_free_used r + 1).

Lemma free_used_bump user other (t : list UserAgreementCountRow) :
  option_map uac_free_used (fetch_optional (where_ (fun r => uuid_eqb (uac_user_id r) other)
    (update_where (fun r => uuid_eqb (uac_user_id r) user) bump t)))
  = option_map (fun n => if uuid_eqb user other then n + 1 else n)
      (option_map uac_free_used
         (fetch_optional (where_ (fun r => uuid_eqb (uac_user_id r) other) t))).
Proof.
  rewrite where_update_where by (intros x; by destruct (uuid_eqb (uac_user_id x) user)).
  destruct (where_ _ t) as [|r l] eqn:E; cbn; [done|].
  assert (Hr : uuid_eqb (uac_user_id r) other = true).
  { assert (r ∈ where_ (fun r => uuid_eqb (uac_user_id r) other) t) as Hin.
    { rewrite E. left. }
    by apply elem_of_where in Hin as [_ ?]. }
  apply uuid_eqb_spec in Hr. rewrite Hr.
  assert (uuid_eqb user other = uuid_eqb other user) as ->.
  { unfold uuid_eqb. apply bool_decide_ext. done. }
  by destruct (uuid_eqb other user).
Qed.

Lemma count_free_spec user now d :
  exists_row (fun u => uuid_eqb (ua_id u) user) (db_users d) = true ->
  default 0 (free_used_of user d) + 1 < 2147483648 ->
  exists d', count_free_stmt user now d = Some (tt, d') /\
    (exists f, d' = set_counts f d) /\
    forall other, free_used_of other d' =
      if uuid_eqb user other then Some (default 0 (free_used_of user d) + 1)
      else free_used_of other d.
Proof.
  intros Hu Hlt. unfold count_free_stmt. rewrite insert_prepared_ok by reflexivity.
  destruct (free_used_of user d) as [n|] eqn:En; cbn [default] in *.
  - destruct (Z.ltb_spec (n + 1) 2147483648); [|cbn in Hlt; lia]. eexists. split; [done|].
    split; [eauto|]. intros other. unfold free_used_of in *. cbn [db_counts set_counts].
    rewrite free_used_bump. destruct (uuid_eqb user other) eqn:E.
    + apply uuid_eqb_spec in E as <-. by rewrite En.
    + match goal with |- _ = option_map _ ?o => by destruct o end.
  - rewrite Hu. eexists. split; [done|]. split; [eauto|]. intros other.
    unfold free_used_of in *. cbn [db_counts set_counts].
    unfold where_ in *. rewrite List.filter_app. cbn [List.filter uac_user_id].
    destruct (uuid_eqb user other) eqn:E; [|by rewrite app_nil_r].
    apply uuid_eqb_spec in E as <-.
    destruct (List.filter _ (db_counts d)); [done | discriminate].
Qed.

(** [mark_paid_stmt] on a row *)
Definition set_draft_paid (r : AgreementDraftRow) : AgreementDraftRow :=
  mkAgreementDraft (ad_id r) (ad_creator_pubkey r) (ad_draft_payload r) (ad_party_slots r)
    (ad_status r) (ad_created_at r) (ad_ready_at r) true (ad_storage_uri r)
    (ad_storage_uploaded r) (ad_agreement_pda r) (ad_agreement_id r).

Definition paid_effect (draft : Uuid) (d : Db) : Db :=
  set_drafts (update_where (fun r => uuid_eqb (ad_id r) draft) set_draft_paid) d.

Lemma initiate_payment_run user pubkey draft method w :
  db_up_from (w_tick w) ->
  draft_creator_of draft (w_db w) = Some pubkey ->
  exists_row (fun u => uuid_eqb (ua_id u) user) (db_users (w_db w)) = true ->
  has_free_submission cfg user (w_db w) ->
  default 0 (free_used_of user (w_db w)) + 1 < 2147483648 ->
  exists w', initiate_payment cfg user pubkey draft method w = (Ok Free, w') /\
    (w_tick w <= w_tick w')%nat /\
    (exists f, w_db w' = set_counts f (paid_effect draft (w_db w))) /\
    (forall other, free_used_of other (w_db w') =
       if uuid_eqb user other then Some (default 0 (free_used_of user (w_db w)) + 1)
       else free_used_of other (w_db w)).
Proof.
  intros Hup Hcr Hu Hlt Hmax. unfold has_free_submission in Hlt. unfold initiate_payment, internal.
  erewrite bind_step by (apply map_err_step, sql_query, Hup; cbn; lia).
  rewrite Hcr. cbn [ok_or]. erewrite bind_step by reflexivity.
  rewrite String.eqb_refl. cbn [negb].
  erewrite bind_step by (apply map_err_step, sql_query, Hup; cbn; lia).
  change (w_db (tick w)) with (w_db w). apply Z.ltb_lt in Hlt as ->.
  erewrite bind_step.
  2:{ apply map_err_step. unfold mark_paid_stmt. rewrite prepared_ok by reflexivity.
      apply sql_execute, Hup. cbn; lia. }
  match goal with |- context [with_db ?d ?v] =>
    destruct (count_free_spec user (db_now (w_tick v)) d Hu Hmax) as (d' & E & Hdr & Hcnt)
  end.
  erewrite bind_step by (apply map_err_step, sql_up; [apply Hup; cbn; lia | exact E]).
  eexists. split; [reflexivity|]. cbn. split; [lia|]. split; [exact Hdr | exact Hcnt].
Qed.

(** The free path.  With the database up, a creator who has free
    submissions left gets [Free]; the draft is then paid and exactly this
    user's counter is one higher. *)
Theorem initiate_payment_free (user : Uuid) (pubkey : string) (draft : Uuid)
    (method : string) (w : World) :
  db_up_from (w_tick w) ->
  draft_creator_of draft (w_db w) = Some pubkey ->
  exists_row (fun u => uuid_eqb (ua_id u) user) (db_users (w_db w)) = true ->
  has_free_submission cfg user (w_db w) ->
  default 0 (free_used_of user (w_db w)) + 1 < 2147483648 ->
  exists w', initiate_payment cfg user pubkey draft method w = (Ok Free, w') /\
    (forall r, r ∈ db_drafts (w_db w') -> ad_id r = draft -> ad_paid r = true) /\
    (forall other, free_used_of other (w_db w') =
       if uuid_eqb user other then Some (default 0 (free_used_of user (w_db w)) + 1)
       else free_used_of other (w_db w)).
Proof.
  intros Hup Hcr Hu Hlt Hmax.
  destruct (initiate_payment_run user pubkey draft method w) as (w' & E & _ & [f Hd] & Hc); try done.
  exists w'. split; [exact E|]. split; [|exact Hc]. intros r Hr Hid. rewrite Hd in Hr. cbn in Hr.
  apply elem_of_update_where in Hr as (x & _ & ->).
  destruct (uuid_eqb (ad_id x) draft) eqn:Ex; cbn; [done|].
  rewrite (proj2 (uuid_eqb_spec _ _) Hid) in Ex. discriminate.
Qed.
End FreeTier.

Lemma initiate_payment_free_witness :
  exists w', @initiate_payment ext_demo env_demo config_demo (uid x01) "alice" (uid x05) "usdc"
    (world_demo db_free) = (Ok Free, w') /\
    free_used_of (uid x01) (w_db w') = Some 1.
Proof.
  destruct (@initiate_payment_free ext_demo env_demo config_demo (uid x01) "alice" (uid x05)
    "usdc" (world_demo db_free)) as (w' & E & _ & Hc).
  - intros k _. reflexivity.
  - vm_compute. reflexivity.
  - vm_compute. reflexivity.
  - vm_compute. reflexivity.
  - vm_compute. reflexivity.
  - exists w'. split; [exact E|]. rewrite Hc. vm_compute. reflexivity.
Defined.

(** ** Transfers of the refund worker *)

Definition is_sent (e : Effect) : bool :=
  match e with ETransactionSent _ => true | _ => false end.

(** Transactions the process has sent so far. *)
Definition sent (w : World) : nat := length (where_ is_sent (w_effects w)).

Section Refunds.
Context `{Ext, Env} (cfg : AppState).

(** The transaction is an SPL transfer of [amount] out of the treasury. *)
Definition treasury_transfer (amount : Z) (t : Transaction) : Prop :=
  exists src dst ix, spl_transfer src dst (treasury_keypair cfg) amount = Some ix /\
    tx_instructions t = [ix].

(** No payment has a refund amount, and every transaction sent since [w] moves
    zero units. *)
Record zero_refunds (w w' : World) : Prop := mkZero {
  zr_rows : Forall (fun r => py_refund_amount r = None) (db_payments (w_db w)) ->
            Forall (fun r => py_refund_amount r = None) (db_payments (w_db w'));
  zr_sent : forall t, ETransactionSent t ∈ w_effects w' ->
            ETransactionSent t ∈ w_effects w \/ treasury_transfer 0 t;
}.

#[local] Instance zero_refunds_preorder : PreOrder zero_refunds.
Proof.
  split.
  - intros w. split; auto.
  - intros x y z [Hxy1 Hxy2] [Hyz1 Hyz2]. split; [auto|].
    intros t Ht. destruct (Hyz2 t Ht); auto.
Qed.

Lemma null_refunds_evolve d d' :
  payments_evolve d d' -> Forall (fun r => py_refund_amount r = None) (db_payments d) ->
  Forall (fun r => py_refund_amount r = None) (db_payments d').
Proof.
  unfold payments_evolve. induction 1 as [|r r' t t' Hr _ IH]; [done|].
  intros Hf. apply Forall_cons in Hf as [Hn Hf]. apply Forall_cons.
  split; [by rewrite (re_refund_amount _ _ Hr) | auto].
Qed.

(** A computation that evolves the payments and sends nothing. *)
Lemma zero_silent {E A} (m : M World E A) w :
  on_db payments_evolve w (snd (m w)) -> w_effects (snd (m w)) = w_effects w ->
  zero_refunds w (snd (m w)).
Proof.
  intros Hm He. split.
  - by apply null_refunds_evolve.
  - intros t. rewrite He. auto.
Qed.

(** A computation that leaves tables and effects alone. *)
Lemma zero_read {E A} (m : M World E A) :
  (forall w, w_db (snd (m w)) = w_db w /\ w_effects (snd (m w)) = w_effects w) ->
  keeps zero_refunds m.
Proof.
  intros Hm w. destruct (Hm w) as [Hd He]. apply zero_silent; [|done].
  unfold on_db. rewrite Hd. reflexivity.
Qed.

Lemma zero_send amount t : amount = 0 -> treasury_transfer amount t ->
  keeps zero_refunds (send_transaction t).
Proof.
  intros -> Ht w. unfold send_transaction. destruct (rpc_send _ _) as [[] reply]; cbn;
    split; cbn; auto.
  intros t' [[= ->]|]%elem_of_cons; auto.
Qed.

Lemma zero_report r : keeps zero_refunds (report_degraded (E:=SqlError) r).
Proof.
  intros w. apply zero_silent; [apply report_degraded_keeps|].
  unfold report_degraded. by destruct (status_for_reason _ _).
Qed.

Lemma zero_execute creator mint : keeps zero_refunds (execute_refund cfg creator mint 0).
Proof.
  unfold execute_refund.
  apply keeps_bind_result; [typeclasses eauto | intros creator_pk _].
  apply keeps_bind_result; [typeclasses eauto | intros mint_pk _].
  apply keeps_bind; [typeclasses eauto | by apply zero_read | intros ex].
  apply keeps_if; [apply keeps_throw; typeclasses eauto|].
  apply keeps_bind_result; [typeclasses eauto | intros ix Hix%ok_or_Ok].
  apply keeps_bind; [typeclasses eauto | by apply zero_read | intros bh].
  apply keeps_bind_result; [typeclasses eauto | intros ? _].
  apply (zero_send 0); [done|]. by repeat eexists.
Qed.

Lemma zero_sql {A} (s : Stmt A) : stmt_keeps payments_evolve s -> keeps zero_refunds (sql s).
Proof. intros Hs w. apply zero_silent; [exact (keeps_sql payments_evolve s Hs w) | apply silent_sql]. Qed.

Lemma zero_process row :
  py_refund_amount (fst row) = None -> keeps zero_refunds (process_refund cfg row).
Proof.
  destruct row as [p a]; cbn. intros ->. cbn [default].
  change (u64_wrap (default 0 None)) with 0.
  apply keeps_if; [apply keeps_ret; typeclasses eauto|].
  apply keeps_bind; [typeclasses eauto | apply keeps_attempt, zero_execute | intros [sig|e]].
  - apply keeps_bind; [typeclasses eauto | by apply zero_read | intros now].
    apply keeps_bind; [typeclasses eauto
      | apply keeps_attempt, zero_sql, refunded_stmt_keeps | intros [?|?]].
    + apply keeps_ret; typeclasses eauto.
    + apply keeps_bind; [typeclasses eauto | apply zero_report | intros ?].
      apply keeps_ret; typeclasses eauto.
  - apply keeps_bind; [typeclasses eauto | apply zero_report | intros ?].
    apply keeps_ret; typeclasses eauto.
Qed.

(** The rows of the worker's query carry the payment rows of the table. *)
Lemma pending_refunds_payment d row :
  row ∈ pending_refunds d -> fst row ∈ db_payments d /\ py_status (fst row) = "refund_pending".
Proof.
  intros Hrow%subseteq_take%order_by_elem. unfold joined_refunds in Hrow.
  apply list_elem_of_In, List.in_flat_map in Hrow as (p & Hp & Hrow).
  apply List.in_map_iff in Hrow as (a & <- & _). cbn.
  apply list_elem_of_In, elem_of_where in Hp as [Hp Hs]. by apply py_is_spec in Hs.
Qed.

Lemma zero_cycle st w :
  Forall (fun r => py_refund_amount r = None) (db_payments (w_db w)) ->
  zero_refunds w (snd (refund_worker_cycle cfg st w)).
Proof.
  intros Hnull. unfold refund_worker_cycle. destruct (bool_decide _); [reflexivity|].
  unfold process_pending_refunds, bind at 1, attempt, sql, query.
  destruct (db_fault (w_tick w)); cbn -[pending_refunds].
  - unfold bind at 1.
    assert (Hz : zero_refunds w (snd (for_each (pending_refunds (w_db w)) (process_refund cfg)
               (with_db (w_db w) (tick w))))).
    { transitivity (with_db (w_db w) (tick w)); [split; auto|].
      apply (for_each_inv zero_refunds (fun rows _ =>
        Forall (fun row => py_refund_amount (fst row) = None) rows)).
      - intros x xs v [Hx Hxs]%Forall_cons. split; [by apply zero_process | done].
      - apply Forall_forall. intros row Hrow.
        apply pending_refunds_payment in Hrow as [Hin _].
        rewrite Forall_forall in Hnull. auto. }
    destruct (for_each _ _ _) as [[[]|e] v]; exact Hz.
  - etransitivity; [|exact (zero_report RpcUnavailable (tick w))]. split; auto.
  - etransitivity; [|exact (zero_report RpcUnavailable (with_db (w_db w) (tick w)))]. split; auto.
Qed.

Lemma silent_ops reference sig mint amount user pubkey draft method pda :
  keeps same_effects (confirm_payment_atomic reference sig mint amount) /\
  keeps same_effects (initiate_payment cfg user pubkey draft method) /\
  keeps same_effects expire_timed_out_payments /\
  keeps same_effects reconcile_late_payments /\
  keeps same_effects (initiate_refund_if_eligible pda).
Proof.
  unfold confirm_payment_atomic, initiate_payment, expire_timed_out_payments,
    reconcile_late_payments, reconcile_one, initiate_refund_if_eligible, internal.
  repeat split; keeps_auto.
Qed.

(** No refund ever moves a token.  The refundable share
    [calculate_refund_amount] is never computed or stored: starting from
    payments without a refund amount, in any run of payment operations every
    transaction the process sends is a treasury transfer of zero units. *)
Theorem refunds_transfer_nothing (os : list pay_op) (w : World) (t : Transaction) :
  payments_keyed (w_db w) ->
  Forall (fun r => py_refund_amount r = None) (db_payments (w_db w)) ->
  ETransactionSent t ∈ w_effects (run_pay_ops cfg os w) ->
  ETransactionSent t ∈ w_effects w \/ treasury_transfer 0 t.
Proof.
  intros Hk Hnull. cut (zero_refunds w (run_pay_ops cfg os w)); [intros Hz; apply Hz|].
  revert w Hk Hnull. induction os as [|o os IH]; intros w Hk Hnull; cbn; [reflexivity|].
  assert (Ho : zero_refunds w (run_pay_op cfg o w)).
  { pose proof (run_pay_op_evolves cfg o w Hk) as Hev.
    destruct o as [reference sig mint amount|user pubkey draft method| | |pda|st];
      cbn [run_pay_op] in *; [| | | | |by apply zero_cycle];
      (apply zero_silent; [exact Hev|]);
      [apply (silent_ops reference sig mint amount (uid x00) "" (uid x00) "" "")
      |apply (silent_ops "" "" "" 0 user pubkey draft method "")
      |apply (silent_ops "" "" "" 0 (uid x00) "" (uid x00) "" "")
      |apply (silent_ops "" "" "" 0 (uid x00) "" (uid x00) "" "")
      |apply (silent_ops "" "" "" 0 (uid x00) "" (uid x00) "" pda)]. }
  etransitivity; [exact Ho|]. apply IH.
  - eapply evolve_keyed; [by apply run_pay_op_evolves | done].
  - by apply Ho.
Qed.
End Refunds.

(** Two parties of one agreement and its payment, waiting for a refund. *)
Definition party_demo (who creator : string) : AgreementPartyRow :=
  mkAgreementParty who "agreement" creator "PendingSignatures" None 0 0 "t".

Definition payment_demo (st : string) : AgreementPaymentRow :=
  mkAgreementPayment (uid x09) (uid x05) (uid x01) "usdc" st 199 (Some "ref")
    (Some (hex_demo (bn_bytes (key x0a)))) (Some 1990000) None None None (Some 1) None 0 None
    (Some "agreement").

Definition alice : string := hex_demo (bn_bytes (key x0c)).

Definition db_refund : Db :=
  set_parties (fun _ => [party_demo "p1" alice; party_demo "p2" alice])
    (set_payments (fun _ => [payment_demo "refund_pending"]) db_empty).

Lemma refunds_transfer_nothing_witness :
  exists t, ETransactionSent t ∈ w_effects (@run_pay_ops ext_demo env_demo config_demo
              [OpRefundCycle Healthy] (world_demo db_refund)) /\
    @treasury_transfer ext_demo config_demo 0 t.
Proof.
  destruct (w_effects (@run_pay_ops ext_demo env_demo config_demo
              [OpRefundCycle Healthy] (world_demo db_refund))) as [|[t| | | |] l] eqn:E;
    try (vm_compute in E; discriminate E).
  exists t. assert (Hin : ETransactionSent t ∈ w_effects (@run_pay_ops ext_demo env_demo config_demo
              [OpRefundCycle Healthy] (world_demo db_refund))).
  { rewrite E. left. }
  split; [left|].
  destruct (@refunds_transfer_nothing ext_demo env_demo config_demo [OpRefundCycle Healthy]
    (world_demo db_refund) t) as [Hf|Hz]; [| |exact Hin| |exact Hz].
  - unfold payments_keyed. cbn. apply NoDup_singleton.
  - repeat constructor.
  - cbn in Hf. by apply not_elem_of_nil in Hf.
Defined.

(** *** One transfer per party *)

Section PerParty.
Context `{Ext, Env} (cfg : AppState).

(** Every service answers, at every tick. *)
Definition services_up : Prop :=
  forall k, db_fault k = DbUp /\ (forall pk, rpc_account_exists k pk = Some true) /\
    is_Some (rpc_blockhash k) /\ (forall t, exists s, rpc_send k t = (true, Some s)).

(** The refund of a row can be built. *)
Definition refundable (row : RefundRow) : Prop :=
  exists c m ix,
    ap_creator_pubkey (snd row) <> "" /\
    pubkey_from_str (ap_creator_pubkey (snd row)) = Some c /\
    pubkey_from_str (default "" (py_token_mint (fst row))) = Some m /\
    spl_transfer (get_associated_token_address (treasury_keypair cfg) m)
      (get_associated_token_address c m) (treasury_keypair cfg)
      (u64_wrap (default 0 (py_refund_amount (fst row)))) = Some ix /\
    forall bh, is_Some (tx_encode (mkTransaction [ix] (treasury_keypair cfg)
                          [treasury_keypair cfg] bh)).

Lemma process_refund_sends row w :
  services_up -> refundable row ->
  fst (process_refund cfg row w) = Ok tt /\
  sent (snd (process_refund cfg row w)) = S (sent w).
Proof.
  intros Hup (c & m & ix & Hne & Hc & Hm & Hix & Henc). destruct row as [p a]; cbn in *.
  apply String.eqb_neq in Hne. rewrite Hne.
  destruct (Hup (w_tick w)) as (_ & Hex & _).
  destruct (Hup (S (w_tick w))) as (_ & _ & [bh Hbh] & _).
  destruct (Hup (S (S (w_tick w)))) as (_ & _ & _ & Hs).
  destruct (Henc bh) as [enc_ He].
  set (t := mkTransaction [ix] (treasury_keypair cfg) [treasury_keypair cfg] bh) in *.
  destruct (Hs t) as [sg Hsend].
  assert (Hrun : execute_refund cfg (ap_creator_pubkey a) (default "" (py_token_mint p))
            (u64_wrap (default 0 (py_refund_amount p))) w
          = (Ok sg, with_effect (ETransactionSent t) (tick (tick (tick w))))).
  { unfold execute_refund, bind, of_result, account_exists, get_latest_blockhash.
    rewrite Hc, Hm. cbn. rewrite Hex. cbn. rewrite Hix. cbn. rewrite Hbh. cbn.
    fold t. rewrite He. cbn. unfold send_transaction. cbn. by rewrite Hsend. }
  unfold bind, attempt. rewrite Hrun. unfold now_secs, sql, mark_refunded_stmt.
  rewrite prepared_ok by reflexivity. cbn.
  destruct (Hup (S (S (S (S (w_tick w)))))) as (-> & _). cbn. done.
Qed.

Lemma process_all_sends rows w :
  services_up -> Forall refundable rows ->
  fst (for_each rows (process_refund cfg) w) = Ok tt /\
  sent (snd (for_each rows (process_refund cfg) w)) = (length rows + sent w)%nat.
Proof.
  intros Hup Hr. revert w. induction Hr as [|row rows Hrow _ IH]; intros w; cbn; [done|].
  destruct (process_refund_sends row w Hup Hrow) as [H1 H2]. unfold bind.
  destruct (process_refund cfg row w) as [r w']; cbn in *. subst r.
  destruct (IH w') as [H3 H4]. split; [done|]. rewrite H4, H2. lia.
Qed.

(** The refund worker pays a refund once per party.  When a single payment
    waits for its refund and every service answers, one worker cycle sends as
    many treasury transfers as its agreement has party rows (at most ten),
    not one. *)
Theorem refund_paid_once_per_party (p : AgreementPaymentRow) (w : World) :
  services_up ->
  db_payments (w_db w) = [p] -> py_status p = "refund_pending" ->
  Forall refundable (pending_refunds (w_db w)) ->
  sent (snd (refund_worker_cycle cfg Healthy w)) =
    (sent w + Nat.min 10 (length (where_ (fun a =>
       sql_eq (py_agreement_pda p) (ap_agreement_pda a)) (db_parties (w_db w)))))%nat.
Proof.
  intros Hup Hp Hst Hr.
  unfold refund_worker_cycle, process_pending_refunds. cbn [bool_decide].
  change (bool_decide (Healthy = Disabled)) with false. cbv iota.
  unfold bind at 1, attempt. rewrite sql_query by apply Hup. unfold bind.
  destruct (process_all_sends (pending_refunds (w_db w)) (tick w) Hup Hr) as [H1 H2].
  destruct (for_each _ _ (tick w)) as [r w']; cbn [fst snd] in *. subst r.
  cbn [snd ret]. rewrite H2. change (sent (tick w)) with (sent w).
  unfold pending_refunds. rewrite length_take, order_by_length.
  unfold joined_refunds. rewrite Hp. unfold where_ at 2. cbn.
  rewrite (proj2 (py_is_spec _ _) Hst). cbn. rewrite app_nil_r, length_map. lia.
Qed.
End PerParty.

Lemma refund_paid_once_per_party_witness :
  sent (snd (@refund_worker_cycle ext_demo env_demo config_demo Healthy (world_demo db_refund)))
  = (sent (world_demo db_refund) + 2)%nat.
Proof.
  apply (@refund_paid_once_per_party ext_demo env_demo config_demo
           (payment_demo "refund_pending") (world_demo db_refund)).
  - intros k. repeat split; eauto.
  - reflexivity.
  - reflexivity.
  - assert (Hr : forall who, @refundable ext_demo config_demo
                   (payment_demo "refund_pending", party_demo who alice)).
    { intros who. exists (key x0c), (key x0a). eexists.
      split; [by vm_compute|]. split; [vm_compute; reflexivity|].
      split; [vm_compute; reflexivity|]. split; [reflexivity | eauto]. }
    exact (Forall_cons_2 _ _ _ (Hr "p1") (Forall_cons_2 _ _ _ (Hr "p2") (Forall_nil_2 _))).
Defined.
