(* ===== verification/System.v ===== *)
(** * System: every operation that writes the tables, and what they preserve

    One constructor per handler that writes, worker cycle or received log; the
    set of connected users may change arbitrarily.  The theorems hold for any
    sequence of operations, under any behaviour of the environment. *)

From Stdlib Require Import ZArith Lia.
From Stdlib Require Import Strings.Byte Strings.Ascii Strings.String.
From stdpp Require Import base tactics decidable option list strings gmap.
From S2P Require Import Prelude Text Errors Borsh SolanaTypes Health World Concrete Crypto.
From S2P Require Import Jwt Auth AuthFacts OAuth User Sealed Storage Upload.
From S2P Require Import Notification DraftData Solana Agreement Draft Invite InviteFacts.
From S2P Require Import Payments PaymentLifecycle EventListener Expiry Keeper.

Open Scope string_scope.
Open Scope list_scope.
Open Scope Z_scope.

(** ** Operations *)

Inductive op : Type :=
| OpCreateAgreement (user : Uuid) (pubkey : string) (req : CreateAgreementRequest)
| OpAgreementAction (act : AgreementAction) (pubkey pda : string)
| OpInitiatePayment (user : Uuid) (pubkey : string) (draft : Uuid) (method : string)
| OpConfirmPayment (reference tx_signature mint : string) (amount : Z)
| OpSubmitDraft (user : Uuid) (pubkey : string) (draft : Uuid) (req : SubmitDraftRequest)
| OpDeleteDraft (user draft : Uuid)
| OpReinvite (user draft invitation : Uuid)
| OpGetInvite (h : IpHeaders) (token : string)
| OpAcceptInvite (pubkey token : string)
| OpProgramLog (log : ProgramLog)
| OpExpiryCycle (status : WorkerStatus)
| OpRefundCycle (status : WorkerStatus)
| OpKeeperCycle (status : WorkerStatus)
| OpNotificationCycle (status : WorkerStatus)
| OpChallenge
| OpVerify (req : VerifyRequest)
| OpLinkWallet (auth : AuthUser) (req : LinkWalletRequest)
| OpOAuthCallback (jar : CookieJar) (q : OAuthCallbackQuery) (p : OAuthProvider)
| OpRefresh (refresh_token : string)
| OpLogout (refresh_token : string)
| OpUpdateProfile (auth : AuthUser) (display_name : option string)
| OpUpdateContacts (auth : AuthUser) (req : UpdateContactsRequest)
| OpDeleteContacts (auth : AuthUser)
| OpUpload (auth : AuthUserWithWallet) (m : Multipart)
(** WebSocket connections come and go. *)
| OpConnections (connected : list Uuid).

Definition with_connections (connected : list Uuid) (w : World) : World :=
  mkWorld (w_db w) (w_tick w) (w_health w) connected (w_limiter w) (w_effects w).

Section Run.
Context `{Ext, Env} (cfg : AppState).

Definition run_op (o : op) (w : World) : World :=
  match o with
  | OpCreateAgreement user pubkey req => snd (create_agreement cfg user pubkey req w)
  | OpAgreementAction act pubkey pda => snd (run_action cfg act pubkey pda w)
  | OpInitiatePayment user pubkey draft method =>
      snd (initiate_payment cfg user pubkey draft method w)
  | OpConfirmPayment reference sig mint amount =>
      snd (confirm_payment_atomic reference sig mint amount w)
  | OpSubmitDraft user pubkey draft req => snd (submit_draft cfg user pubkey draft req w)
  | OpDeleteDraft user draft => snd (delete_draft user draft w)
  | OpReinvite user draft invitation => snd (reinvite_draft cfg user draft invitation w)
  | OpGetInvite h token => snd (get_invite h token w)
  | OpAcceptInvite pubkey token => snd (accept_invite pubkey token w)
  | OpProgramLog log => snd (process_log log w)
  | OpExpiryCycle st => snd (expiry_worker_cycle cfg st w)
  | OpRefundCycle st => snd (refund_worker_cycle cfg st w)
  | OpKeeperCycle st => snd (keeper_cycle cfg st w)
  | OpNotificationCycle st => snd (notification_cycle cfg (E:=Empty_set) st w)
  | OpChallenge => snd (challenge w)
  | OpVerify req => snd (verify cfg req w)
  | OpLinkWallet auth req => snd (link_wallet cfg auth req w)
  | OpOAuthCallback jar q p => snd (oauth_callback cfg jar q p w)
  | OpRefresh token => snd (refresh cfg token w)
  | OpLogout token => snd (logout token w)
  | OpUpdateProfile auth name => snd (update_profile auth name w)
  | OpUpdateContacts auth req => snd (update_contacts cfg auth req w)
  | OpDeleteContacts auth => snd (delete_contacts auth w)
  | OpUpload auth m => snd (upload_handler cfg auth m w)
  | OpConnections connected => with_connections connected w
  end.

Definition run_ops (os : list op) (w : World) : World := fold_left (fun w o => run_op o w) os w.
End Run.

(** ** The interface between the life cycles and the handlers

[StmtsKeep cfg R] is what a relation [R] on the tables owes: every statement
    the program writes with moves the tables along [R], and so do the pieces of
    code whose write relies on a fresh identifier, and the transaction of an
    acceptance, which locks the two rows it reads; the statements of contacts and
    names may rely on what the handlers have checked or computed under the
    configuration.  [MarksKeep R] says the same
    of the statement that marks a payment for refund.  The two pieces of code
    that use it select a payment first; [WritesKeep R] asks that they keep [R]
    as a whole, which follows from [MarksKeep R].  [run_op_keeps] then carries
    [R] through every handler and worker; each life cycle below is an
    instance. *)

Section Interface.
Context `{Ext, Env} (cfg : AppState) (R : Db -> Db -> Prop).

Class StmtsKeep : Prop := {
  wk_insert_draft id creator p s : stmt_keeps R (insert_draft_stmt id creator
    (payload_to_value p) (slots_to_value s) "awaiting_party_wallets");
  wk_insert_invitation id draft i e n token ex :
    stmt_keeps R (insert_invitation_stmt id draft i e n token ex);
  wk_discard id : stmt_keeps R (discard_stmt id);
  wk_store_uri id uri : stmt_keeps R (store_uri_stmt id uri);
  wk_store_agreement id pda aid : stmt_keeps R (store_agreement_stmt id pda aid);
  wk_link_payment id pda : stmt_keeps R (link_payment_stmt id pda);
  wk_mark_paid id : stmt_keeps R (mark_paid_stmt id);
  wk_count_free user : stmt_keeps R (count_free_stmt user);
  wk_insert_payment id draft method creator mint amount reference ata :
    stmt_keeps R (insert_payment_stmt id draft method creator mint amount reference ata);
  wk_confirm reference sig mint amount : stmt_keeps R (confirm_stmt reference sig mint amount);
  wk_expire_payments th : stmt_keeps R (expire_payments_stmt th);
  wk_mark_refunded id sig at_ : stmt_keeps R (mark_refunded_stmt id sig at_);
  wk_insert_notification id ty pda who at_ :
    stmt_keeps R (insert_notification_stmt id ty pda who at_);
  wk_mark_sent id at_ : stmt_keeps R (mark_sent_stmt id at_);
  wk_increment id : stmt_keeps R (increment_attempts_stmt id);
  wk_insert_party party pda creator : stmt_keeps R (insert_party_stmt party pda creator);
  wk_sign_party party pda : stmt_keeps R (sign_party_stmt party pda);
  wk_party_status st pda : st = "Cancelled" \/ st = "Expired" ->
    stmt_keeps R (party_status_stmt st pda);
  wk_lock pda : stmt_keeps R (lock_stmt pda);
  wk_unlock pda : stmt_keeps R (unlock_stmt pda);
  wk_remind id at_ : stmt_keeps R (remind_stmt id at_);
  wk_expire_invitations th : stmt_keeps R (expire_invitations_stmt th);
  wk_sweep_due : stmt_keeps R sweep_due;
  wk_mark_swept at_ : stmt_keeps R (mark_swept_stmt at_);
  wk_delete_nonces th : stmt_keeps R (delete_nonces_stmt th);
  wk_delete_refresh th : stmt_keeps R (delete_refresh_stmt th);
  wk_accept now pk token : keeps (on_db R) (accept_body now pk token);
  wk_challenge : keeps (on_db R) challenge;
  wk_consume_nonce n : stmt_keeps R (consume_nonce_stmt n);
  wk_insert_user id : stmt_keeps R (insert_user_stmt id);
  wk_insert_wallet user pubkey : stmt_keeps R (insert_wallet_stmt user pubkey);
  wk_issue_refresh user : keeps (on_db R) (issue_and_store_refresh_token user);
  wk_consume_refresh h : stmt_keeps R (consume_refresh_stmt h);
  wk_delete_token h : stmt_keeps R (delete_token_stmt h);
  wk_upsert_oauth user p pid : stmt_keeps R (upsert_oauth_stmt user p pid);
  wk_upsert_email user e n i :
    (exists text, encrypted_by cfg text e n /\ indexed_by cfg text i) ->
    stmt_keeps R (upsert_email_stmt user e n i);
  wk_display_name user name :
    match name with Some n => sanitise_display_name n = Ok tt | None => True end ->
    stmt_keeps R (display_name_stmt user name);
  wk_upsert_contacts user v : sealed_values (encrypted_by cfg) (indexed_by cfg) v ->
    stmt_keeps R (upsert_contacts_stmt user v);
  wk_delete_contacts user : stmt_keeps R (delete_contacts_stmt user);
}.

Class MarksKeep : Prop := {
  wk_refund_pending id : stmt_keeps R (mark_refund_pending_stmt id);
}.

Class WritesKeep : Prop := {
  wk_stmts :: StmtsKeep;
  wk_reconcile : keeps (on_db R) reconcile_late_payments;
  wk_initiate_refund pda : keeps (on_db R) (initiate_refund_if_eligible pda);
}.

Context `{!PreOrder R}.

#[export] Instance marks_writes `{!StmtsKeep, !MarksKeep} : WritesKeep.
Proof.
  assert (Hm : forall id, keeps (on_db R) (sql (mark_refund_pending_stmt id))).
  { intros id. apply keeps_sql; [done | apply wk_refund_pending]. }
  split; [done|..]; [unfold reconcile_late_payments, reconcile_one |
    intros pda; unfold initiate_refund_if_eligible]; keeps_auto.
Qed.

Context `{!WritesKeep}.

Lemma send_email_keeps k from address e pda : keeps (on_db R) (send_email k from address e pda).
Proof. by apply keeps_send_email. Qed.
Lemma degrade_keeps {E} st : keeps (on_db R) (degrade (E:=E) st).
Proof. by apply keeps_degrade. Qed.
Lemma report_keeps {E} r : keeps (on_db R) (report_degraded (E:=E) r).
Proof.
  apply keeps_db_id; [done|]. intros w. unfold report_degraded.
  by destruct (status_for_reason _ _).
Qed.
Lemma rate_limit_keeps h now : keeps (on_db R) (enforce_get_invite_rate_limit h now).
Proof.
  apply keeps_db_id; [done|]. intros w. unfold enforce_get_invite_rate_limit.
  by destruct (limiter_step _ _).
Qed.

Hint Resolve send_email_keeps degrade_keeps report_keeps rate_limit_keeps
  wk_insert_draft wk_insert_invitation wk_discard wk_store_uri wk_store_agreement
  wk_link_payment wk_mark_paid wk_count_free wk_insert_payment wk_confirm wk_expire_payments
  wk_mark_refunded wk_insert_notification wk_mark_sent wk_increment wk_insert_party
  wk_sign_party wk_party_status wk_lock wk_unlock wk_remind wk_expire_invitations
  wk_sweep_due wk_mark_swept wk_delete_nonces wk_delete_refresh wk_accept wk_reconcile
  wk_challenge wk_consume_nonce wk_insert_user wk_insert_wallet wk_issue_refresh
  wk_consume_refresh wk_delete_token wk_upsert_oauth wk_delete_contacts
  wk_initiate_refund wk_stmts or_introl or_intror eq_refl : keeps.

Lemma vault_signed_keeps ix vault : keeps (on_db R) (vault_signed ix vault).
Proof. unfold vault_signed. keeps_auto. Qed.
Hint Resolve vault_signed_keeps : keeps.

Lemma create_tx_keeps args creator vault :
  keeps (on_db R) (build_create_agreement_tx args creator vault).
Proof.
  unfold build_create_agreement_tx, build_create_agreement_instruction,
    calculate_vault_deposit. keeps_auto.
Qed.
Hint Resolve create_tx_keeps : keeps.

Lemma enqueue_keeps ty pda who : keeps (on_db R) (enqueue_notification ty pda who).
Proof. unfold enqueue_notification, internal. keeps_auto. Qed.
Hint Resolve enqueue_keeps : keeps.

Lemma encrypt_keeps text key : keeps (on_db R) (encrypt text key).
Proof. unfold encrypt. keeps_auto. Qed.
Hint Resolve encrypt_keeps : keeps.

Lemma issue_tokens_keeps c user pk : keeps (on_db R) (issue_tokens c user pk).
Proof. unfold issue_tokens, issue_access_token. keeps_auto. Qed.
Lemma spend_nonce_keeps n : keeps (on_db R) (spend_nonce n).
Proof. unfold spend_nonce, internal. keeps_auto. Qed.
Lemma create_user_keeps : keeps (on_db R) create_user.
Proof. unfold create_user, internal. keeps_auto. Qed.
Hint Resolve issue_tokens_keeps spend_nonce_keeps create_user_keeps : keeps.

Lemma wallet_sign_in_keeps req auth lreq :
  keeps (on_db R) (verify cfg req) /\ keeps (on_db R) (link_wallet cfg auth lreq).
Proof. split; unfold verify, link_wallet, internal; keeps_auto. Qed.

Lemma refresh_handlers_keep token :
  keeps (on_db R) (refresh cfg token) /\ keeps (on_db R) (logout token).
Proof. split; unfold refresh, logout, internal; keeps_auto. Qed.

Lemma get_json_keeps url token : keeps (on_db R) (get_json url token).
Proof. by apply keeps_db_id. Qed.
Lemma post_form_keeps url form : keeps (on_db R) (post_form url form).
Proof. by apply keeps_db_id. Qed.
Hint Resolve get_json_keeps post_form_keeps : keeps.

Lemma upsert_email_contact_keeps user email : keeps (on_db R) (upsert_email_contact cfg user email).
Proof.
  unfold upsert_email_contact, internal.
  apply keeps_bind_result; [typeclasses eauto|]. intros key Hkey.
  apply keeps_bind_result; [typeclasses eauto|]. intros idx Hidx.
  apply keeps_bind_run; [typeclasses eauto | apply encrypt_keeps|]. intros [ct nonce] w w' He.
  apply keeps_map_err, keeps_sql; [done|]. apply wk_upsert_email. exists email.
  split; [by exists key, w, w' | by exists idx].
Qed.
Hint Resolve upsert_email_contact_keeps : keeps.

Lemma oauth_callback_keeps jar q p : keeps (on_db R) (oauth_callback cfg jar q p).
Proof.
  unfold oauth_callback, exchange_code_and_fetch_identity, resolve_or_create_oauth_user,
    oauth_user_id, internal. keeps_auto.
Qed.

Lemma encrypt_given_keeps value key : keeps (on_db R) (encrypt_given value key).
Proof. unfold encrypt_given. keeps_auto. Qed.
Hint Resolve encrypt_given_keeps : keeps.

(** The contacts are encrypted and indexed before the statement that stores
    them. *)
Lemma update_contacts_keeps auth req : keeps (on_db R) (update_contacts cfg auth req).
Proof.
  unfold update_contacts, internal.
  apply keeps_bind_result; [typeclasses eauto|]. intros key Hkey.
  apply keeps_bind_result; [typeclasses eauto|]. intros idx Hidx.
  do 3 (apply keeps_bind_run; [typeclasses eauto | apply encrypt_given_keeps|];
        intros ? ? ? ?%(encrypt_given_by cfg); [|done]).
  assert (Hk : forall v, sealed_values (encrypted_by cfg) (indexed_by cfg) v ->
    keeps (on_db R) (sql (upsert_contacts_stmt (au_user_id auth) v))).
  { intros v Hv. apply keeps_sql; [done|]. by apply wk_upsert_contacts. }
  apply keeps_bind; [typeclasses eauto | | intros; apply keeps_ret; typeclasses eauto].
  apply keeps_map_err, Hk. split; [by apply given_email | split; by eapply given_pair].
Qed.
Hint Resolve update_contacts_keeps : keeps.

Lemma user_handlers_keep auth name req :
  keeps (on_db R) (update_profile auth name) /\
  keeps (on_db R) (update_contacts cfg auth req) /\ keeps (on_db R) (delete_contacts auth).
Proof.
  split; [|split; [apply update_contacts_keeps | unfold delete_contacts, internal; keeps_auto]].
  unfold update_profile. apply keeps_bind_result; [typeclasses eauto|]. intros [] Hn.
  assert (Hk : stmt_keeps R (display_name_stmt (au_user_id auth) name)).
  { apply wk_display_name. by destruct name. }
  unfold get_profile, internal. keeps_auto.
Qed.

Lemma resolve_parties_keeps k1 k2 t ex parties slots invites all :
  keeps (on_db R) (resolve_parties k1 k2 t ex parties slots invites all).
Proof.
  revert slots invites all. induction parties as [|[pk|email] parties IH];
    intros; cbn [resolve_parties]; unfold internal; keeps_auto.
Qed.
Hint Resolve resolve_parties_keeps : keeps.

Lemma create_agreement_keeps user pubkey req :
  keeps (on_db R) (create_agreement cfg user pubkey req).
Proof. unfold create_agreement, insert_invitation, internal. keeps_auto. Qed.

Lemma run_action_keeps act pubkey pda w :
  R (w_db w) (w_db (snd (run_action cfg act pubkey pda w))).
Proof.
  set (m := match act with
            | ActSign user uri => sign_agreement user pubkey pda uri ;;; ret tt
            | ActCancel => cancel_agreement cfg pubkey pda ;;; ret tt
            | ActVote => vote_revoke cfg pubkey pda ;;; ret tt
            | ActRetract => retract_revoke_vote cfg pubkey pda ;;; ret tt
            end).
  assert (Hm : keeps (on_db R) m).
  { subst m. destruct act; unfold sign_agreement, cancel_agreement, vote_revoke,
      retract_revoke_vote, load_agreement, build_sign_agreement_tx, build_cancel_agreement_tx,
      build_vote_revoke_tx, build_retract_revoke_vote_tx, internal; keeps_auto. }
  specialize (Hm w). subst m. destruct act; cbn [run_action]; unfold bind in Hm;
    match goal with |- context [(let '(_, _) := ?x in _)] =>
      destruct x as [[]?] end; exact Hm.
Qed.

Lemma submit_draft_keeps user pubkey draft req :
  keeps (on_db R) (submit_draft cfg user pubkey draft req).
Proof. unfold submit_draft, get_draft_row, has_contact_email, internal. keeps_auto. Qed.

Lemma draft_handlers_keep user draft invitation :
  keeps (on_db R) (delete_draft user draft) /\
  keeps (on_db R) (reinvite_draft cfg user draft invitation).
Proof.
  split; unfold delete_draft, reinvite_draft, get_draft_row, ensure_creator_from_user_id,
    internal; keeps_auto.
Qed.

Lemma invite_handlers_keep h pubkey token :
  keeps (on_db R) (get_invite h token) /\ keeps (on_db R) (accept_invite pubkey token).
Proof. split; unfold get_invite, accept_invite, internal; keeps_auto. Qed.

Lemma payment_handlers_keep user pubkey draft method reference sig mint amount :
  keeps (on_db R) (initiate_payment cfg user pubkey draft method) /\
  keeps (on_db R) (confirm_payment_atomic reference sig mint amount).
Proof. split; unfold initiate_payment, confirm_payment_atomic, internal; keeps_auto. Qed.

Lemma broadcast_keeps ev party : keeps (on_db R) (broadcast ev party).
Proof. unfold broadcast, lookup_user_id. keeps_auto. Qed.
Lemma notify_keeps ty pda party : keeps (on_db R) (notify ty pda party).
Proof. unfold notify. keeps_auto. Qed.
Hint Resolve broadcast_keeps notify_keeps : keeps.

Lemma process_log_keeps log : keeps (on_db R) (process_log log).
Proof.
  unfold process_log, handle_event, handle_create_agreement, handle_sign_agreement,
    handle_cancel_agreement, handle_expire_agreement, handle_cancellation, handle_vote_revoke.
  keeps_auto.
Qed.

Lemma expiry_cycle_keeps st : keeps (on_db R) (expiry_worker_cycle cfg st).
Proof.
  unfold expiry_worker_cycle, expire_due_agreements, expire_one, lock_agreement_for_expiry,
    unlock_agreement_from_expiry, submit_expire_transaction, build_expire_agreement_tx,
    submit_transaction_rpc. keeps_auto.
Qed.

Lemma refund_cycle_keeps_R st : keeps (on_db R) (refund_worker_cycle cfg st).
Proof.
  unfold refund_worker_cycle, process_pending_refunds, process_refund, execute_refund.
  keeps_auto.
Qed.

Lemma keeper_cycle_keeps st : keeps (on_db R) (keeper_cycle cfg st).
Proof.
  unfold keeper_cycle, send_invitation_reminders, remind_one, expire_stale_invitations,
    check_hot_wallet_balances, sweep_treasury_excess, sweep_one, expire_timed_out_payments,
    cleanup_expired_auth_records. keeps_auto.
Qed.

Lemma notification_cycle_keeps_R st :
  keeps (on_db R) (notification_cycle cfg (E:=Empty_set) st).
Proof.
  unfold notification_cycle, fetch_pending_jobs, process_job, mark_sent_or_increment,
    mark_sent, increment_attempts, lookup_user_email, lookup_user_id, internal. keeps_auto.
Qed.

Lemma run_op_keeps o w : R (w_db w) (w_db (run_op cfg o w)).
Proof.
  destruct o; cbn [run_op].
  - apply create_agreement_keeps.
  - apply run_action_keeps.
  - exact (proj1 (payment_handlers_keep user pubkey draft method "" "" "" 0) w).
  - exact (proj2 (payment_handlers_keep (fill 16 x00) "" (fill 16 x00) "" _ _ _ _) w).
  - apply submit_draft_keeps.
  - exact (proj1 (draft_handlers_keep user draft (fill 16 x00)) w).
  - exact (proj2 (draft_handlers_keep user draft invitation) w).
  - exact (proj1 (invite_handlers_keep h "" token) w).
  - exact (proj2 (invite_handlers_keep (mkIpHeaders None None) pubkey token) w).
  - apply process_log_keeps.
  - apply expiry_cycle_keeps.
  - apply refund_cycle_keeps_R.
  - apply keeper_cycle_keeps.
  - apply notification_cycle_keeps_R.
  - apply wk_challenge.
  - exact (proj1 (wallet_sign_in_keeps req (mkAuthUser (fill 16 x00) None)
             (mkLinkWalletRequest "" "" "")) w).
  - exact (proj2 (wallet_sign_in_keeps (mkVerifyRequest "" "" "") auth req) w).
  - apply oauth_callback_keeps.
  - exact (proj1 (refresh_handlers_keep refresh_token) w).
  - exact (proj2 (refresh_handlers_keep refresh_token) w).
  - exact (proj1 (user_handlers_keep auth display_name (mkUpdateContacts None None None)) w).
  - exact (proj1 (proj2 (user_handlers_keep auth None req)) w).
  - exact (proj2 (proj2 (user_handlers_keep auth None (mkUpdateContacts None None None))) w).
  - by apply keeps_upload_handler.
  - reflexivity.
Qed.

Lemma run_ops_keeps os w : R (w_db w) (w_db (run_ops cfg os w)).
Proof.
  revert w. induction os as [|o os IH]; intros w; cbn; [reflexivity|].
  etransitivity; [apply run_op_keeps | apply IH].
Qed.
End Interface.
(** The fields as hints, for the proofs about the steps of the handlers. *)
Create HintDb writes discriminated.
#[export] Hint Variables Opaque : writes.
#[export] Hint Constants Opaque : writes.
#[export] Hint Resolve send_email_keeps degrade_keeps report_keeps rate_limit_keeps get_json_keeps
  post_form_keeps wk_insert_draft wk_insert_invitation wk_discard wk_store_uri wk_store_agreement
  wk_link_payment wk_mark_paid wk_count_free wk_insert_payment wk_confirm wk_expire_payments
  wk_mark_refunded wk_insert_notification wk_mark_sent wk_increment wk_insert_party
  wk_sign_party wk_party_status wk_lock wk_unlock wk_remind wk_expire_invitations
  wk_sweep_due wk_mark_swept wk_delete_nonces wk_delete_refresh wk_accept
  wk_challenge wk_consume_nonce wk_insert_user wk_insert_wallet wk_issue_refresh
  wk_consume_refresh wk_delete_token wk_upsert_oauth wk_delete_contacts wk_refund_pending or_introl or_intror eq_refl : writes.
#[export] Hint Extern 0 (PreOrder _) => typeclasses eauto : writes.
#[export] Hint Extern 0 (StmtsKeep _ _) => typeclasses eauto : writes.
#[export] Hint Extern 0 (MarksKeep _) => typeclasses eauto : writes.

(** ** Automation

    [stmt_frame] closes [stmt_keeps R s] for a statement that leaves the table
    [R] speaks of alone. *)

Create HintDb stmts.
#[export] Hint Unfold insert_prepared prepared execute query insert_draft_stmt insert_invitation_stmt
  insert_notification_stmt increment_attempts_stmt discard_stmt store_uri_stmt store_agreement_stmt
  link_payment_stmt accept_stmt slots_stmt ready_stmt insert_party_stmt sign_party_stmt
  party_status_stmt lock_stmt unlock_stmt remind_stmt expire_invitations_stmt sweep_due
  mark_swept_stmt delete_nonces_stmt delete_refresh_stmt mark_paid_stmt count_free_stmt
  confirm_stmt mark_refund_pending_stmt expire_payments_stmt mark_refunded_stmt
  insert_payment_stmt mark_sent_stmt consume_nonce_stmt insert_nonce_stmt insert_user_stmt
  insert_wallet_stmt insert_refresh_stmt consume_refresh_stmt delete_token_stmt upsert_oauth_stmt
  upsert_email_stmt display_name_stmt upsert_contacts_stmt delete_contacts_stmt : stmts.

(** From [s now d = Some (a, d')], the new tables [d'] on each path. *)
Ltac stmt_cases :=
  let Hs := fresh "Hs" in
  intros ? ? ? ? Hs; autounfold with stmts in Hs;
  repeat match type of Hs with
         | (if ?b then _ else _) = _ => destruct b eqn:?
         | match ?o with Some _ => _ | None => _ end = _ => destruct o eqn:?
         end;
  try discriminate Hs; injection Hs as _ <-.

(** A relation that speaks of one table only. *)
Definition only {T} (table : Db -> T) (R : Db -> Db -> Prop) : Prop :=
  forall d d', table d' = table d -> R d d'.

Ltac stmt_frame Honly :=
  intros; first [ apply Honly; reflexivity | stmt_cases; apply Honly; reflexivity ].

(** The computations of [StmtsKeep], for relations that speak of other tables. *)
Section Frames.
Context `{Ext, Env} (R : Db -> Db -> Prop) `{!PreOrder R}.

Lemma frame_challenge : (forall d f, R d (set_nonces f d)) -> keeps (on_db R) challenge.
Proof.
  intros Hf. unfold challenge, internal. keeps_auto. apply keeps_sql; [done|].
  stmt_cases. apply Hf.
Qed.

Lemma frame_issue_refresh user :
  (forall d f, R d (set_refresh f d)) -> keeps (on_db R) (issue_and_store_refresh_token user).
Proof.
  intros Hf. unfold issue_and_store_refresh_token. keeps_auto. apply keeps_sql; [done|].
  stmt_cases. apply Hf.
Qed.

(** The tables of users and sign-in, which acceptance leaves alone. *)
Definition account_tables (d : Db) :=
  (db_users d, db_wallets d, db_oauth d, db_contacts d, db_nonces d, db_refresh d).

Lemma frame_accept :
  (forall d d', account_tables d' = account_tables d -> R d d') ->
  forall now pk token, keeps (on_db R) (accept_body now pk token).
Proof.
  intros Hf.
  assert (Hs : (forall id, stmt_keeps R (accept_stmt id)) /\
    (forall id slots, stmt_keeps R (slots_stmt id slots)) /\
    (forall id slots at_, stmt_keeps R (ready_stmt id slots at_))).
  { repeat split; intros; stmt_cases; by apply Hf. }
  destruct Hs as (H1 & H2 & H3). intros; unfold accept_body, internal.
  keeps_auto; (apply keeps_sql; [done | solve [auto]]).
Qed.
End Frames.

Ltac issue_frame Honly :=
  intros;
  lazymatch goal with
  | |- keeps _ challenge => apply frame_challenge
  | |- keeps _ (issue_and_store_refresh_token _) => apply frame_issue_refresh
  end;
  [typeclasses eauto | intros; apply Honly; reflexivity].

Ltac accept_frame Hsame := intros; apply frame_accept; [typeclasses eauto | exact Hsame].
Ltac marks_frame Honly := split; stmt_frame Honly.

(** ** Payments *)

Section Payments.
Context `{Ext, Env} (cfg : AppState).

Definition keyed_payments_evolve (d d' : Db) : Prop := payments_keyed d -> payments_evolve d d'.

#[export] Instance keyed_payments_preorder : PreOrder keyed_payments_evolve.
Proof.
  split; [intros d _; reflexivity|]. intros d1 d2 d3 H12 H23 Hk.
  pose proof (H12 Hk) as H1. etransitivity; [exact H1|]. apply H23. by eapply evolve_keyed.
Qed.

Lemma keyed_of_evolve {A} (s : Stmt A) :
  stmt_keeps payments_evolve s -> stmt_keeps keyed_payments_evolve s.
Proof. intros Hs now d a d' E _. by eapply Hs. Qed.

Lemma only_payments : only db_payments keyed_payments_evolve.
Proof. intros d d' E _. by apply evolve_same. Qed.

Lemma link_payment_evolves id pda : stmt_keeps payments_evolve (link_payment_stmt id pda).
Proof.
  stmt_cases. apply update_keeps. intros r Hr. apply andb_true_iff in Hr as [_ Hr].
  apply String.eqb_eq in Hr. split; cbn; try done. congruence.
Qed.

(** The tables other than those of drafts and invitations. *)
Lemma accept_body_payments now pk token w :
  db_payments (w_db (snd (accept_body now pk token w))) = db_payments (w_db w).
Proof.
  set (Q := fun d d' => db_payments d' = db_payments d).
  assert (PreOrder Q) by (split; [done | intros x y z Hx Hy; unfold Q in *; congruence]).
  assert (Hk : keeps (on_db Q) (accept_body now pk token)).
  { unfold accept_body, internal. keeps_auto; try (apply keeps_sql; [done|]; stmt_cases; done). }
  exact (Hk w).
Qed.

#[local] Instance payments_stmts : StmtsKeep cfg keyed_payments_evolve.
Proof.
  split; try (stmt_frame only_payments); try (issue_frame only_payments);
    try (intros; apply keyed_of_evolve; eauto using confirm_stmt_keeps, expire_stmt_keeps,
           refunded_stmt_keeps, count_free_stmt_keeps, link_payment_evolves,
           insert_payment_stmt_keeps).
  intros now pk token w. apply only_payments, accept_body_payments.
Qed.

#[local] Instance payments_written : WritesKeep cfg keyed_payments_evolve.
Proof.
  split; [typeclasses eauto|..].
  - intros w Hk. by apply reconcile_evolves.
  - intros pda w Hk. by apply initiate_refund_evolves.
Qed.

(** Refinement of the payment life cycle.  Whatever sequence of requests,
    program logs and worker cycles runs, and whatever the database, the clock
    and the RPC node do at each call, no payment row is lost or created,
    every row's status moves only along pending -> confirmed | expired ->
    refund_pending -> refunded, a payment never changes its draft, user or
    reference, and a refunded row is never written again. *)
Theorem payments_follow_lifecycle (os : list op) (w : World) :
  payments_keyed (w_db w) -> payments_evolve (w_db w) (w_db (run_ops cfg os w)).
Proof. exact (run_ops_keeps cfg keyed_payments_evolve os w). Qed.
End Payments.
