(* ===== verification/Api.v ===== *)
(** * Api: a request from its route to its answer

    The handlers of every route of src/src/router.rs behind their extractors,
    in the order of their arguments: the caller, then the path, then the query
    or the body.  What the HTTP library reads of a request is part of the
    request; how it captures a path and words its rejections are parameters. *)

From Stdlib Require Import ZArith Lia.
From Stdlib Require Import Strings.Byte Strings.Ascii Strings.String.
From stdpp Require Import base tactics decidable option list strings gmap.
From S2P Require Import Prelude Text Errors Borsh SolanaTypes Health World Concrete Crypto.
From S2P Require Import Jwt Auth AuthFacts OAuth User AccountFacts Ws Storage Upload Routes.
From S2P Require Import Notification DraftData Solana Agreement Draft Wire Invite.
From S2P Require Import Payments PaymentLifecycle EventListener Expiry Keeper System.

Open Scope string_scope.
Open Scope list_scope.
Open Scope Z_scope.

(** What the HTTP library reads of a request. *)
Record Request : Type := mkRequest {
  rq_method : Method;
  rq_path : string;
  (** the capture of the matched route, percent-decoded *)
  rq_param : result Rejection string;
  rq_query : result Rejection (list (string * string));
  rq_authorization : option string;
  rq_origin : option string;
  rq_ip : IpHeaders;
  rq_jar : CookieJar;
  (** the WebSocket handshake *)
  rq_upgrade : result Rejection unit;
  (** the body, by its content type *)
  rq_json : result Rejection json;
  rq_multipart : result Rejection Multipart;
}.

(** The answers of the handlers. *)
Inductive Answer : Type :=
| AnsHealth (r : Z * HealthResponse)
| AnsNonce (nonce : string)
| AnsTokens (r : AuthResponse)
| AnsRedirect (r : OAuthRedirect)
| AnsOAuth (r : OAuthResponse)
| AnsJson (body : json)
| AnsUpload (r : UploadResponse)
| AnsCreated (r : CreateAgreementResponse)
| AnsAgreement (r : GetAgreementResponse)
| AnsAgreements (r : ListAgreementsResponse)
| AnsSign (r : SignAgreementResponse)
| AnsDraft (r : GetDraftResponse)
| AnsDone
| AnsReinvite (r : ReinviteResponse)
| AnsSubmit (r : SubmitDraftResponse)
| AnsInvite (r : GetInviteResponse)
| AnsNoContent
| AnsPayment (r : InitiatePaymentResponse)
| AnsPaymentStatus (r : string * string * option Z)
| AnsProfile (r : UserProfile)
| AnsWs (r : WsResponse).

Inductive Reply : Type :=
| RouteNotFound
| MethodRefused
| Rejected (r : Rejection)
| Failed (e : AppError)
| Answered (a : Answer).

(** A case for each result of an extractor. *)
Ltac extracted :=
  repeat match goal with
  | |- context [match ?x with Ok _ => _ | Err _ => _ end] => destruct x eqn:?
  | H : context [match ?x with Ok _ => _ | Err _ => _ end] |- _ => destruct x eqn:?
  end.

(** ** Endpoints *)

Section Api.
Context `{Ext, Env} (cfg : AppState).
Context (path_match : string -> string -> bool).
(** The rejections of a body, a query or a path that does not have its type. *)
Context (bad_body : json -> Rejection) (bad_query : list (string * string) -> Rejection)
  (bad_id : string -> Rejection).

(** The extractors [Json<A>], [Query<A>] and [Path<Uuid>] *)
Definition body_of {A} (f : json -> option A) (rq : Request) : result Rejection A :=
  match rq_json rq with Ok j => ok_or (f j) (bad_body j) | Err r => Err r end.
Definition query_of {A} (f : list (string * string) -> option A) (rq : Request) : result Rejection A :=
  match rq_query rq with Ok l => ok_or (f l) (bad_query l) | Err r => Err r end.
Definition id_of (rq : Request) : result Rejection Uuid :=
  match rq_param rq with Ok s => ok_or (uuid_parse s) (bad_id s) | Err r => Err r end.

Definition extracting {A} (x : result Rejection A) (k : A -> M World Empty_set Reply)
    : M World Empty_set Reply :=
  match x with Ok a => k a | Err r => ret (Rejected r) end.

Definition reply {A} (answer : A -> Answer) (m : M World AppError A) : M World Empty_set Reply :=
  let* r := attempt m in
  ret (match r with Ok a => Answered (answer a) | Err e => Failed e end).

Definition health_handler : M World Empty_set Reply := fun w =>
  (Ok (Answered (AnsHealth (health_response (PH.current (w_health w))))), w).

Definition sign_in_callback (rq : Request) (p : OAuthProvider) : M World Empty_set Reply :=
  extracting (query_of callback_query_from rq) (fun q =>
    reply AnsOAuth (oauth_callback cfg (rq_jar rq) q p)).

(** The handlers; a caller of the wrong kind does not occur ([serve_fits]). *)
Definition handle (rq : Request) (e : Endpoint) (c : Caller) : M World Empty_set Reply :=
  match e, c with
  | Routes.health_handler, _ => health_handler
  | ep_challenge, _ => reply AnsNonce challenge
  | ep_verify, _ =>
      extracting (body_of verify_request_from rq) (fun b => reply AnsTokens (verify cfg b))
  | oauth_google, _ => reply AnsRedirect (oauth_redirect cfg Google)
  | oauth_google_callback, _ => sign_in_callback rq Google
  | oauth_microsoft, _ => reply AnsRedirect (oauth_redirect cfg Microsoft)
  | oauth_microsoft_callback, _ => sign_in_callback rq Microsoft
  | ep_link_wallet, CallerUser u =>
      extracting (body_of link_wallet_request_from rq) (fun b => reply AnsTokens (link_wallet cfg u b))
  | ep_refresh, _ =>
      extracting (body_of refresh_request_from rq) (fun t => reply AnsTokens (refresh cfg t))
  | ep_logout, _ =>
      extracting (body_of refresh_request_from rq) (fun t => reply AnsJson (logout t))
  | ep_upload, CallerWallet u =>
      extracting (rq_multipart rq) (fun m => reply AnsUpload (upload_handler cfg u m))
  | ep_create_agreement, CallerWallet u =>
      extracting (body_of create_request_from rq) (fun b =>
        reply AnsCreated (create_agreement cfg (aww_user_id u) (aww_pubkey u) b))
  | ep_get_agreement, _ =>
      extracting (rq_param rq) (fun pda => reply AnsAgreement (get_agreement pda))
  | ep_list_agreements, CallerUser u =>
      extracting (query_of list_query_from rq) (fun q =>
        reply AnsAgreements (list_agreements (au_pubkey u) q))
  | ep_sign_agreement, CallerWallet u =>
      extracting (rq_param rq) (fun pda =>
        extracting (body_of sign_request_from rq) (fun uri =>
          reply AnsSign (sign_agreement (aww_user_id u) (aww_pubkey u) pda uri)))
  | ep_cancel_agreement, CallerWallet u =>
      extracting (rq_param rq) (fun pda => reply AnsJson (cancel_agreement cfg (aww_pubkey u) pda))
  | ep_vote_revoke, CallerWallet u =>
      extracting (rq_param rq) (fun pda => reply AnsJson (vote_revoke cfg (aww_pubkey u) pda))
  | ep_retract_revoke_vote, CallerWallet u =>
      extracting (rq_param rq) (fun pda => reply AnsJson (retract_revoke_vote cfg (aww_pubkey u) pda))
  | ep_get_draft, CallerUser _ => extracting (id_of rq) (fun id => reply AnsDraft (get_draft id))
  | ep_delete_draft, CallerUser u =>
      extracting (id_of rq) (fun id => reply (fun _ => AnsDone) (delete_draft (au_user_id u) id))
  | ep_reinvite_draft, CallerUser u =>
      extracting (id_of rq) (fun id =>
        extracting (body_of reinvite_request_from rq) (fun i =>
          reply AnsReinvite (reinvite_draft cfg (au_user_id u) id i)))
  | ep_submit_draft, CallerWallet u =>
      extracting (id_of rq) (fun id =>
        extracting (body_of submit_request_from rq) (fun b =>
          reply AnsSubmit (submit_draft cfg (aww_user_id u) (aww_pubkey u) id b)))
  | ep_get_invite, _ =>
      extracting (rq_param rq) (fun token => reply AnsInvite (get_invite (rq_ip rq) token))
  | ep_accept_invite, CallerWallet u =>
      extracting (rq_param rq) (fun token =>
        reply (fun _ => AnsNoContent) (accept_invite (aww_pubkey u) token))
  | ep_initiate_payment, CallerWallet u =>
      extracting (id_of rq) (fun id =>
        extracting (body_of initiate_request_from rq) (fun method =>
          reply AnsPayment (initiate_payment cfg (aww_user_id u) (aww_pubkey u) id method)))
  | ep_payment_status, CallerUser _ =>
      extracting (id_of rq) (fun id => reply AnsPaymentStatus (payment_status id))
  | ep_get_profile, CallerUser u => reply AnsProfile (get_profile u)
  | ep_update_profile, CallerUser u =>
      extracting (body_of profile_request_from rq) (fun name => reply AnsProfile (update_profile u name))
  | ep_update_contacts, CallerUser u =>
      extracting (body_of contacts_request_from rq) (fun b => reply AnsJson (update_contacts cfg u b))
  | ep_delete_contacts, CallerUser u => reply AnsJson (delete_contacts u)
  | ep_ws, _ =>
      extracting (rq_upgrade rq) (fun _ =>
        extracting (query_of ws_query_from rq) (fun token =>
          let* r := ws_handler cfg (mkWsHeaders (rq_origin rq) (rq_authorization rq)) token in
          ret (Answered (AnsWs r))))
  | _, _ => ret RouteNotFound
  end.

Definition api (rq : Request) : M World Empty_set Reply :=
  let* s := serve path_match cfg (rq_method rq) (rq_path rq) (rq_authorization rq) in
  match s with
  | NotRouted => ret RouteNotFound
  | MethodNotAllowed => ret MethodRefused
  | Refused r => ret (Rejected r)
  | Handled e c => handle rq e c
  end.

(** ** The operation behind a request *)

Definition with_body {A} (f : json -> option A) (rq : Request) (k : A -> op) : option op :=
  match body_of f rq with Ok a => Some (k a) | Err _ => None end.
Definition with_id (rq : Request) (k : Uuid -> option op) : option op :=
  match id_of rq with Ok id => k id | Err _ => None end.
Definition with_param (rq : Request) (k : string -> option op) : option op :=
  match rq_param rq with Ok s => k s | Err _ => None end.
Definition with_callback (rq : Request) (p : OAuthProvider) : option op :=
  match query_of callback_query_from rq with
  | Ok q => Some (OpOAuthCallback (rq_jar rq) q p)
  | Err _ => None
  end.

(** The operation of System.v that a handler is; [None] when it only reads or
    when an extractor refuses. *)
Definition request_op (rq : Request) (e : Endpoint) (c : Caller) : option op :=
  match e, c with
  | ep_challenge, _ => Some OpChallenge
  | ep_verify, _ => with_body verify_request_from rq OpVerify
  | oauth_google_callback, _ => with_callback rq Google
  | oauth_microsoft_callback, _ => with_callback rq Microsoft
  | ep_link_wallet, CallerUser u => with_body link_wallet_request_from rq (OpLinkWallet u)
  | ep_refresh, _ => with_body refresh_request_from rq OpRefresh
  | ep_logout, _ => with_body refresh_request_from rq OpLogout
  | ep_upload, CallerWallet u =>
      match rq_multipart rq with Ok m => Some (OpUpload u m) | Err _ => None end
  | ep_create_agreement, CallerWallet u =>
      with_body create_request_from rq (OpCreateAgreement (aww_user_id u) (aww_pubkey u))
  | ep_sign_agreement, CallerWallet u =>
      with_param rq (fun pda => with_body sign_request_from rq (fun uri =>
        OpAgreementAction (ActSign (aww_user_id u) uri) (aww_pubkey u) pda))
  | ep_cancel_agreement, CallerWallet u =>
      with_param rq (fun pda => Some (OpAgreementAction ActCancel (aww_pubkey u) pda))
  | ep_vote_revoke, CallerWallet u =>
      with_param rq (fun pda => Some (OpAgreementAction ActVote (aww_pubkey u) pda))
  | ep_retract_revoke_vote, CallerWallet u =>
      with_param rq (fun pda => Some (OpAgreementAction ActRetract (aww_pubkey u) pda))
  | ep_delete_draft, CallerUser u => with_id rq (fun id => Some (OpDeleteDraft (au_user_id u) id))
  | ep_reinvite_draft, CallerUser u =>
      with_id rq (fun id => with_body reinvite_request_from rq (OpReinvite (au_user_id u) id))
  | ep_submit_draft, CallerWallet u =>
      with_id rq (fun id =>
        with_body submit_request_from rq (OpSubmitDraft (aww_user_id u) (aww_pubkey u) id))
  | ep_get_invite, _ => with_param rq (fun token => Some (OpGetInvite (rq_ip rq) token))
  | ep_accept_invite, CallerWallet u =>
      with_param rq (fun token => Some (OpAcceptInvite (aww_pubkey u) token))
  | ep_initiate_payment, CallerWallet u =>
      with_id rq (fun id => with_body initiate_request_from rq
        (OpInitiatePayment (aww_user_id u) (aww_pubkey u) id))
  | ep_update_profile, CallerUser u => with_body profile_request_from rq (OpUpdateProfile u)
  | ep_update_contacts, CallerUser u => with_body contacts_request_from rq (OpUpdateContacts u)
  | ep_delete_contacts, CallerUser u => Some (OpDeleteContacts u)
  | _, _ => None
  end.

(** ** A request is an operation *)

Lemma reply_world {A} (answer : A -> Answer) (m : M World AppError A) w :
  snd (reply answer m w) = snd (m w).
Proof. unfold reply, bind, attempt. by destruct (m w) as [[a|e] w']. Qed.

Lemma run_action_world act pubkey pda w :
  snd (run_action cfg act pubkey pda w) =
  match act with
  | ActSign user uri => snd (sign_agreement user pubkey pda uri w)
  | ActCancel => snd (cancel_agreement cfg pubkey pda w)
  | ActVote => snd (vote_revoke cfg pubkey pda w)
  | ActRetract => snd (retract_revoke_vote cfg pubkey pda w)
  end.
Proof. destruct act; cbn [run_action]; by case_match. Qed.

Lemma handle_op rq e c o w :
  request_op rq e c = Some o -> snd (handle rq e c w) = run_op cfg o w.
Proof.
  unfold request_op, handle, with_id, with_body, with_param, with_callback, sign_in_callback, extracting.
  destruct e, c; try discriminate; extracted; try discriminate;
    intros [= <-]; cbn [run_op]; rewrite ?run_action_world; apply reply_world.
Qed.

Definition same_db (d d' : Db) : Prop := d' = d.
#[local] Instance same_db_preorder : PreOrder same_db.
Proof. split; [done|]. intros x y z ??. unfold same_db in *. congruence. Qed.

Lemma keeps_reply {A} R `{!PreOrder R} (answer : A -> Answer) (m : M World AppError A) :
  keeps (on_db R) m -> keeps (on_db R) (reply answer m).
Proof. intros Hm w. rewrite reply_world. apply Hm. Qed.

Lemma handle_reads rq e c w : request_op rq e c = None -> w_db (snd (handle rq e c w)) = w_db w.
Proof.
  unfold request_op, handle, with_id, with_body, with_param, with_callback, sign_in_callback, extracting.
  intros Ho. cut (keeps (on_db same_db) (handle rq e c)); [by intros Hk; apply Hk|].
  unfold handle, sign_in_callback, extracting.
  destruct e, c; extracted; try discriminate Ho; try (apply keeps_ret; typeclasses eauto);
    try (apply keeps_db_id; [typeclasses eauto | done]); try (apply keeps_reply; [typeclasses eauto|]);
    unfold oauth_redirect, build_provider_auth_url, get_agreement, load_agreement, list_agreements,
      get_draft, get_draft_row, payment_status, get_profile, ws_handler, decode_access_token, internal;
    keeps_auto; try (apply keeps_db_id; [typeclasses eauto | done]).
Qed.

Lemma api_cases rq w :
  w_db (snd (api rq w)) = w_db w \/
  exists e c w1, option_map ro_endpoint (route_of path_match (rq_method rq) (rq_path rq)) = Some e /\
    caller_shown cfg (rq_authorization rq) w e c /\ w_db w1 = w_db w /\
    w_effects w1 = w_effects w /\ snd (api rq w) = snd (handle rq e c w1).
Proof.
  unfold api, bind. destruct (serve _ _ _ _ _ w) as [[s|[]] w1] eqn:Es.
  assert (Hw : (forall e c, s <> Handled e c) -> w_db w1 = w_db w).
  { intros Hn. unfold serve in Es. destruct (routes_of _ _) as [|r0 rs]; [by injection Es as _ <-|].
    destruct (route_of _ _ _) as [r|]; [|by injection Es as _ <-]. unfold bind, attempt in Es.
    assert (Hk : keeps (on_db same_db)
      (identify cfg (endpoint_access (ro_endpoint r)) (rq_authorization rq))).
    { unfold identify, auth_user_with_wallet, auth_user, decode_access_token. keeps_auto. }
    specialize (Hk w). destruct (identify _ _ _ w) as [[c|rej] w2]; injection Es as <- <-; exact Hk. }
  destruct s as [| |rej|e c]; [left; by apply Hw..|]. right. exists e, c, w1.
  pose proof (serve_route _ _ _ _ _ _ _ _ _ Es). by apply serve_fits in Es as (? & ? & ?).
Qed.

(** C8: requests are operations.  Whatever a request is, it leaves the tables as
    they were, or it is one of the operations of the system: the one its
    handler is for the caller whom the claims of its bearer token name and the
    typed values of its path, query and body, run in the tables as the request
    found them.  So every theorem about operations is one about requests. *)
Theorem api_refines_ops (rq : Request) (w : World) :
  w_db (snd (api rq w)) = w_db w \/
  exists e c o w1,
    option_map ro_endpoint (route_of path_match (rq_method rq) (rq_path rq)) = Some e /\
    caller_shown cfg (rq_authorization rq) w e c /\ request_op rq e c = Some o /\ w_db w1 = w_db w /\ w_effects w1 = w_effects w /\
    snd (api rq w) = run_op cfg o w1.
Proof.
  destruct (api_cases rq w) as [Hs|(e & c & w1 & He & Hc & Hdb & Heff & Hw)]; [by left|].
  destruct (request_op rq e c) as [o|] eqn:Eo.
  - right. exists e, c, o, w1. rewrite Hw, (handle_op _ _ _ o) by done. done.
  - left. by rewrite Hw, handle_reads.
Qed.

Lemma api_keeps (R : Db -> Db -> Prop) `{!PreOrder R, !WritesKeep cfg R} rq : keeps (on_db R) (api rq).
Proof.
  intros w. unfold on_db. destruct (api_cases rq w) as [->|(e & c & w1 & _ & _ & Hdb & _ & ->)]; [reflexivity|].
  rewrite <-Hdb. destruct (request_op rq e c) as [o|] eqn:Eo.
  - rewrite (handle_op _ _ _ o) by done. by apply run_op_keeps.
  - by rewrite handle_reads.
Qed.

(** ** Who changes what *)

(** The tables of agreements, payments and notifications. *)
Definition business (d : Db) :=
  (db_parties d, db_drafts d, db_payments d, db_counts d, db_invitations d, db_notifications d,
   db_sweep d).

(** The handlers of sign-in and profiles, under a relation that does not speak of
    their tables. *)
Section Accounts.
Context (R : Db -> Db -> Prop) `{!PreOrder R} (Hother : forall d d', business d' = business d -> R d d').

Ltac account_handler :=
  keeps_auto; try (apply keeps_sql; [done|]; stmt_cases; by apply Hother);
  try (apply keeps_db_id; [typeclasses eauto | done]).

Lemma issue_tokens_frame user pk : keeps (on_db R) (issue_tokens cfg user pk).
Proof. unfold issue_tokens, issue_access_token, issue_and_store_refresh_token. account_handler. Qed.

Lemma create_user_frame : keeps (on_db R) create_user.
Proof. unfold create_user, internal. account_handler. Qed.

Lemma limiter_frame h now : keeps (on_db R) (enforce_get_invite_rate_limit h now).
Proof.
  apply keeps_db_id; [done|]. intros w. unfold enforce_get_invite_rate_limit. by destruct (limiter_step _ _).
Qed.

(** The endpoints that may write to the tables of [business]. *)
Definition writes_business (e : Endpoint) : bool :=
  match e with
  | ep_create_agreement | ep_delete_draft | ep_reinvite_draft | ep_submit_draft | ep_accept_invite
  | ep_initiate_payment => true
  | _ => false
  end.

Lemma accounts_frame rq e c : writes_business e = false -> keeps (on_db R) (handle rq e c).
Proof.
  intros Ha. pose proof issue_tokens_frame. pose proof create_user_frame. pose proof limiter_frame.
  destruct e, c; try discriminate Ha; unfold handle, sign_in_callback, extracting;
    extracted; try (apply keeps_ret; typeclasses eauto); try (apply keeps_reply; [typeclasses eauto|]);
    try (by apply keeps_upload_handler);
    unfold challenge, verify, link_wallet, spend_nonce, oauth_redirect, build_provider_auth_url,
      oauth_callback, exchange_code_and_fetch_identity, get_json, post_form,
      resolve_or_create_oauth_user, oauth_user_id, upsert_email_contact, encrypt, refresh, logout,
      get_agreement, load_agreement, get_invite, ws_handler, decode_access_token, list_agreements,
      sign_agreement, cancel_agreement, vote_revoke, retract_revoke_vote, load_agreement,
      build_sign_agreement_tx, build_cancel_agreement_tx, build_vote_revoke_tx,
      build_retract_revoke_vote_tx, vault_signed, get_draft, get_draft_row, payment_status,
      update_profile, get_profile, update_contacts, encrypt_given, encrypt, delete_contacts, internal;
    account_handler.
Qed.
End Accounts.

Definition same_business (d d' : Db) : Prop := business d' = business d.
#[local] Instance same_business_preorder : PreOrder same_business.
Proof. split; [done|]. intros x y z ??. unfold same_business in *. congruence. Qed.

(** C13: without a valid token nothing but sign-in changes.  A request whose
    Authorization header holds no bearer token that decodes under the secret at
    that time leaves the tables of parties, drafts, payments, counters,
    invitations, notifications and sweeps exactly as they were, whatever its
    method, path, query and body. *)
Theorem unauthenticated_confined (rq : Request) (w : World) :
  (forall user wallet, ~ speaks_for cfg (rq_authorization rq) w user wallet) ->
  business (w_db (snd (api rq w))) = business (w_db w).
Proof.
  intros Hn. destruct (api_cases rq w) as [->|(e & c & w1 & _ & Hc & <- & _ & ->)]; [done|].
  assert (Ha : endpoint_access e = Anyone).
  { unfold caller_shown in Hc. destruct (endpoint_access e); [done|..];
      destruct Hc as (u & p & Hs & _); by destruct (Hn _ _ Hs). }
  apply (accounts_frame same_business (fun d d' E => E) rq e c). by destruct e.
Qed.
End Api.

(** ** Examples *)

Definition refusal (code : nat) {A} (_ : A) : Rejection := (code, "rejected").

Definition http_demo (m : Method) (path param : string) (header : option string) (body : json)
    : Request :=
  mkRequest m path (Ok param) (Ok []) header None (mkIpHeaders None None) [] (Ok tt) (Ok body)
    (Err (400%nat, "no form")).

Definition api_demo : Request -> M World Empty_set Reply :=
  @api ext_demo env_demo config_hex match_demo (refusal 422) (refusal 400) (refusal 400).

(** A refresh token in the table, redeemed by a request without a header. *)
Definition refresh_request : Request :=
  http_demo POST "/auth/refresh" "" None (JObj [("refresh_token", JStr "t"); ("extra", JNull)]).

Lemma unauthenticated_confined_witness :
  (forall user wallet, ~ @speaks_for ext_demo env_demo config_hex None (world_demo db_accounts) user wallet) /\
  business (w_db (snd (api_demo refresh_request (world_demo db_accounts)))) = business db_accounts.
Proof.
  assert (Hn : forall user wallet,
    ~ @speaks_for ext_demo env_demo config_hex None (world_demo db_accounts) user wallet)
    by (intros user wallet (token & claims & [=] & _)).
  split; [exact Hn|].
  apply (@unauthenticated_confined ext_demo env_demo config_hex match_demo (refusal 422) (refusal 400)
    (refusal 400) refresh_request (world_demo db_accounts)). exact Hn.
Defined.
