(* ===== verification/Steps.v ===== *)
(** * Steps: every operation cut at its atomic steps

    The tokio runtime runs requests and workers concurrently; between two
    statements, calls or clock readings of one, others may run.  Here every
    operation of System.v is a [Prog] whose steps are these primitives, with the
    proof that its steps in a row are the operation.  Three pieces of code are
    one step each: the transaction of an acceptance, which locks the rows it
    reads with SELECT .. FOR UPDATE, and drawing a fresh nonce or token together
    with the statement that stores it, since what is drawn is local to the
    task. *)

From Stdlib Require Import ZArith Lia.
From Stdlib Require Import Strings.Byte Strings.Ascii Strings.String.
From stdpp Require Import base tactics decidable option list strings gmap.
From S2P Require Import Prelude Threads Text Errors Borsh SolanaTypes Health World Concrete Crypto.
From S2P Require Import Jwt Auth AuthFacts OAuth User Sealed Storage Upload.
From S2P Require Import Notification DraftData Solana Agreement Draft Invite InviteFacts.
From S2P Require Import Payments PaymentLifecycle EventListener Expiry Keeper System.

Open Scope string_scope.
Open Scope list_scope.
Open Scope Z_scope.

(** The primitives. *)
Ltac world_atom m :=
  lazymatch m with
  | sql _ => idtac
  | transaction _ => idtac
  | now_secs => idtac
  | new_uuid => idtac
  | fill_random _ => idtac
  | new_keypair => idtac
  | get_account_data _ _ => idtac
  | get_latest_blockhash => idtac
  | get_rent_exemption _ => idtac
  | get_balance _ => idtac
  | get_token_account_balance _ => idtac
  | send_transaction _ => idtac
  | account_exists _ => idtac
  | send_to_user _ _ => idtac
  | mark_process_degraded => idtac
  | send_email _ _ _ _ _ => idtac
  | degrade _ => idtac
  | report_degraded _ => idtac
  | enforce_get_invite_rate_limit _ _ => idtac
  | get_json _ _ => idtac
  | post_form _ _ => idtac
  | read_wallet _ => idtac
  | reqwest_post_ipfs _ _ _ => idtac
  | reqwest_post_arweave _ _ _ => idtac
  | challenge => idtac
  | issue_and_store_refresh_token _ => idtac
  end.

Section Steps.
Context `{Ext, Env} (cfg : AppState).

Ltac cut := cbv zeta; steps_auto world_atom.

(** ** Shared pieces *)

Definition vault_signed_steps ix vault : Steps (vault_signed ix vault).
Proof. unfold vault_signed. cut. Defined.
Definition enqueue_steps ty pda who : Steps (enqueue_notification ty pda who).
Proof. unfold enqueue_notification, internal. cut. Defined.
Definition encrypt_steps text key : Steps (encrypt text key).
Proof. unfold encrypt. cut. Defined.
Definition encrypt_given_steps value key : Steps (encrypt_given value key).
Proof. unfold encrypt_given, encrypt. cut. Defined.
Definition upsert_email_contact_steps user email : Steps (upsert_email_contact cfg user email).
Proof.
  unfold upsert_email_contact, internal.
  refine (steps_bind _ _ (steps_of_result _) (fun key => _)).
  refine (steps_bind _ _ (steps_of_result _) (fun idx => _)).
  refine (steps_bind _ _ (encrypt_steps email key) (fun enc => _)). cut.
Defined.
Definition lookup_user_steps {E} pubkey : Steps (lookup_user_id (E:=E) pubkey).
Proof. unfold lookup_user_id. cut. Defined.
Definition issue_tokens_steps user pk : Steps (issue_tokens cfg user pk).
Proof. unfold issue_tokens, issue_access_token. cut. Defined.
Definition spend_nonce_steps n : Steps (spend_nonce n).
Proof. unfold spend_nonce, internal. cut. Defined.
Definition create_user_steps : Steps create_user.
Proof. unfold create_user, internal. cut. Defined.

Hint Resolve vault_signed_steps enqueue_steps encrypt_steps encrypt_given_steps
  upsert_email_contact_steps lookup_user_steps
  issue_tokens_steps spend_nonce_steps create_user_steps : steps.

Definition create_tx_steps args creator vault : Steps (build_create_agreement_tx args creator vault).
Proof. unfold build_create_agreement_tx, calculate_vault_deposit. cut. Defined.
Definition broadcast_steps ev party : Steps (broadcast ev party).
Proof. unfold broadcast. cut. Defined.
Definition notify_steps ty pda party : Steps (notify ty pda party).
Proof. unfold notify. cut. Defined.
Definition resolve_party_steps k1 k2 t ex party parties
    (rest : forall slots invites all, Steps (resolve_parties k1 k2 t ex parties slots invites all))
    slots invites all : Steps (resolve_parties k1 k2 t ex (party :: parties) slots invites all).
Proof. destruct party; cbn [resolve_parties]; unfold internal; cut; apply rest. Defined.
Fixpoint resolve_parties_steps k1 k2 t ex parties slots invites all :
    Steps (resolve_parties k1 k2 t ex parties slots invites all) :=
  match parties with
  | [] => steps_ret (slots, invites, all)
  | party :: rest => resolve_party_steps k1 k2 t ex party rest
                       (resolve_parties_steps k1 k2 t ex rest) slots invites all
  end.

Hint Resolve create_tx_steps broadcast_steps notify_steps resolve_parties_steps : steps.

(** ** Handlers *)

Definition create_agreement_steps user pubkey req : Steps (create_agreement cfg user pubkey req).
Proof. unfold create_agreement, insert_invitation, internal. cut. Defined.

Definition sign_agreement_steps user pubkey pda uri : Steps (sign_agreement user pubkey pda uri).
Proof. unfold sign_agreement, load_agreement, build_sign_agreement_tx, internal. cut. Defined.
Definition cancel_agreement_steps pubkey pda : Steps (cancel_agreement cfg pubkey pda).
Proof. unfold cancel_agreement, load_agreement, build_cancel_agreement_tx, internal. cut. Defined.
Definition vote_revoke_steps pubkey pda : Steps (vote_revoke cfg pubkey pda).
Proof. unfold vote_revoke, load_agreement, build_vote_revoke_tx, internal. cut. Defined.
Definition retract_revoke_vote_steps pubkey pda : Steps (retract_revoke_vote cfg pubkey pda).
Proof. unfold retract_revoke_vote, load_agreement, build_retract_revoke_vote_tx, internal. cut. Defined.

Definition initiate_payment_steps user pubkey draft method :
  Steps (initiate_payment cfg user pubkey draft method).
Proof. unfold initiate_payment, internal. cut. Defined.
Definition confirm_payment_steps reference sig mint amount :
  Steps (confirm_payment_atomic reference sig mint amount).
Proof. unfold confirm_payment_atomic, internal. cut. Defined.
Definition submit_draft_steps user pubkey draft req : Steps (submit_draft cfg user pubkey draft req).
Proof. unfold submit_draft, get_draft_row, has_contact_email, internal. cut. Defined.
Definition delete_draft_steps user draft : Steps (delete_draft user draft).
Proof.
  unfold delete_draft, get_draft_row, ensure_creator_from_user_id, internal. cut.
Defined.
Definition reinvite_draft_steps user draft invitation :
  Steps (reinvite_draft cfg user draft invitation).
Proof. unfold reinvite_draft, get_draft_row, ensure_creator_from_user_id, internal. cut. Defined.
Definition get_invite_steps h token : Steps (get_invite h token).
Proof. unfold get_invite, internal. cut. Defined.
Definition accept_invite_steps pubkey token : Steps (accept_invite pubkey token).
Proof. unfold accept_invite, internal. cut. Defined.

Definition verify_steps body : Steps (verify cfg body).
Proof. unfold verify, internal. cut. Defined.
Definition link_wallet_steps auth body : Steps (link_wallet cfg auth body).
Proof. unfold link_wallet, internal. cut. Defined.
Definition refresh_steps token : Steps (refresh cfg token).
Proof. unfold refresh, internal. cut. Defined.
Definition logout_steps token : Steps (logout token).
Proof. unfold logout, internal. cut. Defined.
Definition oauth_callback_steps jar q p : Steps (oauth_callback cfg jar q p).
Proof.
  unfold oauth_callback, exchange_code_and_fetch_identity, resolve_or_create_oauth_user,
    oauth_user_id, internal. cut.
Defined.

Definition update_profile_steps auth name : Steps (update_profile auth name).
Proof. unfold update_profile, get_profile, internal. cut. Defined.
Definition update_contacts_steps auth req : Steps (update_contacts cfg auth req).
Proof. unfold update_contacts, internal. cut. Defined.
Definition delete_contacts_steps auth : Steps (delete_contacts auth).
Proof. unfold delete_contacts, internal. cut. Defined.

Definition upload_document_steps backend data : Steps (upload_document backend data cfg).
Proof.
  unfold upload_document, upload_document_with_client, upload_to_ipfs_with_client,
    upload_to_arweave_with_client. cbn [post_ipfs post_arweave ReqwestStorageHttpClient]. cut.
Defined.
Hint Resolve upload_document_steps : steps.
Definition upload_steps auth m : Steps (upload_handler cfg auth m).
Proof. unfold upload_handler, validate_and_upload, validate_and_upload_with_size_limit. cut. Defined.

(** ** Workers *)

Definition initiate_refund_steps pda : Steps (initiate_refund_if_eligible pda).
Proof. unfold initiate_refund_if_eligible. cut. Defined.
Hint Resolve initiate_refund_steps : steps.

Definition process_log_steps log : Steps (process_log log).
Proof.
  unfold process_log, handle_event, handle_create_agreement, handle_sign_agreement,
    handle_cancel_agreement, handle_expire_agreement, handle_cancellation, handle_vote_revoke. cut.
Defined.

Definition expiry_cycle_steps st : Steps (expiry_worker_cycle cfg st).
Proof.
  unfold expiry_worker_cycle, expire_due_agreements, expire_one, lock_agreement_for_expiry,
    unlock_agreement_from_expiry, submit_expire_transaction, build_expire_agreement_tx,
    submit_transaction_rpc. cut.
Defined.

Definition refund_cycle_steps st : Steps (refund_worker_cycle cfg st).
Proof.
  unfold refund_worker_cycle, process_pending_refunds, process_refund, execute_refund. cut.
Defined.

Definition reconcile_one_steps p : Steps (reconcile_one p).
Proof. unfold reconcile_one. cut. Defined.
Hint Resolve reconcile_one_steps : steps.
Definition reconcile_steps : Steps reconcile_late_payments.
Proof. unfold reconcile_late_payments. cut. Defined.
Hint Resolve reconcile_steps : steps.

Definition keeper_cycle_steps st : Steps (keeper_cycle cfg st).
Proof.
  unfold keeper_cycle, send_invitation_reminders, remind_one, expire_stale_invitations,
    check_hot_wallet_balances, sweep_treasury_excess, sweep_one, expire_timed_out_payments,
    cleanup_expired_auth_records. cut.
Defined.

Definition notification_cycle_steps st : Steps (notification_cycle cfg (E:=Empty_set) st).
Proof.
  unfold notification_cycle, fetch_pending_jobs, process_job, mark_sent_or_increment,
    mark_sent, increment_attempts, lookup_user_email, internal. cut.
Defined.
(** ** Operations *)

(** What the other tasks see of an answer: the tokens it carries. *)
Definition no_tokens {A} (_ : A) : option AuthResponse := None.
Definition oauth_tokens (r : OAuthResponse) : option AuthResponse :=
  match r with OAuthTokens tokens => Some tokens | OAuthConflict _ _ => None end.

Definition op_prog (o : op) : Prog World unit (option AuthResponse) :=
  match o with
  | OpCreateAgreement user pubkey req => pview no_tokens (steps (create_agreement_steps user pubkey req))
  | OpAgreementAction (ActSign user uri) pubkey pda =>
      pview no_tokens (steps (sign_agreement_steps user pubkey pda uri))
  | OpAgreementAction ActCancel pubkey pda => pview no_tokens (steps (cancel_agreement_steps pubkey pda))
  | OpAgreementAction ActVote pubkey pda => pview no_tokens (steps (vote_revoke_steps pubkey pda))
  | OpAgreementAction ActRetract pubkey pda =>
      pview no_tokens (steps (retract_revoke_vote_steps pubkey pda))
  | OpInitiatePayment user pubkey draft method =>
      pview no_tokens (steps (initiate_payment_steps user pubkey draft method))
  | OpConfirmPayment reference sig mint amount =>
      pview no_tokens (steps (confirm_payment_steps reference sig mint amount))
  | OpSubmitDraft user pubkey draft req =>
      pview no_tokens (steps (submit_draft_steps user pubkey draft req))
  | OpDeleteDraft user draft => pview no_tokens (steps (delete_draft_steps user draft))
  | OpReinvite user draft invitation =>
      pview no_tokens (steps (reinvite_draft_steps user draft invitation))
  | OpGetInvite h token => pview no_tokens (steps (get_invite_steps h token))
  | OpAcceptInvite pubkey token => pview no_tokens (steps (accept_invite_steps pubkey token))
  | OpProgramLog log => pview no_tokens (steps (process_log_steps log))
  | OpExpiryCycle st => pview no_tokens (steps (expiry_cycle_steps st))
  | OpRefundCycle st => pview no_tokens (steps (refund_cycle_steps st))
  | OpKeeperCycle st => pview no_tokens (steps (keeper_cycle_steps st))
  | OpNotificationCycle st => pview no_tokens (steps (notification_cycle_steps st))
  | OpChallenge => pview no_tokens (act challenge)
  | OpVerify req => pview Some (steps (verify_steps req))
  | OpLinkWallet auth req => pview Some (steps (link_wallet_steps auth req))
  | OpOAuthCallback jar q p => pview oauth_tokens (steps (oauth_callback_steps jar q p))
  | OpRefresh token => pview Some (steps (refresh_steps token))
  | OpLogout token => pview no_tokens (steps (logout_steps token))
  | OpUpdateProfile auth name => pview no_tokens (steps (update_profile_steps auth name))
  | OpUpdateContacts auth req => pview no_tokens (steps (update_contacts_steps auth req))
  | OpDeleteContacts auth => pview no_tokens (steps (delete_contacts_steps auth))
  | OpUpload auth m => pview no_tokens (steps (upload_steps auth m))
  | OpConnections connected => Act (fun w => (Ok tt, with_connections connected w))
                                   (fun _ => Done (Ok None))
  end.

Lemma op_prog_run o w : snd (run (op_prog o) w) = run_op cfg o w.
Proof.
  destruct o; cbn [op_prog run_op]; rewrite ?run_pview, ?run_act, ?steps_run; try reflexivity.
  destruct act; cbn [run_action]; rewrite run_pview, steps_run;
    match goal with |- context [(let '(_, _) := ?x in _)] => by destruct x as [??] end.
Qed.
End Steps.

(** ** The steps keep what the statements keep *)

Ltac leaf := solve [eauto with keeps writes | apply keeps_sql; eauto with keeps writes].
Ltac walk := pkeeps_auto leaf.

Section Keep.
Context `{Ext, Env} (cfg : AppState) (R : Db -> Db -> Prop) `{!PreOrder R, !StmtsKeep cfg R}.


Lemma vault_signed_pkeeps ix vault : pkeeps (on_db R) (steps (vault_signed_steps ix vault)).
Proof. unfold vault_signed_steps. walk. Qed.
Lemma enqueue_pkeeps ty pda who : pkeeps (on_db R) (steps (enqueue_steps ty pda who)).
Proof. unfold enqueue_steps. walk. Qed.
Lemma encrypt_pkeeps text key : pkeeps (on_db R) (steps (encrypt_steps text key)).
Proof. unfold encrypt_steps. walk. Qed.
Lemma encrypt_given_pkeeps value key : pkeeps (on_db R) (steps (encrypt_given_steps value key)).
Proof. unfold encrypt_given_steps. walk. Qed.

(** What the steps of an encryption end with, it answers in some world. *)
Lemma encrypt_yields text key enc :
  yields (steps (encrypt_steps text key)) enc -> exists w w', encrypt text key w = (Ok enc, w').
Proof.
  unfold encrypt. intros (w & nonce & w' & Hn & Hy). exists w, w'. unfold bind, of_result. rewrite Hn.
  cbn in Hy. destruct (ok_or _ _); [by injection Hy as <- | done].
Qed.

Lemma encrypt_given_yields value key enc :
  decode_hex_key_32 (cfg_encryption_key cfg) = Ok key ->
  yields (steps (encrypt_given_steps value key)) enc -> given_by cfg value enc.
Proof.
  intros Hkey. destruct value as [text|]; [|by intros [= <-]].
  intros (w & nonce & w' & Hn & Hy). cbn in Hy.
  destruct (aes256gcm_encrypt key nonce (as_bytes text)) as [ct|] eqn:Hc; [|done].
  injection Hy as <-. exists key, w, w'. split; [done|].
  unfold encrypt, bind, of_result. by rewrite Hn, Hc.
Qed.

Lemma lookup_user_pkeeps {E} pubkey : pkeeps (on_db R) (steps (lookup_user_steps (E:=E) pubkey)).
Proof. unfold lookup_user_steps. walk. Qed.
Lemma issue_tokens_pkeeps user pk : pkeeps (on_db R) (steps (issue_tokens_steps cfg user pk)).
Proof. unfold issue_tokens_steps. walk. Qed.
Lemma spend_nonce_pkeeps n : pkeeps (on_db R) (steps (spend_nonce_steps n)).
Proof. unfold spend_nonce_steps. walk. Qed.
Lemma create_user_pkeeps : pkeeps (on_db R) (steps create_user_steps).
Proof. unfold create_user_steps. walk. Qed.

Hint Resolve vault_signed_pkeeps enqueue_pkeeps encrypt_pkeeps encrypt_given_pkeeps
  lookup_user_pkeeps issue_tokens_pkeeps spend_nonce_pkeeps create_user_pkeeps : pkeeps.

Lemma create_tx_pkeeps args creator vault : pkeeps (on_db R) (steps (create_tx_steps args creator vault)).
Proof. unfold create_tx_steps. walk. Qed.
Lemma broadcast_pkeeps ev party : pkeeps (on_db R) (steps (broadcast_steps ev party)).
Proof. unfold broadcast_steps. walk. Qed.
Lemma notify_pkeeps ty pda party : pkeeps (on_db R) (steps (notify_steps ty pda party)).
Proof. unfold notify_steps. walk. Qed.
Lemma resolve_parties_pkeeps k1 k2 t ex parties slots invites all :
  pkeeps (on_db R) (steps (resolve_parties_steps k1 k2 t ex parties slots invites all)).
Proof.
  revert slots invites all.
  induction parties as [|party parties IH]; intros; cbn [resolve_parties_steps]; [exact I|].
  generalize dependent (resolve_parties_steps k1 k2 t ex parties). intros rest Hrest.
  unfold resolve_party_steps. destruct party; walk; apply Hrest.
Qed.

Hint Resolve create_tx_pkeeps broadcast_pkeeps notify_pkeeps resolve_parties_pkeeps : pkeeps.

Lemma create_agreement_pkeeps user pubkey req : pkeeps (on_db R) (steps (create_agreement_steps cfg user pubkey req)).
Proof. unfold create_agreement_steps. walk. Qed.
Lemma sign_agreement_pkeeps user pubkey pda uri : pkeeps (on_db R) (steps (sign_agreement_steps user pubkey pda uri)).
Proof. unfold sign_agreement_steps. walk. Qed.
Lemma cancel_agreement_pkeeps pubkey pda : pkeeps (on_db R) (steps (cancel_agreement_steps cfg pubkey pda)).
Proof. unfold cancel_agreement_steps. walk. Qed.
Lemma vote_revoke_pkeeps pubkey pda : pkeeps (on_db R) (steps (vote_revoke_steps cfg pubkey pda)).
Proof. unfold vote_revoke_steps. walk. Qed.
Lemma retract_revoke_vote_pkeeps pubkey pda : pkeeps (on_db R) (steps (retract_revoke_vote_steps cfg pubkey pda)).
Proof. unfold retract_revoke_vote_steps. walk. Qed.
Lemma initiate_payment_pkeeps user pubkey draft method : pkeeps (on_db R) (steps (initiate_payment_steps cfg user pubkey draft method)).
Proof. unfold initiate_payment_steps. walk. Qed.
Lemma confirm_payment_pkeeps reference sig mint amount : pkeeps (on_db R) (steps (confirm_payment_steps reference sig mint amount)).
Proof. unfold confirm_payment_steps. walk. Qed.
Lemma submit_draft_pkeeps user pubkey draft req : pkeeps (on_db R) (steps (submit_draft_steps cfg user pubkey draft req)).
Proof. unfold submit_draft_steps. walk. Qed.
Lemma delete_draft_pkeeps user draft : pkeeps (on_db R) (steps (delete_draft_steps user draft)).
Proof. unfold delete_draft_steps. walk. Qed.
Lemma reinvite_draft_pkeeps user draft invitation : pkeeps (on_db R) (steps (reinvite_draft_steps cfg user draft invitation)).
Proof. unfold reinvite_draft_steps. walk. Qed.
Lemma get_invite_pkeeps h token : pkeeps (on_db R) (steps (get_invite_steps h token)).
Proof. unfold get_invite_steps. walk. Qed.
Lemma accept_invite_pkeeps pubkey token : pkeeps (on_db R) (steps (accept_invite_steps pubkey token)).
Proof. unfold accept_invite_steps. walk. Qed.
Lemma verify_pkeeps body : pkeeps (on_db R) (steps (verify_steps cfg body)).
Proof. unfold verify_steps. walk. Qed.
Lemma link_wallet_pkeeps auth body : pkeeps (on_db R) (steps (link_wallet_steps cfg auth body)).
Proof. unfold link_wallet_steps. walk. Qed.
Lemma refresh_pkeeps token : pkeeps (on_db R) (steps (refresh_steps cfg token)).
Proof. unfold refresh_steps. walk. Qed.
Lemma logout_pkeeps token : pkeeps (on_db R) (steps (logout_steps token)).
Proof. unfold logout_steps. walk. Qed.
Lemma upsert_email_contact_pkeeps user email :
  pkeeps (on_db R) (steps (upsert_email_contact_steps cfg user email)).
Proof.
  unfold upsert_email_contact_steps.
  apply pkeeps_checked. intros key Hkey. apply pkeeps_checked. intros idx Hidx.
  apply pkeeps_pbind_yields; [apply encrypt_pkeeps|].
  intros [ct nonce] (w & w' & He)%encrypt_yields.
  apply pkeeps_pmap_err, pkeeps_act, keeps_sql; [done|]. apply (wk_upsert_email cfg R). exists email.
  split; [by exists key, w, w' | by exists idx].
Qed.
Hint Resolve upsert_email_contact_pkeeps : pkeeps.
Lemma oauth_callback_pkeeps jar q p : pkeeps (on_db R) (steps (oauth_callback_steps cfg jar q p)).
Proof. unfold oauth_callback_steps. walk. Qed.
Lemma update_contacts_pkeeps auth req : pkeeps (on_db R) (steps (update_contacts_steps cfg auth req)).
Proof.
  unfold update_contacts_steps.
  apply pkeeps_checked. intros key Hkey. apply pkeeps_checked. intros idx Hidx.
  do 3 (apply pkeeps_pbind_yields; [apply encrypt_given_pkeeps|];
        intros ? ?%encrypt_given_yields; [|done]).
  apply pkeeps_pbind; [|done]. apply pkeeps_pmap_err, pkeeps_act, keeps_sql; [done|].
  apply (wk_upsert_contacts cfg R). split; [by eapply given_email | split; by eapply given_pair].
Qed.
Lemma delete_contacts_pkeeps auth : pkeeps (on_db R) (steps (delete_contacts_steps auth)).
Proof. unfold delete_contacts_steps. walk. Qed.
Lemma upload_document_pkeeps backend data : pkeeps (on_db R) (steps (upload_document_steps cfg backend data)).
Proof. unfold upload_document_steps. walk. Qed.
Hint Resolve upload_document_pkeeps : pkeeps.
Lemma upload_pkeeps auth m : pkeeps (on_db R) (steps (upload_steps cfg auth m)).
Proof. unfold upload_steps. walk. Qed.
Lemma expiry_cycle_pkeeps st : pkeeps (on_db R) (steps (expiry_cycle_steps cfg st)).
Proof. unfold expiry_cycle_steps. walk. Qed.
Lemma refund_cycle_pkeeps st : pkeeps (on_db R) (steps (refund_cycle_steps cfg st)).
Proof. unfold refund_cycle_steps. walk. Qed.
Lemma notification_cycle_pkeeps st : pkeeps (on_db R) (steps (notification_cycle_steps cfg st)).
Proof. unfold notification_cycle_steps. walk. Qed.

(** The profile's name is checked before the statement that stores it. *)
Lemma update_profile_pkeeps auth name : pkeeps (on_db R) (steps (update_profile_steps auth name)).
Proof.
  unfold update_profile_steps. apply pkeeps_checked. intros [] Hn.
  assert (Hk : stmt_keeps R (display_name_stmt (au_user_id auth) name)).
  { eapply wk_display_name; [done|]. by destruct name. }
  walk.
Qed.

(** The two pieces of code that mark a payment for refund. *)
Section Marks.
Context `{!MarksKeep R}.

Lemma initiate_refund_pkeeps pda : pkeeps (on_db R) (steps (initiate_refund_steps pda)).
Proof. unfold initiate_refund_steps. walk. Qed.
Lemma reconcile_one_pkeeps p : pkeeps (on_db R) (steps (reconcile_one_steps p)).
Proof. unfold reconcile_one_steps. walk. Qed.
Hint Resolve reconcile_one_pkeeps : pkeeps.
Lemma reconcile_pkeeps : pkeeps (on_db R) (steps reconcile_steps).
Proof. unfold reconcile_steps. walk. Qed.
Hint Resolve initiate_refund_pkeeps reconcile_pkeeps : pkeeps.
Lemma process_log_pkeeps log : pkeeps (on_db R) (steps (process_log_steps log)).
Proof. unfold process_log_steps. walk. Qed.
Lemma keeper_cycle_pkeeps st : pkeeps (on_db R) (steps (keeper_cycle_steps cfg st)).
Proof. unfold keeper_cycle_steps. walk. Qed.
End Marks.

(** The operations that mark no payment. *)
Definition marks_payments (o : op) : bool :=
  match o with OpProgramLog _ | OpKeeperCycle _ => true | _ => false end.

Hint Resolve create_agreement_pkeeps sign_agreement_pkeeps cancel_agreement_pkeeps
  vote_revoke_pkeeps retract_revoke_vote_pkeeps initiate_payment_pkeeps confirm_payment_pkeeps
  submit_draft_pkeeps delete_draft_pkeeps reinvite_draft_pkeeps get_invite_pkeeps
  accept_invite_pkeeps expiry_cycle_pkeeps refund_cycle_pkeeps notification_cycle_pkeeps
  verify_pkeeps link_wallet_pkeeps oauth_callback_pkeeps refresh_pkeeps logout_pkeeps
  update_profile_pkeeps update_contacts_pkeeps delete_contacts_pkeeps upload_pkeeps : pkeeps.

Lemma op_prog_pkeeps_unmarked o : marks_payments o = false -> pkeeps (on_db R) (op_prog cfg o).
Proof.
  destruct o; try discriminate; intros _; try destruct act; cbn [op_prog];
    lazymatch goal with
    | |- pkeeps _ (pview _ (act _)) => apply pkeeps_pview, pkeeps_act; leaf
    | |- pkeeps _ (pview _ _) =>
        apply pkeeps_pview;
        solve [eauto with pkeeps]
    | |- _ => split; [intros w; change (R (w_db w) (w_db w)); reflexivity | done]
    end.
Qed.

Lemma op_prog_pkeeps `{!MarksKeep R} o : pkeeps (on_db R) (op_prog cfg o).
Proof.
  destruct (marks_payments o) eqn:E; [|by apply op_prog_pkeeps_unmarked].
  destruct o; try discriminate; apply pkeeps_pview;
    [apply process_log_pkeeps | apply keeper_cycle_pkeeps].
Qed.
End Keep.

#[export] Hint Resolve vault_signed_pkeeps enqueue_pkeeps encrypt_pkeeps encrypt_given_pkeeps
  lookup_user_pkeeps issue_tokens_pkeeps spend_nonce_pkeeps create_user_pkeeps
  create_tx_pkeeps broadcast_pkeeps notify_pkeeps : pkeeps.
#[export] Hint Extern 0 (PreOrder _) => typeclasses eauto : pkeeps.
#[export] Hint Extern 0 (StmtsKeep _ _) => typeclasses eauto : pkeeps.

(** Whatever operations run and however their steps interleave, the tables move
    along [R]. *)
Section Interleavings.
Context `{Ext, Env} (cfg : AppState).

Definition start (os : list op) (w : World) : Pool World unit (option AuthResponse) :=
  (map (op_prog cfg) os, w).

Lemma interleavings_keep (R : Db -> Db -> Prop) `{!PreOrder R, !StmtsKeep cfg R, !MarksKeep R} os w c :
  star pool_step (start os w) c -> R (w_db w) (w_db c.2).
Proof.
  intros Hs. refine (proj1 (pool_keeps (on_db R) _ _ _ Hs)).
  apply Forall_forall. intros p (o & -> & _)%list_elem_of_fmap. apply op_prog_pkeeps; typeclasses eauto.
Qed.
End Interleavings.
