(* ===== verification/Sessions.v ===== *)
(** * Sessions: nonces, refresh tokens and accounts under every operation

    Instances of [WritesKeep] for the tables of sign-in: a nonce and a refresh
    token are good for one use in any run, a wallet stays with its user, display
    names stay clean, stored contacts stay readable, and the keys and references
    of the tables hold. *)

From Stdlib Require Import ZArith Lia.
From Stdlib Require Import Strings.Byte Strings.Ascii Strings.String.
From stdpp Require Import base tactics decidable option list strings gmap.
From S2P Require Import Prelude Text Errors Borsh SolanaTypes Health World Concrete Crypto.
From S2P Require Import Jwt Auth AuthFacts OAuth User Sealed AccountFacts.
From S2P Require Import Notification DraftData Solana Agreement Draft Invite InviteFacts.
From S2P Require Import Payments PaymentLifecycle EventListener Expiry Keeper System.

Open Scope string_scope.
Open Scope list_scope.
Open Scope Z_scope.

(** ** One-time credentials

    What nonces and refresh tokens have in common: a table keyed by a text,
    from which a credential is removed when it is used. *)

Section Credential.
Context {Row K : Type} (table : Db -> list Row) (name : Row -> K) (n : K).

Definition keyed (d : Db) : Prop := NoDup (map name (table d)).
Definition gone (d : Db) : Prop := forall r, r ∈ table d -> name r <> n.

Definition credential_step (d d' : Db) : Prop :=
  keyed d -> keyed d' /\ (gone d -> gone d').

#[global] Instance credential_step_preorder : PreOrder credential_step.
Proof.
  split; [done|]. intros x y z Hxy Hyz Hk. destruct (Hxy Hk) as [Hk' Hg].
  destruct (Hyz Hk') as [Hk'' Hg']. auto.
Qed.

Lemma credential_same d d' : table d' = table d -> credential_step d d'.
Proof. intros E Hk. unfold keyed, gone in *. by rewrite E. Qed.

(** Deleting rows. *)
Lemma credential_filter p d d' : table d' = where_ p (table d) -> credential_step d d'.
Proof.
  intros E Hk. unfold keyed, gone in *. rewrite E. split.
  - unfold where_. clear E. induction (table d) as [|r t IH]; cbn in *; [done|].
    apply NoDup_cons in Hk as [Hn Hk]. destruct (p r); cbn; [|by apply IH].
    apply NoDup_cons. split; [|by apply IH]. intros Hin. apply Hn.
    apply list_elem_of_fmap in Hin as (x & Hx & Hxt). apply list_elem_of_fmap. exists x.
    split; [done|]. by apply elem_of_where in Hxt as [? _].
  - intros Hg r Hr. apply elem_of_where in Hr as [Hr _]. by apply Hg.
Qed.

(** Adding a row with a new name that is not [n]. *)
Lemma credential_append x d d' :
  table d' = table d ++ [x] -> (forall r, r ∈ table d -> name r <> name x) -> name x <> n ->
  credential_step d d'.
Proof.
  intros E Hnew Hx Hk. unfold keyed, gone in *. rewrite E. split.
  - rewrite map_app. apply NoDup_app. split; [done|]. split; [|apply NoDup_singleton].
    intros y Hy Hy'. apply list_elem_of_singleton in Hy'. subst y.
    apply list_elem_of_fmap in Hy as (r & Hr & Hin). by destruct (Hnew r Hin).
  - intros Hg r [Hr|Hr%list_elem_of_singleton]%elem_of_app; [by apply Hg | by subst r].
Qed.

(** A use: the row found is the only one of its name, so its removal leaves
    none. *)
Lemma credential_used (due : Row -> bool) d d' r :
  keyed d -> r ∈ table d -> name r = n -> due r = true ->
  table d' = where_ (fun x => negb (due x)) (table d) -> gone d'.
Proof.
  intros Hk Hr Hn Hd E x Hx Hxn. rewrite E in Hx. apply elem_of_where in Hx as [Hx Hdx].
  assert (x = r) as -> by (eapply (NoDup_map_eq name); eauto; congruence).
  by rewrite Hd in Hdx.
Qed.
End Credential.

(** How often a run answers a use of the credential. *)
Section Uses.
Context `{Ext, Env} (cfg : AppState) (used : op -> World -> bool).

Fixpoint uses (os : list op) (w : World) : nat :=
  match os with
  | [] => 0
  | o :: os' => (if used o w then 1 else 0) + uses os' (run_op cfg o w)
  end%nat.

Lemma uses_at_most_once {Row K} (table : Db -> list Row) (name : Row -> K) n os w
    `{!WritesKeep cfg (credential_step table name n)} :
  (forall o w, keyed table name (w_db w) -> used o w = true ->
     ~ gone table name n (w_db w) /\ gone table name n (w_db (run_op cfg o w))) ->
  keyed table name (w_db w) ->
  (uses os w <= 1)%nat /\ (gone table name n (w_db w) -> uses os w = 0%nat).
Proof.
  intros Huse. revert w. induction os as [|o os IH]; intros w Hk; [cbn; lia|].
  destruct (run_op_keeps cfg (credential_step table name n) o w Hk) as [Hk' Hg'].
  destruct (IH _ Hk') as [IH1 IH2]. cbn [uses]. destruct (used o w) eqn:E.
  - destruct (Huse o w Hk E) as [Hng Hg]. rewrite (IH2 Hg). split; [lia|]. intros Hgn. by destruct Hng.
  - split; [cbn; lia|]. intros Hgn. by rewrite (IH2 (Hg' Hgn)).
Qed.
End Uses.

(** ** Nonces *)

Section Nonces.
Context `{Ext, Env} (cfg : AppState) (n : string).

(** A sign-in or a linking with this nonce that is answered. *)
Definition signs_in (o : op) (w : World) : bool :=
  match o with
  | OpVerify req => String.eqb (vr_nonce req) n && is_ok (fst (verify cfg req w))
  | OpLinkWallet auth req => String.eqb (lw_nonce req) n && is_ok (fst (link_wallet cfg auth req w))
  | _ => false
  end.

Definition nonces_keyed : Db -> Prop := keyed db_nonces sn_nonce.
Definition nonce_step : Db -> Db -> Prop := credential_step db_nonces sn_nonce n.

Lemma nonce_same d d' : db_nonces d' = db_nonces d -> nonce_step d d'.
Proof. apply credential_same. Qed.
Lemma nonce_accounts d d' : account_tables d' = account_tables d -> nonce_step d d'.
Proof. intros [= _ _ _ _ E _]. by apply nonce_same. Qed.

Lemma nonces_stmts :
  (forall k, uuid_to_string (fresh_uuid k) <> n) -> StmtsKeep cfg nonce_step.
Proof.
  intros Hn. split; try (stmt_frame nonce_same); try (issue_frame nonce_same);
    try (accept_frame nonce_accounts).
  - intros th. stmt_cases. by eapply credential_filter.
  - assert (Hc : forall k, let nonce := uuid_to_string (fresh_uuid k) in
      keeps (on_db nonce_step) (internal (sql (insert_nonce_stmt nonce)) ;;; ret (E:=AppError) nonce)).
    { intros k. cbv zeta. unfold internal. keeps_auto. apply keeps_sql; [typeclasses eauto|].
      stmt_cases. eapply credential_append; [reflexivity | | apply Hn].
      intros r Hr He. cut (true = false); [done|].
      match goal with Hq : exists_row _ _ = false |- _ => rewrite <-Hq end. symmetry.
      apply exists_row_spec. exists r. split; [done|]. by apply String.eqb_eq. }
    intros w. exact (Hc (w_tick w) (tick w)).
  - intros n'. stmt_cases. by eapply credential_filter.
Qed.

#[export] Instance nonces_marks : MarksKeep nonce_step.
Proof. marks_frame nonce_same. Qed.

Lemma nonce_spent_gone w w' :
  nonces_keyed (w_db w) -> nonce_spent n w w' ->
  ~ gone db_nonces sn_nonce n (w_db w) /\ gone db_nonces sn_nonce n (w_db w').
Proof.
  intros Hk [(r & Hr & Hn & Hf) Hd]. split; [intros Hg; by destruct (Hg r)|].
  eapply (credential_used db_nonces sn_nonce n
    (fun x => nonce_is n x && nonce_fresh (db_now (w_tick w)) x)); [exact Hk | exact Hr | done | |].
  - rewrite Hf. unfold nonce_is. by rewrite Hn, String.eqb_refl.
  - by rewrite Hd.
Qed.

(** No replay of a sign-in.  Whatever operations run and whatever fails, a
    nonce that is not issued again is answered with tokens at most once,
    counting sign-ins and linkings together, and never when it is not in the
    table at the start. *)
Theorem nonce_single_use (os : list op) (w : World) :
  (forall k, uuid_to_string (fresh_uuid k) <> n) -> nonces_keyed (w_db w) ->
  (uses cfg signs_in os w <= 1)%nat /\
  ((forall r, r ∈ db_nonces (w_db w) -> sn_nonce r <> n) -> uses cfg signs_in os w = 0%nat).
Proof.
  intros Hn Hk. pose proof (nonces_stmts Hn).
  apply (uses_at_most_once cfg signs_in db_nonces sn_nonce n os w); [|exact Hk].
  clear w Hk os. intros o w Hk Hu. destruct o; try discriminate Hu; cbn [signs_in run_op] in *;
    apply andb_true_iff in Hu as [En Hu]; apply String.eqb_eq in En.
  - destruct (verify cfg req w) as [[resp|e] w'] eqn:E; [|done]. clear Hu.
    apply verify_run in E as (w1 & w2 & user & Hsp & _ & Hs & _ & now & _ & Hd). rewrite En in Hsp.
    destruct (nonce_spent_gone _ _ Hk Hsp) as [Hng Hg]. split; [done|].
    assert (E2 : db_nonces (w_db w2) = db_nonces (w_db w1))
      by (destruct Hs as [[_ E2]|(_ & _ & t1 & t2 & E2)]; by rewrite E2).
    cbn [snd]. unfold gone. rewrite Hd. cbn. by rewrite E2.
  - destruct (link_wallet cfg auth req w) as [[resp|e] w'] eqn:E; [|done]. clear Hu.
    apply link_wallet_run in E as (_ & _ & w1 & w2 & at_ & Hsp & _ & Hs & _ & now & _ & Hd).
    rewrite En in Hsp. destruct (nonce_spent_gone _ _ Hk Hsp) as [Hng Hg]. split; [done|].
    cbn [snd]. unfold gone. rewrite Hd. cbn. by rewrite Hs.
Qed.
End Nonces.

(** ** Refresh tokens *)

Section Refresh.
Context `{Ext, Env} (cfg : AppState) (token : string).

Definition redeems (o : op) (w : World) : bool :=
  match o with
  | OpRefresh t => String.eqb t token && is_ok (fst (refresh cfg t w))
  | _ => false
  end.

Definition refresh_keyed : Db -> Prop := keyed db_refresh rt_token_hash.
Definition refresh_step : Db -> Db -> Prop :=
  credential_step db_refresh rt_token_hash (sha256_hex token).

Lemma refresh_same d d' : db_refresh d' = db_refresh d -> refresh_step d d'.
Proof. apply credential_same. Qed.
Lemma refresh_accounts d d' : account_tables d' = account_tables d -> refresh_step d d'.
Proof. intros [= _ _ _ _ _ E]. by apply refresh_same. Qed.

Lemma refresh_stmts :
  (forall k, sha256_hex (hex_encode (random_bytes k 32)) <> sha256_hex token) ->
  StmtsKeep cfg refresh_step.
Proof.
  intros Hn. split; try (stmt_frame refresh_same); try (issue_frame refresh_same);
    try (accept_frame refresh_accounts).
  - intros th. stmt_cases. by eapply credential_filter.
  - intros user. set (store k := let raw := hex_encode (random_bytes k 32) in
      let* now := now_secs in
      map_err (fun _ => InternalError)
        (sql (insert_refresh_stmt user (sha256_hex raw) (i64_wrap (i64_wrap now + 604800))
                (i64_wrap now))) ;;; ret (E:=AppError) raw).
    assert (Hc : forall k, keeps (on_db refresh_step) (store k)).
    { intros k. unfold store. cbv zeta. keeps_auto. apply keeps_sql; [typeclasses eauto|].
      intros t d [] d' Hi. apply insert_refresh_Some in Hi as (_ & Hnew & ->).
      eapply credential_append; [reflexivity | exact Hnew | apply Hn]. }
    intros w. exact (Hc (w_tick w) (tick w)).
  - intros h. stmt_cases. by eapply credential_filter.
  - intros h. stmt_cases. by eapply credential_filter.
Qed.

#[export] Instance refresh_marks : MarksKeep refresh_step.
Proof. marks_frame refresh_same. Qed.

(** A refresh token is good for one refresh, and for none after a logout.
    Whatever operations run and whatever fails, a token whose hash is not drawn
    again is redeemed at most once; once a logout with it has answered, not at
    all. *)
Theorem refresh_token_single_use (os : list op) (w : World) :
  (forall k, sha256_hex (hex_encode (random_bytes k 32)) <> sha256_hex token) ->
  refresh_keyed (w_db w) ->
  (uses cfg redeems os w <= 1)%nat /\
  forall r w', logout token w = (Ok r, w') -> uses cfg redeems os w' = 0%nat.
Proof.
  intros Hn Hk. pose proof (refresh_stmts Hn) as Hw.
  assert (Huse : forall o w, refresh_keyed (w_db w) -> redeems o w = true ->
    ~ gone db_refresh rt_token_hash (sha256_hex token) (w_db w) /\
    gone db_refresh rt_token_hash (sha256_hex token) (w_db (run_op cfg o w))).
  { clear w Hk os. intros o w Hk Hu. destruct o; try discriminate Hu; cbn [redeems run_op] in *.
    apply andb_true_iff in Hu as [->%String.eqb_eq Hu].
    destruct (refresh cfg token w) as [[resp|e] w'] eqn:E; [|done]. clear Hu.
    apply refresh_run in E as (r & w1 & Hr & Hh & Hl & Hd & _ & now & [_ [k Hnew]] & Hd').
    split; [intros Hg; by destruct (Hg r)|].
    assert (Hg : gone db_refresh rt_token_hash (sha256_hex token) (w_db w1)).
    { eapply (credential_used db_refresh rt_token_hash (sha256_hex token)
        (fun x => hash_is (sha256_hex token) x && refresh_live (db_now (w_tick w)) x));
        [exact Hk | exact Hr | done | |].
      - rewrite Hl. unfold hash_is. by rewrite Hh, String.eqb_refl.
      - by rewrite Hd. }
    cbn [snd]. intros x Hx. rewrite Hd' in Hx. cbn in Hx.
    apply elem_of_app in Hx as [Hx|Hx%list_elem_of_singleton]; [by apply Hg|]. subst x. cbn.
    rewrite Hnew. apply Hn. }
  split; [by apply (uses_at_most_once cfg redeems db_refresh rt_token_hash _ os w Huse)|].
  intros r w' Hl. unfold logout, internal in Hl. run_inv. subst.
  match goal with Hq : sql _ _ = _ |- _ => apply sql_Ok in Hq as (d & Hd & ->) end.
  injection Hd as _ <-. set (w1 := with_db _ _).
  assert (Ht : db_refresh (w_db w1) = where_ (fun r => negb (hash_is (sha256_hex token) r))
                 (db_refresh (w_db w))) by reflexivity.
  refine (proj2 (uses_at_most_once cfg redeems db_refresh rt_token_hash _ os w1 Huse _) _).
  - by apply (credential_filter db_refresh rt_token_hash (sha256_hex token) _ _ _ Ht).
  - intros x Hx Hxn. rewrite Ht in Hx. apply elem_of_where in Hx as [_ Hx].
    unfold hash_is in Hx. by rewrite Hxn, String.eqb_refl in Hx.
Qed.
End Refresh.

(** ** A wallet is an identity *)

Section Wallets.
Context `{Ext, Env} (cfg : AppState).

Definition wallets_kept (d d' : Db) : Prop :=
  forall pk u, wallet_user pk d = Some u -> wallet_user pk d' = Some u.

#[export] Instance wallets_kept_preorder : PreOrder wallets_kept.
Proof. split; [by intros d pk u | intros x y z Hxy Hyz pk u Hu; by apply Hyz, Hxy]. Qed.

Lemma wallets_same d d' : db_wallets d' = db_wallets d -> wallets_kept d d'.
Proof. intros E pk u. unfold wallet_user. by rewrite E. Qed.
Lemma wallets_accounts d d' : account_tables d' = account_tables d -> wallets_kept d d'.
Proof. intros [= _ E _ _ _ _]. by apply wallets_same. Qed.

#[export] Instance wallets_stmts : StmtsKeep cfg wallets_kept.
Proof.
  split; try (stmt_frame wallets_same); try (issue_frame wallets_same);
    try (accept_frame wallets_accounts).
  intros user pk t d a d' Hi. apply insert_wallet_Some in Hi as [_ ->]. intros pk' u.
  unfold wallet_user. cbn [set_wallets db_wallets]. rewrite where_app.
  by destruct (where_ _ (db_wallets d)).
Qed.

#[export] Instance wallets_marks : MarksKeep wallets_kept.
Proof. marks_frame wallets_same. Qed.

(** C19: a wallet is an identity.  Once a wallet is linked to a user, no
    operation unlinks it or moves it to another user, so every later sign-in
    with this wallet is answered with tokens of this user. *)
Theorem wallet_is_identity (os : list op) (w : World) (pk : string) (u : Uuid) :
  wallet_user pk (w_db w) = Some u ->
  wallet_user pk (w_db (run_ops cfg os w)) = Some u /\
  forall body resp w', vr_pubkey body = pk ->
    verify cfg body (run_ops cfg os w) = (Ok resp, w') ->
    exists exp iat jti, jwt_encode (cfg_jwt_secret cfg) (mkClaims u (Some pk) exp iat jti)
      = Some (ar_access_token resp).
Proof.
  intros Hu. pose proof (run_ops_keeps cfg wallets_kept os w pk u Hu) as Hu'. split; [exact Hu'|].
  intros body resp w' Hpk (w1 & w2 & user & [_ Hd] & _ & Hs & Hj & _)%verify_run. rewrite Hpk in *.
  assert (Hu1 : wallet_user pk (w_db w1) = Some u) by by rewrite Hd.
  assert (user = u) as -> by (destruct Hs as [[E _]|[E _]]; congruence). exact Hj.
Qed.
End Wallets.

(** ** Display names *)

Section Names.
Context `{Ext, Env} (cfg : AppState).

Definition clean_name (name : string) : Prop :=
  (String.length name <= 64)%nat /\ Forall (fun c => str_contains c name = false) html_chars.
Definition names_clean (d : Db) : Prop :=
  forall u name, u ∈ db_users d -> ua_display_name u = Some name -> clean_name name.
Definition names_step (d d' : Db) : Prop := names_clean d -> names_clean d'.

#[export] Instance names_step_preorder : PreOrder names_step.
Proof. split; [intros d Hd; exact Hd | intros x y z Hxy Hyz Hx; exact (Hyz (Hxy Hx))]. Qed.

Lemma names_same d d' : db_users d' = db_users d -> names_step d d'.
Proof. intros E Hn u name. rewrite E. by apply Hn. Qed.
Lemma names_accounts d d' : account_tables d' = account_tables d -> names_step d d'.
Proof. intros [= E _ _ _ _ _]. by apply names_same. Qed.

Lemma sanitise_Ok name : sanitise_display_name name = Ok tt -> clean_name name.
Proof.
  unfold sanitise_display_name, clean_name. destruct (Nat.ltb_spec 64 (String.length name)); [done|].
  destruct (List.existsb _ _) eqn:E; [done|]. intros _. split; [done|].
  rewrite Forall_forall. intros c Hc. destruct (str_contains c name) eqn:Ec; [|done].
  rewrite <-E. symmetry. apply List.existsb_exists. exists c. split; [by apply list_elem_of_In | done].
Qed.

#[export] Instance names_stmts : StmtsKeep cfg names_step.
Proof.
  split; try (stmt_frame names_same); try (issue_frame names_same);
    try (accept_frame names_accounts).
  - intros id t d a d' Hi. apply insert_user_Some in Hi as (_ & _ & ->). intros Hn u name.
    cbn. intros [Hu|Hu%list_elem_of_singleton]%elem_of_app; [by apply Hn | by subst u].
  - intros user name Hs. stmt_cases. intros Hn u nm. cbn.
    intros (x & Hx & ->)%elem_of_update_where. destruct (uuid_eqb _ _); [|by apply Hn].
    intros Hname. cbn in Hname. subst name. by apply sanitise_Ok.
Qed.

#[export] Instance names_marks : MarksKeep names_step.
Proof. marks_frame names_same. Qed.

(** Display names are safe to show.  From tables where it holds, every
    stored display name has at most 64 bytes and none of the characters
    less-than, greater-than, quote, apostrophe and ampersand, whatever operations
    run: the only statement that writes a name is behind the check. *)
Theorem display_names_stay_clean (os : list op) (w : World) (u : UserAccountRow) (name : string) :
  names_clean (w_db w) -> u ∈ db_users (w_db (run_ops cfg os w)) ->
  ua_display_name u = Some name -> clean_name name.
Proof. intros Hc. exact (run_ops_keeps cfg names_step os w Hc u name). Qed.
End Names.

(** ** Contacts

    What is encrypted stays readable: the rows of contacts that a deployment
    stores under its keys open under them. *)

Section Readable.
Context `{Ext, Env} (cfg : AppState) (Haes : aes_correct) (Hrand : random_lengths).

Definition readable_step (d d' : Db) : Prop := contacts_readable cfg d -> contacts_readable cfg d'.

#[local] Instance readable_step_preorder : PreOrder readable_step.
Proof. split; [intros d Hd; exact Hd | intros x y z Hxy Hyz Hx; exact (Hyz (Hxy Hx))]. Qed.

Lemma readable_same d d' : db_contacts d' = db_contacts d -> readable_step d d'.
Proof. intros E Hd r. rewrite E. by apply Hd. Qed.
Lemma readable_accounts d d' : account_tables d' = account_tables d -> readable_step d d'.
Proof. intros [= _ _ _ E _ _]. by apply readable_same. Qed.

(** An upsert of contacts puts values in the user's row, or adds one. *)
Lemma readable_update p f d :
  (forall r, sealed_row (readable_by cfg) (indexed_by cfg) r ->
     sealed_row (readable_by cfg) (indexed_by cfg) (f r)) ->
  readable_step d (set_contacts (update_where p f) d).
Proof.
  intros Hf Hd r (x & Hx & ->)%elem_of_update_where. destruct (p x); [by apply Hf, Hd | by apply Hd].
Qed.

Lemma readable_insert row d :
  sealed_row (readable_by cfg) (indexed_by cfg) row ->
  readable_step d (set_contacts (fun t => t ++ [row]) d).
Proof.
  intros Hrow Hd r [Hr|Hr%list_elem_of_singleton]%elem_of_app; [by apply Hd | by subst r].
Qed.

Lemma readable_stmts : StmtsKeep cfg readable_step.
Proof.
  split; try (stmt_frame readable_same); try (issue_frame readable_same);
    try (accept_frame readable_accounts).
  - intros user e n i (text & He & Hi). apply (encrypted_readable cfg text e n Haes Hrand) in He.
    stmt_cases; [apply readable_update; intros r; by eapply set_email_sealed|].
    apply readable_insert. split; [by exists text | done].
  - intros user v Hv.
    assert (Hv' : sealed_values (readable_by cfg) (indexed_by cfg) v).
    { exact (sealed_row_impl (encrypted_by cfg) _ _ (new_contact user v 0)
        (fun t ct n Ht => encrypted_readable cfg t ct n Haes Hrand Ht) Hv). }
    stmt_cases; [apply readable_update; intros r; by apply merge_sealed|].
    by apply readable_insert, new_sealed.
  - intros user. stmt_cases. intros Hd r [Hr _]%elem_of_where. by apply Hd.
Qed.

Lemma readable_marks : MarksKeep readable_step.
Proof. marks_frame readable_same. Qed.
End Readable.

(** ** Keys and references *)

Section Keys.
Context `{Ext, Env} (cfg : AppState).

Record accounts_wf (d : Db) : Prop := mkAccountsWf {
  af_users : keyed db_users ua_id d;
  af_wallets : keyed db_wallets aw_pubkey d;
  af_oauth : NoDup (map (fun r => (ao_provider r, ao_provider_id r)) (db_oauth d));
  af_contacts : NoDup (map uc_user_id (db_contacts d));
  af_nonces : keyed db_nonces sn_nonce d;
  af_refresh : keyed db_refresh rt_token_hash d;
  af_wallet_refs : map aw_user_id (db_wallets d) ⊆ map ua_id (db_users d);
  af_oauth_refs : map ao_user_id (db_oauth d) ⊆ map ua_id (db_users d);
  af_contact_refs : map uc_user_id (db_contacts d) ⊆ map ua_id (db_users d);
  af_refresh_refs : map rt_user_id (db_refresh d) ⊆ map ua_id (db_users d);
}.
Definition accounts_step (d d' : Db) : Prop := accounts_wf d -> accounts_wf d'.

#[export] Instance accounts_step_preorder : PreOrder accounts_step.
Proof. split; [intros d Hd; exact Hd | intros x y z Hxy Hyz Hx; exact (Hyz (Hxy Hx))]. Qed.

Lemma accounts_same d d' : account_tables d' = account_tables d -> accounts_step d d'.
Proof. intros [= E1 E2 E3 E4 E5 E6] []. split; unfold keyed in *; by rewrite ?E1, ?E2, ?E3, ?E4, ?E5, ?E6. Qed.

Lemma elem_of_map_filter {A B} (f : A -> B) p t y : y ∈ map f (where_ p t) -> y ∈ map f t.
Proof.
  intros (x & -> & [Hx _]%elem_of_where)%list_elem_of_fmap. by apply list_elem_of_fmap_2.
Qed.

Lemma NoDup_map_filter {A B} (f : A -> B) p t : NoDup (map f t) -> NoDup (map f (where_ p t)).
Proof.
  unfold where_. induction t as [|r t IH]; cbn; [done|]. intros [Hn Hk]%NoDup_cons.
  destruct (p r); cbn; [|by apply IH]. apply NoDup_cons. split; [|by apply IH].
  intros Hin. apply Hn. by eapply elem_of_map_filter.
Qed.

Lemma NoDup_map_append {A B} (f : A -> B) t x :
  NoDup (map f t) -> (forall r, r ∈ t -> f r <> f x) -> NoDup (map f (t ++ [x])).
Proof.
  intros Hk Hn. rewrite map_app. apply NoDup_app. split; [done|]. split; [|apply NoDup_singleton].
  intros y (r & -> & Hr)%list_elem_of_fmap Hy%list_elem_of_singleton. by apply (Hn r).
Qed.

Lemma user_exists_spec user d : user_exists user d = true <-> user ∈ map ua_id (db_users d).
Proof.
  unfold user_exists. rewrite exists_row_spec, list_elem_of_fmap.
  split; intros (u & H1 & H2); exists u; [|subst user; split; [done|]];
    unfold uuid_eqb in *; rewrite ?bool_decide_eq_true in *; auto. 
Qed.

Lemma exists_row_new {A} (p : A -> bool) t r : exists_row p t = false -> r ∈ t -> p r = false.
Proof.
  intros Hn Hr. destruct (p r) eqn:E; [|done].
  rewrite (proj2 (exists_row_spec p t)) in Hn; [done | eauto].
Qed.

Lemma refs_filter {A} (f : A -> Uuid) p t ids : map f t ⊆ ids -> map f (where_ p t) ⊆ ids.
Proof. intros Hs u Hu. by eapply Hs, elem_of_map_filter. Qed.
Lemma refs_append {A} (f : A -> Uuid) t x ids : map f t ⊆ ids -> f x ∈ ids -> map f (t ++ [x]) ⊆ ids.
Proof.
  intros Hs Hx u. rewrite map_app. intros [Hu|Hu%list_elem_of_singleton]%elem_of_app;
    [by apply Hs | by subst u].
Qed.
Lemma refs_users {A} (f : A -> Uuid) t us x :
  map f t ⊆ map ua_id us -> map f t ⊆ map ua_id (us ++ [x]).
Proof. intros Hs u Hu. rewrite map_app. apply elem_of_app. left. by apply Hs. Qed.

(** From [accounts_wf d], that of the tables after a statement. *)
Ltac wf_split :=
  intros [? ? ? ? ? ? ? ? ? ?]; split; unfold keyed in *;
  cbn [set_users set_wallets set_oauth set_contacts set_nonces set_refresh db_users db_wallets
       db_oauth db_contacts db_nonces db_refresh];
  rewrite ?map_update_where by done;
  auto using NoDup_map_filter, refs_filter, refs_append, refs_users.

Lemma insert_oauth_wf user p pid at_ d :
  user_exists user d = true -> exists_row (oauth_is p pid) (db_oauth d) = false ->
  accounts_step d (set_oauth (fun t => t ++ [mkAuthOauth user p pid at_]) d).
Proof.
  intros Hu%user_exists_spec Hn. wf_split.
  apply NoDup_map_append; [done|]. intros r Hr [= E1 E2].
  pose proof (exists_row_new _ _ r Hn Hr) as Hf. unfold oauth_is in Hf.
  by rewrite E1, E2, !String.eqb_refl in Hf.
Qed.

Lemma update_oauth_wf user p pid d :
  user_exists user d = true ->
  accounts_step d (set_oauth (update_where (oauth_is p pid) (set_oauth_user user)) d).
Proof.
  intros Hu%user_exists_spec. wf_split.
  intros u (r & -> & (x & Hx & ->)%elem_of_update_where)%list_elem_of_fmap.
  destruct (oauth_is p pid x); [exact Hu|]. 
  match goal with Hs : map ao_user_id _ ⊆ _ |- _ => apply Hs end. by apply list_elem_of_fmap_2.
Qed.

(** A contact row of an existing user, new or updated. *)
Lemma contact_wf user (row : UserContactRow) d :
  user_exists user d = true -> exists_row (contact_is user) (db_contacts d) = false ->
  uc_user_id row = user ->
  accounts_step d (set_contacts (fun t => t ++ [row]) d).
Proof.
  intros Hu%user_exists_spec Hn Hr. wf_split; [|apply refs_append; [done | by rewrite Hr]].
  apply NoDup_map_append; [done|]. intros r Hin E.
  pose proof (exists_row_new _ _ r Hn Hin) as Hf. rewrite Hr in E.
  by apply contact_is_spec in E; rewrite E in Hf.
Qed.

Lemma contact_update_wf p f d :
  (forall r, uc_user_id (f r) = uc_user_id r) ->
  accounts_step d (set_contacts (update_where p f) d).
Proof. intros Hf. wf_split; by rewrite map_update_where. Qed.

#[export] Instance accounts_stmts : StmtsKeep cfg accounts_step.
Proof.
  split; try (stmt_frame accounts_same); try (issue_frame accounts_same);
    try (accept_frame accounts_same).
  - intros th. stmt_cases. wf_split.
  - intros th. stmt_cases. wf_split.
  - unfold challenge, internal. keeps_auto. apply keeps_sql; [typeclasses eauto|]. stmt_cases.
    wf_split. apply NoDup_map_append; [done|]. intros r Hr E.
    match goal with Hn : exists_row _ _ = false |- _ => pose proof (exists_row_new _ _ r Hn Hr) as Hf end.
    unfold nonce_is in Hf. cbn in E. by rewrite E, String.eqb_refl in Hf.
  - intros n. stmt_cases. wf_split.
  - intros id t d a d' Hi. apply insert_user_Some in Hi as (_ & Hn & ->). wf_split.
    by apply NoDup_map_append.
  - intros user pk t d a d' Hi. apply insert_wallet_Some in Hi as [[Hn (u & Hu & <-)] ->].
    wf_split; [by apply NoDup_map_append|]. apply refs_append; [done|].
    exact (list_elem_of_fmap_2 ua_id _ _ Hu).
  - intros user. unfold issue_and_store_refresh_token. keeps_auto.
    apply keeps_sql; [typeclasses eauto|]. intros t d [] d' Hi.
    apply insert_refresh_Some in Hi as ((u & Hu & <-) & Hn & ->). wf_split.
    + by apply NoDup_map_append.
    + apply refs_append; [done|].
    exact (list_elem_of_fmap_2 ua_id _ _ Hu).
  - intros h. stmt_cases. wf_split.
  - intros h. stmt_cases. wf_split.
  - intros user p pid. stmt_cases; [apply update_oauth_wf | apply insert_oauth_wf]; try done;
      by apply negb_false_iff.
  - intros user e n i _. stmt_cases; [by apply contact_update_wf|].
    eapply contact_wf; [by apply negb_false_iff | done..].
  - intros user name _. stmt_cases. wf_split.
  - intros user v _. stmt_cases; [by apply contact_update_wf|].
    eapply contact_wf; [by apply negb_false_iff | done..].
  - intros user. stmt_cases. wf_split.
Qed.

#[export] Instance accounts_marks : MarksKeep accounts_step.
Proof. marks_frame accounts_same. Qed.

(** The tables of users and sign-in stay well formed.  Under any sequence
    of operations and failures every key stays unique (users, wallets, OAuth
    identities, contacts, nonces, refresh tokens) and every wallet, identity,
    contact row and refresh token belongs to a user who exists: upserts and
    reassignments of identities included. *)
Theorem accounts_stay_wf (os : list op) (w : World) :
  accounts_wf (w_db w) -> accounts_wf (w_db (run_ops cfg os w)).
Proof. exact (run_ops_keeps cfg accounts_step os w). Qed.
End Keys.

(** ** Concrete runs *)

Lemma demo_uuid_text k : @uuid_to_string ext_demo (@fresh_uuid env_demo k) <> "n1".
Proof.
  intros E. apply (f_equal String.length) in E.
  change (String.length (hex_demo (bn_bytes (padded 16 (le_enc 8 (Z.of_nat k))))) = 2%nat) in E.
  by rewrite hex_demo_length, bn_length in E.
Qed.

Lemma demo_token_hash k :
  @sha256_hex ext_demo (@hex_encode ext_demo (@random_bytes env_demo k 32)) <> @sha256_hex ext_demo "t".
Proof.
  intros E. apply (f_equal (String.get 0)) in E. revert E. unfold sha256_hex.
  change (@sha256 ext_demo) with (padded 32). rewrite !padded_bytes.
  change (@random_bytes env_demo k 32) with (pad_to 32 (le_enc 8 (Z.of_nat k))).
  cbn [le_enc]. generalize (byte_of_Z (Z.of_nat k)). intros b.
  set (rest := byte_of_Z _ :: _). change (pad_to 32 (b :: rest)) with (b :: pad_to 31 rest) at 1 ||
    change (pad_to 32 (b :: rest)) with (b :: take 31 (rest ++ repeat x00 32)).
  destruct b; cbn; discriminate.
Qed.

Definition verify_n1 : op := OpVerify (mkVerifyRequest wallet_text signature_text "n1").

Lemma nonce_single_use_witness :
  (@uses ext_demo env_demo config_demo (@signs_in ext_demo env_demo config_demo "n1")
     [verify_n1; OpChallenge; verify_n1] (world_demo db_accounts) <= 1)%nat /\
  @signs_in ext_demo env_demo config_demo "n1" verify_n1 (world_demo db_accounts) = true.
Proof.
  split; [|vm_compute; reflexivity].
  apply (@nonce_single_use ext_demo env_demo config_demo "n1" [verify_n1; OpChallenge; verify_n1]
    (world_demo db_accounts) demo_uuid_text). apply NoDup_singleton.
Defined.

Lemma refresh_token_single_use_witness :
  (@uses ext_demo env_demo config_demo (@redeems ext_demo env_demo config_demo "t")
     [OpRefresh "t"; OpRefresh "t"] (world_demo db_accounts) <= 1)%nat /\
  @redeems ext_demo env_demo config_demo "t" (OpRefresh "t") (world_demo db_accounts) = true.
Proof.
  split; [|vm_compute; reflexivity].
  apply (@refresh_token_single_use ext_demo env_demo config_demo "t" [OpRefresh "t"; OpRefresh "t"]
    (world_demo db_accounts) demo_token_hash). apply NoDup_singleton.
Defined.

Lemma wallet_is_identity_witness :
  wallet_user "first" (w_db (@run_ops ext_demo env_demo config_demo [verify_n1; OpRefresh "t"]
    (world_demo db_accounts))) = Some (uid x01).
Proof.
  apply (@wallet_is_identity ext_demo env_demo config_demo [verify_n1; OpRefresh "t"]
    (world_demo db_accounts) "first" (uid x01)). vm_compute. reflexivity.
Defined.

Lemma display_names_stay_clean_witness :
  exists u, u ∈ db_users (w_db (@run_ops ext_demo env_demo config_demo
      [OpUpdateProfile (mkAuthUser (uid x01) None) (Some "Bob")] (world_demo db_accounts))) /\
    ua_display_name u = Some "Bob" /\ clean_name "Bob".
Proof.
  assert (Hin : mkUserAccount (uid x01) (Some "Bob") 900 ∈
    db_users (w_db (@run_ops ext_demo env_demo config_demo
      [OpUpdateProfile (mkAuthUser (uid x01) None) (Some "Bob")] (world_demo db_accounts)))).
  { apply list_elem_of_lookup. exists 0%nat. vm_compute. reflexivity. }
  eexists. split; [exact Hin|]. split; [reflexivity|].
  eapply (@display_names_stay_clean ext_demo env_demo config_demo); [|exact Hin | reflexivity].
  intros u name Hu%list_elem_of_singleton. subst u. discriminate.
Defined.

Lemma accounts_stay_wf_witness :
  accounts_wf (w_db (@run_ops ext_demo env_demo config_demo [verify_n1; OpRefresh "t"]
    (world_demo db_accounts))).
Proof.
  apply (@accounts_stay_wf ext_demo env_demo config_demo [verify_n1; OpRefresh "t"]
    (world_demo db_accounts)).
  split; try apply NoDup_singleton; try apply NoDup_nil_2; intros u Hu;
    first [exact Hu | by apply not_elem_of_nil in Hu].
Defined.
