(* ===== verification/Workflow.v ===== *)
(** * Workflow: drafts and their invitations under every operation

    The abstract life cycles of a draft and of an invitation, and the theorem
    that any sequence of requests, logs and worker cycles follows them. *)

From Stdlib Require Import ZArith Lia.
From Stdlib Require Import Strings.Byte Strings.Ascii Strings.String.
From stdpp Require Import base tactics decidable option list strings gmap.
From S2P Require Import Prelude Text Errors Borsh SolanaTypes Health World Concrete Crypto.
From S2P Require Import Jwt Auth AuthFacts OAuth User.
From S2P Require Import Notification DraftData Solana Agreement Draft Invite InviteFacts.
From S2P Require Import Payments PaymentLifecycle EventListener Expiry Keeper System.

Open Scope string_scope.
Open Scope list_scope.
Open Scope Z_scope.

(** ** The abstract life cycles *)

(** A slot keeps its key; a slot that waits for an invitation may get one. *)
Definition slot_evolves (s s' : DraftPartyEntry) : Prop :=
  s' = s \/ (de_invite_id s <> None /\ exists pk, s' = mkEntry (Some pk) None).

#[export] Instance slot_evolves_preorder : PreOrder slot_evolves.
Proof.
  split; [by left|]. intros x y z [->|[Hx [pk ->]]] Hyz; [done|].
  destruct Hyz as [->|[Hn _]]; [|by cbn in Hn]. right. eauto.
Qed.

Inductive draft_trans : string -> string -> Prop :=
| dt_discard s : draft_trans s "discarded"
| dt_ready s : draft_trans s "ready_to_submit".

Inductive invitation_trans : string -> string -> Prop :=
| it_accept : invitation_trans "pending" "accepted"
| it_expire : invitation_trans "pending" "expired".

Record invitation_evolves (i i' : PartyInvitationRow) : Prop := mkInvEvolves {
  ie_id : pi_id i' = pi_id i;
  ie_draft : pi_draft_id i' = pi_draft_id i;
  ie_token : pi_token i' = pi_token i;
  ie_index : pi_email_index i' = pi_email_index i;
  ie_email : (pi_email_enc i', pi_email_nonce i') = (pi_email_enc i, pi_email_nonce i);
  ie_expires : pi_expires_at i' = pi_expires_at i;
  ie_status : star invitation_trans (pi_status i) (pi_status i');
}.

#[export] Instance invitation_evolves_preorder : PreOrder invitation_evolves.
Proof.
  split.
  - intros i. split; try done; apply star_refl.
  - intros i1 i2 i3 [] []. split; try congruence. etransitivity; eassumption.
Qed.

Definition known_invitation (i : PartyInvitationRow) : Prop :=
  star invitation_trans "pending" (pi_status i).

Section Drafts.
Context `{Ext}.

Definition slots_of (r : AgreementDraftRow) : option (list DraftPartyEntry) :=
  slots_from_value (ad_party_slots r).

(** A draft that is ready has a key in every slot. *)
Definition ready_complete (r : AgreementDraftRow) : Prop :=
  ad_status r = "ready_to_submit" ->
  exists slots, slots_of r = Some slots /\ all_pubkeys_resolved slots = true.

Record draft_evolves (r r' : AgreementDraftRow) : Prop := mkDraftEvolves {
  de_id : ad_id r' = ad_id r;
  de_creator : ad_creator_pubkey r' = ad_creator_pubkey r;
  de_payload : ad_draft_payload r' = ad_draft_payload r;
  de_created : ad_created_at r' = ad_created_at r;
  de_paid : ad_paid r = true -> ad_paid r' = true;
  de_status : star draft_trans (ad_status r) (ad_status r');
  de_slots : option_Forall2 (Forall2 slot_evolves) (slots_of r) (slots_of r');
  de_ready : ready_complete r -> ready_complete r';
}.

#[export] Instance draft_evolves_preorder : PreOrder draft_evolves.
Proof.
  split.
  - intros r. split; done.
  - intros r1 r2 r3 [] []. split; try congruence; auto; [etransitivity; eassumption|].
    destruct de_slots0 as [s1 s2 H12|]; [|done]. inversion de_slots1; subst.
    constructor. etransitivity; eassumption.
Qed.

(** The invitations of a later version of the slots were there before. *)
Lemma slot_ids_evolve ss ss' id :
  Forall2 slot_evolves ss ss' -> id ∈ slot_ids ss' -> id ∈ slot_ids ss.
Proof.
  unfold slot_ids. induction 1 as [|s s' l l' Hs _ IH]; cbn; [done|].
  destruct Hs as [->|[_ [pk ->]]]; cbn.
  - destruct (de_invite_id s); [|done]. intros [->|Hi]%elem_of_cons; [left | right; auto].
  - destruct (de_invite_id s); [right|]; auto.
Qed.

Lemma resolve_slot_evolves slots id pk slots' :
  resolve_party_slot_pubkey slots id pk = Ok slots' -> Forall2 slot_evolves slots slots'.
Proof.
  intros (l1 & p & l2 & -> & _ & ->)%resolve_slot_Ok.
  apply Forall2_app; [reflexivity|]. constructor; [|reflexivity]. right. cbn. eauto.
Qed.

(** ** The tables *)

(** The ids are keys, and an invitation's draft exists. *)
Record workflow_wf (d : Db) : Prop := mkWf {
  wf_drafts : NoDup (map ad_id (db_drafts d));
  wf_invitations : NoDup (map pi_id (db_invitations d));
  wf_foreign : forall i, i ∈ db_invitations d -> exists r, r ∈ db_drafts d /\ ad_id r = pi_draft_id i;
}.

Definition drafts_evolve (d d' : Db) : Prop :=
  grows draft_evolves ready_complete (db_drafts d) (db_drafts d').
Definition invitations_evolve (d d' : Db) : Prop :=
  grows invitation_evolves known_invitation (db_invitations d) (db_invitations d').

(** An invitation is named by a slot of its draft. *)
Definition named (i : PartyInvitationRow) (d : Db) : Prop :=
  exists r slots, r ∈ db_drafts d /\ ad_id r = pi_draft_id i /\ slots_of r = Some slots /\
    pi_id i ∈ slot_ids slots.

(** Only named invitations have been accepted. *)
Definition accepted_named (d d' : Db) : Prop :=
  forall i i', i ∈ db_invitations d -> i' ∈ db_invitations d' -> pi_id i' = pi_id i ->
    pi_status i <> "accepted" -> pi_status i' = "accepted" -> named i d.

Record workflow (d d' : Db) : Prop := mkWorkflow {
  wo_wf : workflow_wf d';
  wo_drafts : drafts_evolve d d';
  wo_invitations : invitations_evolve d d';
  wo_accepted : accepted_named d d';
}.

Definition workflow_step (d d' : Db) : Prop := workflow_wf d -> workflow d d'.

Lemma Forall2_map_eq {A B} (f : A -> B) (R : A -> A -> Prop) t t' :
  (forall x y, R x y -> f y = f x) -> Forall2 R t t' -> map f t' = map f t.
Proof. intros Hf. induction 1; cbn; [done|]. f_equal; auto. Qed.

(** Statements that change rows in place. *)
Lemma workflow_updates d d' :
  workflow_wf d -> Forall2 draft_evolves (db_drafts d) (db_drafts d') ->
  Forall2 invitation_evolves (db_invitations d) (db_invitations d') ->
  accepted_named d d' -> workflow d d'.
Proof.
  intros [H1 H2 H3] Hd Hi Ha. split; [split| | |exact Ha].
  - by rewrite (Forall2_map_eq ad_id _ _ _ (fun x y Hxy => de_id _ _ Hxy) Hd).
  - by rewrite (Forall2_map_eq pi_id _ _ _ (fun x y Hxy => ie_id _ _ Hxy) Hi).
  - intros i' Hi'. apply list_elem_of_lookup in Hi' as [k Hk].
    destruct (Forall2_lookup_r _ _ _ _ _ Hi Hk) as (i & Hik & He).
    destruct (H3 i (list_elem_of_lookup_2 _ _ _ Hik)) as (r & Hr & Hid).
    apply list_elem_of_lookup in Hr as [n Hn].
    destruct (Forall2_lookup_l _ _ _ _ _ Hd Hn) as (r' & Hr' & Hev).
    exists r'. split; [by eapply list_elem_of_lookup_2|].
    by rewrite (de_id _ _ Hev), (ie_draft _ _ He).
  - by apply grows_forall2.
  - by apply grows_forall2.
Qed.

(** No invitation becomes accepted. *)
Lemma not_accepting d d' :
  workflow_wf d ->
  (forall i', i' ∈ db_invitations d' -> pi_status i' = "accepted" ->
     exists i, i ∈ db_invitations d /\ pi_id i = pi_id i' /\ pi_status i = "accepted") ->
  accepted_named d d'.
Proof.
  intros Hwf Hb i i' Hi Hi' Hid Hs Hs'. exfalso.
  destruct (Hb i' Hi' Hs') as (x & Hx & Hxid & Hxs).
  assert (x = i) as -> by (apply (NoDup_map_eq pi_id _ _ _ (wf_invitations d Hwf)); congruence).
  by apply Hs.
Qed.

Lemma same_invitations_not_accepting d d' :
  workflow_wf d -> db_invitations d' = db_invitations d -> accepted_named d d'.
Proof.
  intros Hwf E. apply not_accepting; [done|]. rewrite E. eauto.
Qed.

Lemma workflow_only d d' :
  db_drafts d' = db_drafts d -> db_invitations d' = db_invitations d -> workflow_step d d'.
Proof.
  intros E1 E2 Hwf. apply workflow_updates; rewrite ?E1, ?E2; try reflexivity; [done|].
  by apply same_invitations_not_accepting.
Qed.

Lemma workflow_draft_update p f d :
  (forall r, p r = true -> draft_evolves r (f r)) ->
  workflow_step d (set_drafts (update_where p f) d).
Proof.
  intros Hf Hwf. apply workflow_updates; [done | apply Forall2_update; [typeclasses eauto | auto]
    | reflexivity | by apply same_invitations_not_accepting].
Qed.

Lemma workflow_invitation_update p f d :
  (forall i, p i = true -> invitation_evolves i (f i) /\
     (pi_status (f i) = "accepted" -> pi_status i = "accepted")) ->
  workflow_step d (set_invitations (update_where p f) d).
Proof.
  intros Hf Hwf. apply workflow_updates; [done | reflexivity | |].
  - apply Forall2_update; [typeclasses eauto|]. intros i _ Hi. by apply Hf.
  - apply not_accepting; [done|]. cbn. intros i' Hi'.
    apply elem_of_update_where in Hi' as (i & Hi & ->). destruct (p i) eqn:Ep; [|eauto].
    destruct (Hf i Ep) as [[] Ha]. eauto.
Qed.

Lemma workflow_insert_draft r d :
  ready_complete r -> exists_row (fun x => uuid_eqb (ad_id x) (ad_id r)) (db_drafts d) = false ->
  workflow_step d (set_drafts (fun t => t ++ [r]) d).
Proof.
  intros Hr Hnew Hwf. split; [split| | |].
  - cbn. rewrite map_app. apply NoDup_app. split; [apply Hwf|]. split; [|apply NoDup_singleton].
    intros id Hid Hid2. apply list_elem_of_singleton in Hid2 as ->.
    apply list_elem_of_fmap in Hid as (x & Hx & Hxr).
    assert (exists_row (fun x => uuid_eqb (ad_id x) (ad_id r)) (db_drafts d) = true); [|congruence].
    apply exists_row_spec. exists x. split; [done|]. by apply uuid_eqb_spec.
  - apply Hwf.
  - cbn. intros i Hi. destruct (wf_foreign d Hwf i Hi) as (x & Hx & Hid).
    exists x. split; [apply elem_of_app; by left | done].
  - apply grows_append; [typeclasses eauto|]. by apply Forall_singleton.
  - apply grows_refl. typeclasses eauto.
  - by apply same_invitations_not_accepting.
Qed.

Lemma workflow_insert_invitation i d :
  pi_status i = "pending" ->
  exists_row (fun r => uuid_eqb (ad_id r) (pi_draft_id i)) (db_drafts d) = true ->
  exists_row (fun r => uuid_eqb (pi_id r) (pi_id i) || String.eqb (pi_token r) (pi_token i))
    (db_invitations d) = false ->
  workflow_step d (set_invitations (fun t => t ++ [i]) d).
Proof.
  intros Hst Hfk Hnew Hwf. split; [split| | |].
  - apply Hwf.
  - cbn. rewrite map_app. apply NoDup_app. split; [apply Hwf|]. split; [|apply NoDup_singleton].
    intros id Hid Hid2. apply list_elem_of_singleton in Hid2 as ->.
    apply list_elem_of_fmap in Hid as (x & Hx & Hxr).
    match type of Hnew with ?b = _ => assert (b = true); [|congruence] end.
    apply exists_row_spec. exists x. split; [done|]. apply orb_true_iff. left.
    by apply uuid_eqb_spec.
  - cbn. intros j [Hj| ->%list_elem_of_singleton]%elem_of_app; [by apply Hwf|].
    apply exists_row_spec in Hfk as (r & Hr & Hid). apply uuid_eqb_spec in Hid. eauto.
  - apply grows_refl. typeclasses eauto.
  - apply grows_append; [typeclasses eauto|]. apply Forall_singleton.
    unfold known_invitation. rewrite Hst. apply star_refl.
  - apply not_accepting; [done|]. cbn.
    intros j [Hj| ->%list_elem_of_singleton]%elem_of_app Hs; [eauto | congruence].
Qed.

#[export] Instance workflow_step_preorder : PreOrder workflow_step.
Proof.
  split; [intros d; by apply workflow_only|].
  intros d1 d2 d3 H12 H23 Hwf. destruct (H12 Hwf) as [Hwf2 Hd Hi Ha].
  destruct (H23 Hwf2) as [Hwf3 Hd2 Hi2 Ha2]. split; [done| | |].
  - eapply grows_trans; [typeclasses eauto | | eassumption..]. intros x y Hx Hy. by apply Hy.
  - eapply grows_trans; [typeclasses eauto | | eassumption..].
    intros x y Hx Hy. unfold known_invitation in *. etransitivity; [exact Hx | apply Hy].
  - intros i i' Hii Hi' Hid Hs Hs'.
    apply list_elem_of_lookup in Hii as [k Hk].
    destruct (grows_lookup _ _ _ _ _ _ Hi Hk) as (j & Hj & Hev).
    apply list_elem_of_lookup_2 in Hk, Hj.
    destruct (decide (pi_status j = "accepted")) as [Hja|Hjn].
    { apply (Ha i j); [done | done | apply Hev | done | done]. }
    destruct (Ha2 j i' Hj Hi') as (r2 & ss2 & Hr2 & Hrid & Hss2 & Hin);
      [rewrite Hid; symmetry; apply Hev | done | done |].
    destruct (wf_foreign d1 Hwf i Hk) as (r1 & Hr1 & Hr1id).
    apply list_elem_of_lookup in Hr1 as [n Hn].
    destruct (grows_lookup _ _ _ _ _ _ Hd Hn) as (r1' & Hr1' & Hevd).
    apply list_elem_of_lookup_2 in Hn, Hr1'.
    assert (r1' = r2) as ->.
    { apply (NoDup_map_eq ad_id _ _ _ (wf_drafts d2 Hwf2)); try done.
      rewrite (de_id _ _ Hevd), Hr1id, Hrid. symmetry. apply Hev. }
    pose proof (de_slots _ _ Hevd) as Hsl. rewrite Hss2 in Hsl.
    inversion Hsl as [ss1 ? Hf E1|]; subst. exists r1, ss1.
    split; [done|]. split; [done|]. split; [done|].
    eapply slot_ids_evolve; [exact Hf|]. by rewrite <-(ie_id _ _ Hev).
Qed.
End Drafts.

(** ** Every operation *)

Section Operations.
Context `{Ext, Env} (cfg : AppState).
Context (Htext : uuid_text).

Lemma sql_cases {A} (s : Stmt A) w :
  w_db (snd (sql s w)) = w_db w \/
  exists a, s (db_now (w_tick w)) (w_db w) = Some (a, w_db (snd (sql s w))).
Proof.
  unfold sql. destruct (db_fault _); cbn; [|by left|];
    destruct (s _ _) as [[a d]|]; cbn; eauto.
Qed.

(** The first write of an acceptance alone. *)
Definition accept_half (invite : PartyInvitationRow) (d : Db) : Db :=
  set_invitations (update_where (fun r => uuid_eqb (pi_id r) (pi_id invite))
    (set_invitation_status "accepted")) d.

(** The two writes of an acceptance. *)
Definition accept_writes (invite : PartyInvitationRow) (slots : list DraftPartyEntry) (now : Z)
    : M World AppError unit :=
  internal (sql (accept_stmt (pi_id invite))) ;;;
  (if all_pubkeys_resolved slots
   then internal (sql (ready_stmt (pi_draft_id invite) (slots_to_value slots) now))
   else internal (sql (slots_stmt (pi_draft_id invite) (slots_to_value slots)))).

(** A statement that is never rejected is executed when it answers, and may
    have been when it does not. *)
Lemma total_stmt (s : Stmt unit) f w r w' :
  (forall now d, s now d = Some (tt, f d)) -> internal (sql s) w = (r, w') ->
  (r = Ok tt /\ w_db w' = f (w_db w)) \/
  ((exists e, r = Err e) /\ (w_db w' = w_db w \/ w_db w' = f (w_db w))).
Proof.
  intros Hs. unfold internal, map_err, sql. rewrite Hs.
  destruct (db_fault _); intros [= <- <-]; cbn; eauto.
Qed.

Lemma accept_writes_cases invite slots now w :
  let d' := w_db (snd (accept_writes invite slots now w)) in
  d' = w_db w \/ d' = accept_half invite (w_db w) \/ d' = accept_effect invite slots now (w_db w).
Proof.
  cbv zeta. unfold accept_writes, bind.
  destruct (internal (sql (accept_stmt (pi_id invite))) w) as [r w1] eqn:E1.
  apply (total_stmt _ (accept_half invite)) in E1; [|reflexivity].
  destruct E1 as [[-> Hd]|[[e ->] Hd]]; [|tauto]. unfold accept_effect.
  destruct (all_pubkeys_resolved slots);
    match goal with |- context [internal ?m w1] => destruct (internal m w1) as [r w2] eqn:E2 end;
    eapply total_stmt in E2; try (intros; reflexivity); cbn [snd];
    rewrite <-Hd; destruct E2 as [[_ ->]|[_ [->| ->]]]; rewrite ?Hd; auto.
Qed.

Lemma invite_by_token_elem token d i : invite_by_token token d = Some i -> i ∈ db_invitations d.
Proof. intros Hi. apply fetch_optional_Some, elem_of_where in Hi. tauto. Qed.

(** The writes of an acceptable invitation follow the life cycles. *)
Lemma accept_half_workflow now pk token d invite draft slots slots' :
  acceptable now pk token d invite draft slots slots' ->
  workflow_step d (accept_half invite d).
Proof.
  intros (Hi%invite_by_token_elem & Hst & _ & [Hdr Hdid]%draft_row_elem & Hsl & Hres) Hwf.
  assert (Hev : forall i, i ∈ db_invitations d -> uuid_eqb (pi_id i) (pi_id invite) = true ->
    i = invite).
  { intros i Hin Hid%uuid_eqb_spec. by apply (NoDup_map_eq pi_id _ _ _ (wf_invitations d Hwf)). }
  apply workflow_updates; [done | reflexivity | |].
  - apply Forall2_update; [typeclasses eauto|]. intros i Hin ->%Hev; [|done].
    split; try done. cbn. rewrite Hst. apply star_one, it_accept.
  - cbn. intros i i' Hin Hi' Hid Hna Ha. cbn in Hi'.
    apply elem_of_update_where in Hi' as (x & Hx & ->).
    assert (x = i) as ->.
    { apply (NoDup_map_eq pi_id _ _ _ (wf_invitations d Hwf)); try done.
      by destruct (uuid_eqb (pi_id x) (pi_id invite)). }
    destruct (uuid_eqb (pi_id i) (pi_id invite)) eqn:E; [|done].
    apply Hev in E as ->; [|done]. exists draft, slots. do 3 (split; [done|]).
    destruct (resolve_slot_ids _ _ _ _ Hres) as [Hp _]. rewrite Hp. left.
Qed.

Lemma accept_effect_workflow now pk token d invite draft slots slots' at_ :
  acceptable now pk token d invite draft slots slots' ->
  workflow_step d (accept_effect invite slots' at_ d).
Proof.
  intros Hacc Hwf. pose proof (accept_half_workflow _ _ _ _ _ _ _ _ Hacc Hwf) as [Hwf2 _ Hi Ha].
  destruct Hacc as (_ & _ & _ & [Hdr Hdid]%draft_row_elem & Hsl & Hres).
  assert (Hstep : workflow (accept_half invite d) (accept_effect invite slots' at_ d)).
  { apply workflow_updates; [done | | reflexivity
      | by apply same_invitations_not_accepting].
    apply Forall2_update; [typeclasses eauto|]. cbn. intros r Hr Hid%uuid_eqb_spec.
    assert (r = draft) as ->.
    { apply (NoDup_map_eq ad_id _ _ _ (wf_drafts d Hwf)); congruence. }
    assert (Hslots : option_Forall2 (Forall2 slot_evolves) (slots_of draft)
              (slots_from_value (slots_to_value slots'))).
    { unfold slots_of. rewrite Hsl, slots_roundtrip by done. constructor.
      by eapply resolve_slot_evolves. }
    destruct (all_pubkeys_resolved slots') eqn:Eall; split; cbn; try done.
    - apply star_one, dt_ready.
    - intros _ _. exists slots'. split; [|done]. unfold slots_of; cbn. by apply slots_roundtrip.
    - intros Hc Hst. destruct (Hc Hst) as (ss & Hss & Hall). exfalso.
      unfold slots_of in Hss. rewrite Hsl in Hss. injection Hss as <-.
      apply resolve_slot_Ok in Hres as (l1 & p & l2 & -> & _ & ->).
      unfold all_pubkeys_resolved in *. rewrite List.forallb_app in *. cbn in *.
      destruct p; cbn in Hall; [congruence|].
      by rewrite andb_false_r in Hall. }
  assert (Hd : workflow_step d (accept_half invite d)).
  { intros _. split; [done| | |]; try done. apply grows_refl. typeclasses eauto. }
  assert (Ht : workflow_step d (accept_effect invite slots' at_ d)); [|by apply Ht].
  etransitivity; [exact Hd|]. intros _. exact Hstep.
Qed.

(** A read before the rest of a computation. *)
Lemma read_then R `{!PreOrder R} {E A B} (m : M World E A) (k : A -> M World E B) w :
  w_db (snd (m w)) = w_db w ->
  (forall a w1, m w = (Ok a, w1) -> w_db w1 = w_db w -> on_db R w1 (snd (k a w1))) ->
  on_db R w (snd (bind m k w)).
Proof.
  unfold on_db, bind. intros Hm Hk. destruct (m w) as [[a|e] w1]; cbn in *.
  - rewrite <-Hm. by apply Hk.
  - by rewrite Hm.
Qed.

Lemma internal_query_db {A} (f : Db -> A) w : w_db (snd (internal (sql (query f)) w)) = w_db w.
Proof.
  unfold internal, map_err, sql, query. by destruct (db_fault _).
Qed.

Lemma accept_body_workflow now pk token : keeps (on_db workflow_step) (accept_body now pk token).
Proof.
  intros w. unfold accept_body.
  apply read_then; [typeclasses eauto | apply internal_query_db | intros row w1 Hrow Hw1].
  apply map_err_Ok, sql_query_Ok in Hrow as [-> _].
  apply read_then; [typeclasses eauto | done | intros invite w2 [Hinv ->]%of_result_Ok _].
  apply ok_or_Ok in Hinv.
  apply read_then; [typeclasses eauto | done | intros [] w3 [Hv ->]%of_result_Ok _].
  apply validate_Ok in Hv as [Hst Hex].
  apply read_then; [typeclasses eauto | apply internal_query_db | intros drow w4 Hdrow Hw4].
  apply map_err_Ok, sql_query_Ok in Hdrow as [-> _].
  apply read_then; [typeclasses eauto | done | intros draft w5 [Hdr ->]%of_result_Ok _].
  apply ok_or_Ok in Hdr.
  apply read_then; [typeclasses eauto | done | intros slots w6 [Hsl ->]%of_result_Ok _].
  apply ok_or_Ok in Hsl.
  apply read_then; [typeclasses eauto | done | intros slots' w7 [Hres ->]%of_result_Ok _].
  assert (Hacc : acceptable now pk token (w_db w4) invite draft slots slots').
  { rewrite Hw1 in Hdr, Hw4. rewrite Hw4. repeat (split; [done|]). done. }
  cbv zeta. set (k := ret _).
  match goal with |- on_db _ _ (snd ?x) =>
    replace (snd x) with (snd (accept_writes invite slots' now w4)) end.
  - unfold on_db.
    destruct (accept_writes_cases invite slots' now w4) as [->|[->| ->]]; [reflexivity| |].
    + by eapply accept_half_workflow.
    + by eapply accept_effect_workflow.
  - unfold accept_writes, bind. destruct (internal (sql (accept_stmt _)) w4) as [[[]|] w8]; [|done].
    destruct (all_pubkeys_resolved _); [destruct (internal (sql (ready_stmt _ _ _)) w8) as [[]]
      | destruct (internal (sql (slots_stmt _ _)) w8) as [[]]]; done.
Qed.

(** ** The other operations *)

Definition workflow_tables (d : Db) := (db_drafts d, db_invitations d).

Lemma only_workflow : only workflow_tables workflow_step.
Proof. intros d d' [= ? ?]. by apply workflow_only. Qed.

Lemma free_draft_update p f :
  (forall r, p r = true -> ad_id (f r) = ad_id r /\ ad_creator_pubkey (f r) = ad_creator_pubkey r /\
     ad_draft_payload (f r) = ad_draft_payload r /\ ad_created_at (f r) = ad_created_at r /\
     (ad_paid r = true -> ad_paid (f r) = true) /\ ad_party_slots (f r) = ad_party_slots r /\
     (ad_status (f r) = ad_status r \/ ad_status (f r) = "discarded")) ->
  forall d, workflow_step d (set_drafts (update_where p f) d).
Proof.
  intros Hf d. apply workflow_draft_update. intros r Hr.
  destruct (Hf r Hr) as (? & ? & ? & ? & ? & Hs & Hst). split; try done.
  - destruct Hst as [->| ->]; [apply star_refl | apply star_one, dt_discard].
  - unfold slots_of. rewrite Hs. destruct (slots_from_value _); constructor. reflexivity.
  - unfold ready_complete, slots_of. rewrite Hs. destruct Hst as [->| ->]; [done|].
    intros _ [=].
Qed.

Lemma insert_draft_workflow id creator p s :
  stmt_keeps workflow_step (insert_draft_stmt id creator (payload_to_value p) (slots_to_value s)
    "awaiting_party_wallets").
Proof. stmt_cases. by apply workflow_insert_draft. Qed.

Lemma insert_invitation_workflow id draft i e n token ex :
  stmt_keeps workflow_step (insert_invitation_stmt id draft i e n token ex).
Proof.
  stmt_cases.
  match goal with Hc : _ && negb _ = true |- _ =>
    apply andb_true_iff in Hc as [Hfk Hnew%negb_true_iff] end.
  by apply workflow_insert_invitation.
Qed.

#[export] Instance workflow_stmts : StmtsKeep cfg workflow_step.
Proof.
  split; try (stmt_frame only_workflow); try (issue_frame only_workflow);
    eauto using insert_draft_workflow, insert_invitation_workflow, accept_body_workflow;
    try (intros; stmt_cases; apply free_draft_update; cbn; tauto).
  - intros id at_. stmt_cases. apply workflow_invitation_update. intros i _. by repeat split.
  - intros th. stmt_cases. apply workflow_invitation_update. intros i Hp.
    apply andb_true_iff in Hp as [Hp _]. apply String.eqb_eq in Hp. split; [|done].
    split; try done. cbn. rewrite Hp. apply star_one, it_expire.
Qed.

#[export] Instance workflow_marks : MarksKeep workflow_step.
Proof. marks_frame only_workflow. Qed.

Lemma create_workflow user pubkey req w :
  workflow_wf (w_db w) -> workflow_wf (w_db (snd (create_agreement cfg user pubkey req w))).
Proof.
  intros Hwf.
  exact (wo_wf _ _ (run_op_keeps cfg workflow_step (OpCreateAgreement user pubkey req) w Hwf)).
Qed.

Lemma run_ops_workflow os w : workflow_wf (w_db w) -> workflow (w_db w) (w_db (run_ops cfg os w)).
Proof. exact (run_ops_keeps cfg workflow_step os w). Qed.
End Operations.

(** ** Theorems *)

Section Theorems.
Context `{Ext, Env} (cfg : AppState).

(** Refinement of the draft life cycle.  Under any sequence of requests,
    program logs and worker cycles, drafts are never removed and their ids
    stay unique; a draft keeps its creator, its payload and its date, stays
    paid once it is paid, changes its status only to discarded or ready, and
    its slots only by an invited party's slot getting that party's key.  A
    draft that is ready has a key in every slot. *)
Theorem drafts_follow_lifecycle (os : list op) (w : World) :
  uuid_text -> workflow_wf (w_db w) ->
  NoDup (map ad_id (db_drafts (w_db (run_ops cfg os w)))) /\
  drafts_evolve (w_db w) (w_db (run_ops cfg os w)).
Proof. intros Hu Hw. destruct (run_ops_workflow cfg Hu os w Hw) as [[] ? ? ?]. done. Qed.

(** Refinement of the invitation life cycle.  Under any sequence of
    operations an invitation keeps its draft, token, address and expiry, and
    its status moves only from pending to accepted or to expired; it becomes
    accepted only if a slot of its draft named it from the beginning. *)
Theorem invitations_follow_lifecycle (os : list op) (w : World) :
  uuid_text -> workflow_wf (w_db w) ->
  invitations_evolve (w_db w) (w_db (run_ops cfg os w)) /\
  accepted_named (w_db w) (w_db (run_ops cfg os w)).
Proof. intros Hu Hw. by destruct (run_ops_workflow cfg Hu os w Hw). Qed.

Lemma reinvite_run user draft_id invitation w resp w1 :
  reinvite_draft cfg user draft_id invitation w = (Ok resp, w1) ->
  db_drafts (w_db w1) = db_drafts (w_db w) /\
  exists i, i ∈ db_invitations (w_db w1) /\ pi_id i = ri_invitation_id resp /\
    pi_draft_id i = draft_id /\ pi_status i = "pending".
Proof.
  unfold reinvite_draft, get_draft_row, ensure_creator_from_user_id, internal. intros Hr.
  world_inv. subst.
  match goal with Hx : expired_invitation _ _ _ = Some ?p |- _ => destruct p as [[ix en] no] end.
  unfold fill_random in *. world_inv. subst.
  match goal with Hf : (Ok _, _) = (Ok _, _) |- _ => injection Hf as <- <- end.
  world_inv. subst.
  match goal with Hi : sql (insert_invitation_stmt _ _ _ _ _ _ _) _ = _ |- _ =>
    apply sql_Ok in Hi as (d & Hi & ->); unfold insert_invitation_stmt in Hi;
    rewrite insert_prepared_ok in Hi by reflexivity;
    destruct (_ && _) in Hi; [|discriminate]; injection Hi as _ <- end.
  split; [done|]. eexists. split; [cbn; apply elem_of_app; right; left|]. done.
Qed.

(** What follows a creation or a renewal, as far as drafts and invitations go:
    [follows w' w1] says that the tables went from [w1] to [w'] by the
    operations of the system. *)
Definition follows (w' w1 : World) : Prop := workflow_wf (w_db w1) -> workflow (w_db w1) (w_db w').

Lemma follows_ops os w1 : uuid_text -> follows (run_ops cfg os w1) w1.
Proof. intros Hu. exact (run_ops_workflow cfg Hu os w1). Qed.

Lemma reinvited_later (user draft_id invitation : Uuid) (w w1 w' : World) (resp : ReinviteResponse) :
  uuid_text -> workflow_wf (w_db w) ->
  reinvite_draft cfg user draft_id invitation w = (Ok resp, w1) ->
  (forall r slots, r ∈ db_drafts (w_db w) -> ad_id r = draft_id -> slots_of r = Some slots ->
     ri_invitation_id resp ∉ slot_ids slots) ->
  follows w' w1 ->
  forall i, i ∈ db_invitations (w_db w') ->
    pi_id i = ri_invitation_id resp -> pi_status i <> "accepted".
Proof.
  intros Hu Hwf Hrun Hfresh Hfol i Hi Hid Hacc.
  pose proof (run_ops_workflow cfg Hu [OpReinvite user draft_id invitation] w Hwf) as [Hwf1 _ _ _].
  cbn [run_ops fold_left run_op] in Hwf1. rewrite Hrun in Hwf1. cbn [snd] in Hwf1.
  destruct (reinvite_run _ _ _ _ _ _ Hrun) as (Hdr & j & Hj & Hjid & Hjd & Hjs).
  pose proof (Hfol Hwf1) as [_ _ _ Hn].
  destruct (Hn j i Hj Hi) as (r & slots & Hr & Hrid & Hsl & Hin); [congruence..|].
  rewrite Hdr in Hr. apply (Hfresh r slots Hr); congruence.
Qed.

(** A renewed invitation can never be accepted.  [reinvite_draft] stores a
    new pending invitation that no slot of the draft names (its id is fresh);
    whatever is done afterwards, in any order, that invitation never becomes
    accepted. *)
Theorem reinvited_never_accepted (user draft_id invitation : Uuid) (w w1 : World)
    (resp : ReinviteResponse) (os : list op) :
  uuid_text -> workflow_wf (w_db w) ->
  reinvite_draft cfg user draft_id invitation w = (Ok resp, w1) ->
  (forall r slots, r ∈ db_drafts (w_db w) -> ad_id r = draft_id -> slots_of r = Some slots ->
     ri_invitation_id resp ∉ slot_ids slots) ->
  forall i, i ∈ db_invitations (w_db (run_ops cfg os w1)) ->
    pi_id i = ri_invitation_id resp -> pi_status i <> "accepted".
Proof. intros Hu Hwf Hr Hf. apply (reinvited_later _ _ _ _ _ _ _ Hu Hwf Hr Hf). by apply follows_ops. Qed.

Lemma omap_length_le {A B} (f : A -> option B) l : (length (omap f l) <= length l)%nat.
Proof. induction l as [|x l IH]; cbn; [done|]. destruct (f x); cbn; lia. Qed.

Lemma pubkeys_and_invites slots :
  Forall (fun s => de_pubkey s = None <-> de_invite_id s <> None) slots ->
  (length (omap de_pubkey slots) + length (omap de_invite_id slots) = length slots)%nat.
Proof.
  induction 1 as [|s l Hs _ IH]; cbn; [done|].
  destruct (de_pubkey s), (de_invite_id s); cbn; try lia; exfalso;
    [by discriminate (proj2 Hs) | by apply (proj1 Hs)].
Qed.

Lemma invited_dropped_later (user : Uuid) (pubkey : string) (req : CreateAgreementRequest)
    (w w1 w' w2 : World) (draft_id : Uuid) (pending : list PendingInvitation)
    (user' : Uuid) (pubkey' : string) (sreq : SubmitDraftRequest) (resp : SubmitDraftResponse) :
  uuid_text -> workflow_wf (w_db w) -> cr_expires_in_secs req < two64 ->
  0 <= cfg_invite_expiry_seconds cfg ->
  create_agreement cfg user pubkey req w = (Ok (AwaitingPartyWallets draft_id pending), w1) ->
  submit_draft cfg user' pubkey' draft_id sreq w' = (Ok resp, w2) ->
  follows w' w1 ->
  exists t ix args, tx_encode t = Some (sd_transaction resp) /\ tx_instructions t = [ix] /\
    ix_data ix = CREATE_AGREEMENT_DISCRIMINATOR ++ enc c_create_args args /\
    (exists r slots, r ∈ db_drafts (w_db w1) /\ ad_id r = draft_id /\ slots_of r = Some slots /\
       ca_parties args = omap pubkey_from_str (omap de_pubkey slots)) /\
    (length (ca_parties args) + length pending <= length (cr_parties req))%nat.
Proof.
  intros Hu Hwf Hx Hc0 Hcr Hsub Hfol.
  pose proof (create_workflow cfg Hu user pubkey req w Hwf) as Hwf1.
  rewrite Hcr in Hwf1. cbn [snd] in Hwf1.
  apply create_agreement_run in Hcr
    as (Hwin & ek & ik & _ & _ & _ & slots & created & rows & Hkeys & Hopt & Hdb & Hids & Hfor & Hhints).
  apply (f_equal length) in Hkeys as Hlen. rewrite !length_map in Hlen.
  apply (f_equal length) in Hhints as Hpend. rewrite !length_map, (Forall2_length _ _ _ Hfor) in Hpend.
  apply submit_draft_run in Hsub
    as (r & t & ix & args & [Hr Hid]%draft_row_elem & _ & _ & _ & _ & Ht & Hix & Hdata & (p & Hp & Hps) & _).
  pose proof (Hfol Hwf1) as [Hwf2 Hd _ _].
  set (row := mkAgreementDraft _ _ _ _ _ _ _ _ _ _ _ _) in Hdb.
  assert (Hrow : row ∈ db_drafts (w_db w1)).
  { rewrite Hdb. cbn. apply elem_of_app. right. left. }
  assert (Hpay : ad_draft_payload r = ad_draft_payload row).
  { apply list_elem_of_lookup in Hrow as [n Hn].
    destruct (grows_lookup _ _ _ _ _ _ Hd Hn) as (r' & Hr' & Hev).
    assert (r = r') as ->; [|apply Hev].
    apply (NoDup_map_eq ad_id _ _ _ (wf_drafts _ Hwf2)); [done | |].
    - by eapply list_elem_of_lookup_2.
    - rewrite Hid. symmetry. apply Hev. }
  rewrite Hpay in Hp. cbn [row ad_draft_payload] in Hp.
  rewrite payload_roundtrip in Hp; [|done | cbn; lia]. injection Hp as <-.
  exists t, ix, args. do 3 (split; [done|]). split.
  - exists row, slots. split; [done|]. split; [done|]. split; [by apply slots_roundtrip|].
    exact Hps.
  - rewrite Hps, Hpend, <-Hlen, <-pubkeys_and_invites by done. cbn [dp_parties].
    rewrite <-Hids, length_map. pose proof (omap_length_le pubkey_from_str (omap de_pubkey slots)).
    lia.
Qed.

(** The invited parties are left out of the agreement.  Create an
    agreement that has to wait for wallets, let anything happen (the invited
    parties accept, the creator pays), and submit the draft: the on-chain
    instruction carries the keys known when the draft was created and nobody
    else, so at least one party less for each invitation. *)
Theorem invited_parties_dropped (user : Uuid) (pubkey : string) (req : CreateAgreementRequest)
    (w w1 w2 : World) (draft_id : Uuid) (pending : list PendingInvitation) (os : list op)
    (user' : Uuid) (pubkey' : string) (sreq : SubmitDraftRequest) (resp : SubmitDraftResponse) :
  uuid_text -> workflow_wf (w_db w) -> cr_expires_in_secs req < two64 ->
  0 <= cfg_invite_expiry_seconds cfg ->
  create_agreement cfg user pubkey req w = (Ok (AwaitingPartyWallets draft_id pending), w1) ->
  submit_draft cfg user' pubkey' draft_id sreq (run_ops cfg os w1) = (Ok resp, w2) ->
  exists t ix args, tx_encode t = Some (sd_transaction resp) /\ tx_instructions t = [ix] /\
    ix_data ix = CREATE_AGREEMENT_DISCRIMINATOR ++ enc c_create_args args /\
    (exists r slots, r ∈ db_drafts (w_db w1) /\ ad_id r = draft_id /\ slots_of r = Some slots /\
       ca_parties args = omap pubkey_from_str (omap de_pubkey slots)) /\
    (length (ca_parties args) + length pending <= length (cr_parties req))%nat.
Proof.
  intros Hu Hwf Hx Hc0 Hcr Hsub.
  apply (invited_dropped_later _ _ _ _ _ _ _ _ _ _ _ _ _ Hu Hwf Hx Hc0 Hcr Hsub). by apply follows_ops.
Qed.
End Theorems.

(** ** Witnesses

    Carol creates an agreement with Bob, whom only an address is known of; Dave
    accepts the invitation, Carol gets a free submission and submits. *)

Definition db_start : Db :=
  set_contacts (fun _ => [mkUserContact (uid x01) (Some []) (Some []) None None None None None 0])
    (set_wallets (fun _ => [mkAuthWallet (uid x01) carol 0]) db_empty).
Definition request_two : CreateAgreementRequest :=
  mkCreateRequest "Lease" [PartyPubkey carol; PartyEmail "bob@example.com"] 1209600.
Definition dave : string := hex_demo (bn_bytes (key x0e)).
Definition submit_demo : SubmitDraftRequest :=
  mkSubmitRequest (hex_demo (repeat x01 32)) "ipfs://x" "ipfs".
Definition draft_demo : Uuid := @fresh_uuid env_demo 6.
Definition created_demo := @create_agreement ext_demo env_demo config_hex (uid x01) carol request_two
  (world_demo db_start).
Definition ops_demo : list op :=
  [OpAcceptInvite dave (hex_demo (@random_bytes env_demo 4 32));
   OpInitiatePayment (uid x01) carol draft_demo "usdc"].
Definition ready_demo : World := @run_ops ext_demo env_demo config_hex ops_demo (snd created_demo).

Lemma created_demo_run :
  @create_agreement ext_demo env_demo config_hex (uid x01) carol request_two (world_demo db_start)
    = created_demo.
Proof. exact eq_refl. Qed.

Lemma wf_start : @workflow_wf db_start.
Proof. split; cbn; [constructor | constructor | intros i Hi; by apply not_elem_of_nil in Hi]. Qed.

Lemma payments_follow_lifecycle_witness :
  payments_evolve (w_db (snd created_demo)) (w_db ready_demo).
Proof.
  unfold ready_demo. apply (@payments_follow_lifecycle ext_demo env_demo config_hex ops_demo (snd created_demo)).
  vm_compute. constructor.
Defined.

Lemma drafts_follow_lifecycle_witness :
  @drafts_evolve ext_demo db_start
    (w_db (@run_ops ext_demo env_demo config_hex
             (OpCreateAgreement (uid x01) carol request_two :: ops_demo) (world_demo db_start))) /\
  map ad_status (db_drafts (w_db ready_demo)) = ["ready_to_submit"].
Proof.
  split; [|vm_compute; reflexivity].
  apply (@drafts_follow_lifecycle ext_demo env_demo config_hex
           (OpCreateAgreement (uid x01) carol request_two :: ops_demo) (world_demo db_start)).
  - exact uuid_text_demo.
  - exact wf_start.
Defined.

Lemma wf_created : @workflow_wf (w_db (snd created_demo)).
Proof.
  exact (@create_workflow ext_demo env_demo config_hex uuid_text_demo (uid x01) carol request_two
    (world_demo db_start) wf_start).
Qed.

Lemma invitations_follow_lifecycle_witness :
  invitations_evolve (w_db (snd created_demo)) (w_db ready_demo) /\
  map pi_status (db_invitations (w_db ready_demo)) = ["accepted"].
Proof.
  split; [|vm_compute; reflexivity].
  unfold ready_demo. apply (@invitations_follow_lifecycle ext_demo env_demo config_hex ops_demo (snd created_demo)).
  - exact uuid_text_demo.
  - exact wf_created.
Defined.

Lemma submit_draft_sound_witness :
  exists resp w', @submit_draft ext_demo env_demo config_hex (uid x01) carol draft_demo submit_demo
      ready_demo = (Ok resp, w') /\
    exists r, r ∈ db_drafts (w_db ready_demo) /\ ad_status r = "ready_to_submit".
Proof.
  destruct (@submit_draft ext_demo env_demo config_hex (uid x01) carol draft_demo submit_demo
      ready_demo) as [[resp|e] w'] eqn:E; [|vm_compute in E; discriminate E].
  exists resp, w'. split; [reflexivity|].
  destruct (@submit_draft_sound ext_demo env_demo config_hex (uid x01) carol draft_demo submit_demo
      ready_demo w' resp E) as (r & _ & _ & _ & Hr & _ & _ & _ & Hst & _).
  exists r. split; [exact Hr | exact Hst].
Defined.

Lemma invited_parties_dropped_witness :
  exists resp w2 t ix args, @submit_draft ext_demo env_demo config_hex (uid x01) carol draft_demo
      submit_demo (@run_ops ext_demo env_demo config_hex ops_demo (snd created_demo)) = (Ok resp, w2) /\
    @tx_encode ext_demo t = Some (sd_transaction resp) /\ tx_instructions t = [ix] /\
    ix_data ix = CREATE_AGREEMENT_DISCRIMINATOR ++ enc (@c_create_args (@ext_borsh ext_demo)) args /\
    (length (ca_parties args) + 1 <= length (cr_parties request_two))%nat.
Proof.
  destruct created_demo as [[[t p|draft pending]|e] w1] eqn:E;
    try (vm_compute in E; discriminate E).
  assert (Hd : draft = draft_demo) by (vm_compute in E; injection E as <- _ _; reflexivity).
  assert (Hp : length pending = 1%nat) by (vm_compute in E; injection E as _ <- _; reflexivity).
  assert (Hw : snd created_demo = w1) by (by rewrite E). subst draft.
  destruct (@submit_draft ext_demo env_demo config_hex (uid x01) carol draft_demo submit_demo
      (@run_ops ext_demo env_demo config_hex ops_demo w1)) as [[resp|e] w2] eqn:Es;
    [|rewrite <-Hw in Es; vm_compute in Es; discriminate Es].
  destruct (@invited_parties_dropped ext_demo env_demo config_hex (uid x01) carol request_two
      (world_demo db_start) w1 w2 draft_demo pending ops_demo (uid x01) carol submit_demo resp)
    as (t & ix & args & Ht & Hix & Hdata & _ & Hl).
  - exact uuid_text_demo.
  - exact wf_start.
  - cbn. unfold two64. lia.
  - cbn. lia.
  - exact (eq_trans created_demo_run E).
  - exact Es.
  - exists resp, w2, t, ix, args. rewrite Hp in Hl. cbn [snd]. auto.
Defined.

(** An invitation that ran out, renewed. *)
Definition expired_demo : PartyInvitationRow :=
  mkPartyInvitation (uid x08) (uid x05) [] [] [] "t1" "expired" None 0 0 500.

Definition db_expired : Db :=
  set_invitations (fun _ => [expired_demo])
    (set_drafts (fun _ => [mkAgreementDraft (uid x05) carol JNull
       (@slots_to_value ext_demo [mkEntry (Some carol) None; mkEntry None (Some (uid x08))])
       "awaiting_party_wallets" 0 None true None false None None]) db_start).

Lemma reinvited_never_accepted_witness :
  exists resp w1, @reinvite_draft ext_demo env_demo config_hex (uid x01) (uid x05) (uid x08)
      (world_demo db_expired) = (Ok resp, w1) /\
    forall i, i ∈ db_invitations (w_db (@run_ops ext_demo env_demo config_hex
      [OpAcceptInvite dave (hex_demo (@random_bytes env_demo 3 32))] w1)) ->
      pi_id i = ri_invitation_id resp -> pi_status i <> "accepted".
Proof.
  destruct (@reinvite_draft ext_demo env_demo config_hex (uid x01) (uid x05) (uid x08)
      (world_demo db_expired)) as [[resp|e] w1] eqn:E; [|vm_compute in E; discriminate E].
  exists resp, w1. split; [reflexivity|].
  apply (@reinvited_never_accepted ext_demo env_demo config_hex (uid x01) (uid x05) (uid x08)
    (world_demo db_expired) w1 resp).
  - exact uuid_text_demo.
  - split; cbn; [apply NoDup_singleton | apply NoDup_singleton |].
    intros i ->%list_elem_of_singleton. eexists. split; [left | done].
  - exact E.
  - intros r slots Hr _ Hs. cbn in Hr. apply list_elem_of_singleton in Hr as ->.
    vm_compute in Hs. injection Hs as <-. vm_compute in E. injection E as <- _.
    apply (bool_decide_unpack _). vm_compute. exact I.
Defined.
