(* ===== verification/Ownership.v ===== *)
(** * Ownership: whose requests change a draft

    The rows of agreement_drafts that a request of Api.v changes, by the caller
    its token names. *)

From Stdlib Require Import ZArith Lia.
From Stdlib Require Import Strings.Byte Strings.Ascii Strings.String.
From stdpp Require Import base tactics decidable option list strings gmap.
From S2P Require Import Prelude Text Errors Borsh SolanaTypes Health World Concrete Crypto.
From S2P Require Import Jwt Auth AuthFacts OAuth User AccountFacts Ws Storage Upload Routes.
From S2P Require Import Notification DraftData Solana Agreement Draft Wire Invite InviteFacts.
From S2P Require Import Payments PaymentLifecycle EventListener Expiry Keeper System Api Workflow.

Open Scope string_scope.
Open Scope list_scope.
Open Scope Z_scope.

(** Only drafts with an id in [P] change, keeping their id; drafts may be
    added, none is lost. *)
Section Within.
Context (P : Uuid -> Prop).

Definition draft_within (r r' : AgreementDraftRow) : Prop :=
  r' = r \/ P (ad_id r) /\ ad_id r' = ad_id r.

Definition drafts_within (d d' : Db) : Prop :=
  exists old new, db_drafts d' = old ++ new /\ Forall2 draft_within (db_drafts d) old.

Lemma draft_within_trans x y z : draft_within x y -> draft_within y z -> draft_within x z.
Proof.
  intros [->|[Hp Hy]] [->|[Hp' Hz]]; [by left | by right | by right |]. right. split; congruence.
Qed.

Lemma draft_within_refl l : Forall2 draft_within l l.
Proof. induction l; constructor; [by left | done]. Qed.

#[export] Instance drafts_within_preorder : PreOrder drafts_within.
Proof.
  split.
  - intros d. exists (db_drafts d), []. split; [by rewrite app_nil_r|].
    apply draft_within_refl.
  - intros d1 d2 d3 (o1 & n1 & E1 & F1) (o2 & n2 & E2 & F2). rewrite E1 in F2.
    apply Forall2_app_inv_l in F2 as (o3 & n3 & F2 & _ & ->).
    exists o3, (n3 ++ n2). split; [by rewrite E2, app_assoc|].
    revert F1 F2. generalize (db_drafts d1) o1 o3. clear. intros l1 l2 l3 F1. revert l3.
    induction F1 as [|x y l1 l2 Hxy F1 IH]; intros l3 F2; inversion F2 as [|? z ? ? Hyz F2']; subst;
      constructor; [by eapply draft_within_trans | by apply IH].
Qed.

Lemma within_same d d' : db_drafts d' = db_drafts d -> drafts_within d d'.
Proof.
  intros E. exists (db_drafts d'), []. split; [by rewrite app_nil_r|]. rewrite E.
  apply draft_within_refl.
Qed.

Lemma within_update id f d :
  P id -> (forall r, ad_id (f r) = ad_id r) ->
  drafts_within d (set_drafts (update_where (draft_where id) f) d).
Proof.
  intros Hp Hf. exists (update_where (draft_where id) f (db_drafts d)), [].
  split; [by rewrite app_nil_r|]. unfold update_where.
  induction (db_drafts d) as [|r t IH]; [constructor|]. constructor; [|exact IH].
  destruct (draft_where id r) eqn:Er; [|by left]. right. apply uuid_eqb_spec in Er.
  split; [by rewrite Er | apply Hf].
Qed.

Lemma within_stmts id :
  P id ->
  stmt_keeps drafts_within (discard_stmt id) /\
  (forall uri, stmt_keeps drafts_within (store_uri_stmt id uri)) /\
  (forall pda aid, stmt_keeps drafts_within (store_agreement_stmt id pda aid)) /\
  stmt_keeps drafts_within (mark_paid_stmt id) /\
  (forall slots, stmt_keeps drafts_within (slots_stmt id slots)) /\
  (forall slots at_, stmt_keeps drafts_within (ready_stmt id slots at_)).
Proof. intros Hp. repeat split; intros; stmt_cases; by apply within_update. Qed.

Lemma within_others :
  (forall id draft i e n token ex, stmt_keeps drafts_within (insert_invitation_stmt id draft i e n token ex)) /\
  (forall id creator p s st, stmt_keeps drafts_within (insert_draft_stmt id creator p s st)) /\
  (forall id pda, stmt_keeps drafts_within (link_payment_stmt id pda)) /\
  (forall user, stmt_keeps drafts_within (count_free_stmt user)) /\
  (forall id draft method creator mint amount reference ata,
     stmt_keeps drafts_within (insert_payment_stmt id draft method creator mint amount reference ata)) /\
  (forall id, stmt_keeps drafts_within (accept_stmt id)) /\
  (forall id ty pda who at_, stmt_keeps drafts_within (insert_notification_stmt id ty pda who at_)).
Proof.
  repeat split; intros; stmt_cases; try (by apply within_same).
  exists (db_drafts d), [mkAgreementDraft id creator p s st (epoch_bigint now) None false None false None None].
  split; [done | apply draft_within_refl].
Qed.
End Within.

(** ** The handlers that write to drafts *)

Lemma creator_only_Ok p creator : ensure_creator_only p creator = Ok tt -> p = Some creator.
Proof.
  unfold ensure_creator_only. destruct p as [k|]; [|done].
  destruct (String.eqb_spec k creator); [by subst | done].
Qed.

Section Handlers.
Context `{Ext, Env} (cfg : AppState) (P : Uuid -> Prop).

Ltac quiet := unfold build_create_agreement_tx, build_create_agreement_instruction,
  calculate_vault_deposit, vault_signed, get_draft_row, has_contact_email, ensure_creator_from_user_id,
  insert_invitation, encrypt, internal, enqueue_notification, initiate_payment.

Ltac within_auto :=
  keeps_auto; try (apply keeps_sql; [typeclasses eauto | auto]);
  try (apply keeps_db_id; [typeclasses eauto | done]).

Lemma get_draft_row_Ok id w r w' :
  get_draft_row id w = (Ok r, w') -> draft_row id (w_db w) = Some r /\ w_db w' = w_db w.
Proof. unfold get_draft_row, internal. intros Hr. world_inv. by subst. Qed.

Lemma get_draft_row_db id w : w_db (snd (get_draft_row id w)) = w_db w.
Proof.
  unfold get_draft_row, internal, bind, map_err, sql, query. by destruct (db_fault _).
Qed.

Lemma ensure_creator_db user creator w : w_db (snd (ensure_creator_from_user_id user creator w)) = w_db w.
Proof.
  unfold ensure_creator_from_user_id, internal, bind, map_err, sql, query.
  by destruct (db_fault _).
Qed.

Lemma delete_draft_within user id w :
  (forall r, draft_row id (w_db w) = Some r ->
     pubkey_of_user user (w_db w) = Some (ad_creator_pubkey r) -> P id) ->
  on_db (drafts_within P) w (snd (delete_draft user id w)).
Proof.
  intros HP. unfold delete_draft.
  apply read_then; [typeclasses eauto | apply get_draft_row_db |].
  intros r w1 [Hr Hdb]%get_draft_row_Ok _.
  apply read_then; [typeclasses eauto | apply ensure_creator_db |].
  intros [] w2 Hc Hw2. unfold ensure_creator_from_user_id, internal in Hc. world_inv. subst.
  match goal with Hx : ensure_creator_only _ _ = Ok _ |- _ => apply creator_only_Ok in Hx end.
  rewrite Hdb in *. destruct (within_stmts P id) as (Hd & _); [by eapply HP|].
  unfold internal. apply keeps_map_err, keeps_sql; [typeclasses eauto | exact Hd].
Qed.

Lemma submit_draft_within user wallet id req w :
  (forall r, draft_row id (w_db w) = Some r -> wallet = ad_creator_pubkey r -> P id) ->
  on_db (drafts_within P) w (snd (submit_draft cfg user wallet id req w)).
Proof.
  intros HP. unfold submit_draft.
  apply read_then; [typeclasses eauto | done | intros [] w1 [_ ->]%of_result_Ok _].
  apply read_then; [typeclasses eauto | done | intros backend w2 [_ ->]%of_result_Ok _].
  apply read_then; [typeclasses eauto | apply get_draft_row_db |].
  intros r w3 [Hr Hdb]%get_draft_row_Ok _.
  apply read_then; [typeclasses eauto | done | intros [] w4 [Hc%creator_only_Ok ->]%of_result_Ok _].
  injection Hc as Hc. destruct (within_stmts P id (HP r Hr Hc)) as (_ & H1 & H2 & _).
  destruct (within_others P) as (_ & _ & H3 & _).
  match goal with |- on_db _ w3 (snd (?m w3)) =>
    assert (Hk : keeps (on_db (drafts_within P)) m); [|exact (Hk w3)] end.
  quiet. within_auto.
Qed.

Lemma initiate_payment_within user wallet id method w :
  (forall r, draft_row id (w_db w) = Some r -> wallet = ad_creator_pubkey r -> P id) ->
  on_db (drafts_within P) w (snd (initiate_payment cfg user wallet id method w)).
Proof.
  intros HP. unfold initiate_payment.
  apply read_then; [typeclasses eauto | apply internal_query_db | intros row w1 Hrow Hw1].
  apply map_err_Ok, sql_query_Ok in Hrow as [-> _].
  apply read_then; [typeclasses eauto | done | intros creator w2 [Hcr%ok_or_Ok ->]%of_result_Ok _].
  destruct (String.eqb_spec creator wallet) as [->|]; cbn [negb]; [|cbn; unfold on_db; reflexivity].
  unfold draft_creator_of in Hcr. apply fmap_Some in Hcr as (r & Hr & Hc).
  destruct (within_stmts P id (HP r Hr Hc)) as (_ & _ & _ & H1 & _).
  destruct (within_others P) as (_ & _ & _ & H2 & H3 & _).
  match goal with |- on_db _ w1 (snd (?m w1)) =>
    assert (Hk : keeps (on_db (drafts_within P)) m); [|exact (Hk w1)] end.
  quiet. within_auto.
Qed.

Lemma transaction_from {A} R `{!PreOrder R} (m : M World AppError A) w :
  on_db R w (snd (m (tick w))) -> on_db R w (snd (transaction m w)).
Proof.
  unfold transaction, on_db. intros Hm. destruct (db_fault (w_tick w)); cbn; try reflexivity.
  destruct (m (tick w)) as [[a|e] w']; cbn in *; [|reflexivity].
  destruct (db_fault (w_tick w')); cbn; [done | reflexivity | done].
Qed.

Lemma bind_from {A B} R `{!PreOrder R} (m : M World AppError A) (k : A -> M World AppError B) w :
  on_db R w (snd (m w)) -> (forall a, keeps (on_db R) (k a)) -> on_db R w (snd (bind m k w)).
Proof.
  unfold bind. intros Hm Hk. destruct (m w) as [[a|e] w']; cbn in *; [|done].
  unfold on_db in *. etransitivity; [exact Hm | apply Hk].
Qed.

Lemma accept_body_within now wallet token w :
  (forall i, i ∈ db_invitations (w_db w) -> pi_token i = token -> pi_status i = "pending" ->
     P (pi_draft_id i)) ->
  on_db (drafts_within P) w (snd (accept_body now wallet token w)).
Proof.
  intros HP. unfold accept_body.
  apply read_then; [typeclasses eauto | apply internal_query_db | intros row w1 Hrow Hw1].
  apply map_err_Ok, sql_query_Ok in Hrow as [-> _].
  apply read_then; [typeclasses eauto | done | intros i w2 [Hi%ok_or_Ok ->]%of_result_Ok _].
  apply read_then; [typeclasses eauto | done | intros [] w3 [[Hst _]%validate_Ok ->]%of_result_Ok _].
  apply invite_by_token_elem in Hi as Hin.
  assert (Htok : pi_token i = token).
  { unfold invite_by_token in Hi. apply fetch_optional_Some, elem_of_where in Hi as [_ Ht].
    by apply String.eqb_eq. }
  destruct (within_stmts P _ (HP i Hin Htok Hst)) as (_ & _ & _ & _ & H1 & H2).
  destruct (within_others P) as (_ & _ & _ & _ & _ & H3 & _).
  match goal with |- on_db _ w1 (snd (?m w1)) =>
    assert (Hk : keeps (on_db (drafts_within P)) m); [|exact (Hk w1)] end.
  quiet. within_auto.
Qed.

Lemma accept_invite_within wallet token w :
  (forall i, i ∈ db_invitations (w_db w) -> pi_token i = token -> pi_status i = "pending" ->
     P (pi_draft_id i)) ->
  on_db (drafts_within P) w (snd (accept_invite wallet token w)).
Proof.
  intros HP. unfold accept_invite.
  apply read_then; [typeclasses eauto | done | intros now w1 [= <- <-] _].
  apply bind_from; [typeclasses eauto | by apply (transaction_from _), (accept_body_within _ _ _ (tick (tick w))) |].
  destruct (within_others P) as (_ & _ & _ & _ & _ & _ & H1).
  intros [[draft creator] all]. quiet. within_auto.
Qed.

Lemma invites_within user wallet req id invitation :
  keeps (on_db (drafts_within P)) (create_agreement cfg user wallet req) /\
  keeps (on_db (drafts_within P)) (reinvite_draft cfg user id invitation).
Proof.
  destruct (within_others P) as (H1 & H2 & _).
  assert (Hr : forall k1 k2 t ex ps slots invites all,
    keeps (on_db (drafts_within P)) (resolve_parties k1 k2 t ex ps slots invites all)).
  { intros k1 k2 t ex ps. induction ps as [|[pk|email] ps IH]; intros; cbn [resolve_parties]; quiet;
      within_auto. }
  split; unfold create_agreement, reinvite_draft; quiet; within_auto.
Qed.
End Handlers.

(** ** Requests *)

Section Requests.
Context `{Ext, Env} (cfg : AppState) (path_match : string -> string -> bool).
Context (bad_body : json -> Rejection) (bad_query : list (string * string) -> Rejection)
  (bad_id : string -> Rejection).
Abbreviation api := (api cfg path_match bad_body bad_query bad_id).

(** What gives a caller the right to change a draft: the wallet of the token, or
    one of the user of the token, created the draft, or the token of the path
    is that of a pending invitation to it. *)
Definition may_change (rq : Request) (d : Db) (user : Uuid) (wallet : option string)
    (r : AgreementDraftRow) : Prop :=
  wallet = Some (ad_creator_pubkey r) \/
  pubkey_of_user user d = Some (ad_creator_pubkey r) \/
  exists i, i ∈ db_invitations d /\ rq_param rq = Ok (pi_token i) /\ pi_draft_id i = ad_id r /\
    pi_status i = "pending".

Definition changeable (rq : Request) (w : World) (id : Uuid) : Prop :=
  exists user wallet, speaks_for cfg (rq_authorization rq) w user wallet /\
    forall r, r ∈ db_drafts (w_db w) -> ad_id r = id -> NoDup (map ad_id (db_drafts (w_db w))) ->
      may_change rq (w_db w) user wallet r.

Lemma the_draft d id r r0 :
  NoDup (map ad_id (db_drafts d)) -> draft_row id d = Some r0 -> r ∈ db_drafts d -> ad_id r = id -> r = r0.
Proof.
  intros Hnd [Hr0 Hid]%draft_row_elem Hr <-. by apply (NoDup_map_eq ad_id _ _ _ Hnd).
Qed.

Lemma request_within rq w :
  drafts_within (changeable rq w) (w_db w) (w_db (snd (api rq w))).
Proof.
  destruct (api_cases cfg path_match bad_body bad_query bad_id rq w)
    as [->|(e & c & w1 & _ & Hc & Hdb & _ & ->)]; [reflexivity|]. rewrite <-Hdb.
  change (on_db (drafts_within (changeable rq w)) w1 (snd (handle cfg bad_body bad_query bad_id rq e c w1))).
  destruct (writes_business e) eqn:Hb.
  2:{ apply (accounts_frame cfg bad_body bad_query bad_id (drafts_within (changeable rq w))); [|done].
      intros d d' [= _ Hd _ _ _ _ _]. by apply within_same. }
  destruct e; try discriminate Hb; cbn in Hc; destruct Hc as (user & wallet & Hs & ->);
    unfold handle, extracting; extracted; try (unfold on_db; reflexivity); rewrite reply_world.
  - by apply (invites_within cfg _ _ _ _ (fill 16 x00) (fill 16 x00)).
  - apply delete_draft_within. rewrite Hdb. intros r Hr Hp. exists user, wallet. split; [done|].
    intros r' Hr' Hid Hnd. rewrite (the_draft _ _ _ _ Hnd Hr Hr' Hid). right. by left.
  - by apply (invites_within cfg _ user "" (mkCreateRequest "" [] 0)).
  - apply submit_draft_within. rewrite Hdb. intros r Hr Hp. exists user, (Some wallet). split; [done|].
    intros r' Hr' Hid Hnd. rewrite (the_draft _ _ _ _ Hnd Hr Hr' Hid). left. cbn in Hp. by subst.
  - apply accept_invite_within. rewrite Hdb. intros i Hi Ht Hst. exists user, (Some wallet). split; [done|].
    intros r' Hr' Hid _. right. right. exists i. split; [done|]. split; [congruence | done].
  - apply initiate_payment_within. rewrite Hdb. intros r Hr Hp. exists user, (Some wallet). split; [done|].
    intros r' Hr' Hid Hnd. rewrite (the_draft _ _ _ _ Hnd Hr Hr' Hid). left. cbn in Hp. by subst.
Qed.

(** C12: a draft changes only for those it concerns.  A request loses no draft, and
    where it changes one its bearer token is valid and names the wallet that
    created the draft, or a user with that wallet, or the path of the request
    ends in the token of a pending invitation to the draft. *)
Theorem drafts_change_by_right (rq : Request) (w : World) (n : nat) (r : AgreementDraftRow) :
  NoDup (map ad_id (db_drafts (w_db w))) -> db_drafts (w_db w) !! n = Some r ->
  exists r', db_drafts (w_db (snd (api rq w))) !! n = Some r' /\
    (r' <> r -> exists user wallet, speaks_for cfg (rq_authorization rq) w user wallet /\
       may_change rq (w_db w) user wallet r).
Proof.
  intros Hnd Hn. destruct (request_within rq w) as (old & new & -> & Hf).
  destruct (Forall2_lookup_l _ _ _ _ _ Hf Hn) as (r' & Hr' & Hw). exists r'.
  split; [by apply lookup_app_l_Some|]. intros Hne.
  destruct Hw as [->|[(user & wallet & Hs & Hm) _]]; [done|]. exists user, wallet.
  split; [done|]. apply Hm; [|done..]. by apply (list_elem_of_lookup_2 _ n).
Qed.
End Requests.

(** ** Profiles and contacts *)

Section Private.
Context `{Ext, Env} (cfg : AppState) (u : Uuid).

(** The account and the contacts of the user [u]. *)
Definition private (d : Db) : list UserAccountRow * list UserContactRow :=
  (where_ (fun r => uuid_eqb (ua_id r) u) (db_users d), where_ (contact_is u) (db_contacts d)).
Definition private_kept (d d' : Db) : Prop := fst (private d) <> [] -> private d' = private d.

#[export] Instance private_kept_preorder : PreOrder private_kept.
Proof.
  split; [by intros d _|]. intros x y z Hxy Hyz Hx. specialize (Hxy Hx).
  rewrite Hyz; [done | by rewrite Hxy].
Qed.

Lemma where_disjoint {A} (p q : A -> bool) f t :
  (forall x, p x = true -> q x = false /\ q (f x) = false) -> where_ q (update_where p f t) = where_ q t.
Proof.
  intros Hpq. unfold where_, update_where. induction t as [|x t IH]; cbn; [done|]. rewrite IH.
  destruct (p x) eqn:Ep; [|done]. by destruct (Hpq x Ep) as [-> ->].
Qed.

Lemma uuid_other (a v : Uuid) : v <> u -> uuid_eqb a v = true -> uuid_eqb a u = false.
Proof.
  intros Hv ->%uuid_eqb_spec. destruct (uuid_eqb v u) eqn:E; [|done]. by apply uuid_eqb_spec in E.
Qed.

Lemma insert_user_private id : stmt_keeps private_kept (insert_user_stmt id).
Proof.
  stmt_cases. intros Hu. unfold private in *. cbn in *. f_equal. unfold where_. rewrite List.filter_app. cbn.
  destruct (uuid_eqb id u) eqn:Ei; [|by rewrite app_nil_r]. exfalso. apply uuid_eqb_spec in Ei as ->.
  apply Hu. unfold exists_row, where_ in *.
  match goal with Hx : List.existsb _ _ = false |- _ => revert Hx end.
  clear. induction (db_users d) as [|r t IH]; cbn; [done|]. intros [Hr Ht]%orb_false_iff.
  rewrite Hr. by apply IH.
Qed.

Lemma profile_stmts_private v :
  v <> u ->
  (forall name, stmt_keeps private_kept (display_name_stmt v name)) /\
  (forall x, stmt_keeps private_kept (upsert_contacts_stmt v x)) /\
  stmt_keeps private_kept (delete_contacts_stmt v).
Proof.
  intros Hv. repeat split; intros; stmt_cases; intros _; unfold private; cbn; f_equal.
  - apply where_disjoint. intros r Hr. split; by apply (uuid_other _ v).
  - apply where_disjoint. intros r Hr. split; by apply (uuid_other _ v).
  - unfold where_. rewrite List.filter_app. cbn. unfold contact_is at 2. cbn.
    rewrite (uuid_other v v Hv); [by rewrite app_nil_r | by apply uuid_eqb_spec].
  - unfold where_. induction (db_contacts d) as [|r t IH]; cbn; [done|].
    destruct (contact_is v r) eqn:Er; cbn; rewrite IH; [|done].
    unfold contact_is in *. by rewrite (uuid_other _ v Hv Er).
Qed.

Context (path_match : string -> string -> bool).
Context (bad_body : json -> Rejection) (bad_query : list (string * string) -> Rejection)
  (bad_id : string -> Rejection).
Abbreviation api := (api cfg path_match bad_body bad_query bad_id).
Abbreviation handle := (handle cfg bad_body bad_query bad_id).

Ltac private_auto :=
  keeps_auto; try (apply keeps_sql; [typeclasses eauto | first [solve [auto] | stmt_cases; intros _; reflexivity]]);
  try (apply keeps_db_id; [typeclasses eauto | done]).

Lemma issue_tokens_private user pk : keeps (on_db private_kept) (issue_tokens cfg user pk).
Proof. unfold issue_tokens, issue_access_token, issue_and_store_refresh_token. private_auto. Qed.

Lemma create_user_private : keeps (on_db private_kept) create_user.
Proof.
  unfold create_user, internal. keeps_auto. apply keeps_sql; [typeclasses eauto | apply insert_user_private].
Qed.

Lemma limiter_private h now : keeps (on_db private_kept) (enforce_get_invite_rate_limit h now).
Proof.
  apply keeps_db_id; [typeclasses eauto|]. intros w. unfold enforce_get_invite_rate_limit.
  by destruct (limiter_step _ _).
Qed.

Lemma accept_private now wallet token : keeps (on_db private_kept) (accept_body now wallet token).
Proof.
  apply frame_accept; [typeclasses eauto|]. intros d d' [= Hu _ _ Hc _ _] _. unfold private. by rewrite Hu, Hc.
Qed.

Lemma resolve_parties_private k1 k2 t ex ps slots invites all :
  keeps (on_db private_kept) (resolve_parties k1 k2 t ex ps slots invites all).
Proof.
  revert slots invites all. induction ps as [|[pk|email] ps IH]; intros; cbn [resolve_parties];
    unfold encrypt, internal; private_auto.
Qed.

Definition is_callback (e : Endpoint) : bool :=
  match e with oauth_google_callback | oauth_microsoft_callback => true | _ => false end.

Lemma private_frame rq e c :
  is_callback e = false -> (forall auth, c = CallerUser auth -> au_user_id auth <> u) ->
  keeps (on_db private_kept) (handle rq e c).
Proof.
  intros He Hc. pose proof issue_tokens_private. pose proof create_user_private.
  pose proof limiter_private. pose proof accept_private. pose proof resolve_parties_private.
  assert (Hp : match c with
               | CallerUser a =>
                   (forall name, stmt_keeps private_kept (display_name_stmt (au_user_id a) name)) /\
                   (forall x, stmt_keeps private_kept (upsert_contacts_stmt (au_user_id a) x)) /\
                   stmt_keeps private_kept (delete_contacts_stmt (au_user_id a))
               | _ => True
               end).
  { destruct c; try done. by apply profile_stmts_private, Hc. }
  destruct e, c; try discriminate He; unfold Api.handle, extracting; extracted;
    try (apply keeps_ret; typeclasses eauto); try (apply keeps_reply; [typeclasses eauto|]);
    try (apply keeps_upload_handler; typeclasses eauto);
    try destruct Hp as (Hp1 & Hp2 & Hp3);
    unfold challenge, verify, link_wallet, spend_nonce, oauth_redirect, build_provider_auth_url,
      refresh, logout, get_agreement, load_agreement, get_invite, ws_handler, decode_access_token,
      list_agreements, sign_agreement, cancel_agreement, vote_revoke, retract_revoke_vote, load_agreement,
      build_sign_agreement_tx, build_cancel_agreement_tx, build_vote_revoke_tx,
      build_retract_revoke_vote_tx, create_agreement, submit_draft, delete_draft, reinvite_draft,
      initiate_payment, accept_invite, insert_invitation, build_create_agreement_tx,
      build_create_agreement_instruction, calculate_vault_deposit, vault_signed, enqueue_notification,
      get_draft, get_draft_row, has_contact_email, ensure_creator_from_user_id, payment_status,
      update_profile, get_profile, update_contacts, encrypt_given, encrypt, delete_contacts, internal;
    private_auto.
Qed.

(** C22: profiles are private.  A request whose token does not speak for a user,
    and that is not the callback of an OAuth provider, leaves that user's
    account and contacts exactly as they were. *)
Theorem profiles_are_private (rq : Request) (w : World) :
  (exists r, r ∈ db_users (w_db w) /\ ua_id r = u) ->
  (forall wallet, ~ speaks_for cfg (rq_authorization rq) w u wallet) ->
  option_map (fun r => is_callback (ro_endpoint r)) (route_of path_match (rq_method rq) (rq_path rq))
    <> Some true ->
  private (w_db (snd (api rq w))) = private (w_db w).
Proof.
  intros (r & Hr & Hu) Hn Hcb.
  destruct (api_cases cfg path_match bad_body bad_query bad_id rq w)
    as [->|(e & c & w1 & He & Hc & Hdb & _ & ->)]; [done|]. rewrite <-Hdb in *.
  assert (Hk : private_kept (w_db w1) (w_db (snd (handle rq e c w1)))).
  { apply private_frame.
    - destruct (route_of _ _ _) as [ro|]; [|done]. injection He as <-. cbn in Hcb.
      by destruct (is_callback (ro_endpoint ro)).
    - intros a ->. unfold caller_shown in Hc. destruct (endpoint_access e); [done| |].
      + destruct Hc as (user & wallet & Hs & [= ->]). cbn. intros ->. by apply (Hn wallet).
      + by destruct Hc as (user & wallet & _ & [=]). }
  apply Hk. cbn. intros E. assert (Hin : r ∈ where_ (fun r => uuid_eqb (ua_id r) u) (db_users (w_db w1))).
  { apply elem_of_where. split; [done | by apply uuid_eqb_spec]. }
  rewrite E in Hin. by apply not_elem_of_nil in Hin.
Qed.
End Private.

(** ** Examples *)

Definition db_owned : Db :=
  set_drafts (fun _ => [mkAgreementDraft (uid x05) "first" JNull JNull "awaiting_party_wallets" 0 None
    false None false None None])
    (set_users (fun t => t ++ [mkUserAccount (uid x09) (Some "Nina") 900]) db_accounts).

Definition delete_request : Request :=
  http_demo DELETE "/draft/5" (hex_demo (bn_bytes (uid x05))) header_demo JNull.

Lemma drafts_change_by_right_witness :
  map ad_status (db_drafts (w_db (snd (api_demo delete_request (world_demo db_owned))))) = ["discarded"] /\
  exists user wallet, @speaks_for ext_demo env_demo config_hex header_demo (world_demo db_owned) user wallet.
Proof.
  split; [vm_compute; reflexivity|].
  set (r := mkAgreementDraft (uid x05) "first" JNull JNull "awaiting_party_wallets" 0 None
    false None false None None).
  destruct (@drafts_change_by_right ext_demo env_demo config_hex match_demo (refusal 422) (refusal 400)
    (refusal 400) delete_request (world_demo db_owned) 0 r) as (r' & Hr' & Hm).
  - apply NoDup_singleton.
  - reflexivity.
  - destruct Hm as (user & wallet & Hs & _); [|by exists user, wallet].
    intros ->. vm_compute in Hr'. discriminate Hr'.
Defined.

Definition rename_request : Request :=
  http_demo PUT "/user/me" "" header_demo (JObj [("display_name", JStr "Nora")]).

Lemma profiles_are_private_witness :
  map ua_display_name (db_users (w_db (snd (api_demo rename_request (world_demo db_owned)))))
    = [Some "Nora"; Some "Nina"] /\
  private (uid x09) (w_db (snd (api_demo rename_request (world_demo db_owned)))) =
  private (uid x09) db_owned.
Proof.
  split; [vm_compute; reflexivity|].
  apply (@profiles_are_private ext_demo env_demo config_hex (uid x09) match_demo (refusal 422)
    (refusal 400) (refusal 400) rename_request (world_demo db_owned)).
  - exists (mkUserAccount (uid x09) (Some "Nina") 900). split; [cbn; right; left | reflexivity].
  - intros wallet (token & claims & Hh & Hd & Hs & _). vm_compute in Hh. injection Hh as <-.
    vm_compute in Hd. injection Hd as <-. discriminate (f_equal bn_bytes Hs).
  - vm_compute. discriminate.
Defined.
