(* ===== verification/Records.v ===== *)
(** * Records: party rows and notification jobs under every operation

    The life cycle of a party row, which has no way into [Completed], and of a
    notification job, which never leaves [pending]. *)

From Stdlib Require Import ZArith Lia.
From Stdlib Require Import Strings.Byte Strings.Ascii Strings.String.
From stdpp Require Import base tactics decidable option list strings gmap.
From S2P Require Import Prelude Text Errors Borsh SolanaTypes Health World Concrete Crypto.
From S2P Require Import Jwt Auth AuthFacts OAuth User.
From S2P Require Import Notification DraftData Solana Agreement Draft Invite InviteFacts.
From S2P Require Import Payments PaymentLifecycle EventListener Expiry Keeper System.

Open Scope string_scope.
Open Scope list_scope.
Open Scope Z_scope.

(** ** Party rows *)

Inductive party_trans : string -> string -> Prop :=
| at_cancel s : party_trans s "Cancelled"
| at_expire s : party_trans s "Expired"
| at_lock : party_trans "PendingSignatures" "expiring"
| at_unlock : party_trans "expiring" "PendingSignatures".

Record party_evolves (r r' : AgreementPartyRow) : Prop := mkPartyEvolves {
  pe_key : (ap_party_pubkey r', ap_agreement_pda r') = (ap_party_pubkey r, ap_agreement_pda r);
  pe_owner : ap_creator_pubkey r' = ap_creator_pubkey r;
  pe_dates : (ap_created_at r', ap_expires_at r') = (ap_created_at r, ap_expires_at r);
  pe_title : ap_title r' = ap_title r;
  pe_signed : ap_signed_at r <> None -> ap_signed_at r' <> None;
  pe_status : star party_trans (ap_status r) (ap_status r');
}.

#[export] Instance party_evolves_preorder : PreOrder party_evolves.
Proof.
  split.
  - intros r. split; try done; apply star_refl.
  - intros r1 r2 r3 [] []. split; try congruence; auto. etransitivity; eassumption.
Qed.

(** A row the listener has inserted: a placeholder title and an expiry of thirty
    days, whatever the agreement says. *)
Definition listener_row (r : AgreementPartyRow) : Prop :=
  ap_title r = "Agreement" /\ ap_expires_at r = ap_created_at r + 2592000 /\
  star party_trans "PendingSignatures" (ap_status r).

Definition parties_evolve (d d' : Db) : Prop :=
  grows party_evolves listener_row (db_parties d) (db_parties d').

#[export] Instance parties_evolve_preorder : PreOrder parties_evolve.
Proof.
  split; [intros d; apply grows_refl; typeclasses eauto|].
  intros x y z. apply grows_trans; [typeclasses eauto|].
  intros r r' (Ht & He & Hs) [? ? [= ? ?] ? ? ?]. unfold listener_row.
  split; [congruence|]. split; [congruence|]. etransitivity; eassumption.
Qed.

Lemma only_parties : only db_parties parties_evolve.
Proof. intros d d' E. unfold parties_evolve. rewrite E. apply grows_refl. typeclasses eauto. Qed.

Lemma party_update p f d :
  (forall r, p r = true -> party_evolves r (f r)) ->
  parties_evolve d (set_parties (update_where p f) d).
Proof.
  intros Hf. apply grows_forall2, Forall2_update; [typeclasses eauto|]. auto.
Qed.

(** The row of a status transition. *)
Lemma status_evolves st r :
  party_trans (ap_status r) st -> party_evolves r (set_party_status st r).
Proof. intros Ht. split; try done. by apply star_one. Qed.

Lemma in_status_spec pda st r : in_status pda st r = true -> ap_status r = st.
Proof. intros [_ Hs]%andb_true_iff. by apply String.eqb_eq. Qed.

(** Nothing leads to [Completed]. *)
Lemma never_completed s s' : star party_trans s s' -> s' = "Completed" -> s = "Completed".
Proof.
  induction 1 as [|a b c Hab _ IH]; [done|]. intros Hc. specialize (IH Hc). subst b.
  inversion Hab.
Qed.

(** ** Notification jobs *)

Record job_evolves (r r' : NotificationRow) : Prop := mkJobEvolves {
  je_view : job_view r' = job_view r;
  je_attempts : nq_attempts r <= nq_attempts r';
}.

#[export] Instance job_evolves_preorder : PreOrder job_evolves.
Proof. split; [by split|]. intros x y z [] []. split; [congruence | lia]. Qed.

Definition pending_job (r : NotificationRow) : Prop := nq_status r = "pending".

Definition jobs_evolve (d d' : Db) : Prop :=
  grows job_evolves pending_job (db_notifications d) (db_notifications d').

#[export] Instance jobs_evolve_preorder : PreOrder jobs_evolve.
Proof.
  split; [intros d; apply grows_refl; typeclasses eauto|].
  intros x y z. apply grows_trans; [typeclasses eauto|].
  intros r r' Hp [Hv _]. unfold pending_job in *. injection Hv as _ _ _ _ -> _. done.
Qed.

Lemma only_jobs : only db_notifications jobs_evolve.
Proof. intros d d' E. unfold jobs_evolve. rewrite E. apply grows_refl. typeclasses eauto. Qed.

Section Operations.
Context `{Ext, Env} (cfg : AppState).

(** Code that writes neither party rows nor jobs. *)
Definition record_tables (d : Db) := (db_parties d, db_notifications d).
Definition same_records (d d' : Db) : Prop := record_tables d' = record_tables d.

#[export] Instance same_records_preorder : PreOrder same_records.
Proof. split; [done|]. intros x y z ??. unfold same_records in *. congruence. Qed.

Lemma same_records_evolve d d' : same_records d d' -> parties_evolve d d' /\ jobs_evolve d d'.
Proof. intros [= ? ?]. split; [by apply only_parties | by apply only_jobs]. Qed.

Lemma accept_records now pk token : keeps (on_db same_records) (accept_body now pk token).
Proof.
  assert (Hf : (forall id, stmt_keeps same_records (accept_stmt id)) /\
    (forall id slots, stmt_keeps same_records (slots_stmt id slots)) /\
    (forall id slots at_, stmt_keeps same_records (ready_stmt id slots at_))).
  { repeat split; intros; stmt_cases; done. }
  destruct Hf as (H1 & H2 & H3). unfold accept_body, internal.
  keeps_auto; (apply keeps_sql; [typeclasses eauto | auto]).
Qed.

#[export] Instance parties_stmts : StmtsKeep cfg parties_evolve.
Proof.
  split; try (stmt_frame only_parties); try (issue_frame only_parties).
  - intros party pda creator. stmt_cases; [reflexivity|]. apply grows_append; [typeclasses eauto|].
    apply Forall_singleton. split; [done|]. split; [done|]. apply star_refl.
  - intros party pda. stmt_cases. apply party_update. by split.
  - intros st pda Hst. stmt_cases. apply party_update. intros r _. apply status_evolves.
    destruct Hst as [->| ->]; constructor.
  - intros pda. stmt_cases. apply party_update. intros r Hr%in_status_spec.
    apply status_evolves. rewrite Hr. constructor.
  - intros pda. stmt_cases. apply party_update. intros r Hr%in_status_spec.
    apply status_evolves. rewrite Hr. constructor.
  - intros now pk token w. apply same_records_evolve, accept_records.
Qed.

#[export] Instance parties_marks : MarksKeep parties_evolve.
Proof. marks_frame only_parties. Qed.

#[export] Instance jobs_stmts : StmtsKeep cfg jobs_evolve.
Proof.
  split; try (stmt_frame only_jobs); try (issue_frame only_jobs).
  - intros id ty pda who at_. stmt_cases. apply grows_append; [typeclasses eauto|].
    by apply Forall_singleton.
  - intros id at_ t d a d'. by rewrite mark_sent_rejected.
  - intros id. stmt_cases. apply grows_forall2, Forall2_update; [typeclasses eauto|].
    intros r _ _. split; cbn; [done | lia].
  - intros now pk token w. apply same_records_evolve, accept_records.
Qed.

#[export] Instance jobs_marks : MarksKeep jobs_evolve.
Proof. marks_frame only_jobs. Qed.

Lemma parties_evolve_completed d d' :
  parties_evolve d d' -> forall r, r ∈ db_parties d' -> ap_status r = "Completed" ->
  exists r0, r0 ∈ db_parties d /\ party_evolves r0 r /\ ap_status r0 = "Completed".
Proof.
  intros (t1 & t2 & E & Hf & Hn) r Hr Hc. rewrite E in Hr.
  apply elem_of_app in Hr as [Hr|Hr].
  - apply list_elem_of_lookup in Hr as [n Hl].
    destruct (Forall2_lookup_r _ _ _ _ _ Hf Hl) as (r0 & Hr0 & Hev).
    exists r0. split; [by eapply list_elem_of_lookup_2|]. split; [done|].
    by eapply never_completed; [apply Hev|].
  - rewrite Forall_forall in Hn. destruct (Hn r Hr) as (_ & _ & Hs).
    by apply never_completed in Hs.
Qed.
End Operations.
