(* ===== verification/Concurrent.v ===== *)
(** * Concurrent: the interleavings of the operations

    The life cycles and the credentials when the steps of any operations
    interleave, and the races the code has. *)

From Stdlib Require Import ZArith Lia.
From Stdlib Require Import Strings.Byte Strings.Ascii Strings.String.
From stdpp Require Import base tactics decidable option list strings gmap.
From S2P Require Import Prelude Threads Text Errors Borsh SolanaTypes Health World Concrete Crypto.
From S2P Require Import Jwt Auth AuthFacts OAuth User Sealed AccountFacts Storage Upload.
From S2P Require Import Notification DraftData Solana Agreement Draft Invite InviteFacts.
From S2P Require Import Payments PaymentLifecycle EventListener Expiry Keeper System Sessions.
From S2P Require Import Workflow Records Steps.

Open Scope string_scope.
Open Scope list_scope.
Open Scope Z_scope.

(** ** Payments

    The listener and the keeper select a payment and then mark it by its id
    alone.  Each runs as one task; the listener's selection is of a confirmed
    payment, the keeper's of an expired one.  [keeping st]: the payments follow
    the life cycle and those of status [st] stay so.  Everything but the
    listener keeps "confirmed", everything but the keeper keeps "expired". *)

Section Keeping.
Context (st : string).

Record row_keeping (r r' : AgreementPaymentRow) : Prop := mkRowKeeping {
  rk_evolves : row_evolves r r';
  rk_status : py_status r = st -> py_status r' = st;
}.

#[export] Instance row_keeping_preorder : PreOrder row_keeping.
Proof.
  split; [split; [reflexivity | done]|]. intros x y z [Hxy Hx] [Hyz Hy].
  split; [by etransitivity | auto].
Qed.

Definition keeping (d d' : Db) : Prop :=
  map py_id (db_payments d') = map py_id (db_payments d) /\
  (payments_keyed d -> Forall2 row_keeping (db_payments d) (db_payments d')).

Lemma keeping_keyed d d' : keeping d d' -> (payments_keyed d' <-> payments_keyed d).
Proof. intros [Hi _]. unfold payments_keyed. by rewrite Hi. Qed.

#[export] Instance keeping_preorder : PreOrder keeping.
Proof.
  split; [split; [done | reflexivity]|]. intros x y z Hxy Hyz.
  split; [by rewrite (proj1 Hyz), (proj1 Hxy)|]. intros Hk.
  etransitivity; [by apply Hxy|]. apply Hyz. by apply (keeping_keyed x y).
Qed.

Lemma only_keeping : only db_payments keeping.
Proof. intros d d' E. split; rewrite E; [done | reflexivity]. Qed.

Lemma keeping_evolves d d' : payments_keyed d -> keeping d d' -> payments_evolve d d'.
Proof.
  intros Hk [_ Hf]. eapply Forall2_impl; [by apply Hf|]. by intros r r' [Hr _].
Qed.

(** An UPDATE whose rows are not of status [st]. *)
Lemma keeping_update p f d :
  (forall r, r ∈ db_payments d -> p r = true -> py_id (f r) = py_id r) ->
  (payments_keyed d -> forall r, r ∈ db_payments d -> p r = true ->
     row_evolves r (f r) /\ (py_status r = st -> py_status (f r) = st)) ->
  keeping d (set_payments (update_where p f) d).
Proof.
  intros Hid Hf. split; cbn.
  - clear Hf. unfold update_where. rewrite map_map. apply map_ext_in. intros r Hr.
    destruct (p r) eqn:Ep; [|done]. apply Hid; [by apply list_elem_of_In | done].
  - intros Hk. specialize (Hf Hk). clear Hk Hid. unfold update_where.
    induction (db_payments d) as [|r t IH]; cbn; [constructor|].
    constructor; [|apply IH; intros; apply Hf; [by right | done]].
    destruct (p r) eqn:Ep; [|reflexivity]. destruct (Hf r ltac:(left) Ep). by split.
Qed.
End Keeping.

Section Payments.
Context `{Ext, Env} (cfg : AppState).

Lemma keeping_guarded st from p f d :
  from <> st -> (forall r, p r = true -> py_status r = from) ->
  (forall r, py_status r = from -> row_evolves r (f r)) -> keeping st d (set_payments (update_where p f) d).
Proof.
  intros Hne Hp Hf. apply keeping_update.
  - intros r _ Hr. apply (re_id _ _ (Hf r (Hp r Hr))).
  - intros _ r _ Hr. split; [by apply Hf, Hp|]. intros E. by rewrite (Hp r Hr) in E.
Qed.

Lemma keeping_stmts st : "pending" <> st -> "refund_pending" <> st -> StmtsKeep cfg (keeping st).
Proof.
  split; try (stmt_frame (only_keeping st)); try (issue_frame (only_keeping st)).
  - intros id pda. stmt_cases. apply keeping_update; [by intros|].
    intros _ r _ Hr. split; [|done]. apply andb_true_iff in Hr as [_ Hr].
    apply String.eqb_eq in Hr. split; cbn; try done. congruence.
  - intros. intros now d a d'. by rewrite insert_payment_rejected.
  - intros reference sig mint amount. unfold confirm_stmt. apply stmt_keeps_prepared.
    intros now d a d'. destruct (tx_sigs_unique _); [|done]. intros [= _ <-].
    apply (keeping_guarded st "pending"); [done | |].
    + intros r Hr. unfold confirm_where in Hr. apply andb_true_iff in Hr as [_ Hr]. by apply py_is_spec.
    + intros r. apply confirm_row_evolves.
  - intros th. stmt_cases. apply (keeping_guarded st "pending"); [done | | apply expired_row_evolves].
    intros r Hr. apply andb_true_iff in Hr as [Hr _]. by apply py_is_spec.
  - intros id sig at_. stmt_cases. apply (keeping_guarded st "refund_pending"); [done | |].
    + intros r Hr. apply andb_true_iff in Hr as [_ Hr]. by apply py_is_spec.
    + intros r. apply refunded_row_evolves.
  - intros now pk token w. apply only_keeping. apply accept_body_payments.
Qed.

#[local] Instance confirmed_stmts : StmtsKeep cfg (keeping "confirmed")
  := keeping_stmts "confirmed" ltac:(done) ltac:(done).
#[local] Instance expired_stmts : StmtsKeep cfg (keeping "expired")
  := keeping_stmts "expired" ltac:(done) ltac:(done).

(** Rows with a status that the others keep. *)
Lemma all_status_kept st ids d d' :
  payments_keyed d' -> keeping st d d' -> all_status st ids d -> all_status st ids d'.
Proof.
  intros Hk Hkeep Ha r' Hr' Hid. pose proof (proj1 (keeping_keyed st _ _ Hkeep) Hk) as Hkd.
  destruct Hkeep as [_ Hf]. specialize (Hf Hkd).
  apply list_elem_of_lookup in Hr' as [i Hi]. destruct (Forall2_lookup_r _ _ _ _ _ Hf Hi) as (r & Hr & Hrr).
  apply (rk_status _ _ _ Hrr). apply Ha; [by eapply list_elem_of_lookup_2|].
  by rewrite <-(re_id _ _ (rk_evolves _ _ _ Hrr)).
Qed.

(** Marking a payment that has status [st], seen by who relies on [other]. *)
Lemma mark_keeping st other id now d a d' :
  st = "expired" \/ st = "confirmed" -> other <> st -> (payments_keyed d -> all_status st [id] d) ->
  mark_refund_pending_stmt id now d = Some (a, d') -> keeping other d d'.
Proof.
  intros Hst Hne Hall. unfold mark_refund_pending_stmt. rewrite prepared_ok by reflexivity.
  intros [= _ <-]. apply keeping_update; [by intros|]. intros Hk r Hr Hid%uuid_eqb_spec.
  assert (E : py_status r = st) by (apply (Hall Hk); [done | by apply list_elem_of_singleton]).
  split; [apply refund_pending_row_evolves; rewrite E; exact Hst | congruence].
Qed.

Lemma sql_keeping {A} other (s : Stmt A) w :
  (forall now a d', s now (w_db w) = Some (a, d') -> keeping other (w_db w) d') ->
  on_db (keeping other) w (snd (sql s w)).
Proof.
  intros Hs. unfold on_db, sql.
  destruct (db_fault (w_tick w)); cbn; [|reflexivity|];
    destruct (s _ _) as [[a d]|] eqn:E; cbn; try reflexivity; by eapply Hs.
Qed.

Abbreviation listener_safe := (safe (on_db (keeping "confirmed")) (on_db (keeping "expired"))).
Abbreviation keeper_safe := (safe (on_db (keeping "expired")) (on_db (keeping "confirmed"))).

(** The listener: between the selection and the mark the payment stays
    confirmed. *)
Lemma initiate_refund_safe pda w : listener_safe any (steps (initiate_refund_steps pda)) w.
Proof.
  cbn. intros w1 _. split; [apply sql_keeping; by intros now a d' [= _ <-]|].
  destruct (sql _ w1) as [[id|e] w2] eqn:Eq; [|done].
  apply sql_query_Ok in Eq as (Eid & -> ). destruct id as [id|]; cbn; [|done].
  intros w2 Hr. split; [|by destruct (sql _ w2) as [[[]|e] w3]].
  apply sql_keeping. intros now a d'. apply (mark_keeping "confirmed"); [by right | done|].
  intros Hk. apply (all_status_kept _ _ (w_db w1)); [done | exact Hr|].
  destruct (fetch_optional _) as [r|] eqn:Ef; [|done]. injection Eid as ->.
  apply fetch_optional_Some, elem_of_where in Ef as [Hin Hp].
  apply andb_true_iff in Hp as [_ Hp]. apply py_is_spec in Hp.
  intros x Hx Hid%list_elem_of_singleton. rewrite (keyed_unique (w_db w1) x r); [done| |done..].
  by apply (keeping_keyed "confirmed" (w_db w1) (w_db w2)).
Qed.

Lemma process_log_safe log w : listener_safe any (steps (process_log_steps log)) w.
Proof. unfold process_log_steps. safe_auto walk ltac:(apply initiate_refund_safe). Qed.

(** The keeper: while it asks the RPC node about one expired payment after the
    other, those still to come stay expired. *)
Definition late_to_come (ps : list (Uuid * string)) (w : World) : Prop :=
  payments_keyed (w_db w) ->
  NoDup (map fst ps) /\ all_status "expired" (map fst ps) (w_db w).

Lemma late_kept ps w w' : on_db (keeping "expired") w w' -> late_to_come ps w -> late_to_come ps w'.
Proof.
  intros Hr Hl Hk. destruct (Hl (proj1 (keeping_keyed _ _ _ Hr) Hk)) as [Hn Ha].
  split; [done|]. by apply (all_status_kept _ _ _ _ Hk Hr).
Qed.

Lemma late_tail p ps w : late_to_come (p :: ps) w -> late_to_come ps w.
Proof.
  intros Hl Hk. destruct (Hl Hk) as [Hn Ha]. apply NoDup_cons in Hn as [_ Hn].
  split; [done|]. intros r Hr Hid. apply Ha; [done | by right].
Qed.

Lemma mark_late p ps w r w' :
  late_to_come (p :: ps) w -> sql (mark_refund_pending_stmt (fst p)) w = (r, w') ->
  on_db (keeping "confirmed") w w' /\ late_to_come ps w'.
Proof.
  intros Hl Hs. assert (Hk : on_db (keeping "confirmed") w w').
  { change w' with (snd (r, w')). rewrite <-Hs. apply sql_keeping. intros now a d'.
    apply (mark_keeping "expired"); [by left | done|]. intros Hk x Hx Hid%list_elem_of_singleton.
    apply (proj2 (Hl Hk)); [done|]. rewrite Hid. left. }
  split; [done|]. intros Hk'. pose proof (proj1 (keeping_keyed _ _ _ Hk) Hk') as Hk0.
  destruct (Hl Hk0) as [Hn Ha]. apply NoDup_cons in Hn as [Hnot Hn]. split; [done|].
  pose proof (sql_db (E:=unit) (mark_refund_pending_stmt (fst p)) (all_status "expired" (map fst ps)) w)
    as Hdb. unfold attempt in Hdb. rewrite Hs in Hdb. apply Hdb.
  - intros x Hx Hid. apply Ha; [done | by right].
  - intros a d. apply mark_refund_pending_other; [done|]. intros x Hx Hid. apply Ha; [done | by right].
Qed.

Lemma reconcile_one_safe p ps w :
  late_to_come (p :: ps) w ->
  safe (on_db (keeping "expired")) (on_db (keeping "confirmed")) (fun _ => late_to_come ps)
    (steps (reconcile_one_steps p)) w.
Proof.
  intros Hl. unfold reconcile_one_steps, reconcile_one.
  destruct (pubkey_from_str (snd p)) as [k|]; cbn.
  - intros w1 Hr. split; [exact (reflexivity (w_db w1))|]. unfold attempt. cbn.
    destruct (rpc_account (w_tick w1) k); cbn.
    2:{ intros w2 Hr2. eapply late_kept; [|by eapply late_tail]. by etransitivity; [exact Hr|]. }
    intros w2 Hr2. assert (Hl2 : late_to_come (p :: ps) w2).
    { eapply late_kept; [|exact Hl]. by etransitivity; [exact Hr|]. }
    destruct (sql (mark_refund_pending_stmt (fst p)) w2) as [r w3] eqn:Es.
    destruct (mark_late _ _ _ _ _ Hl2 Es) as [Hg Hl3]. unfold attempt. rewrite Es.
    split; [exact Hg|]. destruct r; intros w4 Hr4; by eapply late_kept.
  - intros w1 Hr. eapply late_kept; [exact Hr | by eapply late_tail].
Qed.

Lemma reconcile_safe w : keeper_safe any (steps reconcile_steps) w.
Proof.
  unfold reconcile_steps, reconcile_late_payments. cbn. intros w1 _. split; [exact (reflexivity (w_db w1))|].
  intros w2 _. split.
  - unfold attempt. pose proof (sql_keeping "confirmed" (query (late_payments (app_now (w_tick w1) - 3600))) w2)
      as Hq. destruct (sql _ w2). apply Hq. by intros now a d' [= _ <-].
  - unfold attempt. destruct (sql _ w2) as [[ps|e] w3] eqn:Eq; cbn; [|done].
    apply sql_query_Ok in Eq as [-> ->].
    apply (safe_pfor_each_inv _ _ late_to_come).
    + intros p ps w3 Hl. by apply reconcile_one_safe.
    + intros Hk. by apply late_payments_ids.
Qed.

Lemma keeper_cycle_safe st w : keeper_safe any (steps (keeper_cycle_steps cfg st)) w.
Proof. unfold keeper_cycle_steps. safe_auto walk ltac:(apply reconcile_safe). Qed.

(** The two tasks: the listener handles one log after the other, the keeper
    runs one cycle after the other. *)
Definition listener_prog (logs : list ProgramLog) : Prog World unit (option AuthResponse) :=
  pview no_tokens (pfor_each logs (fun log => steps (process_log_steps log))).

Fixpoint keeper_prog (n : nat) (status : WorkerStatus) : Prog World unit (option AuthResponse) :=
  match n with
  | O => Done (Ok None)
  | S n' => pbind (pattempt (steps (keeper_cycle_steps cfg status)))
              (fun r => keeper_prog n' (match r with Ok st => st | Err _ => status end))
  end.

Lemma keeper_prog_run n status w :
  snd (run (keeper_prog n status) w) = snd (keeper_cycles cfg n status w).
Proof.
  revert status w. induction n as [|n IH]; intros status w; [done|]. cbn [keeper_prog keeper_cycles].
  rewrite run_pbind. unfold bind. rewrite run_pattempt. unfold attempt. rewrite steps_run.
  destruct (keeper_cycle cfg status w) as [r w1]. apply IH.
Qed.

Lemma listener_prog_run logs w :
  snd (run (listener_prog logs) w) = snd (for_each logs process_log w).
Proof.
  unfold listener_prog. rewrite run_pview. cbn [snd].
  exact (f_equal snd (steps_run (steps_for_each logs process_log process_log_steps) w)).
Qed.

Lemma listener_prog_safe logs w : listener_safe any (listener_prog logs) w.
Proof.
  apply safe_pview. apply safe_any_pfor_each; [typeclasses eauto|]. intros; apply process_log_safe.
Qed.

Lemma keeper_prog_safe n status w : keeper_safe any (keeper_prog n status) w.
Proof.
  revert status w. induction n as [|n IH]; intros status w; [done|].
  apply safe_any_pbind; [typeclasses eauto | | intros; apply IH].
  apply safe_any_pattempt, keeper_cycle_safe.
Qed.

(** C1: refinement of the payment life cycle, under every interleaving.  However
    the statements, calls and clock readings of one listener, one keeper and
    any number of requests and other worker cycles interleave, and whatever the
    database, the clock and the RPC node do at each, no payment row is lost or
    created, every row's status moves only along pending -> confirmed | expired
    -> refund_pending -> refunded, a payment never changes its draft, user or
    reference, and a refunded row is never written again. *)
Theorem payments_follow_lifecycle_interleaved (logs : list ProgramLog) (n : nat)
    (status : WorkerStatus) (os : list op) (w : World) (c : Pool World unit (option AuthResponse)) :
  payments_keyed (w_db w) -> Forall (fun o => marks_payments o = false) os ->
  star pool_step (listener_prog logs :: keeper_prog n status :: map (op_prog cfg) os, w) c ->
  payments_evolve (w_db w) (w_db c.2).
Proof.
  intros Hk Hos Hs.
  set (both := fun w w' => on_db (keeping "confirmed") w w' /\ on_db (keeping "expired") w w').
  set (rely := fun i => match i with
    | 0 => on_db (keeping "confirmed") | 1 => on_db (keeping "expired") | _ => fun _ _ => True end%nat).
  set (guar := fun i => match i with
    | 0 => on_db (keeping "expired") | 1 => on_db (keeping "confirmed") | _ => both end%nat).
  assert (Hev : forall st d d', keeping st d d' -> keyed_payments_evolve d d').
  { intros st d d' Hd Hkd. by eapply keeping_evolves. }
  assert (forall i, PreOrder (rely i)) by (intros [|[|i]]; cbn; [typeclasses eauto.. | by split]).
  refine (proj1 (pool_rely (on_db keyed_payments_evolve) rely guar (fun _ => any) _ c _ _ _ Hs) Hk).
  - intros [|[|i]] w1 w2 Hg; cbn in Hg; try (by eapply Hev). by eapply Hev, (proj1 Hg).
  - intros [|[|i]] [|[|j]] w1 w2 Hij _ _ Hg; cbn in *; try done; apply Hg.
  - intros [|[|i]] p Hi; cbn in Hi.
    + injection Hi as <-. apply listener_prog_safe.
    + injection Hi as <-. apply keeper_prog_safe.
    + apply list_elem_of_lookup_2, list_elem_of_fmap in Hi as (o & -> & Ho).
      apply pkeeps_safe. rewrite Forall_forall in Hos. specialize (Hos o Ho).
      apply pkeeps_and; apply op_prog_pkeeps_unmarked; [typeclasses eauto.. | done | | | done];
        typeclasses eauto.
Qed.
End Payments.

(** ** The other tables *)

Section Tables.
Context `{Ext, Env} (cfg : AppState) (os : list op) (w : World)
  (c : Pool World unit (option AuthResponse)) (Hreach : star pool_step (start cfg os w) c).

Lemma interleaved_workflow : uuid_text -> workflow_wf (w_db w) -> workflow (w_db w) (w_db c.2).
Proof.
  intros Hu. pose proof (workflow_stmts cfg Hu).
  exact (interleavings_keep cfg workflow_step os w c Hreach).
Qed.

(** C2: refinement of the draft life cycle, under every interleaving.  However the
    statements, calls and clock readings of any operations interleave, drafts
    are never removed and their ids stay unique; a draft keeps its creator, its
    payload and its date, stays paid once it is paid, changes its status only
    to discarded or ready, and its slots only by an invited party's slot
    getting that party's key.  A draft that is ready has a key in every
    slot. *)
Theorem drafts_follow_lifecycle_interleaved :
  uuid_text -> workflow_wf (w_db w) ->
  NoDup (map ad_id (db_drafts (w_db c.2))) /\ drafts_evolve (w_db w) (w_db c.2).
Proof. intros Hu Hw. by destruct (interleaved_workflow Hu Hw) as [[] ? ? ?]. Qed.

(** C3: refinement of the invitation life cycle, under every interleaving.  An
    invitation keeps its draft, token, address and expiry, and its status moves
    only from pending to accepted or to expired; it becomes accepted only if a
    slot of its draft named it from the beginning. *)
Theorem invitations_follow_lifecycle_interleaved :
  uuid_text -> workflow_wf (w_db w) ->
  invitations_evolve (w_db w) (w_db c.2) /\ accepted_named (w_db w) (w_db c.2).
Proof. intros Hu Hw. by destruct (interleaved_workflow Hu Hw). Qed.

(** C17: the stored contacts stay readable and findable, under every
    interleaving.  In every contact row an email, a phone or a push token is
    absent with its nonce, or it is a ciphertext that opens under the configured
    key and the stored nonce, for which [decrypt] answers its text; and next to
    an email is the blind index, under the configured index key, of the very
    text the email opens to.  So updates of contacts and sign-ins through a
    provider, which write these columns in different places, keep ciphertext,
    nonce and index together. *)
Theorem contacts_stay_readable_interleaved :
  aes_correct -> random_lengths ->
  contacts_readable cfg (w_db w) -> contacts_readable cfg (w_db c.2).
Proof.
  intros Haes Hrand. pose proof (readable_step_preorder cfg).
  pose proof (readable_stmts cfg Haes Hrand). pose proof (readable_marks cfg).
  exact (interleavings_keep cfg (readable_step cfg) os w c Hreach).
Qed.

(** C30: the life cycle of a party row, and that it never completes, under every
    interleaving.  Party rows stay, with their key, creator and expiry;
    signatures stay; the status moves only to Cancelled or Expired or between
    PendingSignatures and expiring.  So an agreement everyone has signed is
    never recorded as completed, and stays open to the expiry worker. *)
Theorem parties_never_complete_interleaved :
  parties_evolve (w_db w) (w_db c.2) /\
  forall r, r ∈ db_parties (w_db c.2) -> ap_status r = "Completed" ->
    exists r0, r0 ∈ db_parties (w_db w) /\ party_evolves r0 r /\ ap_status r0 = "Completed".
Proof.
  pose proof (interleavings_keep cfg parties_evolve os w c Hreach) as Hk. split; [exact Hk|].
  by apply parties_evolve_completed.
Qed.

(** C31: no notification is ever marked as sent, under every interleaving.
    [mark_sent] names a column the table does not have, so every job keeps its
    recipient, event and status while its attempt counter only grows, and every
    new job is pending: what was pending stays pending for ever. *)
Theorem notifications_never_sent_interleaved : jobs_evolve (w_db w) (w_db c.2).
Proof. exact (interleavings_keep cfg jobs_evolve os w c Hreach). Qed.

(** Display names stay safe to show, under every interleaving. *)
Theorem display_names_clean_interleaved (u : UserAccountRow) (name : string) :
  names_clean (w_db w) -> u ∈ db_users (w_db c.2) -> ua_display_name u = Some name -> clean_name name.
Proof. intros Hc. exact (interleavings_keep cfg names_step os w c Hreach Hc u name). Qed.

(** C32: a renewed invitation can never be accepted.  [reinvite_draft] stores a
    new pending invitation that no slot of the draft names (its id is fresh);
    whatever is done afterwards, and however it interleaves, that invitation
    never becomes accepted. *)
Theorem reinvited_never_accepted_interleaved (user draft_id invitation : Uuid) (w0 : World)
    (resp : ReinviteResponse) :
  uuid_text -> workflow_wf (w_db w0) ->
  reinvite_draft cfg user draft_id invitation w0 = (Ok resp, w) ->
  (forall r slots, r ∈ db_drafts (w_db w0) -> ad_id r = draft_id -> slots_of r = Some slots ->
     ri_invitation_id resp ∉ slot_ids slots) ->
  forall i, i ∈ db_invitations (w_db c.2) ->
    pi_id i = ri_invitation_id resp -> pi_status i <> "accepted".
Proof.
  intros Hu Hwf Hr Hf. apply (reinvited_later cfg _ _ _ _ _ _ _ Hu Hwf Hr Hf).
  intros Hw. by apply interleaved_workflow.
Qed.

(** C15: the invited parties are left out of the agreement.  Create an
    agreement that has to wait for wallets, let anything happen in any
    interleaving (the invited parties accept, the creator pays), and submit the
    draft: the on-chain instruction carries the keys known when the draft was
    created and nobody else, so at least one party less for each invitation. *)
Theorem invited_parties_dropped_interleaved (user : Uuid) (pubkey : string)
    (req : CreateAgreementRequest) (w0 w2 : World) (draft_id : Uuid)
    (pending : list PendingInvitation) (user' : Uuid) (pubkey' : string)
    (sreq : SubmitDraftRequest) (resp : SubmitDraftResponse) :
  uuid_text -> workflow_wf (w_db w0) -> cr_expires_in_secs req < two64 ->
  0 <= cfg_invite_expiry_seconds cfg ->
  create_agreement cfg user pubkey req w0 = (Ok (AwaitingPartyWallets draft_id pending), w) ->
  submit_draft cfg user' pubkey' draft_id sreq c.2 = (Ok resp, w2) ->
  exists t ix args, tx_encode t = Some (sd_transaction resp) /\ tx_instructions t = [ix] /\
    ix_data ix = CREATE_AGREEMENT_DISCRIMINATOR ++ enc c_create_args args /\
    (exists r slots, r ∈ db_drafts (w_db w) /\ ad_id r = draft_id /\ slots_of r = Some slots /\
       ca_parties args = omap pubkey_from_str (omap de_pubkey slots)) /\
    (length (ca_parties args) + length pending <= length (cr_parties req))%nat.
Proof.
  intros Hu Hwf Hx Hc0 Hcr Hsub.
  apply (invited_dropped_later cfg _ _ _ _ _ _ _ _ _ _ _ _ _ Hu Hwf Hx Hc0 Hcr Hsub).
  intros Hw. by apply interleaved_workflow.
Qed.
End Tables.

(** ** Credentials *)

Section Credentials.
Context `{Ext, Env} (cfg : AppState).

(** The requests that use the nonce [n]. *)
Definition uses_nonce (n : string) (o : op) : bool :=
  match o with
  | OpVerify req => String.eqb (vr_nonce req) n
  | OpLinkWallet _ req => String.eqb (lw_nonce req) n
  | _ => false
  end.

Definition uses_refresh_token (token : string) (o : op) : bool :=
  match o with OpRefresh t => String.eqb t token | _ => false end.

(** The thread of [os] at [i] was answered. *)
Definition answered (c : Pool World unit (option AuthResponse)) (i : nat) : Prop :=
  exists a, c.1 !! i = Some (Done (Ok a)).

Lemma spend_nonce_takes {A} n (k : unit -> Prog World AppError A) :
  takes (fun w => nonces_keyed (w_db w)) (fun w => gone db_nonces sn_nonce n (w_db w))
    (pbind (steps (spend_nonce_steps n)) k).
Proof.
  apply takes_pbind_l. cbn. intros w Hk.
  destruct (spend_nonce n w) as [[a|e] w'] eqn:Es.
  - apply spend_nonce_Ok in Es as Hsp. apply (nonce_spent_gone _ _ _ Hk) in Hsp.
    unfold spend_nonce, bind, internal in Es.
    destruct (map_err _ _ w) as [[[x|]|e] w2]; try discriminate Es. injection Es as _ <-. by right.
  - unfold spend_nonce, bind, internal in Es.
    destruct (map_err _ _ w) as [[[x|]|e2] w2]; try discriminate Es; [by left | done].
Qed.

Lemma consume_refresh_takes {A} token (k : Uuid -> Prog World AppError A) :
  takes (fun w => refresh_keyed (w_db w))
    (fun w => gone db_refresh rt_token_hash (sha256_hex token) (w_db w))
    (pbind (act (internal (sql (consume_refresh_stmt (sha256_hex token)))))
       (fun row => pbind (Done (ok_or row InvalidRefreshToken)) k)).
Proof.
  apply takes_act_bind. intros w row w' Hk Hs%map_err_Ok.
  destruct row as [u|]; cbn; [|by left]. right.
  apply sql_Ok in Hs as (d & Hd & ->). apply consume_refresh_Some in Hd as [-> Hx].
  destruct (Hx u eq_refl) as (r & Hr & Hh & _ & Hl). split; [intros Hg; by destruct (Hg r)|].
  eapply (credential_used db_refresh rt_token_hash (sha256_hex token)
    (fun x => hash_is (sha256_hex token) x && refresh_live (db_now (w_tick w)) x));
    [exact Hk | exact Hr | done | | done].
  rewrite Hl. unfold hash_is. by rewrite Hh, String.eqb_refl.
Qed.

(** At most one of the threads that need a credential is answered. *)
Lemma credential_once {Row} (table : Db -> list Row) (name : Row -> string) (n : string)
    (needs : op -> bool) `{!StmtsKeep cfg (credential_step table name n),
      !MarksKeep (credential_step table name n)} os w c :
  (forall o, needs o = true ->
     takes (fun w => keyed table name (w_db w)) (fun w => gone table name n (w_db w)) (op_prog cfg o)) ->
  keyed table name (w_db w) -> star pool_step (start cfg os w) c ->
  (forall i j o1 o2, os !! i = Some o1 -> os !! j = Some o2 -> needs o1 = true -> needs o2 = true ->
     answered c i -> answered c j -> i = j) /\
  (gone table name n (w_db w) ->
     forall i o, os !! i = Some o -> needs o = true -> ~ answered c i).
Proof.
  intros Ht Hk Hs.
  set (contends := fun i => match os !! i with Some o => needs o = true | None => False end).
  assert (Hdec : forall i, Decision (contends i)).
  { intros i. unfold contends. destruct (os !! i); apply _. }
  destruct (once (fun w => keyed table name (w_db w)) (fun w => gone table name n (w_db w))
    (on_db (credential_step table name n)) (fun w w' Hl Hw => Hl Hw) contends (start cfg os w) c)
    as [H1 H2]; [exact Hk | | | exact Hs |].
  - apply Forall_forall. intros p (o & -> & _)%list_elem_of_fmap.
    apply op_prog_pkeeps; typeclasses eauto.
  - intros i p Hc Hi. cbn in Hi. rewrite list_lookup_fmap in Hi. unfold contends in Hc.
    destruct (os !! i) as [o|]; [|done]. injection Hi as <-. by apply Ht.
  - split.
    + intros i j o1 o2 Hi Hj Hn1 Hn2 [a Ha] [b Hb]. apply (H1 i j a b); [| |exact Ha|exact Hb];
        unfold contends; by rewrite ?Hi, ?Hj.
    + intros Hg i o Hi Hn [a Ha]. apply (H2 Hg i a); [|exact Ha]. unfold contends. by rewrite Hi.
Qed.

(** C5: no replay of a sign-in, under every interleaving.  However the steps of
    any operations interleave and whatever fails, of all the sign-ins and
    linkings with one nonce that is not issued again at most one is answered
    with tokens, and none when the nonce is not in the table at the start. *)
Theorem nonce_single_use_interleaved (n : string) (os : list op) (w : World)
    (c : Pool World unit (option AuthResponse)) :
  (forall k, uuid_to_string (fresh_uuid k) <> n) -> nonces_keyed (w_db w) ->
  star pool_step (start cfg os w) c ->
  (forall i j o1 o2, os !! i = Some o1 -> os !! j = Some o2 ->
     uses_nonce n o1 = true -> uses_nonce n o2 = true ->
     answered c i -> answered c j -> i = j) /\
  (gone db_nonces sn_nonce n (w_db w) ->
     forall i o, os !! i = Some o -> uses_nonce n o = true -> ~ answered c i).
Proof.
  intros Hn Hk Hs. pose proof (nonces_stmts cfg n Hn).
  refine (credential_once db_nonces sn_nonce n (uses_nonce n) os w c _ Hk Hs).
  intros o Ho. destruct o; try discriminate Ho; cbn in Ho; apply String.eqb_eq in Ho; subst n;
    apply takes_pview.
  - exact (spend_nonce_takes _ _).
  - unfold link_wallet_steps, link_wallet. destruct (au_pubkey auth); [exact I|].
    exact (spend_nonce_takes _ _).
Qed.

(** C6: a refresh token is good for one refresh, under every interleaving.
    However the steps of any operations interleave and whatever fails, of all
    the refreshes with a token whose hash is not drawn again at most one is
    answered, and none when the token is not in the table at the start, as
    after a logout. *)
Theorem refresh_token_single_use_interleaved (token : string) (os : list op) (w : World)
    (c : Pool World unit (option AuthResponse)) :
  (forall k, sha256_hex (hex_encode (random_bytes k 32)) <> sha256_hex token) ->
  refresh_keyed (w_db w) -> star pool_step (start cfg os w) c ->
  (forall i j o1 o2, os !! i = Some o1 -> os !! j = Some o2 ->
     uses_refresh_token token o1 = true -> uses_refresh_token token o2 = true ->
     answered c i -> answered c j -> i = j) /\
  (gone db_refresh rt_token_hash (sha256_hex token) (w_db w) ->
     forall i o, os !! i = Some o -> uses_refresh_token token o = true -> ~ answered c i).
Proof.
  intros Hn Hk Hs. pose proof (refresh_stmts cfg token Hn).
  refine (credential_once db_refresh rt_token_hash (sha256_hex token) (uses_refresh_token token)
    os w c _ Hk Hs).
  intros o Ho. destruct o; try discriminate Ho; cbn in Ho. apply String.eqb_eq in Ho; subst.
  apply takes_pview. exact (consume_refresh_takes _ _).
Qed.

(** ** Concurrent sign-ins of one wallet *)

Abbreviation wallets_safe := (safe (on_db wallets_kept) (on_db wallets_kept)).

(** What an answered sign-in with the wallet [pk] has told. *)
Definition signed_in (pk : string) (r : result unit (option AuthResponse)) (w : World) : Prop :=
  forall resp, r = Ok (Some resp) ->
    exists user exp iat jti, wallet_user pk (w_db w) = Some user /\
      jwt_encode (cfg_jwt_secret cfg) (mkClaims user (Some pk) exp iat jti)
        = Some (ar_access_token resp).

Abbreviation sign_in_result pk := (fun (r : result AppError AuthResponse) => signed_in pk (viewed Some r)).

Lemma issue_safe user pk w :
  wallet_user pk (w_db w) = Some user ->
  wallets_safe (sign_in_result pk) (steps (issue_tokens_steps cfg user (Some pk))) w.
Proof.
  intros Hu. cbn -[issue_and_store_refresh_token]. intros w1 Hr1. split; [exact (reflexivity (w_db w1))|]. cbn -[issue_and_store_refresh_token].
  intros w2 Hr2. split; [exact (reflexivity (w_db w2))|]. cbn -[issue_and_store_refresh_token].
  destruct (jwt_encode _ _) as [token|] eqn:Ej; cbn -[issue_and_store_refresh_token]; [|by intros w3 _ resp].
  intros w3 Hr3.
  assert (Hk : on_db wallets_kept w3 (snd (issue_and_store_refresh_token user w3)))
    by apply (wk_issue_refresh cfg wallets_kept).
  split; [exact Hk|]. destruct (issue_and_store_refresh_token user w3) as [[rt|e] w4]; cbn in Hk |- *;
    [|by intros w5 _ resp]. intros w5 Hr5 resp [= <-].
  exists user. do 3 eexists. split; [|exact Ej]. by apply Hr5, Hk, Hr3, Hr2, Hr1.
Qed.

Lemma insert_wallet_user user pk w a w' :
  sql (insert_wallet_stmt user pk) w = (Ok a, w') -> wallet_user pk (w_db w') = Some user.
Proof.
  intros (d & Hd & ->)%sql_Ok. apply insert_wallet_Some in Hd as [[Hn _] ->]. cbn.
  exact (wallet_user_app pk (w_db w) user (fun t => t) _ Hn).
Qed.

Lemma verify_safe req w : wallets_safe (signed_in (vr_pubkey req)) (op_prog cfg (OpVerify req)) w.
Proof.
  cbn [op_prog]. apply safe_pview.
  unfold verify_steps, verify.
  apply (pkeeps_then (on_db wallets_kept) (on_db wallets_kept) (sign_in_result (vr_pubkey req))
           (steps (spend_nonce_steps (vr_nonce req))));
    [apply (spend_nonce_pkeeps cfg); typeclasses eauto | | by intros e w' resp].
  intros [] w1. set (pk := vr_pubkey req).
  apply (safe_pbind (on_db wallets_kept) (on_db wallets_kept) any); [by intros w' _ | | by intros e w' _ resp].
  intros [] w2 _.
  apply (safe_pbind (on_db wallets_kept) (on_db wallets_kept) (fun (r : result AppError (option Uuid)) w =>
    forall u, r = Ok (Some u) -> wallet_user pk (w_db w) = Some u));
    [ | | by intros e w' _ resp].
  - change (wallets_safe (fun (r : result AppError (option Uuid)) w =>
      forall u, r = Ok (Some u) -> wallet_user pk (w_db w) = Some u)
      (act (internal (sql (query (wallet_user pk))))) w2).
    apply safe_act.
    + unfold internal. keeps_auto.
    + intros r w3 w4 Hu Hr u Hru. by apply Hr, Hu.
    + intros w3 r w4 _ Hq u ->. apply map_err_Ok, sql_query_Ok in Hq as [Hu ->]. by rewrite Hu.
  - intros existing w3 Hex.
    apply (safe_pbind (on_db wallets_kept) (on_db wallets_kept) (fun (r : result AppError Uuid) w =>
      forall u, r = Ok u -> wallet_user pk (w_db w) = Some u)); [ | | by intros e w' _ resp].
    + destruct existing as [u|].
      * intros w4 Hr u' [= <-]. by apply Hr, Hex.
      * apply (pkeeps_then (on_db wallets_kept) (on_db wallets_kept) _ (steps create_user_steps));
          [apply (create_user_pkeeps cfg); typeclasses eauto | | done].
        intros u w4.
        apply (safe_pbind (on_db wallets_kept) (on_db wallets_kept) (fun (r : result AppError unit) w =>
          is_ok r = true -> wallet_user pk (w_db w) = Some u)); [ | | done].
        -- change (wallets_safe (fun (r : result AppError unit) w =>
             is_ok r = true -> wallet_user pk (w_db w) = Some u)
             (act (internal (sql (insert_wallet_stmt u pk)))) w4).
           apply safe_act.
           ++ unfold internal. keeps_auto. apply keeps_sql; [typeclasses eauto|].
              apply (wk_insert_wallet cfg wallets_kept).
           ++ intros r w5 w6 Hu Hr Hok. by apply Hr, Hu.
           ++ intros w5 [a|e] w6 _ Hq; [|done]. intros _. apply map_err_Ok in Hq.
              by eapply insert_wallet_user.
        -- intros a w5 Hu w6 Hr u' [= <-]. by apply Hr, Hu.
    + intros u w4 Hu. apply issue_safe. by apply Hu.
Qed.

(** C10: concurrent sign-ins of one wallet agree.  However the steps of any
    operations interleave, the tokens of an answered sign-in with a wallet name
    the user this wallet belongs to at the end; so all the sign-ins with one
    wallet that are answered, the first ones included, name the same user. *)
Theorem concurrent_sign_ins_agree (os : list op) (w : World)
    (c : Pool World unit (option AuthResponse)) (i : nat) (req : VerifyRequest) (resp : AuthResponse) :
  star pool_step (start cfg os w) c -> os !! i = Some (OpVerify req) ->
  c.1 !! i = Some (Done (Ok (Some resp))) ->
  exists user exp iat jti, wallet_user (vr_pubkey req) (w_db c.2) = Some user /\
    jwt_encode (cfg_jwt_secret cfg) (mkClaims user (Some (vr_pubkey req)) exp iat jti)
      = Some (ar_access_token resp).
Proof.
  intros Hs Hi Hd.
  set (Q := fun j => match os !! j with
    | Some (OpVerify r) => signed_in (vr_pubkey r) | _ => any end).
  assert (Hsafe : pool_safe (fun _ => on_db wallets_kept) (fun _ => on_db wallets_kept) Q c).
  { refine (proj2 (pool_rely (on_db wallets_kept) _ _ Q _ c _ _ _ Hs)).
    - done.
    - done.
    - intros j p Hj. cbn in Hj. rewrite list_lookup_fmap in Hj. unfold Q.
      destruct (os !! j) as [o|] eqn:Ej; [|done]. injection Hj as <-.
      assert (Hany : safe (on_db wallets_kept) (on_db wallets_kept) any (op_prog cfg o) w)
        by (apply pkeeps_safe, op_prog_pkeeps; typeclasses eauto).
      destruct o; try exact Hany. apply verify_safe. }
  pose proof (Hsafe i _ Hd) as Hq. unfold Q in Hq. rewrite Hi in Hq.
  exact (Hq c.2 (reflexivity (w_db c.2)) resp eq_refl).
Qed.
End Credentials.

(** ** Schedules *)

(** How the thread of a request ended: answered, refused, not yet. *)
Definition ending {E A} (p : Prog World E A) : option bool :=
  match p with
  | Done (Ok _) => Some true
  | Done (Err _) => Some false
  | Act _ _ => None
  end.
Definition endings (c : Pool World unit (option AuthResponse)) : list (option bool) := map ending c.1.

(** Schedules: [turns i n] lets thread [i] make [n] steps. *)
Definition turns (i n : nat) : list nat := repeat i n.

Section Schedules.
Context `{Ext, Env} (cfg : AppState).

(** The requests [os] under the schedule [sch]. *)
Definition race (os : list op) (sch : list nat) (w : World) : Pool World unit (option AuthResponse) :=
  schedule sch (start cfg os w).

Lemma race_reached os sch w : star pool_step (start cfg os w) (race os sch w).
Proof. apply schedule_reaches. Qed.

(** The user the tokens of thread [i] name. *)
Definition token_user (c : Pool World unit (option AuthResponse)) (i : nat) : option Uuid :=
  match c.1 !! i with
  | Some (Done (Ok (Some resp))) =>
      option_map cl_sub (jwt_decode (cfg_jwt_secret cfg) (app_now (w_tick c.2)) (ar_access_token resp))
  | _ => None
  end.
End Schedules.


(** ** Concrete runs *)

(** A cancelled agreement whose payment is confirmed: the listener selects the
    payment, the keeper runs its first statements, the listener marks it, and
    the refund worker ends the cycle it began before. *)
Definition cancelled_log : ProgramLog := mkProgramLog "pda" 7 ["Program log: Instruction: CancelAgreement"].
Definition db_cancelled : Db :=
  set_payments (fun _ => [mkAgreementPayment (uid x09) (uid x05) (uid x01) "usdc" "confirmed" 199
    (Some "ref") None None None None None None None 900 None (Some "pda")]) db_start.
Definition refund_pool : Pool World unit (option AuthResponse) :=
  (@listener_prog ext_demo env_demo [cancelled_log]
     :: @keeper_prog ext_demo env_demo config_hex 1 Healthy
     :: map (@op_prog ext_demo env_demo config_hex) [OpRefundCycle Healthy], world_demo db_cancelled).
Definition refund_schedule : list nat := turns 0 3 ++ turns 1 4 ++ turns 2 1 ++ turns 0 9 ++ turns 1 30 ++ turns 2 9.

Lemma payments_follow_lifecycle_interleaved_witness :
  payments_evolve db_cancelled (w_db (schedule refund_schedule refund_pool).2) /\
  map py_status (db_payments (w_db (schedule refund_schedule refund_pool).2)) = ["refund_pending"] /\
  endings (schedule refund_schedule refund_pool) = [Some true; Some true; Some true].
Proof.
  split; [|vm_compute; by split].
  apply (@payments_follow_lifecycle_interleaved ext_demo env_demo config_hex [cancelled_log] 1 Healthy
    [OpRefundCycle Healthy] (world_demo db_cancelled)).
  - apply NoDup_singleton.
  - by apply Forall_singleton.
  - apply schedule_reaches.
Defined.

(** Dave accepts while Carol pays. *)
Definition accept_and_pay : Pool World unit (option AuthResponse) :=
  @race ext_demo env_demo config_hex ops_demo (turns 1 2 ++ turns 0 2 ++ turns 1 2 ++ turns 0 9)
    (snd created_demo).

Lemma accept_and_pay_reached :
  star pool_step (@start ext_demo env_demo config_hex ops_demo (snd created_demo)) accept_and_pay.
Proof. apply race_reached. Qed.

Lemma drafts_follow_lifecycle_interleaved_witness :
  @drafts_evolve ext_demo (w_db (snd created_demo)) (w_db accept_and_pay.2) /\
  map (fun r => (ad_status r, ad_paid r)) (db_drafts (w_db accept_and_pay.2)) = [("ready_to_submit", true)].
Proof.
  split; [|vm_compute; reflexivity].
  apply (@drafts_follow_lifecycle_interleaved ext_demo env_demo config_hex ops_demo (snd created_demo)
    accept_and_pay).
  - exact accept_and_pay_reached.
  - exact uuid_text_demo.
  - exact wf_created.
Defined.

Lemma invitations_follow_lifecycle_interleaved_witness :
  invitations_evolve (w_db (snd created_demo)) (w_db accept_and_pay.2) /\
  map pi_status (db_invitations (w_db accept_and_pay.2)) = ["accepted"].
Proof.
  split; [|vm_compute; reflexivity].
  apply (@invitations_follow_lifecycle_interleaved ext_demo env_demo config_hex ops_demo
    (snd created_demo) accept_and_pay).
  - exact accept_and_pay_reached.
  - exact uuid_text_demo.
  - exact wf_created.
Defined.

Lemma invited_parties_dropped_interleaved_witness :
  exists resp w2 t ix args, @submit_draft ext_demo env_demo config_hex (uid x01) carol draft_demo
      submit_demo accept_and_pay.2 = (Ok resp, w2) /\
    @tx_encode ext_demo t = Some (sd_transaction resp) /\ tx_instructions t = [ix] /\
    ix_data ix = CREATE_AGREEMENT_DISCRIMINATOR ++ enc (@c_create_args (@ext_borsh ext_demo)) args /\
    (length (ca_parties args) + 1 <= length (cr_parties request_two))%nat.
Proof.
  destruct created_demo as [[[t p|draft pending]|e] w1] eqn:E;
    try (vm_compute in E; discriminate E).
  assert (Hd : draft = draft_demo) by (vm_compute in E; injection E as <- _ _; reflexivity).
  assert (Hp : length pending = 1%nat) by (vm_compute in E; injection E as _ <- _; reflexivity).
  assert (Hw : snd created_demo = w1) by (by rewrite E). subst draft.
  pose proof accept_and_pay_reached as Hreach. rewrite Hw in Hreach.
  destruct (@submit_draft ext_demo env_demo config_hex (uid x01) carol draft_demo submit_demo
      accept_and_pay.2) as [[resp|e] w2] eqn:Es;
    [|vm_compute in Es; discriminate Es].
  destruct (@invited_parties_dropped_interleaved ext_demo env_demo config_hex ops_demo w1 accept_and_pay
      Hreach (uid x01) carol request_two (world_demo db_start) w2 draft_demo pending (uid x01) carol
      submit_demo resp) as (t & ix & args & Ht & Hix & Hdata & _ & Hl).
  - exact uuid_text_demo.
  - exact wf_start.
  - cbn. unfold two64. lia.
  - cbn. lia.
  - exact (eq_trans created_demo_run E).
  - exact Es.
  - exists resp, w2, t, ix, args. rewrite Hp in Hl. split; [reflexivity|]. auto.
Defined.

Lemma reinvited_never_accepted_interleaved_witness :
  exists resp w1, @reinvite_draft ext_demo env_demo config_hex (uid x01) (uid x05) (uid x08)
      (world_demo db_expired) = (Ok resp, w1) /\
    let c := @race ext_demo env_demo config_hex
      [OpAcceptInvite dave (hex_demo (@random_bytes env_demo 3 32)); OpKeeperCycle Healthy]
      (turns 1 3 ++ turns 0 9 ++ turns 1 30) w1 in
    endings c = [Some false; Some true] /\
    forall i, i ∈ db_invitations (w_db c.2) -> pi_id i = ri_invitation_id resp -> pi_status i <> "accepted".
Proof.
  destruct (@reinvite_draft ext_demo env_demo config_hex (uid x01) (uid x05) (uid x08)
      (world_demo db_expired)) as [[resp|e] w1] eqn:E; [|vm_compute in E; discriminate E].
  exists resp, w1. split; [reflexivity|]. split.
  { apply (f_equal snd) in E. cbn [snd] in E. subst w1. vm_compute. reflexivity. }
  eapply (@reinvited_never_accepted_interleaved ext_demo env_demo config_hex _ w1 _
    (race_reached _ _ _ _) (uid x01) (uid x05) (uid x08) (world_demo db_expired) resp).
  - exact uuid_text_demo.
  - split; cbn; [apply NoDup_singleton | apply NoDup_singleton |].
    intros i ->%list_elem_of_singleton. eexists. split; [left | done].
  - exact E.
  - intros r slots Hr _ Hs. cbn in Hr. apply list_elem_of_singleton in Hr as ->.
    vm_compute in Hs. injection Hs as <-. vm_compute in E. injection E as <- _.
    apply (bool_decide_unpack _). vm_compute. exact I.
Defined.

(** Two sign-ins with one nonce, and two refreshes with one token. *)
Definition verify_twice : list op := [verify_n1; OpChallenge; verify_n1; OpRefresh "t"; OpRefresh "t"].
Definition verify_schedule : list nat :=
  turns 0 1 ++ turns 1 1 ++ turns 2 1 ++ turns 3 1 ++ turns 4 1 ++ turns 0 9 ++ turns 2 9 ++ turns 3 9 ++ turns 4 9.
Definition verify_race : Pool World unit (option AuthResponse) :=
  @race ext_demo env_demo config_demo verify_twice verify_schedule (world_demo db_accounts).

Lemma verify_race_reached :
  star pool_step (@start ext_demo env_demo config_demo verify_twice (world_demo db_accounts)) verify_race.
Proof. apply race_reached. Qed.

(** A user gives her email and her phone in two requests while another signs in
    through Google: three tasks that write contacts. *)
Definition contacts_ops : list op :=
  [OpUpdateContacts (mkAuthUser (uid x01) None) (contacts_request "ann@example.com");
   OpOAuthCallback google_jar (mkCallbackQuery "c" "s") Google;
   OpUpdateContacts (mkAuthUser (uid x01) None) (mkUpdateContacts None (Some "+15550100") None)].
Definition contacts_race : Pool World unit (option AuthResponse) :=
  @race ext_demo env_demo app_hex contacts_ops (turns 0 1 ++ turns 2 1 ++ turns 1 30 ++ turns 2 9 ++ turns 0 9)
    (world_demo db_mallory).

Lemma contacts_stay_readable_interleaved_witness :
  endings contacts_race = [Some true; Some true; Some true] /\
  length (db_contacts (w_db contacts_race.2)) = 2%nat /\
  @contacts_readable ext_demo app_hex (w_db contacts_race.2).
Proof.
  split; [vm_compute; reflexivity|]. split; [vm_compute; reflexivity|].
  apply (@contacts_stay_readable_interleaved ext_demo env_demo app_hex contacts_ops
    (world_demo db_mallory) contacts_race (race_reached _ _ _ _) aes_correct_demo random_lengths_demo).
  intros r Hr. by apply not_elem_of_nil in Hr.
Defined.

Lemma nonce_single_use_interleaved_witness :
  endings verify_race = [Some true; Some true; Some false; Some true; Some false] /\
  (answered verify_race 0 -> answered verify_race 2 -> 0%nat = 2%nat).
Proof.
  split; [vm_compute; reflexivity|].
  eapply (@nonce_single_use_interleaved ext_demo env_demo config_demo "n1" verify_twice
    (world_demo db_accounts) verify_race); try reflexivity.
  - exact demo_uuid_text.
  - apply NoDup_singleton.
  - exact verify_race_reached.
Defined.

Lemma refresh_token_single_use_interleaved_witness :
  endings verify_race = [Some true; Some true; Some false; Some true; Some false] /\
  (answered verify_race 3 -> answered verify_race 4 -> 3%nat = 4%nat).
Proof.
  split; [vm_compute; reflexivity|].
  eapply (@refresh_token_single_use_interleaved ext_demo env_demo config_demo "t" verify_twice
    (world_demo db_accounts) verify_race); try reflexivity.
  - exact demo_token_hash.
  - apply NoDup_singleton.
  - exact verify_race_reached.
Defined.

Lemma concurrent_sign_ins_agree_witness :
  exists resp user, verify_race.1 !! 0%nat = Some (Done (Ok (Some resp))) /\
    wallet_user wallet_text (w_db verify_race.2) = Some user.
Proof.
  destruct (verify_race.1 !! 0%nat) as [[[[resp|]|e]|]|] eqn:E;
    try (vm_compute in E; discriminate E).
  destruct (@concurrent_sign_ins_agree ext_demo env_demo config_demo verify_twice
    (world_demo db_accounts) verify_race 0 (mkVerifyRequest wallet_text signature_text "n1") resp
    verify_race_reached eq_refl E) as (user & _ & _ & _ & Hu & _).
  exists resp, user. split; [reflexivity | exact Hu].
Defined.

(** Bob signs last, the notification worker selects his job, and the agreement
    is cancelled before the job is delivered. *)
Definition instruction_log (instr who : string) : ProgramLog :=
  mkProgramLog "agreement" 7 ["Program log: Instruction: " +:+ instr; "Program log: signer=" +:+ who].
Definition sign_ops : list op :=
  [ OpProgramLog (instruction_log "SignAgreement" "bob"); OpNotificationCycle Healthy;
    OpProgramLog (instruction_log "CancelAgreement" "alice") ].
Definition sign_race : Pool World unit (option AuthResponse) :=
  @race ext_demo env_demo config_hex sign_ops (turns 0 30 ++ turns 1 3 ++ turns 2 30 ++ turns 1 30)
    (world_demo db_signing).

Lemma parties_never_complete_interleaved_witness :
  map (fun r => (ap_status r, ap_signed_at r)) (db_parties (w_db sign_race.2)) =
    [("Cancelled", Some 5); ("Cancelled", Some 1000)] /\
  parties_evolve db_signing (w_db sign_race.2) /\
  forall r, r ∈ db_parties (w_db sign_race.2) -> ap_status r <> "Completed".
Proof.
  split; [vm_compute; reflexivity|].
  destruct (@parties_never_complete_interleaved ext_demo env_demo config_hex sign_ops
    (world_demo db_signing) sign_race) as [He Hc]; [apply race_reached|].
  split; [exact He|]. intros r Hr Hs. destruct (Hc r Hr Hs) as (r0 & Hr0 & _ & Hs0).
  apply elem_of_cons in Hr0 as [-> | ->%list_elem_of_singleton]; discriminate Hs0.
Defined.

Lemma notifications_never_sent_interleaved_witness :
  map (fun r => (nq_recipient_pubkey r, nq_event_type r, nq_status r, nq_attempts r))
    (db_notifications (w_db sign_race.2)) =
    [("bob", "Completed", "pending", 1); ("alice", "Cancelled", "pending", 0);
     ("bob", "Cancelled", "pending", 0)] /\
  jobs_evolve db_signing (w_db sign_race.2).
Proof.
  split; [vm_compute; reflexivity|].
  apply (@notifications_never_sent_interleaved ext_demo env_demo config_hex sign_ops
    (world_demo db_signing) sign_race), race_reached.
Defined.
