(* ===== verification/Races.v ===== *)
(** * Races: what the code allows when its steps interleave

    Concrete schedules, evaluated, next to what the same requests do one after
    the other.  The concrete services, clock and configurations are those of
    the witnesses. *)

From Stdlib Require Import ZArith Lia.
From Stdlib Require Import Strings.Byte Strings.Ascii Strings.String.
From stdpp Require Import base tactics decidable option list strings gmap.
From S2P Require Import Prelude Threads Text Errors Borsh SolanaTypes Health World Concrete Crypto.
From S2P Require Import Jwt Auth AuthFacts OAuth User AccountFacts Storage Upload.
From S2P Require Import Notification DraftData Solana Agreement Draft Invite InviteFacts.
From S2P Require Import Payments PaymentLifecycle EventListener Expiry Keeper System Steps Sessions.
From S2P Require Import Workflow Records Concurrent.

Open Scope string_scope.
Open Scope list_scope.
Open Scope Z_scope.

(** ** The free tier *)

Definition draft_of_carol (id : Uuid) : AgreementDraftRow :=
  mkAgreementDraft id carol JNull JNull "ready_to_submit" 0 None false None false None None.

(** Carol has used two of her three free submissions and has three drafts. *)
Definition db_last_free : Db :=
  set_counts (fun _ => [mkUserAgreementCount (uid x01) 0 2])
    (set_drafts (fun _ => [draft_of_carol (uid x05); draft_of_carol (uid x06); draft_of_carol (uid x07)])
      (set_users (fun _ => [mkUserAccount (uid x01) None 0]) db_start)).
Definition pay_all : list op :=
  map (fun id => OpInitiatePayment (uid x01) carol (uid id) "usdc") [x05; x06; x07].

(** Each request reads the creator and the counter before any of them writes. *)
Definition reads_first : list nat :=
  turns 0 2 ++ turns 1 2 ++ turns 2 2 ++ turns 0 2 ++ turns 1 2 ++ turns 2 2.

(** The free tier is checked and counted in two statements.  Carol has one
    free submission left of three.  One after the other, of three initiations
    only the first is free and the counter ends at three; when all three read
    the counter before the first writes it, all three are answered as free,
    all three drafts are paid, and the counter ends at five. *)
Theorem free_tier_overrun :
  (let w := @run_ops ext_demo env_demo config_hex pay_all (world_demo db_last_free) in
   map uac_free_used (db_counts (w_db w)) = [3] /\
   map ad_paid (db_drafts (w_db w)) = [true; false; false]) /\
  exists c, star pool_step (@start ext_demo env_demo config_hex pay_all (world_demo db_last_free)) c /\
    endings c = [Some true; Some true; Some true] /\
    map uac_free_used (db_counts (w_db c.2)) = [5] /\
    map ad_paid (db_drafts (w_db c.2)) = [true; true; true].
Proof.
  split; [vm_compute; by split|].
  exists (@race ext_demo env_demo config_hex pay_all reads_first (world_demo db_last_free)).
  split; [apply race_reached | vm_compute; by repeat split].
Qed.

(** ** First sign-ins *)

Definition signature_of (nonce : string) : string :=
  string_of_list_byte (pad_to 4 (bn_bytes (key x05)) ++ as_bytes nonce).
Definition two_sign_ins : list op :=
  [OpVerify (mkVerifyRequest wallet_text (signature_of "n1") "n1");
   OpVerify (mkVerifyRequest wallet_text (signature_of "n2") "n2")].
Definition db_two_nonces : Db :=
  set_nonces (fun _ => [mkSiwsNonce "n1" 900; mkSiwsNonce "n2" 900]) db_empty.

(** Two first sign-ins of one wallet.  One after the other, both are
    answered and there is one user.  When both look for the wallet before one
    links it, the second is refused by the key of the table with an internal
    error, its nonce is spent, and the user it created stays without any way
    to sign in. *)
Theorem first_sign_ins_race :
  (let w := @run_ops ext_demo env_demo config_demo two_sign_ins (world_demo db_two_nonces) in
   length (db_users (w_db w)) = 1%nat /\ length (db_refresh (w_db w)) = 2%nat) /\
  exists c, star pool_step (@start ext_demo env_demo config_demo two_sign_ins (world_demo db_two_nonces)) c /\
    endings c = [Some true; Some false] /\ db_nonces (w_db c.2) = [] /\
    exists u1 u2, u1 <> u2 /\ map ua_id (db_users (w_db c.2)) = [u1; u2] /\
      map aw_user_id (db_wallets (w_db c.2)) = [u1].
Proof.
  split; [vm_compute; by split|].
  exists (@race ext_demo env_demo config_demo two_sign_ins (turns 0 2 ++ turns 1 2 ++ turns 0 7 ++ turns 1 7)
    (world_demo db_two_nonces)).
  split; [apply race_reached|]. split; [vm_compute; reflexivity|]. split; [vm_compute; reflexivity|].
  exists (@fresh_uuid env_demo 4), (@fresh_uuid env_demo 12). split; [intros E; discriminate (f_equal bn_bytes E)|].
  split; vm_compute; reflexivity.
Qed.

Definition two_callbacks : list op := repeat (OpOAuthCallback google_jar (mkCallbackQuery "c" "s") Google) 2.

(** Two first sign-ins of one OAuth identity.  One after the other, both
    name one user.  When both look for the identity before one stores it, both
    are answered, with tokens of different users: the identity goes to the
    user who came last, and the tokens of the other name a user nobody can
    sign in as again. *)
Theorem oauth_sign_ins_disagree :
  length (db_users (w_db (@run_ops ext_demo env_demo config_hex two_callbacks (world_demo db_empty)))) = 1%nat /\
  exists c u1 u2,
    star pool_step (@start ext_demo env_demo config_hex two_callbacks (world_demo db_empty)) c /\
    @token_user ext_demo env_demo config_hex c 0 = Some u1 /\
    @token_user ext_demo env_demo config_hex c 1 = Some u2 /\ u1 <> u2 /\
    map ao_user_id (db_oauth (w_db c.2)) = [u2].
Proof.
  split; [vm_compute; reflexivity|].
  exists (@race ext_demo env_demo config_hex two_callbacks
      (turns 0 5 ++ turns 1 5 ++ turns 0 30 ++ turns 1 30) (world_demo db_empty)),
    (@fresh_uuid env_demo 10), (@fresh_uuid env_demo 20).
  split; [apply race_reached|]. split; [vm_compute; reflexivity|]. split; [vm_compute; reflexivity|].
  split; [intros E; discriminate (f_equal bn_bytes E) | vm_compute; reflexivity].
Qed.

(** ** Submissions *)

Section Submissions.
Context `{Ext, Env} (cfg : AppState).

(** What the gates of a submission read of a draft, and what pays for it. *)
Definition gate_columns (r : AgreementDraftRow) := (ad_id r, ad_creator_pubkey r, ad_status r, ad_paid r).
Definition gates (d : Db) :=
  (map gate_columns (db_drafts d), db_counts d, db_contacts d).
Definition same_gates (d d' : Db) : Prop := gates d' = gates d.

#[local] Instance same_gates_preorder : PreOrder same_gates.
Proof. split; [done|]. intros x y z ??. unfold same_gates in *. congruence. Qed.

Lemma same_gates_update p f d :
  (forall r, gate_columns (f r) = gate_columns r) -> same_gates d (set_drafts (update_where p f) d).
Proof. intros Hf. unfold same_gates, gates. cbn. rewrite (map_update_where gate_columns); auto. Qed.

Lemma submit_stmts :
  (forall id uri, stmt_keeps same_gates (store_uri_stmt id uri)) /\
  (forall id pda aid, stmt_keeps same_gates (store_agreement_stmt id pda aid)) /\
  (forall id pda, stmt_keeps same_gates (link_payment_stmt id pda)).
Proof.
  repeat split; intros id; intros; stmt_cases;
    [apply same_gates_update; intros r; reflexivity.. | exact eq_refl].
Qed.

Lemma submit_draft_gates user pubkey id req :
  keeps (on_db same_gates) (submit_draft cfg user pubkey id req).
Proof.
  destruct submit_stmts as (H1 & H2 & H3).
  unfold submit_draft, get_draft_row, has_contact_email, build_create_agreement_tx,
    build_create_agreement_instruction, calculate_vault_deposit, vault_signed, internal.
  keeps_auto; apply keeps_sql; auto.
Qed.

Lemma draft_row_gates id d d' r :
  same_gates d d' -> draft_row id d = Some r ->
  exists r', draft_row id d' = Some r' /\ gate_columns r' = gate_columns r.
Proof.
  intros [= Hm _ _]. unfold draft_row, where_. revert Hm. generalize (db_drafts d') (db_drafts d).
  intros t' t. revert t'. induction t as [|x t IH]; intros [|x' t']; cbn; try discriminate.
  intros [= E1 E2 E3 E4 Ht].
  assert (draft_where id x' = draft_where id x) as -> by (unfold draft_where; by rewrite E1).
  destruct (draft_where id x); cbn; [|by apply IH].
  intros [= <-]. exists x'. split; [done|]. unfold gate_columns. congruence.
Qed.

(** C18: a payment is never used up.  A submission that is answered leaves the
    status and the payment of every draft and the counters of free submissions
    as they were, so the same request passes every gate again: one payment
    pays for any number of agreements. *)
Theorem submission_repeats (user : Uuid) (pubkey : string) (id : Uuid) (req : SubmitDraftRequest)
    (w w' : World) (resp : SubmitDraftResponse) :
  submit_draft cfg user pubkey id req w = (Ok resp, w') ->
  same_gates (w_db w) (w_db w') /\
  exists r, draft_row id (w_db w') = Some r /\
    ensure_creator_only (Some pubkey) (ad_creator_pubkey r) = Ok tt /\
    evaluate_submit_gates (ad_paid r) (ad_status r) (user_has_email user (w_db w')) id = Ok tt.
Proof.
  intros Hr. pose proof (submit_draft_gates user pubkey id req w) as Hk. rewrite Hr in Hk.
  split; [exact Hk|]. unfold submit_draft, get_draft_row, has_contact_email, internal in Hr. world_inv.
  subst.
  match goal with Hx : draft_row id (w_db w) = Some _ |- _ =>
    apply (draft_row_gates _ _ _ _ Hk) in Hx as (r' & Hr' & [= Eid Ecr Est Epaid]) end.
  exists r'. split; [exact Hr'|].
  assert (Em : user_has_email user (w_db w') = user_has_email user (w_db (tick w))).
  { unfold user_has_email. injection Hk as _ _ E. cbn in E. by rewrite E. }
  rewrite Em, Ecr, Est, Epaid.
  repeat match goal with u : unit |- _ => destruct u end. auto.
Qed.
End Submissions.

Lemma submission_repeats_witness :
  exists resp w' r, @submit_draft ext_demo env_demo config_hex (uid x01) carol draft_demo submit_demo
      ready_demo = (Ok resp, w') /\ draft_row draft_demo (w_db w') = Some r /\
    @evaluate_submit_gates ext_demo (ad_paid r) (ad_status r) (user_has_email (uid x01) (w_db w'))
      draft_demo = Ok tt.
Proof.
  destruct (@submit_draft ext_demo env_demo config_hex (uid x01) carol draft_demo submit_demo
      ready_demo) as [[resp|e] w'] eqn:E; [|vm_compute in E; discriminate E].
  destruct (@submission_repeats ext_demo env_demo config_hex (uid x01) carol draft_demo submit_demo
    ready_demo w' resp E) as (_ & r & Hr & _ & Hg).
  exists resp, w', r. split; [reflexivity|]. split; [exact Hr | exact Hg].
Defined.
