(* ===== verification/Response.v ===== *)
(** * Response: what the client receives

    The JSON that serde derives for the response structs of src/src/handlers,
    and the HTTP response of every answer of Api.v.  How a float is written is
    the JSON library's, a parameter.  The theorems follow a session across two
    requests: what one answer carries, the next request may send back. *)

From Stdlib Require Import ZArith Lia.
From Stdlib Require Import Strings.Byte Strings.Ascii Strings.String.
From Stdlib Require Import Floats.SpecFloat.
From stdpp Require Import base tactics decidable option list strings gmap.
From S2P Require Import Prelude Text Errors Borsh SolanaTypes Health World Concrete Crypto.
From S2P Require Import Jwt Auth AuthFacts OAuth User AccountFacts Ws Storage Upload Routes.
From S2P Require Import Notification DraftData Solana Agreement Draft Wire Invite.
From S2P Require Import Payments PaymentLifecycle EventListener Expiry Keeper System Api Sessions.

Open Scope string_scope.
Open Scope list_scope.
Open Scope Z_scope.

(** ** [Serialize] *)

Class Serialize (A : Type) := to_json : A -> json.

#[export] Instance ser_json : Serialize json := fun j => j.
#[export] Instance ser_string : Serialize string := JStr.
#[export] Instance ser_bool : Serialize bool := JBool.
#[export] Instance ser_int : Serialize Z := JNum.
#[export] Instance ser_option `{Serialize A} : Serialize (option A) :=
  fun o => match o with Some a => to_json a | None => JNull end.
#[export] Instance ser_list `{Serialize A} : Serialize (list A) := fun l => JArr (map to_json l).

Section Structs.
Context `{Ext} (json_f64 : spec_float -> json).

#[export] Instance ser_uuid : Serialize Uuid := fun u => JStr (uuid_to_string u).
#[export] Instance ser_f64 : Serialize spec_float := json_f64.

(** src/src/router.rs *)
Definition ser_health : Serialize HealthResponse := fun r =>
  JObj [("status", to_json (hr_status r)); ("process_alive", to_json (hr_process_alive r));
        ("workers", to_json (hr_workers r))].
#[export] Existing Instance ser_health.

(** src/src/handlers/auth.rs *)
Definition challenge_response (nonce : string) : json := JObj [("nonce", to_json nonce)].
Definition ser_tokens : Serialize AuthResponse := fun r =>
  JObj [("access_token", to_json (ar_access_token r));
        ("refresh_token", to_json (ar_refresh_token r))].
#[export] Existing Instance ser_tokens.

(** src/src/handlers/user.rs *)
Definition ser_auth_method : Serialize AuthMethod := fun m =>
  JObj [("type", to_json (am_auth_type m)); ("provider", to_json (am_provider m));
        ("pubkey", to_json (am_wallet m))].
#[export] Existing Instance ser_auth_method.
Definition ser_profile : Serialize UserProfile := fun p =>
  JObj [("id", to_json (up_id p)); ("display_name", to_json (up_display_name p));
        ("linked_auth_methods", to_json (up_linked_auth_methods p))].
#[export] Existing Instance ser_profile.

(** src/src/handlers/upload.rs *)
Definition ser_upload : Serialize UploadResponse := fun r =>
  JObj [("storage_uri", to_json (ur_storage_uri r)); ("content_hash", to_json (ur_content_hash r));
        ("storage_backend", to_json (ur_storage_backend r))].
#[export] Existing Instance ser_upload.

(** src/src/handlers/agreement.rs; an enum is tagged by its [status] *)
Definition ser_pending : Serialize PendingInvitation := fun i =>
  JObj [("email_hint", to_json (pv_email_hint i)); ("invited_at", to_json (pv_invited_at i))].
#[export] Existing Instance ser_pending.
Definition ser_created : Serialize CreateAgreementResponse := fun r =>
  match r with
  | Submitted transaction agreement_pda =>
      JObj [("status", JStr "submitted"); ("transaction", to_json transaction);
            ("agreement_pda", to_json agreement_pda)]
  | AwaitingPartyWallets draft_id pending_invitations =>
      JObj [("status", JStr "awaiting_party_wallets"); ("draft_id", to_json draft_id);
            ("pending_invitations", to_json pending_invitations)]
  end.
#[export] Existing Instance ser_created.
Definition ser_sign : Serialize SignAgreementResponse := fun r =>
  JObj [("transaction", to_json (sr_transaction r)); ("suggest_email", to_json (sr_suggest_email r));
        ("suggest_email_reason", to_json (sr_suggest_email_reason r))].
#[export] Existing Instance ser_sign.
Definition ser_agreement : Serialize GetAgreementResponse := fun r =>
  JObj [("creator", to_json (ga_creator r)); ("agreement_id", to_json (ga_agreement_id r));
        ("title", to_json (ga_title r)); ("storage_uri", to_json (ga_storage_uri r));
        ("storage_backend", to_json (ga_storage_backend r)); ("status", to_json (ga_status r));
        ("created_at", to_json (ga_created_at r)); ("expires_at", to_json (ga_expires_at r));
        ("parties", to_json (ga_parties r)); ("signed_by", to_json (ga_signed_by r))].
#[export] Existing Instance ser_agreement.
(** [ListAgreementItem] *)
Definition ser_item : Serialize AgreementPartyRow := fun r =>
  JObj [("agreement_pda", to_json (ap_agreement_pda r));
        ("creator_pubkey", to_json (ap_creator_pubkey r));
        ("party_pubkey", to_json (ap_party_pubkey r)); ("status", to_json (ap_status r));
        ("signed_at", to_json (ap_signed_at r)); ("created_at", to_json (ap_created_at r));
        ("expires_at", to_json (ap_expires_at r)); ("title", to_json (ap_title r))].
#[export] Existing Instance ser_item.
Definition ser_agreements : Serialize ListAgreementsResponse := fun r =>
  JObj [("page", to_json (lr_page r)); ("limit", to_json (lr_limit r));
        ("items", to_json (lr_items r))].
#[export] Existing Instance ser_agreements.

(** src/src/handlers/draft.rs *)
Definition ser_pending_view : Serialize PendingInvitationView := fun i =>
  JObj [("id", to_json (pw_id i)); ("status", to_json (pw_status i));
        ("expires_at", to_json (pw_expires_at i))].
#[export] Existing Instance ser_pending_view.
Definition ser_draft : Serialize GetDraftResponse := fun r =>
  JObj [("id", to_json (gd_id r)); ("status", to_json (gd_status r));
        ("party_slots", gd_party_slots r);
        ("pending_invitations", to_json (gd_pending_invitations r))].
#[export] Existing Instance ser_draft.
Definition ser_reinvite : Serialize ReinviteResponse := fun r =>
  JObj [("invitation_id", to_json (ri_invitation_id r)); ("expires_at", to_json (ri_expires_at r))].
#[export] Existing Instance ser_reinvite.
Definition ser_submit : Serialize SubmitDraftResponse := fun r =>
  JObj [("transaction", to_json (sd_transaction r)); ("agreement_pda", to_json (sd_agreement_pda r))].
#[export] Existing Instance ser_submit.

(** src/src/handlers/invite.rs *)
Definition ser_invite : Serialize GetInviteResponse := fun r =>
  JObj [("agreement_title", to_json (gi_agreement_title r));
        ("creator_display", to_json (gi_creator_display r));
        ("expires_at", to_json (gi_expires_at r)); ("has_account", to_json (gi_has_account r));
        ("has_wallet", to_json (gi_has_wallet r))].
#[export] Existing Instance ser_invite.

(** src/src/handlers/payment.rs *)
Definition ser_payment : Serialize InitiatePaymentResponse := fun r =>
  match r with
  | Free => JObj [("status", JStr "free")]
  | Pending method token_mint treasury_ata amount_units usd_equivalent reference_pubkey url =>
      JObj [("status", JStr "pending"); ("method", to_json method);
            ("token_mint", to_json token_mint); ("treasury_ata", to_json treasury_ata);
            ("amount_units", to_json amount_units); ("usd_equivalent", to_json usd_equivalent);
            ("reference_pubkey", to_json reference_pubkey); ("solana_pay_url", to_json url)]
  end.
#[export] Existing Instance ser_payment.
Definition payment_status_response (r : string * string * option Z) : json :=
  let '(status, method, confirmed_at) := r in
  JObj [("status", to_json status); ("method", to_json (Some method));
        ("confirmed_at", to_json confirmed_at)].

(** ** Responses *)

Inductive Body : Type :=
| Empty
| JsonBody (j : json)
| TextBody (s : string).

(** Status, cookie to set, target of a redirect, body. *)
Record HttpResponse : Type := mkHttpResponse {
  rs_status : Z;
  rs_cookie : option Cookie;
  rs_location : option string;
  rs_body : Body;
}.

Definition plain (status : Z) (body : Body) : HttpResponse := mkHttpResponse status None None body.

(** [Json<T>] *)
Definition json_ok {A} `{Serialize A} (a : A) : HttpResponse := plain 200 (JsonBody (to_json a)).

Definition answer_response (a : Answer) : HttpResponse :=
  match a with
  | AnsHealth (status, body) => plain status (JsonBody (to_json body))
  | AnsNonce nonce => json_ok (challenge_response nonce)
  | AnsTokens r => json_ok r
  | AnsRedirect (RedirectTo cookie url) => mkHttpResponse 303 (Some cookie) (Some url) Empty
  | AnsRedirect (RedirectFailed status body) => plain (Z.of_nat status) (JsonBody body)
  | AnsOAuth (OAuthTokens r) => json_ok r
  | AnsOAuth (OAuthConflict status body) => plain (Z.of_nat status) (JsonBody body)
  | AnsJson body => json_ok body
  | AnsUpload r => json_ok r
  | AnsCreated r => json_ok r
  | AnsAgreement r => json_ok r
  | AnsAgreements r => json_ok r
  | AnsSign r => json_ok r
  | AnsDraft r => json_ok r
  | AnsDone => plain 200 Empty
  | AnsReinvite r => json_ok r
  | AnsSubmit r => json_ok r
  | AnsInvite r => json_ok r
  | AnsNoContent => plain 204 Empty
  | AnsPayment r => json_ok r
  | AnsPaymentStatus r => json_ok (payment_status_response r)
  | AnsProfile r => json_ok r
  | AnsWs (WsStatus code) => plain (Z.of_nat code) Empty
  | AnsWs (WsUpgrade _) => plain 101 Empty
  end.

(** The first two are the router library's: 404, and 405 for a path that has
    other methods. *)
Definition reply_response (r : Reply) : HttpResponse :=
  match r with
  | RouteNotFound => plain 404 Empty
  | MethodRefused => plain 405 Empty
  | Rejected (status, text) => plain (Z.of_nat status) (TextBody text)
  | Failed e => plain (Z.of_nat (resp_status (into_response e))) (JsonBody (resp_body (into_response e)))
  | Answered a => answer_response a
  end.

(** ** What the answers are read as *)

(** A refresh request made of the answer of a sign-in. *)
Lemma tokens_read_back r : refresh_request_from (to_json r) = Some (ar_refresh_token r).
Proof. reflexivity. Qed.

End Structs.

(** ** Sessions *)

(** The tokens of an answer, from whatever way of signing in. *)
Definition tokens_of (r : Reply) : option AuthResponse :=
  match r with
  | Answered (AnsTokens t) => Some t
  | Answered (AnsOAuth (OAuthTokens t)) => Some t
  | _ => None
  end.

Lemma tokens_of_body `{Ext} json_f64 r t :
  tokens_of r = Some t -> rs_body (reply_response json_f64 r) = JsonBody (to_json t).
Proof. destruct r as [| | | |[]]; try discriminate; cbn; [congruence|]. by destruct r as [|]; intros [= ->]. Qed.

Section Sessions.
Context `{Ext, Env} (cfg : AppState).
Context (path_match : string -> string -> bool) (bad_body : json -> Rejection)
  (bad_query : list (string * string) -> Rejection) (bad_id : string -> Rejection).

#[local] Abbreviation api' := (api cfg path_match bad_body bad_query bad_id).
#[local] Abbreviation handle' := (handle cfg bad_body bad_query bad_id).

Lemma api_handled rq w a w' :
  api' rq w = (Ok (Answered a), w') ->
  exists e c w1, handle' rq e c w1 = (Ok (Answered a), w').
Proof.
  intros Ha. unfold api in Ha. apply bind_Ok in Ha as (s & w1 & _ & Ha).
  destruct s as [| | |e c]; try discriminate Ha. eauto.
Qed.

Lemma reply_Ok {A} (answer : A -> Answer) (m : M World AppError A) w a w' :
  reply answer m w = (Ok (Answered a), w') -> exists x, m w = (Ok x, w') /\ a = answer x.
Proof.
  unfold reply, bind, attempt. destruct (m w) as [[x|e] w1]; intros [= <- <-]. eauto.
Qed.

Definition tokens_from (user : Uuid) (wallet : option string) (t : AuthResponse) (w' : World) : Prop :=
  exists w, tokens_issued cfg user wallet t w w'.

Lemma oauth_callback_tokens jar q p w t w' :
  oauth_callback cfg jar q p w = (Ok (OAuthTokens t), w') -> exists user, tokens_from user None t w'.
Proof.
  intros Ho. unfold oauth_callback in Ho.
  apply bind_Ok in Ho as (? & w1 & _ & Ho). apply bind_Ok in Ho as (i & w2 & _ & Ho).
  apply bind_Ok in Ho as (res & w3 & _ & Ho). destruct res as [user|]; [|discriminate Ho].
  apply bind_Ok in Ho as (t' & w4 & Ht & Ho). injection Ho as <- <-.
  exists user, w3. by apply issue_tokens_Ok.
Qed.

Lemma answered_tokens rq w r w' t :
  api' rq w = (Ok r, w') -> tokens_of r = Some t -> exists user wallet, tokens_from user wallet t w'.
Proof.
  intros Ha Ht. destruct r as [| | | |a]; try discriminate Ht.
  apply api_handled in Ha as (e & c & w1 & Hh). unfold handle, sign_in_callback, extracting in Hh.
  destruct e, c; extracted; try discriminate Hh;
    try (apply reply_Ok in Hh as (x & Hh & ->));
    try discriminate Ht; cbn in Ht; try injection Ht as ->.
  all: try (injection Hh as <- <-; discriminate Ht).
  all: try (by apply bind_Ok in Hh as (? & ? & _ & [= <- <-])).
  all: try (destruct x as [t'|]; [injection Ht as ->|discriminate Ht];
    destruct (oauth_callback_tokens _ _ _ _ _ _ Hh) as [user Hu]; by exists user, None).
  all: first
    [ apply verify_run in Hh as (w2 & w3 & user & _ & _ & _ & Hi)
    | apply link_wallet_run in Hh as (_ & _ & w2 & w3 & at_ & _ & _ & _ & Hi)
    | apply refresh_run in Hh as (row & w2 & _ & _ & _ & _ & Hi) ];
    by do 3 eexists; exact Hi.
Qed.

Lemma tokens_from_row user wallet t w' :
  tokens_from user wallet t w' ->
  exists row, row ∈ db_refresh (w_db w') /\ rt_user_id row = user /\
    rt_token_hash row = sha256_hex (ar_refresh_token t).
Proof.
  intros (w & _ & now & _ & ->). eexists. split; [cbn; apply elem_of_app; right; by left|]. done.
Qed.

(** A live refresh token is redeemed, for tokens of its user. *)
Lemma refresh_runs token row w :
  db_up_from (w_tick w) -> accounts_wf (w_db w) ->
  row ∈ db_refresh (w_db w) -> rt_token_hash row = sha256_hex token ->
  db_now (w_tick w) < rt_expires_at row * 1000000 -> can_issue (rt_user_id row) w ->
  exists t w', refresh cfg token w = (Ok t, w') /\
    tokens_from (rt_user_id row) (wallet_of_user (rt_user_id row) (w_db w)) t w' /\
    row ∉ db_refresh (w_db w').
Proof.
  intros Hup Hwf Hin Hh Hl (Hj & Hu & Hn).
  set (due r := hash_is (sha256_hex token) r && refresh_live (db_now (w_tick w)) r).
  set (w1 := with_db (set_refresh (where_ (fun r => negb (due r))) (w_db w)) (tick w)).
  assert (Hdue : due row = true).
  { unfold due, hash_is, refresh_live. rewrite Hh, String.eqb_refl. by apply Z.ltb_lt. }
  assert (Hc : internal (sql (consume_refresh_stmt (sha256_hex token))) w
               = (Ok (Some (rt_user_id row)), w1)).
  { apply map_err_step, sql_up; [by apply Hup|]. unfold consume_refresh_stmt. cbn. fold due.
    destruct (fetch_optional (where_ due (db_refresh (w_db w)))) as [r|] eqn:Ef.
    - apply fetch_where_Some in Ef as [Hr Hd]. do 3 f_equal. cbn. f_equal. f_equal.
      apply (NoDup_map_eq rt_token_hash (db_refresh (w_db w))); [apply Hwf | done | done|].
      apply andb_true_iff in Hd as [Hd%String.eqb_eq _]. congruence.
    - by rewrite (fetch_where_None _ _ Ef row Hin) in Hdue. }
  assert (Hsub : forall r, r ∈ db_refresh (w_db w1) -> r ∈ db_refresh (w_db w))
    by (intros r [Hr _]%elem_of_where; exact Hr).
  destruct (issue_tokens_runs cfg (rt_user_id row) (wallet_of_user (rt_user_id row) (w_db w)) (tick w1))
    as (t & w' & Hi & _ & k & Hk & Hnew).
  { intros k Hk. apply Hup. cbn in Hk. lia. }
  { split; [done|]. split; [exact Hu|]. intros k r Hk Hr. apply Hn; [cbn in Hk; lia | by apply Hsub]. }
  exists t, w'. pose proof (issue_tokens_Ok _ _ _ _ _ _ Hi) as Ht. split; [|split].
  - unfold refresh. rewrite (bind_step _ _ _ _ _ Hc). erewrite bind_step by reflexivity.
    erewrite bind_step by (apply map_err_step, sql_query; apply Hup; cbn; lia). exact Hi.
  - by exists (tick w1).
  - destruct Ht as (_ & now & _ & ->). cbn. intros [Hr|Hr]%elem_of_app.
    + apply elem_of_where in Hr as [_ Hr]. by rewrite Hdue in Hr.
    + apply list_elem_of_singleton in Hr. apply (Hn k row); [cbn in Hk; lia | done|]. by rewrite Hr, <-Hnew.
Qed.

Lemma api_refresh rq w token j :
  option_map ro_endpoint (route_of path_match (rq_method rq) (rq_path rq)) = Some ep_refresh ->
  rq_json rq = Ok j -> refresh_request_from j = Some token ->
  api' rq w = reply AnsTokens (refresh cfg token) w.
Proof.
  intros Hr Hj Ht. unfold api, serve. destruct (routes_of _ _) as [|r0 rs] eqn:Es.
  { unfold route_of in Hr. by rewrite Es in Hr. }
  destruct (route_of _ _ _) as [r|]; [|done]. injection Hr as Hr. rewrite Hr. cbn [endpoint_access identify].
  unfold bind at 1, bind at 1, attempt, ret. cbn [handle]. unfold extracting, body_of.
  rewrite Hj. cbn [ok_or]. by rewrite Ht.
Qed.
(** C7: a session can always be continued.  Whatever request is answered with
    tokens, by a wallet, an OAuth identity or an earlier refresh, the access
    token names a user, and the refresh token is stored by its hash for that
    user.  A client that later posts the answer's JSON as it is to the refresh
    endpoint is answered with new tokens of the same user and the wallet the
    user has by then, as long as the database is up and the row is still there
    and has not expired; the row is gone afterwards.  The tables need their keys
    and references, which every operation keeps. *)
Theorem session_continues (json_f64 : spec_float -> json) (rq : Request) (w w' : World) (r : Reply)
    (t : AuthResponse) :
  api cfg path_match bad_body bad_query bad_id rq w = (Ok r, w') -> tokens_of r = Some t ->
  exists user wallet row,
    (exists exp iat jti, jwt_encode (cfg_jwt_secret cfg) (mkClaims user wallet exp iat jti)
       = Some (ar_access_token t)) /\
    row ∈ db_refresh (w_db w') /\ rt_user_id row = user /\
    rt_token_hash row = sha256_hex (ar_refresh_token t) /\
    forall rq2 later j,
      option_map ro_endpoint (route_of path_match (rq_method rq2) (rq_path rq2)) = Some ep_refresh ->
      rs_body (reply_response json_f64 r) = JsonBody j -> rq_json rq2 = Ok j ->
      db_up_from (w_tick later) -> accounts_wf (w_db later) -> can_issue user later ->
      row ∈ db_refresh (w_db later) -> db_now (w_tick later) < rt_expires_at row * 1000000 ->
      exists t2 later', api cfg path_match bad_body bad_query bad_id rq2 later
                          = (Ok (Answered (AnsTokens t2)), later') /\
        (exists exp iat jti, jwt_encode (cfg_jwt_secret cfg)
           (mkClaims user (wallet_of_user user (w_db later)) exp iat jti) = Some (ar_access_token t2)) /\
        (exists row2, row2 ∈ db_refresh (w_db later') /\ rt_user_id row2 = user /\
           rt_token_hash row2 = sha256_hex (ar_refresh_token t2)) /\
        row ∉ db_refresh (w_db later').
Proof.
  intros Ha Ht. destruct (answered_tokens _ _ _ _ _ Ha Ht) as (user & wallet & Hf).
  destruct (tokens_from_row _ _ _ _ Hf) as (row & Hin & Hu & Hh).
  exists user, wallet, row. split; [by destruct Hf as (? & ? & _)|]. do 3 (split; [done|]).
  intros rq2 later j Hr Hb Hj Hup Hwf Hcan Hrow Hl. subst user.
  rewrite (tokens_of_body _ _ _ Ht) in Hb. injection Hb as <-.
  rewrite (api_refresh _ _ _ _ Hr Hj (tokens_read_back _)).
  destruct (refresh_runs _ _ _ Hup Hwf Hrow Hh Hl Hcan) as (t2 & later' & Hrun & Hf2 & Hgone).
  exists t2, later'. unfold reply, bind, attempt. rewrite Hrun. split; [done|].
  split; [by destruct Hf2 as (? & ? & _)|]. by split; [apply (tokens_from_row _ _ _ _ Hf2)|].
Qed.
End Sessions.

(** ** Example *)

(** The demonstration, with random bytes that repeat only from the fortieth
    tick on. *)
Definition capped_bytes (n k : nat) : bytes := pad_to k (le_enc 8 (Z.of_nat (Nat.min n 40))).
Definition env_capped : Env := {|
  db_fault := @db_fault env_demo; db_now := @db_now env_demo; app_now := @app_now env_demo;
  fresh_uuid := @fresh_uuid env_demo; random_bytes := capped_bytes;
  fresh_keypair := @fresh_keypair env_demo; rpc_account := @rpc_account env_demo;
  rpc_account_exists := @rpc_account_exists env_demo; rpc_rent_exempt := @rpc_rent_exempt env_demo;
  rpc_balance := @rpc_balance env_demo; rpc_token_balance := @rpc_token_balance env_demo;
  rpc_blockhash := @rpc_blockhash env_demo; rpc_send := @rpc_send env_demo; resend := @resend env_demo;
  fresh_csrf := @fresh_csrf env_demo; http_post_form := @http_post_form env_demo;
  http_get_bearer := @http_get_bearer env_demo; http_post_ipfs := @http_post_ipfs env_demo;
  http_post_arweave := @http_post_arweave env_demo; read_file := @read_file env_demo;
|}.
Definition api_capped : Request -> M World Empty_set Reply :=
  @api ext_demo env_capped config_hex match_demo (refusal 422) (refusal 400) (refusal 400).

(** The world after the first refresh, and its tokens. *)
Definition world_refreshed : World := snd (api_capped refresh_request (world_demo db_accounts)).
Definition tokens_refreshed : AuthResponse :=
  match fst (api_capped refresh_request (world_demo db_accounts)) with
  | Ok (Answered (AnsTokens t)) => t
  | _ => mkAuthResponse "" ""
  end.

Lemma capped_new (n : nat) (h : string) :
  List.forallb (fun m => negb (String.eqb h (@sha256_hex ext_demo (@hex_encode ext_demo
    (pad_to 32 (le_enc 8 (Z.of_nat m))))))) (List.seq n (41 - n)) = true ->
  (n <= 40)%nat ->
  forall k, (n <= k)%nat -> h <> @sha256_hex ext_demo (@hex_encode ext_demo (@random_bytes env_capped k 32)).
Proof.
  intros Hf Hn k Hk. rewrite List.forallb_forall in Hf. specialize (Hf (Nat.min k 40)).
  apply String.eqb_neq, negb_true_iff, Hf, List.in_seq. lia.
Qed.

Lemma session_continues_witness :
  exists t2 w2, api_capped (http_demo POST "/auth/refresh" "" None (to_json tokens_refreshed)) world_refreshed
    = (Ok (Answered (AnsTokens t2)), w2).
Proof.
  unfold api_capped.
  assert (E : @api ext_demo env_capped config_hex match_demo (refusal 422) (refusal 400) (refusal 400)
      refresh_request (world_demo db_accounts)
    = (Ok (Answered (AnsTokens tokens_refreshed)), world_refreshed)) by (vm_compute; reflexivity).
  destruct (@session_continues ext_demo env_capped config_hex match_demo (refusal 422) (refusal 400)
    (refusal 400) (fun _ => JNull) refresh_request (world_demo db_accounts) world_refreshed
    (Answered (AnsTokens tokens_refreshed)) tokens_refreshed E eq_refl)
    as (user & wallet & row & _ & Hin & Hu & _ & Hnext).
  pose (row0 := mkRefreshToken (@sha256_hex ext_demo (ar_refresh_token tokens_refreshed)) (uid x01)
                  1000 605800).
  assert (Hrows : db_refresh (w_db world_refreshed) = [row0]) by (vm_compute; reflexivity).
  assert (Hrow : row = row0) by (rewrite Hrows in Hin; by apply list_elem_of_singleton).
  destruct (Hnext (http_demo POST "/auth/refresh" "" None (to_json tokens_refreshed)) world_refreshed
    (to_json tokens_refreshed)) as (t2 & w2 & Ha & _); try reflexivity.
  - intros k _. reflexivity.
  - assert (Hdb : w_db world_refreshed = set_refresh (fun _ => [row0]) db_accounts)
      by (vm_compute; reflexivity).
    rewrite Hdb.
    split; try apply NoDup_singleton; try apply NoDup_nil_2; intros u Hx;
      first [exact Hx | by apply not_elem_of_nil in Hx].
  - rewrite <-Hu, Hrow. split; [by eexists|]. split.
    + exists (mkUserAccount (uid x01) None 900). split; [vm_compute; left | reflexivity].
    + intros k r Hk Hr. rewrite Hrows in Hr. apply list_elem_of_singleton in Hr. subst r.
      revert k Hk. apply capped_new; vm_compute; [reflexivity | lia].
  - exact Hin.
  - rewrite Hrow. reflexivity.
  - exists t2, w2. exact Ha.
Defined.
