(* ===== verification/Completion.v ===== *)
(** * Completion: an agreement gets from its invitation to its transaction

    What the other files say of an answer that comes is here turned round: with
    its services up, the program answers.  The last invited party accepts, the
    creator pays with a free submission, and submits: three requests of two
    users through three components, each leaving the tables as the next needs
    them. *)

From Stdlib Require Import ZArith Lia.
From Stdlib Require Import Strings.Byte Strings.Ascii Strings.String.
From Stdlib Require Import Floats.SpecFloat.
From stdpp Require Import base tactics decidable option list strings gmap.
From S2P Require Import Prelude Text Errors Borsh SolanaTypes Health World Concrete Crypto.
From S2P Require Import Jwt Auth AuthFacts OAuth User AccountFacts Ws Storage Upload Routes.
From S2P Require Import Notification DraftData Solana Agreement Draft Wire Invite InviteFacts.
From S2P Require Import Payments PaymentLifecycle PaymentFacts EventListener Expiry Keeper System.
From S2P Require Import Api Sessions Workflow Response.

Open Scope string_scope.
Open Scope list_scope.
Open Scope Z_scope.

Section Completion.
Context `{Ext, Env} (cfg : AppState).

(** Database and node answer from tick [n] on, and transactions have a text. *)
Record all_up (n : nat) : Prop := mkAllUp {
  up_db : db_up_from n;
  up_blockhash : forall k, (n <= k)%nat -> is_Some (rpc_blockhash k);
  up_rent : forall k size, (n <= k)%nat -> is_Some (rpc_rent_exempt k size);
  up_encode : forall t, is_Some (tx_encode t);
}.

Lemma all_up_later n k : all_up n -> (n <= k)%nat -> all_up k.
Proof. intros [] Hk. split; [intros i Hi; apply up_db0; lia|..]; auto with lia. Qed.

Lemma create_tx_run args creator vault w :
  all_up (w_tick w) ->
  exists text, build_create_agreement_tx args creator vault w = (Ok text, tick (tick w)).
Proof.
  intros Hup. unfold build_create_agreement_tx, calculate_vault_deposit, vault_signed.
  destruct (up_rent _ Hup (w_tick w) AGREEMENT_STATE_SIZE) as [rent Hr]; [done|].
  destruct (up_blockhash _ Hup (S (w_tick w))) as [bh Hb]; [lia|].
  erewrite bind_step.
  2:{ erewrite bind_step; [reflexivity|]. unfold get_rent_exemption. by rewrite Hr. }
  erewrite bind_step by (unfold get_latest_blockhash; cbn [w_tick tick]; by rewrite Hb).
  unfold try_partial_sign. rewrite bool_decide_eq_true_2 by (cbn; left).
  erewrite bind_step by reflexivity. unfold of_result.
  match goal with |- context [tx_encode ?t] => destruct (up_encode _ Hup t) as [text Ht] end.
  rewrite Ht. by exists text.
Qed.

(** What [submit_draft] asks of the draft, the caller and the request. *)
Record submittable (user : Uuid) (pubkey : string) (id : Uuid) (req : SubmitDraftRequest)
    (d : Db) : Prop := mkSubmittable {
  sm_hash : exists h, hex_to_bytes32 (sb_content_hash req) = Some h;
  sm_hash_text : validate_content_hash (sb_content_hash req) = Ok tt;
  sm_backend : exists b, parse_storage_backend (sb_storage_backend req) = Ok b;
  sm_key : exists k, pubkey_from_str pubkey = Some k;
  sm_email : user_has_email user d = true;
  sm_draft : exists r, draft_row id d = Some r /\ ad_creator_pubkey r = pubkey /\
    ad_paid r = true /\ ad_status r = "ready_to_submit" /\
    exists p, payload_from_value (ad_draft_payload r) = Some p;
}.

(** A submission that passes its gates is answered. *)
Lemma submit_draft_answers user pubkey id req w :
  all_up (w_tick w) -> submittable user pubkey id req (w_db w) ->
  exists resp w', submit_draft cfg user pubkey id req w = (Ok resp, w').
Proof.
  intros Hup [[h Hh] Ht [b Hb] [k Hk] Hem (r & Hr & Hcr & Hpaid & Hst & p & Hp)].
  pose proof (up_db _ Hup) as Hdb.
  unfold submit_draft, get_draft_row, has_contact_email, internal.
  rewrite Ht. erewrite bind_step by reflexivity. rewrite Hb. erewrite bind_step by reflexivity.
  erewrite bind_step.
  2:{ erewrite bind_step by (apply map_err_step, sql_query, Hdb; cbn; lia). rewrite Hr. reflexivity. }
  unfold ensure_creator_only. rewrite Hcr, String.eqb_refl. erewrite bind_step by reflexivity.
  erewrite bind_step by (apply map_err_step, sql_query, Hdb; cbn; lia).
  change (w_db (tick w)) with (w_db w). rewrite Hem. unfold evaluate_submit_gates.
  rewrite Hpaid, Hst. cbn [negb]. rewrite String.eqb_refl. erewrite bind_step by reflexivity.
  erewrite bind_step.
  2:{ apply map_err_step. unfold store_uri_stmt. rewrite prepared_ok by reflexivity.
      apply sql_execute, Hdb. cbn; lia. }
  rewrite Hp. erewrite bind_step by reflexivity. rewrite Hk. erewrite bind_step by reflexivity.
  erewrite bind_step by reflexivity. rewrite Hh. erewrite bind_step by reflexivity.
  match goal with |- context [build_create_agreement_tx ?a ?c ?v] =>
    match goal with |- context [bind (build_create_agreement_tx a c v) _ ?u] =>
      destruct (create_tx_run a c v u) as [text Hb2];
        [apply (all_up_later (w_tick w)); [done | cbn; lia]|] end end.
  erewrite bind_step by exact Hb2.
  erewrite bind_step.
  2:{ apply map_err_step. unfold store_agreement_stmt. rewrite prepared_ok by reflexivity.
      apply sql_execute, Hdb. cbn; lia. }
  erewrite bind_step.
  2:{ apply map_err_step. unfold link_payment_stmt. rewrite prepared_ok by reflexivity.
      apply sql_execute, Hdb. cbn; lia. }
  eauto.
Qed.

(** ** Requests *)

Context (path_match : string -> string -> bool) (bad_body : json -> Rejection)
  (bad_query : list (string * string) -> Rejection) (bad_id : string -> Rejection).

(** A request of a user with a wallet for the endpoint [e], whose token is
    valid when it is presented in [w]. *)
Definition requests (rq : Request) (e : Endpoint) (user : Uuid) (wallet : string) (w : World) : Prop :=
  option_map ro_endpoint (route_of path_match (rq_method rq) (rq_path rq)) = Some e /\
  speaks_for cfg (rq_authorization rq) w user (Some wallet).

Lemma api_wallet_run rq e user wallet w :
  requests rq e user wallet w -> endpoint_access e = NeedsWallet ->
  api cfg path_match bad_body bad_query bad_id rq w =
  handle cfg bad_body bad_query bad_id rq e (CallerWallet (mkAuthWalletUser user wallet)) (tick w).
Proof.
  intros [Hr (token & claims & Hh & Hd & <- & Hw)] Ha.
  unfold api, serve. destruct (routes_of _ _) as [|r0 rs] eqn:Es.
  { unfold route_of in Hr. by rewrite Es in Hr. }
  destruct (route_of _ _ _) as [r|]; [|done]. injection Hr as Hr. rewrite Hr, Ha, Hh.
  unfold bind at 1, bind at 1, attempt, identify, auth_user_with_wallet, bind at 1, bind at 1.
  rewrite auth_user_run, Hd. cbn [au_pubkey]. rewrite Hw. reflexivity.
Qed.

Lemma reply_run {A} (answer : A -> Answer) (m : M World AppError A) w a w' :
  m w = (Ok a, w') -> reply answer m w = (Ok (Answered (answer a)), w').
Proof. intros Hm. unfold reply, bind, attempt. by rewrite Hm. Qed.

(** ** From the invitation to the transaction *)

(** What the creator of a draft needs to pay for it with a free submission and
    to submit it. *)
Record creator_able (user : Uuid) (pubkey : string) (draft : AgreementDraftRow) (d : Db) : Prop :=
    mkCreatorAble {
  cb_creator : ad_creator_pubkey draft = pubkey;
  cb_user : exists_row (fun u => uuid_eqb (ua_id u) user) (db_users d) = true;
  cb_free : has_free_submission cfg user d;
  cb_count : default 0 (free_used_of user d) + 1 < 2147483648;
  cb_email : user_has_email user d = true;
  cb_key : exists k, pubkey_from_str pubkey = Some k;
  cb_payload : exists p, payload_from_value (ad_draft_payload draft) = Some p;
}.

Definition submission_fits (req : SubmitDraftRequest) : Prop :=
  (exists h, hex_to_bytes32 (sb_content_hash req) = Some h) /\
  validate_content_hash (sb_content_hash req) = Ok tt /\
  exists b, parse_storage_backend (sb_storage_backend req) = Ok b.

Lemma core_tables d d' : core d = core d' ->
  db_drafts d = db_drafts d' /\ db_users d = db_users d' /\ db_counts d = db_counts d' /\
  db_contacts d = db_contacts d'.
Proof. destruct d, d'. unfold core, set_notifications; cbn. intros [=]; subst. auto. Qed.

Lemma draft_row_update id f d :
  (forall r, ad_id (f r) = ad_id r) ->
  draft_row id (set_drafts (update_where (draft_where id) f) d) = option_map f (draft_row id d).
Proof.
  intros Hf. unfold draft_row. cbn. apply fetch_update_where. intros x. unfold draft_where.
  by rewrite Hf.
Qed.

(** The draft after the last acceptance, and after the payment. *)
Lemma accepted_draft invite slots now d d' draft :
  core d' = core (accept_effect invite slots now d) -> all_pubkeys_resolved slots = true ->
  draft_row (pi_draft_id invite) d = Some draft ->
  draft_row (pi_draft_id invite) d' = Some (set_draft_ready (slots_to_value slots) now draft).
Proof.
  intros (Hd & _)%core_tables Hall Hr. unfold draft_row. rewrite Hd. unfold accept_effect.
  rewrite Hall. pose proof (draft_row_update (pi_draft_id invite)
    (set_draft_ready (slots_to_value slots) now) d (fun _ => eq_refl)) as E.
  rewrite Hr in E. exact E.
Qed.

Lemma paid_draft id d draft f :
  draft_row id d = Some draft ->
  draft_row id (set_counts f (paid_effect id d)) = Some (set_draft_paid draft).
Proof.
  intros Hr. pose proof (draft_row_update id set_draft_paid d (fun _ => eq_refl)) as E.
  rewrite Hr in E. exact E.
Qed.

(** The creator stays able: neither step touches what it needs, and the draft
    keeps creator and payload. *)
Lemma creator_able_kept user pubkey draft draft' d d' :
  creator_able user pubkey draft d ->
  ad_creator_pubkey draft' = ad_creator_pubkey draft -> ad_draft_payload draft' = ad_draft_payload draft ->
  db_users d' = db_users d -> db_counts d' = db_counts d -> db_contacts d' = db_contacts d ->
  creator_able user pubkey draft' d'.
Proof.
  intros [] E1 E2 Eu Ec Ek.
  split; unfold has_free_submission, free_used_of, user_has_email in *; by rewrite ?E1, ?E2, ?Eu, ?Ec, ?Ek.
Qed.

Lemma creator_pays user pubkey draft id method w :
  all_up (w_tick w) -> draft_row id (w_db w) = Some draft ->
  creator_able user pubkey draft (w_db w) ->
  exists w', initiate_payment cfg user pubkey id method w = (Ok Free, w') /\
    (w_tick w <= w_tick w')%nat /\ draft_row id (w_db w') = Some (set_draft_paid draft) /\
    db_contacts (w_db w') = db_contacts (w_db w).
Proof.
  intros Hup Hr [].
  destruct (initiate_payment_run cfg user pubkey id method w) as (w' & E & Hk & [f Hd] & _); try done.
  { apply (up_db _ Hup). }
  { unfold draft_creator_of. change (fun r => uuid_eqb (ad_id r) id) with (draft_where id).
    unfold draft_row in Hr. rewrite Hr. cbn. by rewrite cb_creator0. }
  exists w'. split; [exact E|]. split; [done|]. rewrite Hd. split; [by apply paid_draft | reflexivity].
Qed.

(** C9: an agreement gets from its invitation to its transaction.  With the
    database and the node up, let the last invited party accept by its token,
    and the creator, who has a free submission, an email and a key, pay for the
    draft and submit it, each with a token valid at the time.  The three
    requests are answered 204, 200 as free, and 200 with a transaction: a
    create instruction for the parties the draft's payload names, whose address
    the draft then carries. *)
Theorem agreement_completes (json_f64 : spec_float -> json) (rq1 rq2 rq3 : Request) (w : World)
    (guest creator : Uuid) (guest_key creator_key token method : string)
    (invite : PartyInvitationRow) (draft : AgreementDraftRow) (slots slots' : list DraftPartyEntry)
    (req : SubmitDraftRequest) :
  let run := api cfg path_match bad_body bad_query bad_id in
  let w1 := snd (run rq1 w) in
  let w2 := snd (run rq2 w1) in
  let status r := rs_status (reply_response json_f64 r) in
  all_up (w_tick w) ->
  requests rq1 ep_accept_invite guest guest_key w -> rq_param rq1 = Ok token ->
  acceptable (app_now (S (w_tick w))) guest_key token (w_db w) invite draft slots slots' ->
  all_pubkeys_resolved slots' = true ->
  creator_able creator creator_key draft (w_db w) ->
  requests rq2 ep_initiate_payment creator creator_key w1 ->
  id_of bad_id rq2 = Ok (pi_draft_id invite) ->
  body_of bad_body initiate_request_from rq2 = Ok method ->
  requests rq3 ep_submit_draft creator creator_key w2 ->
  id_of bad_id rq3 = Ok (pi_draft_id invite) ->
  body_of bad_body submit_request_from rq3 = Ok req -> submission_fits req ->
  exists r1 resp w3,
    run rq1 w = (Ok r1, w1) /\ status r1 = 204 /\
    run rq2 w1 = (Ok (Answered (AnsPayment Free)), w2) /\
    run rq3 w2 = (Ok (Answered (AnsSubmit resp)), w3) /\ status (Answered (AnsSubmit resp)) = 200 /\
    (exists t ix args, tx_encode t = Some (sd_transaction resp) /\ tx_instructions t = [ix] /\
       ix_data ix = CREATE_AGREEMENT_DISCRIMINATOR ++ enc c_create_args args /\
       payload_parties (ad_draft_payload draft) (ca_parties args)) /\
    forall r, r ∈ db_drafts (w_db w3) -> ad_id r = pi_draft_id invite ->
      ad_agreement_pda r = Some (sd_agreement_pda resp).
Proof.
  intros run w1 w2 status Hup R1 Hp1 Hacc Hall Hable R2 Hi2 Hb2 R3 Hi3 Hb3 Hfit.
  assert (Hrow : draft_row (pi_draft_id invite) (w_db w) = Some draft)
    by (by destruct Hacc as (_ & _ & _ & Hd & _)).
  destruct (accept_invite_run guest_key token (tick w) invite draft slots slots')
    as (u1 & E1 & Hc1 & Hk1); [|exact Hacc|].
  { apply (up_db _ (all_up_later _ _ Hup (Nat.le_succ_diag_r _))). }
  cbn in Hk1. change (w_db (tick w)) with (w_db w) in Hc1.
  pose proof (accepted_draft _ _ _ _ _ _ Hc1 Hall Hrow) as Hrow1.
  apply core_tables in Hc1 as (_ & Hu1 & Hn1 & Hk).
  assert (Hup1 : all_up (S (w_tick u1))) by (apply (all_up_later _ _ Hup); lia).
  assert (A1 : run rq1 w = (Ok (Answered AnsNoContent), u1)).
  { unfold run. rewrite (api_wallet_run _ _ _ _ _ R1) by done. cbn [handle]. unfold extracting.
    rewrite Hp1. by apply (reply_run (fun _ => AnsNoContent) _ _ tt). }
  assert (Ew1 : w1 = u1) by (unfold w1; by rewrite A1).
  destruct (creator_pays creator creator_key _ _ method (tick u1) Hup1 Hrow1)
    as (u2 & E2 & Hk2 & Hrow2 & Hcon2).
  { eapply creator_able_kept; [exact Hable | done..]. }
  cbn in Hk2, Hcon2.
  assert (Hup2 : all_up (S (w_tick u2))) by (apply (all_up_later _ _ Hup); lia).
  assert (A2 : run rq2 w1 = (Ok (Answered (AnsPayment Free)), u2)).
  { unfold run. rewrite (api_wallet_run _ _ _ _ _ R2) by done. cbn [handle]. unfold extracting.
    rewrite Hi2, Hb2, Ew1. by apply reply_run. }
  assert (Ew2 : w2 = u2) by (unfold w2; by rewrite A2).
  destruct (submit_draft_answers creator creator_key (pi_draft_id invite) req (tick u2) Hup2)
    as (resp & w3 & E3).
  { destruct Hfit as (Hh & Ht & Hb), Hable. split; try done.
    - unfold user_has_email in *. cbn. by rewrite Hcon2, Hk.
    - eexists. split; [exact Hrow2|]. done. }
  exists (Answered AnsNoContent), resp, w3. rewrite A1, A2, Ew1, Ew2.
  do 3 (split; [done|]). split.
  { unfold run. rewrite Ew2 in R3. rewrite (api_wallet_run _ _ _ _ _ R3) by done. cbn [handle].
    unfold extracting. rewrite Hi3, Hb3. by apply reply_run. }
  split; [done|].
  apply submit_draft_run in E3 as (r & t & ix & args & Hr & _ & _ & _ & _ & Ht & Hix & Hdata & Hpay & Hpda).
  change (w_db (tick u2)) with (w_db u2) in Hr. rewrite Hrow2 in Hr. injection Hr as <-.
  split; [by exists t, ix, args | exact Hpda].
Qed.
End Completion.

(** ** Example *)

(** Carol created an agreement with somebody of whom she has an email; Dave
    accepts with the token, and Carol pays and submits. *)
Definition bearer_demo (user : Uuid) (wallet : string) : option string :=
  Some ("Bearer " +:+ jwt_text "secret" (mkClaims user (Some wallet) 2000 1000 (uid x02))).
Definition invited_demo : World :=
  with_db (set_users (fun _ => [mkUserAccount (uid x01) None 0]) (w_db (snd created_demo)))
    (snd created_demo).
Definition token_demo : string := hex_demo (@random_bytes env_demo 4 32).
Definition id_demo : string := @uuid_to_string ext_demo draft_demo.
Definition accept_request : Request :=
  http_demo POST "/invite/t/accept" token_demo (bearer_demo (uid x03) dave) JNull.
Definition initiate_request : Request :=
  http_demo POST "/payment/initiate/5" id_demo (bearer_demo (uid x01) carol)
    (JObj [("method", JStr "usdc")]).
Definition submit_request : Request :=
  http_demo POST "/draft/5/submit" id_demo (bearer_demo (uid x01) carol)
    (JObj [("content_hash", JStr (hex_demo (repeat x01 32))); ("storage_uri", JStr "ipfs://x");
           ("storage_backend", JStr "ipfs")]).

Lemma all_up_demo n : @all_up ext_demo env_demo n.
Proof. split; [done|..]; intros; by eexists. Qed.

Lemma bearer_speaks user wallet later :
  @speaks_for ext_demo env_demo config_hex (bearer_demo user wallet) later user (Some wallet).
Proof.
  eexists _, _. split; [reflexivity|]. split; [exact (jwt_read_text "secret" (mkClaims user (Some wallet) 2000 1000 (uid x02)) 1000) | by split].
Qed.

Definition draft_of_demo : AgreementDraftRow :=
  default (mkAgreementDraft draft_demo "" JNull JNull "" 0 None false None false None None)
    (draft_row draft_demo (w_db invited_demo)).
Definition invite_of_demo : PartyInvitationRow :=
  default (invitation_demo x08 "") (invite_by_token token_demo (w_db invited_demo)).
Definition slots_of_demo : list DraftPartyEntry :=
  default [] (@slots_from_value ext_demo (ad_party_slots draft_of_demo)).
Definition filled_demo : list DraftPartyEntry :=
  match @resolve_party_slot_pubkey slots_of_demo (pi_id invite_of_demo) dave with
  | Ok slots => slots | Err _ => [] end.

Lemma agreement_completes_witness :
  exists r1 resp w1 w2 w3,
    api_demo accept_request invited_demo = (Ok r1, w1) /\
    api_demo initiate_request w1 = (Ok (Answered (AnsPayment Free)), w2) /\
    api_demo submit_request w2 = (Ok (Answered (AnsSubmit resp)), w3).
Proof.
  assert (Hid : pi_draft_id invite_of_demo = draft_demo) by (vm_compute; reflexivity).
  destruct (@agreement_completes ext_demo env_demo config_hex match_demo (refusal 422) (refusal 400)
    (refusal 400) (fun _ => JNull) accept_request initiate_request submit_request invited_demo
    (uid x03) (uid x01) dave carol token_demo "usdc" invite_of_demo draft_of_demo slots_of_demo
    filled_demo submit_demo) as (r1 & resp & w3 & E1 & _ & E2 & E3 & _).
  - apply all_up_demo.
  - split; [vm_compute; reflexivity | by apply bearer_speaks].
  - reflexivity.
  - split; [vm_compute; reflexivity|]. split; [vm_compute; reflexivity|].
    split; [vm_compute; discriminate|]. split; [vm_compute; reflexivity|].
    split; vm_compute; reflexivity.
  - vm_compute. reflexivity.
  - split; try (vm_compute; reflexivity); eexists; vm_compute; reflexivity.
  - split; [vm_compute; reflexivity | by apply bearer_speaks].
  - rewrite Hid. vm_compute. reflexivity.
  - reflexivity.
  - split; [vm_compute; reflexivity | by apply bearer_speaks].
  - rewrite Hid. vm_compute. reflexivity.
  - reflexivity.
  - split; [eexists; vm_compute; reflexivity|]. split; [vm_compute; reflexivity|].
    eexists. vm_compute. reflexivity.
  - exists r1, resp, (snd (api_demo accept_request invited_demo)),
      (snd (api_demo initiate_request (snd (api_demo accept_request invited_demo)))), w3.
    exact (conj E1 (conj E2 E3)).
Defined.
