(* ===== verification/Secrecy.v ===== *)
(** * Secrecy: encrypted contacts are written and never read back

    The tables hold ciphertexts of contacts: email, phone and push token in
    user_contacts, the address of an invited party in party_invitations.  The blind index
    of an email, a keyed hash, is compared and does not count as one.  Two
    worlds that differ in nothing but these ciphertexts are [alike].  Every
    request and every worker but the notification worker takes worlds that are
    alike to worlds that are alike, answers the same and does the same to the
    outside: what is stored does not flow to an answer, to a notification or to
    another table.  [agree] is the two-run counterpart of [keeps]. *)

From Stdlib Require Import ZArith Lia.
From Stdlib Require Import Strings.Byte Strings.Ascii Strings.String.
From stdpp Require Import base tactics decidable option list strings gmap.
From S2P Require Import Prelude Text Errors Borsh SolanaTypes Health World Concrete Crypto.
From S2P Require Import Jwt Auth AuthFacts OAuth User AccountFacts Ws Storage Upload Routes.
From S2P Require Import Notification DraftData Solana Agreement Draft Wire Invite InviteFacts.
From S2P Require Import Payments PaymentLifecycle EventListener Expiry Keeper System Api.

Open Scope string_scope.
Open Scope list_scope.
Open Scope Z_scope.

(** ** Erasing ciphertexts *)

(** Whether a ciphertext is there stays. *)
Definition blank (o : option bytes) : option bytes := option_map (fun _ => []) o.

Definition erase_contact (r : UserContactRow) : UserContactRow :=
  mkUserContact (uc_user_id r) (blank (uc_email_enc r)) (blank (uc_email_nonce r))
    (uc_email_index r) (blank (uc_phone_enc r)) (blank (uc_phone_nonce r))
    (blank (uc_push_token_enc r)) (blank (uc_push_token_nonce r)) (uc_updated_at r).

Definition erase_invitation (r : PartyInvitationRow) : PartyInvitationRow :=
  mkPartyInvitation (pi_id r) (pi_draft_id r) (pi_email_index r) [] [] (pi_token r) (pi_status r)
    (pi_reminder_sent_at r) (pi_reminder_count r) (pi_created_at r) (pi_expires_at r).

Definition erase (d : Db) : Db :=
  set_contacts (map erase_contact) (set_invitations (map erase_invitation) d).

Definition alike (w1 w2 : World) : Prop :=
  with_db (erase (w_db w1)) w1 = with_db (erase (w_db w2)) w2.

(** ** Two runs that agree *)

Definition result_rel {E A} (Q : A -> A -> Prop) (r1 r2 : result E A) : Prop :=
  match r1, r2 with
  | Ok a1, Ok a2 => Q a1 a2
  | Err e1, Err e2 => e1 = e2
  | _, _ => False
  end.

Definition agree {E A} (Q : A -> A -> Prop) (m1 m2 : M World E A) : Prop :=
  forall w1 w2, alike w1 w2 ->
    result_rel Q (fst (m1 w1)) (fst (m2 w2)) /\ alike (snd (m1 w1)) (snd (m2 w2)).

(** A computation that does not see ciphertexts. *)
Definition blind {E A} (m : M World E A) : Prop := agree eq m m.

Lemma result_rel_eq {E A} (r1 r2 : result E A) : result_rel eq r1 r2 <-> r1 = r2.
Proof. destruct r1, r2; cbn; naive_solver. Qed.

Lemma agree_bind {E A B} (Q : A -> A -> Prop) (S : B -> B -> Prop) (m1 m2 : M World E A)
    (k1 k2 : A -> M World E B) :
  agree Q m1 m2 -> (forall a1 a2, Q a1 a2 -> agree S (k1 a1) (k2 a2)) ->
  agree S (bind m1 k1) (bind m2 k2).
Proof.
  intros Hm Hk w1 w2 Hw. unfold bind. specialize (Hm w1 w2 Hw).
  destruct (m1 w1) as [[a1|e1] v1], (m2 w2) as [[a2|e2] v2]; cbn in *; try tauto.
  destruct Hm. by apply Hk.
Qed.

Lemma agree_map_err {E F A} (Q : A -> A -> Prop) (f : E -> F) (m1 m2 : M World E A) :
  agree Q m1 m2 -> agree Q (map_err f m1) (map_err f m2).
Proof.
  intros Hm w1 w2 Hw. unfold map_err. specialize (Hm w1 w2 Hw).
  destruct (m1 w1) as [[a1|e1] v1], (m2 w2) as [[a2|e2] v2]; cbn in *; try tauto.
  split; [|tauto]. f_equal. tauto.
Qed.

Lemma blind_bind {E A B} (m : M World E A) (k : A -> M World E B) :
  blind m -> (forall a, blind (k a)) -> blind (bind m k).
Proof. intros Hm Hk. apply (agree_bind eq); [done|]. intros a ? <-. apply Hk. Qed.

Lemma blind_pure {E A} (r : result E A) : blind (fun w => (r, w)).
Proof. intros w1 w2 Hw. split; [by apply result_rel_eq | done]. Qed.

Lemma blind_attempt {E F A} (m : M World E A) : blind m -> blind (attempt (F:=F) m).
Proof.
  intros Hm w1 w2 Hw. unfold attempt. destruct (Hm w1 w2 Hw) as [Hr Ha].
  apply result_rel_eq in Hr. destruct (m w1), (m w2); cbn in *. by split.
Qed.

Lemma blind_for_each {E A} (xs : list A) (body : A -> M World E unit) :
  (forall x, blind (body x)) -> blind (for_each xs body).
Proof.
  intros Hb. induction xs as [|x xs IH]; cbn; [apply blind_pure | by apply blind_bind].
Qed.

(** A computation whose result and effect on the world are those of a world
    without its tables, which it leaves alone. *)
Lemma blind_outside {E A} (m : M World E A) :
  (forall d w, m (with_db d w) = (fst (m w), with_db d (snd (m w)))) -> blind m.
Proof.
  intros Hm w1 w2 Hw. unfold alike in Hw.
  assert (Hdb : forall w, w_db (snd (m w)) = w_db w).
  { intros w. pose proof (Hm (w_db w) w) as Hself.
    assert (Hw0 : with_db (w_db w) w = w) by (destruct w; reflexivity).
    rewrite Hw0 in Hself. exact (f_equal (fun p => w_db (snd p)) Hself). }
  pose proof (Hm (erase (w_db w1)) w1) as H1. pose proof (Hm (erase (w_db w2)) w2) as H2.
  rewrite Hw, H2 in H1.
  split; [apply result_rel_eq; by apply (f_equal fst) in H1|].
  unfold alike. rewrite !Hdb. by apply (f_equal snd) in H1.
Qed.

(** ** Statements *)

Definition stmts_agree {A} (Q : A -> A -> Prop) (s1 s2 : Stmt A) : Prop :=
  forall now d1 d2, erase d1 = erase d2 ->
    match s1 now d1, s2 now d2 with
    | Some (a1, d1'), Some (a2, d2') => Q a1 a2 /\ erase d1' = erase d2'
    | None, None => True
    | _, _ => False
    end.

Definition blind_stmt {A} (s : Stmt A) : Prop := stmts_agree eq s s.

Lemma alike_db w1 w2 : alike w1 w2 -> erase (w_db w1) = erase (w_db w2).
Proof. unfold alike. intros H. exact (f_equal w_db H). Qed.

Lemma alike_rest w1 w2 : alike w1 w2 -> exists d, w2 = with_db d w1.
Proof.
  unfold alike. destruct w1, w2; unfold with_db; cbn. intros [=]; subst. by eexists.
Qed.

Lemma alike_with_db d1 d2 w : erase d1 = erase d2 -> alike (with_db d1 w) (with_db d2 w).
Proof. unfold alike, with_db; cbn. by intros ->. Qed.

(** Tables that are equal up to the map [e] of their rows. *)
Section Rows.
Context {A : Type} (e : A -> A) (t1 t2 : list A) (Ht : map e t1 = map e t2).

Lemma alike_map {B} (g : A -> B) : (forall r, g (e r) = g r) -> map g t1 = map g t2.
Proof.
  intros Hg. rewrite <-(map_ext (fun r => g (e r)) g Hg t1), <-(map_ext (fun r => g (e r)) g Hg t2).
  rewrite <-2 (map_map e g). by rewrite Ht.
Qed.

Lemma alike_flat_map {B} (g : A -> list B) :
  (forall r, g (e r) = g r) -> List.flat_map g t1 = List.flat_map g t2.
Proof. intros Hg. rewrite !List.flat_map_concat_map. by rewrite (alike_map g Hg). Qed.

Lemma map_where p t : (forall r, p (e r) = p r) -> map e (where_ p t) = where_ p (map e t).
Proof.
  intros Hp. unfold where_. induction t as [|r t IH]; cbn; [done|]. rewrite Hp.
  destruct (p r); cbn; by rewrite IH.
Qed.

Lemma alike_where p : (forall r, p (e r) = p r) -> map e (where_ p t1) = map e (where_ p t2).
Proof. intros Hp. rewrite !map_where by done. by rewrite Ht. Qed.

Lemma alike_exists p : (forall r, p (e r) = p r) -> exists_row p t1 = exists_row p t2.
Proof.
  intros Hp. unfold exists_row.
  assert (Hl : forall t, List.existsb p (map e t) = List.existsb p t).
  { intros t. induction t as [|r t IH]; cbn; [done|]. by rewrite Hp, IH. }
  by rewrite <-(Hl t1), <-(Hl t2), Ht.
Qed.

Lemma alike_forallb p : (forall r, p (e r) = p r) -> List.forallb p t1 = List.forallb p t2.
Proof.
  intros Hp.
  assert (Hl : forall t, List.forallb p (map e t) = List.forallb p t).
  { intros t. induction t as [|r t IH]; cbn; [done|]. by rewrite Hp, IH. }
  by rewrite <-(Hl t1), <-(Hl t2), Ht.
Qed.

Lemma alike_update p f : (forall r, p (e r) = p r) -> (forall r, e (f (e r)) = e (f r)) ->
  (forall r, e (e r) = e r) ->
  map e (update_where p f t1) = map e (update_where p f t2).
Proof.
  intros Hp Hf Hi. unfold update_where. rewrite !map_map.
  apply (alike_map (fun r => e (if p r then f r else r))).
  intros r. rewrite Hp. by destruct (p r).
Qed.

Lemma alike_append t : map e (t1 ++ t) = map e (t2 ++ t).
Proof. by rewrite !map_app, Ht. Qed.

Lemma alike_head : option_map e (head t1) = option_map e (head t2).
Proof. revert Ht. destruct t1, t2; cbn; congruence. Qed.

Lemma map_insert_by key x t : (forall r, key (e r) = key r) ->
  map e (insert_by key x t) = insert_by key (e x) (map e t).
Proof.
  intros Hk. induction t as [|y t IH]; cbn; [done|]. rewrite !Hk.
  destruct (_ <? _); cbn; [done | by rewrite IH].
Qed.

Lemma map_order_by key t : (forall r, key (e r) = key r) ->
  map e (order_by key t) = order_by key (map e t).
Proof.
  intros Hk. unfold order_by. change (@nil A) with (map e []) at 2. generalize (@nil A) as acc.
  induction t as [|x t IH]; intros acc; cbn; [done|]. rewrite IH. by rewrite map_insert_by.
Qed.

Lemma alike_order_by key : (forall r, key (e r) = key r) ->
  map e (order_by key t1) = map e (order_by key t2).
Proof. intros Hk. rewrite !map_order_by by done. by rewrite Ht. Qed.
End Rows.

Lemma erase_cases d1 d2 : erase d1 = erase d2 ->
  map erase_contact (db_contacts d1) = map erase_contact (db_contacts d2) /\
  map erase_invitation (db_invitations d1) = map erase_invitation (db_invitations d2) /\
  d2 = set_contacts (fun _ => db_contacts d2) (set_invitations (fun _ => db_invitations d2) d1).
Proof.
  destruct d1, d2. unfold erase, set_contacts, set_invitations; cbn. intros [=]; subst. auto.
Qed.

Lemma erase_contact_idem r : erase_contact (erase_contact r) = erase_contact r.
Proof. destruct r as [? [] [] ? [] [] [] [] ?]; reflexivity. Qed.
Lemma erase_invitation_idem r : erase_invitation (erase_invitation r) = erase_invitation r.
Proof. reflexivity. Qed.

Lemma agree_sql {A} `{Ext, Env} (Q : A -> A -> Prop) (s1 s2 : Stmt A) :
  stmts_agree Q s1 s2 -> agree Q (sql s1) (sql s2).
Proof.
  intros Hs w1 w2 Hw. destruct (alike_rest _ _ Hw) as [d2 ->].
  apply alike_db in Hw. cbn in Hw. unfold sql. cbn [w_tick with_db w_db].
  specialize (Hs (db_now (w_tick w1)) (w_db w1) d2 Hw).
  assert (Hsame : alike (tick w1) (tick (with_db d2 w1))).
  { apply (alike_with_db _ _ (tick w1)) in Hw. unfold alike, with_db, tick in *; cbn in *. done. }
  destruct (db_fault (w_tick w1)); [|done|];
    destruct (s1 _ _) as [[a1 d1']|], (s2 _ _) as [[a2 d2']|]; cbn; try done; destruct Hs as [HQ Hd];
    (split; [done|]); apply (alike_with_db _ _ (tick w1)) in Hd; exact Hd.
Qed.

Lemma blind_sql {A} `{Ext, Env} (s : Stmt A) : blind_stmt s -> blind (sql s).
Proof. apply agree_sql. Qed.

Lemma stmts_agree_prepared {A} (Q : A -> A -> Prop) t cols (s1 s2 : Stmt A) :
  stmts_agree Q s1 s2 -> stmts_agree Q (prepared t cols s1) (prepared t cols s2).
Proof.
  intros Hs now d1 d2 He. unfold prepared. destruct (List.forallb _ _); [by apply Hs | done].
Qed.

Lemma stmts_agree_insert_prepared {A} (Q : A -> A -> Prop) t cols (s1 s2 : Stmt A) :
  stmts_agree Q s1 s2 -> stmts_agree Q (insert_prepared t cols s1) (insert_prepared t cols s2).
Proof.
  intros Hs now d1 d2 He. unfold insert_prepared.
  destruct (List.forallb _ _); [by apply stmts_agree_prepared | done].
Qed.

Lemma stmts_agree_query {A} (Q : A -> A -> Prop) (f : Db -> A) :
  (forall d1 d2, erase d1 = erase d2 -> Q (f d1) (f d2)) -> stmts_agree Q (query f) (query f).
Proof. intros Hf now d1 d2 He. cbn. auto. Qed.

Lemma blind_transaction `{Ext, Env} {A} (m : M World AppError A) : blind m -> blind (transaction m).
Proof.
  intros Hm w1 w2 Hw. destruct (alike_rest _ _ Hw) as [d2 ->].
  unfold transaction. cbn [w_tick with_db].
  assert (Ht : alike (tick w1) (tick (with_db d2 w1))).
  { apply alike_db in Hw. by apply (alike_with_db _ _ (tick w1)) in Hw. }
  destruct (db_fault (w_tick w1)); [|by split..].
  destruct (Hm _ _ Ht) as [Hr Ha]. apply result_rel_eq in Hr.
  destruct (m (tick w1)) as [r v1], (m (tick (with_db d2 w1))) as [r2 v2]; cbn in Hr, Ha; subst r2.
  destruct (alike_rest _ _ Ha) as [d3 ->]. apply alike_db in Hw, Ha. cbn in Hw, Ha.
  destruct r as [a|e]; cbn [w_tick with_db];
    [destruct (db_fault (w_tick v1))|]; (split; [done|]); cbn [snd];
    first [ by apply (alike_with_db _ _ (tick v1)) in Ha
          | by apply (alike_with_db _ _ (tick v1)) in Hw
          | by apply (alike_with_db _ _ v1) in Hw ].
Qed.

(** ** The statements

    A statement that neither reads nor writes the two tables: both runs take
    the same branches. *)

Ltac same_tables He :=
  let Hc := fresh "Hc" in let Hi := fresh "Hi" in let Hd := fresh "Hd" in
  apply erase_cases in He as (Hc & Hi & Hd);
  match type of Hd with ?d2 = set_contacts _ (set_invitations _ ?d1) => destruct d1, d2 end;
  unfold set_contacts, set_invitations in Hd; cbn in Hd; injection Hd; intros; subst; clear Hd;
  cbn in Hc, Hi.
Ltac erased :=
  match goal with
  | Hc : map erase_contact _ = _, Hi : map erase_invitation _ = _ |- _ =>
      repeat split; unfold erase, set_contacts, set_invitations; cbn; by rewrite ?Hc, ?Hi
  end.
Ltac branch :=
  match goal with
  | |- context [match ?x with _ => _ end] =>
      lazymatch x with match _ with _ => _ end => fail | _ => destruct x eqn:? end
  end; cbn.
Ltac blind_branches :=
  let He := fresh in intros ? ? ? He; same_tables He; cbn; repeat branch; try done; erased.
Ltac blind_plain :=
  repeat first [ apply stmts_agree_prepared | apply stmts_agree_insert_prepared ]; blind_branches.

Create HintDb blind discriminated.

Lemma bl_insert_draft id creator p s st : blind_stmt (insert_draft_stmt id creator p s st).
Proof. unfold insert_draft_stmt. blind_plain. Qed.
Lemma bl_discard id : blind_stmt (discard_stmt id).
Proof. unfold discard_stmt. blind_plain. Qed.
Lemma bl_store_uri id uri : blind_stmt (store_uri_stmt id uri).
Proof. unfold store_uri_stmt. blind_plain. Qed.
Lemma bl_store_agreement id pda aid : blind_stmt (store_agreement_stmt id pda aid).
Proof. unfold store_agreement_stmt. blind_plain. Qed.
Lemma bl_link_payment id pda : blind_stmt (link_payment_stmt id pda).
Proof. unfold link_payment_stmt. blind_plain. Qed.
Lemma bl_mark_paid id : blind_stmt (mark_paid_stmt id).
Proof. unfold mark_paid_stmt. blind_plain. Qed.
Lemma bl_count_free user : blind_stmt (count_free_stmt user).
Proof. unfold count_free_stmt, free_used_of. blind_plain. Qed.
Lemma bl_insert_payment id draft method creator mint amount reference ata :
  blind_stmt (insert_payment_stmt id draft method creator mint amount reference ata).
Proof. unfold insert_payment_stmt. blind_plain. Qed.
Lemma bl_confirm reference sig mint amount : blind_stmt (confirm_stmt reference sig mint amount).
Proof. unfold confirm_stmt. blind_plain. Qed.
Lemma bl_expire_payments th : blind_stmt (expire_payments_stmt th).
Proof. unfold expire_payments_stmt. blind_plain. Qed.
Lemma bl_mark_refunded id sig at_ : blind_stmt (mark_refunded_stmt id sig at_).
Proof. unfold mark_refunded_stmt. blind_plain. Qed.
Lemma bl_refund_pending id : blind_stmt (mark_refund_pending_stmt id).
Proof. unfold mark_refund_pending_stmt. blind_plain. Qed.
Lemma bl_insert_notification id ty pda who at_ :
  blind_stmt (insert_notification_stmt id ty pda who at_).
Proof. unfold insert_notification_stmt. blind_plain. Qed.
Lemma bl_insert_party party pda creator : blind_stmt (insert_party_stmt party pda creator).
Proof. unfold insert_party_stmt. blind_plain. Qed.
Lemma bl_sign_party party pda : blind_stmt (sign_party_stmt party pda).
Proof. unfold sign_party_stmt. blind_plain. Qed.
Lemma bl_party_status st pda : blind_stmt (party_status_stmt st pda).
Proof. unfold party_status_stmt. blind_plain. Qed.
Lemma bl_lock pda : blind_stmt (lock_stmt pda).
Proof. unfold lock_stmt. blind_plain. Qed.
Lemma bl_unlock pda : blind_stmt (unlock_stmt pda).
Proof. unfold unlock_stmt. blind_plain. Qed.
Lemma bl_sweep_due : blind_stmt sweep_due.
Proof. unfold sweep_due. blind_plain. Qed.
Lemma bl_mark_swept at_ : blind_stmt (mark_swept_stmt at_).
Proof. unfold mark_swept_stmt. blind_plain. Qed.
Lemma bl_delete_nonces th : blind_stmt (delete_nonces_stmt th).
Proof. unfold delete_nonces_stmt. blind_plain. Qed.
Lemma bl_delete_refresh th : blind_stmt (delete_refresh_stmt th).
Proof. unfold delete_refresh_stmt. blind_plain. Qed.
Lemma bl_insert_nonce n : blind_stmt (insert_nonce_stmt n).
Proof. unfold insert_nonce_stmt. blind_plain. Qed.
Lemma bl_consume_nonce n : blind_stmt (consume_nonce_stmt n).
Proof. unfold consume_nonce_stmt. blind_plain. Qed.
Lemma bl_insert_user id : blind_stmt (insert_user_stmt id).
Proof. unfold insert_user_stmt. blind_plain. Qed.
Lemma bl_insert_wallet user pubkey : blind_stmt (insert_wallet_stmt user pubkey).
Proof. unfold insert_wallet_stmt. blind_plain. Qed.
Lemma bl_insert_refresh user h ex cr : blind_stmt (insert_refresh_stmt user h ex cr).
Proof. unfold insert_refresh_stmt. blind_plain. Qed.
Lemma bl_consume_refresh h : blind_stmt (consume_refresh_stmt h).
Proof. unfold consume_refresh_stmt. blind_plain. Qed.
Lemma bl_delete_token h : blind_stmt (delete_token_stmt h).
Proof. unfold delete_token_stmt. blind_plain. Qed.
Lemma bl_upsert_oauth user p pid : blind_stmt (upsert_oauth_stmt user p pid).
Proof. unfold upsert_oauth_stmt, user_exists. blind_plain. Qed.
Lemma bl_display_name user name : blind_stmt (display_name_stmt user name).
Proof. unfold display_name_stmt. blind_plain. Qed.
Lemma bl_slots `{Ext} id slots : blind_stmt (slots_stmt id slots).
Proof. unfold slots_stmt. blind_plain. Qed.
Lemma bl_ready `{Ext} id slots at_ : blind_stmt (ready_stmt id slots at_).
Proof. unfold ready_stmt. blind_plain. Qed.

(** Statements on the two tables. *)

Lemma insert_invitation_agrees id draft i e1 n1 e2 n2 token ex :
  stmts_agree eq (insert_invitation_stmt id draft i e1 n1 token ex)
                 (insert_invitation_stmt id draft i e2 n2 token ex).
Proof.
  unfold insert_invitation_stmt. apply stmts_agree_insert_prepared. intros now d1 d2 He.
  same_tables He. cbn.
  rewrite (alike_exists erase_invitation _ _ Hi) by done.
  destruct (_ && _); [|done]. split; [done|].
  unfold erase, set_contacts, set_invitations; cbn. rewrite !map_app, Hc, Hi. done.
Qed.
Lemma bl_insert_invitation id draft i e n token ex :
  blind_stmt (insert_invitation_stmt id draft i e n token ex).
Proof. apply insert_invitation_agrees. Qed.

(** An update of invitations, and of contacts. *)
Lemma update_invitations_agrees p f d1 d2 :
  (forall r, p (erase_invitation r) = p r) ->
  (forall r, erase_invitation (f (erase_invitation r)) = erase_invitation (f r)) ->
  erase d1 = erase d2 ->
  erase (set_invitations (update_where p f) d1) = erase (set_invitations (update_where p f) d2).
Proof.
  intros Hp Hf He. same_tables He. unfold erase, set_contacts, set_invitations; cbn.
  rewrite Hc. f_equal. by apply (alike_update erase_invitation).
Qed.

Lemma update_contacts_agrees p f d1 d2 :
  (forall r, p (erase_contact r) = p r) ->
  (forall r, erase_contact (f (erase_contact r)) = erase_contact (f r)) ->
  erase d1 = erase d2 ->
  erase (set_contacts (update_where p f) d1) = erase (set_contacts (update_where p f) d2).
Proof.
  intros Hp Hf He. same_tables He. unfold erase, set_contacts, set_invitations; cbn.
  rewrite Hi. f_equal. apply (alike_update erase_contact); [done..|apply erase_contact_idem].
Qed.

Lemma bl_accept id : blind_stmt (accept_stmt id).
Proof.
  unfold accept_stmt, execute. apply stmts_agree_prepared. intros now d1 d2 He. split; [done|].
  by apply update_invitations_agrees.
Qed.

Lemma bl_expire_invitations th : blind_stmt (expire_invitations_stmt th).
Proof.
  unfold expire_invitations_stmt, execute. apply stmts_agree_prepared. intros now d1 d2 He.
  split; [done|]. by apply update_invitations_agrees.
Qed.

Lemma bl_remind id at_ : blind_stmt (remind_stmt id at_).
Proof.
  unfold remind_stmt. apply stmts_agree_prepared. intros now d1 d2 He.
  assert (Hb : List.forallb (fun r => pi_reminder_count r <? 2147483647)
                 (where_ (fun r => uuid_eqb (pi_id r) id) (db_invitations d1)) =
               List.forallb (fun r => pi_reminder_count r <? 2147483647)
                 (where_ (fun r => uuid_eqb (pi_id r) id) (db_invitations d2))).
  { pose proof He as Hs. apply erase_cases in Hs as (_ & Hi & _).
    apply (alike_forallb erase_invitation); [|done].
    by apply (alike_where erase_invitation). }
  rewrite Hb. clear Hb. destruct (List.forallb _ _); [|done]. split; [done|].
  by apply update_invitations_agrees.
Qed.

Lemma append_contact_agrees r d1 d2 : erase d1 = erase d2 ->
  erase (set_contacts (fun t => t ++ [r]) d1) = erase (set_contacts (fun t => t ++ [r]) d2).
Proof.
  intros He. same_tables He. unfold erase, set_contacts, set_invitations; cbn.
  by rewrite !map_app, Hc, Hi.
Qed.

Lemma same_users d1 d2 user : erase d1 = erase d2 -> user_exists user d1 = user_exists user d2.
Proof. intros He. by same_tables He. Qed.

Lemma same_contact d1 d2 user : erase d1 = erase d2 ->
  exists_row (contact_is user) (db_contacts d1) = exists_row (contact_is user) (db_contacts d2).
Proof.
  intros (Hc & _ & _)%erase_cases. by apply (alike_exists erase_contact).
Qed.

Lemma bl_upsert_email user e n i : blind_stmt (upsert_email_stmt user e n i).
Proof.
  unfold upsert_email_stmt. apply stmts_agree_insert_prepared. intros now d1 d2 He.
  rewrite (same_users d1 d2), (same_contact d1 d2) by done.
  destruct (negb _); [done|]. destruct (exists_row _ _); (split; [done|]).
  - apply update_contacts_agrees; [done| |done]. intros r. unfold set_email, erase_contact; cbn.
    f_equal; by destruct (uc_phone_enc r), (uc_phone_nonce r), (uc_push_token_enc r), (uc_push_token_nonce r).
  - by apply append_contact_agrees.
Qed.

Lemma blank_coalesce v o : blank (coalesce v (blank o)) = blank (coalesce v o).
Proof. by destruct v, o. Qed.

Lemma bl_upsert_contacts user v : blind_stmt (upsert_contacts_stmt user v).
Proof.
  unfold upsert_contacts_stmt. apply stmts_agree_insert_prepared. intros now d1 d2 He.
  rewrite (same_users d1 d2), (same_contact d1 d2) by done.
  destruct (negb _); [done|]. destruct (exists_row _ _); (split; [done|]).
  - apply update_contacts_agrees; [done| |done]. intros r. unfold merge_contact, erase_contact; cbn.
    by rewrite !blank_coalesce.
  - by apply append_contact_agrees.
Qed.

Lemma bl_delete_contacts user : blind_stmt (delete_contacts_stmt user).
Proof.
  unfold delete_contacts_stmt, execute. apply stmts_agree_prepared. intros now d1 d2 He.
  split; [done|]. same_tables He. unfold erase, set_contacts, set_invitations; cbn.
  rewrite Hi. f_equal. by apply (alike_where erase_contact).
Qed.

(** ** Queries *)

Ltac blind_query := apply stmts_agree_query; let He := fresh in intros ? ? He; same_tables He;
  reflexivity.

(** The queries that read one of the two tables. *)
Lemma bl_pubkey_of_email i : blind_stmt (query (pubkey_of_email i)).
Proof.
  apply stmts_agree_query. intros d1 d2 He. same_tables He. unfold pubkey_of_email; cbn.
  f_equal. apply (alike_flat_map erase_contact); [|done]. by apply alike_where.
Qed.

Lemma alike_sign_ins d1 d2 i : erase d1 = erase d2 ->
  sign_ins_with_email i d1 = sign_ins_with_email i d2.
Proof.
  intros He. same_tables He. unfold sign_ins_with_email; cbn.
  apply (alike_flat_map erase_contact); [|done]. by apply alike_where.
Qed.
Lemma bl_other_provider i p : blind_stmt (query (other_provider i p)).
Proof.
  apply stmts_agree_query. intros d1 d2 He. unfold other_provider. by rewrite (alike_sign_ins d1 d2).
Qed.
Lemma bl_same_provider i p : blind_stmt (query (same_provider_user i p)).
Proof.
  apply stmts_agree_query. intros d1 d2 He. unfold same_provider_user.
  by rewrite (alike_sign_ins d1 d2).
Qed.

Lemma bl_user_has_email user : blind_stmt (query (user_has_email user)).
Proof.
  apply stmts_agree_query. intros d1 d2 (Hc & _ & _)%erase_cases. unfold user_has_email.
  apply (alike_exists erase_contact); [done|]. intros r; cbn. by destruct (uc_email_enc r).
Qed.

Lemma bl_pending_views id : blind_stmt (query (pending_views id)).
Proof.
  apply stmts_agree_query. intros d1 d2 (_ & Hi & _)%erase_cases. unfold pending_views.
  apply (alike_map erase_invitation); [|done]. apply alike_order_by; [|done]. by apply alike_where.
Qed.

Lemma bl_invite_view `{Ext} token : blind_stmt (query (invite_view token)).
Proof.
  apply stmts_agree_query. intros d1 d2 He. same_tables He. unfold invite_view; cbn. f_equal.
  transitivity (List.flat_map (fun pi =>
      map (fun ad => mkInviteView (pi_status pi) (pi_expires_at pi)
             (json_text_field "title" (ad_draft_payload ad))
             (creator_display_of (ad_creator_pubkey ad)
                (mkDb db_users db_wallets db_oauth db_contacts0 db_nonces db_refresh db_parties
                   db_drafts db_payments db_counts db_invitations0 db_notifications db_sweep))
             (exists_row (contact_matches (pi_email_index pi)) db_contacts0)
             (exists_row (fun uc => contact_matches (pi_email_index pi) uc
                && exists_row (fun aw => uuid_eqb (aw_user_id aw) (uc_user_id uc)) db_wallets)
                db_contacts0))
        (where_ (draft_where (pi_draft_id pi)) db_drafts))
    (where_ (fun pi => String.eqb (pi_token pi) token) db_invitations)).
  - apply List.flat_map_ext. intros pi. apply map_ext. intros ad. f_equal;
      by apply (alike_exists erase_contact).
  - apply (alike_flat_map erase_invitation); [|done]. by apply alike_where.
Qed.

Lemma bl_reminder_ids th : blind_stmt (query (reminder_ids th)).
Proof.
  apply stmts_agree_query. intros d1 d2 He. same_tables He. unfold reminder_ids; cbn.
  etransitivity; [apply (alike_flat_map erase_invitation); [by apply alike_where | done]|].
  apply List.flat_map_ext. intros i. apply List.flat_map_ext. intros dr.
  apply List.flat_map_ext. intros u. apply (alike_map erase_contact); [|done].
  apply alike_where; [done|]. intros c; cbn. by destruct (uc_email_enc c).
Qed.

(** The rows two handlers take along. *)
Lemma invite_by_token_agrees token :
  stmts_agree (fun o1 o2 => option_map erase_invitation o1 = option_map erase_invitation o2)
    (query (invite_by_token token)) (query (invite_by_token token)).
Proof.
  apply stmts_agree_query. intros d1 d2 (_ & Hi & _)%erase_cases. unfold invite_by_token.
  apply alike_head. by apply alike_where.
Qed.

Lemma expired_invitation_agrees id draft :
  stmts_agree (fun o1 o2 => option_map (fun p => fst (fst p)) o1 = option_map (fun p => fst (fst p)) o2)
    (query (expired_invitation id draft)) (query (expired_invitation id draft)).
Proof.
  apply stmts_agree_query. intros d1 d2 (_ & Hi & _)%erase_cases. unfold expired_invitation.
  pose proof (alike_where erase_invitation _ _ Hi (fun r => uuid_eqb (pi_id r) id
    && uuid_eqb (pi_draft_id r) draft && String.eqb (pi_status r) "expired")
    (fun _ => eq_refl)) as Hw%alike_head. unfold fetch_optional.
  destruct (head _) as [r1|], (head _) as [r2|]; unfold erase_invitation in Hw; cbn in *; congruence.
Qed.

Lemma email_enc_agrees user :
  stmts_agree (fun o1 o2 => option_map blank o1 = option_map blank o2)
    (query (email_enc_of user)) (query (email_enc_of user)).
Proof.
  apply stmts_agree_query. intros d1 d2 (Hc & _ & _)%erase_cases. unfold email_enc_of.
  pose proof (alike_where erase_contact _ _ Hc (fun r => uuid_eqb (uc_user_id r) user)
    (fun _ => eq_refl)) as Hw%alike_head. unfold fetch_optional.
  destruct (head _) as [r1|], (head _) as [r2|]; unfold erase_contact in Hw; cbn in *; congruence.
Qed.

(** ** Handlers and workers *)

#[export] Hint Variables Opaque : blind.
#[export] Hint Constants Opaque : blind.
#[export] Hint Resolve bl_insert_draft bl_discard bl_store_uri bl_store_agreement bl_link_payment
  bl_mark_paid bl_count_free bl_insert_payment bl_confirm bl_expire_payments bl_mark_refunded
  bl_refund_pending bl_insert_notification bl_insert_party bl_sign_party bl_party_status bl_lock
  bl_unlock bl_sweep_due bl_mark_swept bl_delete_nonces bl_delete_refresh bl_insert_nonce
  bl_consume_nonce bl_insert_user bl_insert_wallet bl_insert_refresh bl_consume_refresh
  bl_delete_token bl_upsert_oauth bl_display_name bl_slots bl_ready bl_insert_invitation bl_accept
  bl_expire_invitations bl_remind bl_upsert_email bl_upsert_contacts bl_delete_contacts
  bl_pubkey_of_email bl_other_provider bl_same_provider bl_user_has_email bl_pending_views
  bl_invite_view bl_reminder_ids : blind.

Ltac blind_step :=
  lazymatch goal with
  | |- forall _, _ => intro
  | |- blind (bind _ _) => apply blind_bind
  | |- blind (ret _) => apply blind_pure
  | |- blind (throw _) => apply blind_pure
  | |- blind (of_result _) => apply blind_pure
  | |- blind (map_err _ _) => apply (agree_map_err eq)
  | |- blind (attempt _) => apply blind_attempt
  | |- blind (for_each _ _) => apply blind_for_each
  | |- blind (when _ _) => unfold when
  | |- blind (transaction _) => apply blind_transaction
  | |- blind (sql (query _)) => apply blind_sql; first [ solve [eauto with blind] | blind_query ]
  | |- blind (sql _) => apply blind_sql
  | |- agree eq ?m ?m => change (blind m)
  | |- blind (match ?x with _ => _ end) => destruct x
  | |- blind (let '(_, _) := ?x in _) => destruct x
  end.
Ltac blind_auto := repeat first [ solve [eauto with blind] | blind_step ].

Section Primitives.
Context `{Ext, Env}.

Lemma bl_now_secs {E} : blind (now_secs (E:=E)).
Proof. by apply blind_outside. Qed.
Lemma bl_new_uuid {E} : blind (new_uuid (E:=E)).
Proof. by apply blind_outside. Qed.
Lemma bl_fill_random {E} n : blind (fill_random (E:=E) n).
Proof. by apply blind_outside. Qed.
Lemma bl_new_keypair {E} : blind (new_keypair (E:=E)).
Proof. by apply blind_outside. Qed.
Lemma bl_account_data e k : blind (get_account_data e k).
Proof. by apply blind_outside. Qed.
Lemma bl_blockhash : blind get_latest_blockhash.
Proof. by apply blind_outside. Qed.
Lemma bl_rent n : blind (get_rent_exemption n).
Proof. by apply blind_outside. Qed.
Lemma bl_balance k : blind (get_balance k).
Proof. by apply blind_outside. Qed.
Lemma bl_token_balance k : blind (get_token_account_balance k).
Proof. by apply blind_outside. Qed.
Lemma bl_send_transaction t : blind (send_transaction t).
Proof.
  apply blind_outside. intros d w. unfold send_transaction. cbn. by destruct (rpc_send _ _) as [[] ?].
Qed.
Lemma bl_account_exists k : blind (account_exists k).
Proof. by apply blind_outside. Qed.
Lemma bl_send_to_user {E} u ev : blind (send_to_user (E:=E) u ev).
Proof. apply blind_outside. intros d w. unfold send_to_user; cbn. by case_bool_decide. Qed.
Lemma bl_mark_degraded {E} : blind (mark_process_degraded (E:=E)).
Proof. by apply blind_outside. Qed.
Lemma bl_send_email k from address e pda : blind (send_email k from address e pda).
Proof.
  apply blind_outside. intros d w. unfold send_email; cbn. by destruct (resend _) as [[] []].
Qed.
Lemma bl_degrade {E} st : blind (degrade (E:=E) st).
Proof.
  apply blind_outside. intros d w. unfold degrade; cbn. by destruct (transition_to_degraded _ _).
Qed.
Lemma bl_report {E} r : blind (report_degraded (E:=E) r).
Proof.
  apply blind_outside. intros d w. unfold report_degraded; cbn.
  by destruct (status_for_reason (w_health w) r).
Qed.
Lemma bl_rate_limit h now : blind (enforce_get_invite_rate_limit h now).
Proof.
  apply blind_outside. intros d w. unfold enforce_get_invite_rate_limit; cbn.
  by destruct (limiter_step _ _).
Qed.
Lemma bl_get_json url token : blind (get_json url token).
Proof. by apply blind_outside. Qed.
Lemma bl_post_form url form : blind (post_form url form).
Proof. by apply blind_outside. Qed.
Lemma bl_read_wallet path : blind (read_wallet path).
Proof. by apply blind_outside. Qed.
Lemma bl_auth_url cfg p : blind (build_provider_auth_url cfg p).
Proof.
  apply blind_outside. intros d w. unfold build_provider_auth_url.
  by repeat destruct (negb _).
Qed.
End Primitives.

#[export] Hint Resolve bl_now_secs bl_new_uuid bl_fill_random bl_new_keypair bl_account_data
  bl_blockhash bl_rent bl_balance bl_token_balance bl_send_transaction bl_account_exists
  bl_send_to_user bl_mark_degraded bl_send_email bl_degrade bl_report bl_rate_limit bl_get_json
  bl_post_form bl_read_wallet bl_auth_url : blind.

Section Handlers.
Context `{Ext, Env} (cfg : AppState).

Lemma bl_vault_signed ix vault : blind (vault_signed ix vault).
Proof. unfold vault_signed. blind_auto. Qed.
Lemma bl_encrypt text key : blind (encrypt text key).
Proof. unfold encrypt. blind_auto. Qed.
Lemma bl_enqueue ty pda who : blind (enqueue_notification ty pda who).
Proof. unfold enqueue_notification, internal. blind_auto. Qed.
#[local] Hint Resolve bl_vault_signed bl_encrypt bl_enqueue : blind.

Lemma bl_encrypt_given value key : blind (encrypt_given value key).
Proof. unfold encrypt_given. blind_auto. Qed.
Lemma bl_create_tx args creator vault : blind (build_create_agreement_tx args creator vault).
Proof. unfold build_create_agreement_tx, calculate_vault_deposit. blind_auto. Qed.
Lemma bl_challenge : blind challenge.
Proof. unfold challenge, internal. blind_auto. Qed.
Lemma bl_issue_tokens c user pk : blind (issue_tokens c user pk).
Proof.
  unfold issue_tokens, issue_access_token, issue_and_store_refresh_token, internal. blind_auto.
Qed.
Lemma bl_decode_token c token : blind (decode_access_token c token).
Proof. unfold decode_access_token. blind_auto. Qed.
Lemma bl_spend_nonce n : blind (spend_nonce n).
Proof. unfold spend_nonce, internal. blind_auto. Qed.
Lemma bl_create_user : blind create_user.
Proof. unfold create_user, internal. blind_auto. Qed.
#[local] Hint Resolve bl_encrypt_given bl_create_tx bl_challenge bl_issue_tokens bl_decode_token
  bl_spend_nonce bl_create_user : blind.

Lemma bl_verify req : blind (verify cfg req).
Proof. unfold verify, internal. blind_auto. Qed.
Lemma bl_link_wallet auth req : blind (link_wallet cfg auth req).
Proof. unfold link_wallet, internal. blind_auto. Qed.
Lemma bl_refresh token : blind (refresh cfg token).
Proof. unfold refresh, internal. blind_auto. Qed.
Lemma bl_logout token : blind (logout token).
Proof. unfold logout, internal. blind_auto. Qed.
Lemma bl_oauth_redirect {E} p : blind (oauth_redirect (E:=E) cfg p).
Proof. unfold oauth_redirect. blind_auto. Qed.
Lemma bl_oauth_callback jar q p : blind (oauth_callback cfg jar q p).
Proof.
  unfold oauth_callback, exchange_code_and_fetch_identity, resolve_or_create_oauth_user,
    oauth_user_id, upsert_email_contact, internal. blind_auto.
Qed.

Lemma bl_get_profile auth : blind (get_profile auth).
Proof. unfold get_profile, internal. blind_auto. Qed.
#[local] Hint Resolve bl_get_profile : blind.
Lemma bl_update_profile auth name : blind (update_profile auth name).
Proof. unfold update_profile, internal. blind_auto. Qed.
Lemma bl_update_contacts auth req : blind (update_contacts cfg auth req).
Proof. unfold update_contacts, internal. blind_auto. Qed.
Lemma bl_remove_contacts auth : blind (delete_contacts auth).
Proof. unfold delete_contacts, internal. blind_auto. Qed.

Lemma bl_upload auth m : blind (upload_handler cfg auth m).
Proof.
  assert (Hd : forall backend data, blind (upload_document backend data cfg)).
  { intros. unfold upload_document, upload_document_with_client, upload_to_ipfs_with_client,
      upload_to_arweave_with_client. cbn [post_ipfs post_arweave ReqwestStorageHttpClient].
    assert (Hi : forall url token bytes, blind (reqwest_post_ipfs url token bytes))
      by (intros; by apply blind_outside).
    assert (Ha : forall url wallet bytes, blind (reqwest_post_arweave url wallet bytes))
      by (intros; by apply blind_outside).
    blind_auto. }
  unfold upload_handler, validate_and_upload, validate_and_upload_with_size_limit. blind_auto.
Qed.

Lemma bl_resolve_parties k1 k2 now ex parties slots invites all :
  blind (resolve_parties k1 k2 now ex parties slots invites all).
Proof.
  revert slots invites all. induction parties as [|[pk|email] parties IH];
    intros; cbn [resolve_parties]; unfold internal; blind_auto.
Qed.
#[local] Hint Resolve bl_resolve_parties : blind.

Lemma bl_create_agreement user pubkey req : blind (create_agreement cfg user pubkey req).
Proof. unfold create_agreement, insert_invitation, internal. blind_auto. Qed.
Lemma bl_get_agreement pda : blind (get_agreement pda).
Proof. unfold get_agreement, load_agreement. blind_auto. Qed.
Lemma bl_list_agreements pk q : blind (list_agreements pk q).
Proof. unfold list_agreements, internal. blind_auto. Qed.

Lemma bl_sign_agreement user pubkey pda uri : blind (sign_agreement user pubkey pda uri).
Proof.
  unfold sign_agreement, load_agreement, build_sign_agreement_tx, internal.
  do 5 (blind_step; [blind_auto|intros]). blind_step; [blind_auto|]. blind_step.
  eapply agree_bind; [apply agree_map_err, agree_sql, email_enc_agrees|].
  intros o1 o2 Ho.
  assert (match o1 with Some (Some _) => true | _ => false end =
          match o2 with Some (Some _) => true | _ => false end) as ->.
  { destruct o1 as [[]|], o2 as [[]|]; cbn in Ho; congruence. }
  apply blind_pure.
Qed.

Lemma bl_cancel_agreement pubkey pda : blind (cancel_agreement cfg pubkey pda).
Proof. unfold cancel_agreement, load_agreement, build_cancel_agreement_tx. blind_auto. Qed.
Lemma bl_vote_revoke pubkey pda : blind (vote_revoke cfg pubkey pda).
Proof. unfold vote_revoke, load_agreement, build_vote_revoke_tx. blind_auto. Qed.
Lemma bl_retract pubkey pda : blind (retract_revoke_vote cfg pubkey pda).
Proof. unfold retract_revoke_vote, load_agreement, build_retract_revoke_vote_tx. blind_auto. Qed.

Lemma bl_get_draft id : blind (get_draft id).
Proof. unfold get_draft, get_draft_row, internal. blind_auto. Qed.
Lemma bl_delete_draft user id : blind (delete_draft user id).
Proof.
  unfold delete_draft, get_draft_row, ensure_creator_from_user_id, internal. blind_auto.
Qed.
Lemma bl_submit_draft user pubkey draft req : blind (submit_draft cfg user pubkey draft req).
Proof. unfold submit_draft, get_draft_row, has_contact_email, internal. blind_auto. Qed.

(** The new invitation carries the ciphertext of the old one. *)
Lemma bl_reinvite user draft invitation : blind (reinvite_draft cfg user draft invitation).
Proof.
  unfold reinvite_draft, get_draft_row, ensure_creator_from_user_id, internal.
  blind_step; [blind_auto|intros d]. blind_step; [blind_auto|intros _].
  eapply agree_bind; [apply agree_map_err, agree_sql, expired_invitation_agrees|].
  intros [[[i1 e1] n1]|] [[[i2 e2] n2]|] Ho; cbn in Ho; try discriminate; [|blind_auto].
  injection Ho as <-.
  eapply (agree_bind (fun p1 p2 => p1 = (i1, e1, n1) /\ p2 = (i1, e2, n2))).
  { intros w1 w2 Hw. cbn. auto. }
  intros p1 p2 [-> ->].
  apply (agree_bind eq); [apply bl_fill_random|]. intros bs ? <-.
  apply (agree_bind eq); [apply bl_now_secs|]. intros now ? <-.
  apply (agree_bind eq); [apply blind_pure|]. intros window ? <-.
  apply (agree_bind eq); [apply bl_new_uuid|]. intros id ? <-.
  apply (agree_bind eq); [apply agree_map_err, agree_sql, insert_invitation_agrees|].
  intros [] [] _. apply blind_pure.
Qed.

Lemma bl_get_invite h token : blind (get_invite h token).
Proof. unfold get_invite, internal. blind_auto. Qed.

Lemma bl_accept_body now pk token : blind (accept_body now pk token).
Proof.
  unfold accept_body, internal.
  eapply agree_bind; [apply agree_map_err, agree_sql, invite_by_token_agrees|].
  intros [r1|] [r2|] Ho; cbn in Ho; try discriminate; [|blind_auto].
  unfold erase_invitation in Ho. injection Ho as Hid Hdraft _ _ Hst _ _ _ Hex.
  eapply (agree_bind (fun x1 x2 => x1 = r1 /\ x2 = r2)); [intros w1 w2 Hw; cbn; auto|].
  intros x1 x2 [-> ->]. rewrite Hid, Hdraft, Hst, Hex.
  match goal with |- agree eq ?m _ => change (blind m) end. blind_auto.
Qed.
#[local] Hint Resolve bl_accept_body : blind.
Lemma bl_accept_invite pubkey token : blind (accept_invite pubkey token).
Proof. unfold accept_invite, internal. blind_auto. Qed.

Lemma bl_initiate_payment user pubkey draft method :
  blind (initiate_payment cfg user pubkey draft method).
Proof. unfold initiate_payment, internal. blind_auto. Qed.
Lemma bl_payment_status draft : blind (payment_status draft).
Proof. unfold payment_status, internal. blind_auto. Qed.
Lemma bl_confirm_payment reference sig mint amount :
  blind (confirm_payment_atomic reference sig mint amount).
Proof. unfold confirm_payment_atomic, internal. blind_auto. Qed.

Lemma bl_ws_handler {E} h token : blind (ws_handler (E:=E) cfg h token).
Proof. unfold ws_handler. blind_auto. Qed.

Lemma bl_broadcast ev party : blind (broadcast ev party).
Proof. unfold broadcast, lookup_user_id. blind_auto. Qed.
Lemma bl_notify ty pda party : blind (notify ty pda party).
Proof. unfold notify. blind_auto. Qed.
Lemma bl_initiate_refund pda : blind (initiate_refund_if_eligible pda).
Proof. unfold initiate_refund_if_eligible. blind_auto. Qed.
#[local] Hint Resolve bl_broadcast bl_notify bl_initiate_refund : blind.

Lemma bl_process_log log : blind (process_log log).
Proof.
  unfold process_log, handle_event, handle_create_agreement, handle_sign_agreement,
    handle_cancel_agreement, handle_expire_agreement, handle_cancellation, handle_vote_revoke.
  blind_auto.
Qed.

Lemma bl_expiry_cycle st : blind (expiry_worker_cycle cfg st).
Proof.
  unfold expiry_worker_cycle, expire_due_agreements, expire_one, lock_agreement_for_expiry,
    unlock_agreement_from_expiry, submit_expire_transaction, build_expire_agreement_tx,
    submit_transaction_rpc. blind_auto.
Qed.

Lemma bl_refund_cycle st : blind (refund_worker_cycle cfg st).
Proof.
  unfold refund_worker_cycle, process_pending_refunds, process_refund, execute_refund. blind_auto.
Qed.

Lemma bl_keeper_cycle st : blind (keeper_cycle cfg st).
Proof.
  unfold keeper_cycle, send_invitation_reminders, remind_one, expire_stale_invitations,
    check_hot_wallet_balances, sweep_treasury_excess, sweep_one, expire_timed_out_payments,
    cleanup_expired_auth_records, reconcile_late_payments, reconcile_one. blind_auto.
Qed.
End Handlers.

(** ** Operations *)

(** The notification worker decrypts contacts to send mail. *)
Definition reads_contacts (o : op) : bool :=
  match o with OpNotificationCycle _ => true | _ => false end.

Section Operations.
Context `{Ext, Env} (cfg : AppState).

Lemma blind_world {E A} (m : M World E A) w1 w2 :
  blind m -> alike w1 w2 -> alike (snd (m w1)) (snd (m w2)).
Proof. intros Hm Hw. by apply Hm. Qed.

Lemma alike_connections connected w1 w2 :
  alike w1 w2 -> alike (with_connections connected w1) (with_connections connected w2).
Proof.
  intros Hw. destruct (alike_rest _ _ Hw) as [d2 ->]. apply alike_db in Hw.
  by apply (alike_with_db _ _ (with_connections connected w1)) in Hw.
Qed.

Lemma run_action_alike act pubkey pda w1 w2 :
  alike w1 w2 -> alike (snd (run_action cfg act pubkey pda w1)) (snd (run_action cfg act pubkey pda w2)).
Proof.
  intros Hw. rewrite !run_action_world.
  destruct act; apply blind_world; try done;
    [apply bl_sign_agreement | apply bl_cancel_agreement | apply bl_vote_revoke | apply bl_retract].
Qed.

Lemma run_op_alike o w1 w2 :
  reads_contacts o = false -> alike w1 w2 -> alike (run_op cfg o w1) (run_op cfg o w2).
Proof.
  intros Ho Hw. destruct o; try discriminate Ho; cbn [run_op];
    first [ by apply run_action_alike | by apply alike_connections | apply blind_world; [|done] ];
    eauto using bl_create_agreement, bl_initiate_payment, bl_confirm_payment, bl_submit_draft,
      bl_delete_draft, bl_reinvite, bl_get_invite, bl_accept_invite, bl_process_log, bl_expiry_cycle,
      bl_refund_cycle, bl_keeper_cycle, bl_challenge, bl_verify, bl_link_wallet, bl_oauth_callback,
      bl_refresh, bl_logout, bl_update_profile, bl_update_contacts, bl_remove_contacts, bl_upload.
Qed.

Lemma run_ops_alike os w1 w2 :
  Forall (fun o => reads_contacts o = false) os -> alike w1 w2 ->
  alike (run_ops cfg os w1) (run_ops cfg os w2).
Proof.
  intros Hos. revert w1 w2. induction Hos as [|o os Ho _ IH]; intros w1 w2 Hw; [done|].
  apply IH. by apply run_op_alike.
Qed.

(** ** Requests *)

Context (path_match : string -> string -> bool) (bad_body : json -> Rejection)
  (bad_query : list (string * string) -> Rejection) (bad_id : string -> Rejection).

Lemma bl_serve {E} m path header : blind (serve (E:=E) path_match cfg m path header).
Proof.
  unfold serve, identify, auth_user_with_wallet, auth_user, decode_access_token. blind_auto.
Qed.

Lemma bl_reply {A} (answer : A -> Answer) (m : M World AppError A) :
  blind m -> blind (reply answer m).
Proof. intros Hm. unfold reply. blind_auto. Qed.

Lemma bl_health : blind health_handler.
Proof. by apply blind_outside. Qed.

Lemma bl_handle rq e c : blind (handle cfg bad_body bad_query bad_id rq e c).
Proof.
  destruct e, c; cbn [handle]; unfold sign_in_callback, extracting;
    repeat first [ apply bl_health | apply blind_pure | apply bl_reply
                 | apply blind_bind; [apply bl_ws_handler | intros ?]
                 | case_match ];
    eauto using bl_create_agreement, bl_initiate_payment, bl_submit_draft, bl_payment_status,
      bl_delete_draft, bl_get_draft, bl_reinvite, bl_get_invite, bl_accept_invite, bl_challenge,
      bl_verify, bl_link_wallet, bl_oauth_callback, bl_oauth_redirect, bl_refresh, bl_logout,
      bl_get_profile, bl_update_profile, bl_update_contacts, bl_remove_contacts, bl_upload,
      bl_get_agreement, bl_list_agreements, bl_sign_agreement, bl_cancel_agreement, bl_vote_revoke,
      bl_retract.
Qed.

Lemma bl_api rq : blind (api cfg path_match bad_body bad_query bad_id rq).
Proof.
  unfold api. apply blind_bind; [apply bl_serve|].
  intros [| | |e c]; try apply blind_pure. apply bl_handle.
Qed.

(** C23: encrypted contacts are written and never read back.  Take two systems
    whose tables differ only in the ciphertexts and nonces of contacts and
    invited parties, and run the same operations on both, whatever requests,
    chain events and worker cycles they are as long as the notification worker
    is not among them.  Every request is then answered the same, with the same
    mails, messages, transactions and calls to the outside, and the tables
    again differ in ciphertexts only. *)
Theorem stored_contacts_stay_secret (os : list op) (rq : Request) (w1 w2 : World) :
  let answer w := api cfg path_match bad_body bad_query bad_id rq (run_ops cfg os w) in
  Forall (fun o => reads_contacts o = false) os -> alike w1 w2 ->
  fst (answer w1) = fst (answer w2) /\
  w_effects (snd (answer w1)) = w_effects (snd (answer w2)) /\
  erase (w_db (snd (answer w1))) = erase (w_db (snd (answer w2))).
Proof.
  cbn zeta. intros Hos Hw. apply (run_ops_alike os) in Hw; [|done].
  destruct (bl_api rq _ _ Hw) as [Hr%result_rel_eq Ha].
  split; [done|]. split; [exact (f_equal w_effects Ha) | by apply alike_db].
Qed.
End Operations.

(** ** Examples *)

(** A contact of the owner of the wallet "first" and an invitation, with their
    ciphertexts. *)
Definition db_contact (email nonce : bytes) : Db :=
  set_contacts (fun _ => [mkUserContact (uid x01) (Some email) (Some nonce) (Some [x05]) None None
                            (Some email) (Some nonce) 900])
    (set_invitations (fun _ => [mkPartyInvitation (uid x08) (uid x05) [x05] email nonce "t1" "pending"
                                  None 0 500 5000000])
      (set_drafts (fun _ => [mkAgreementDraft (uid x05) wallet_text (JObj [("title", JStr "Deal")])
                               JNull "awaiting_party_wallets" 0 None false None false None None])
        db_accounts)).

(** The view of an invitation, after a cycle of the keeper and a refresh. *)
Definition view_demo : Request := http_demo GET "/invite/t1" "t1" None JNull.
Definition viewed (d : Db) : result Empty_set Reply :=
  fst (@api ext_demo env_demo app_hex match_demo (refusal 422) (refusal 400) (refusal 400) view_demo
    (@run_ops ext_demo env_demo app_hex [OpKeeperCycle Healthy; OpRefresh "t"] (world_demo d))).

Lemma stored_contacts_stay_secret_witness :
  viewed (db_contact [x01; x02] [x03]) = viewed (db_contact [x0a] []) /\
  viewed (db_contact [x0a] []) =
    Ok (Answered (AnsInvite (mkGetInvite "Deal" "Unknown creator" 5000000 true true))).
Proof.
  split; [|vm_compute; reflexivity]. unfold viewed.
  apply (@stored_contacts_stay_secret ext_demo env_demo app_hex match_demo (refusal 422) (refusal 400)
    (refusal 400) [OpKeeperCycle Healthy; OpRefresh "t"] view_demo
    (world_demo (db_contact [x01; x02] [x03])) (world_demo (db_contact [x0a] []))).
  - repeat constructor.
  - reflexivity.
Defined.

(** The notification worker is another matter: a mail goes out when the stored
    ciphertext decrypts, and none when it does not. *)
Definition job_first : NotificationRow :=
  mkNotification (uid x07) "AgreementCreated" "agreement" "first" "pending" 0 0 0.
Definition world_contact (email : bytes) : World :=
  world_demo (set_notifications (fun _ => [job_first]) (db_contact email (repeat x00 12))).
Definition ciphertext : bytes :=
  default [] (@aes256gcm_encrypt ext_demo (padded 32 (repeat x01 32)) (repeat x00 12)
                (as_bytes "eve@example.com")).

Lemma notification_worker_reads_contacts :
  alike (world_contact ciphertext) (world_contact []) /\
  length (w_effects (@run_op ext_demo env_demo app_hex (OpNotificationCycle Healthy)
            (world_contact ciphertext))) = 1%nat /\
  w_effects (@run_op ext_demo env_demo app_hex (OpNotificationCycle Healthy) (world_contact [])) = [].
Proof. vm_compute. auto. Qed.
