(* ===== verification/Reference.v ===== *)
(** * Reference: the standards behind the third-party functions

    SHA-256 (FIPS 180-4), HMAC (RFC 2104), base58, Solana's program addresses
    and a reader of JSON texts, as executable definitions, and the instance
    [ext_ref] of [Ext] that uses them and the cipher of Aes.v.  UnitTests.v and
    EndpointTests.v replay the unit tests of the sources on it; no theorem about
    the program depends on this file. *)

From Stdlib Require Import ZArith Lia.
From Stdlib Require Import Strings.Byte Strings.Ascii Strings.String.
From stdpp Require Import base tactics decidable option list strings.
From S2P Require Import Prelude Text Errors Borsh SolanaTypes Health World Concrete Aes Crypto.

Open Scope list_scope.
Open Scope Z_scope.

Definition le_val (l : bytes) : Z := be_val (rev l).

(** ** SHA-256

    Words are [Z] below [2 ^ 32].  The round constants and the initial value are
    the fractions of the cube and square roots of the first primes. *)

Definition w32 (z : Z) : Z := Z.land z 4294967295.
Definition rotr (x k : Z) : Z := w32 (Z.lor (Z.shiftr x k) (Z.shiftl x (32 - k))).
Definition sum3 (f : Z -> Z -> Z) (x a b c : Z) (g : Z -> Z -> Z) : Z :=
  Z.lxor (Z.lxor (f x a) (f x b)) (g x c).

Definition primes_64 : list Z :=
  filter (fun n => forallb (fun d => negb (n mod d =? 0)) (map Z.of_nat (seq 2 (Z.to_nat (Z.sqrt n) - 1))))
    (map Z.of_nat (seq 2 310)).

(** The largest [r] with [r ^ 3 <= n], bit by bit from bit [k]. *)
Fixpoint cbrt_bits (k : nat) (r n : Z) : Z :=
  let r' := Z.lor r (Z.shiftl 1 (Z.of_nat k)) in
  let r'' := if r' * r' * r' <=? n then r' else r in
  match k with O => r'' | S k' => cbrt_bits k' r'' n end.

Definition round_constants : list Z := map (fun p => w32 (cbrt_bits 35 0 (Z.shiftl p 96))) primes_64.
Definition initial_hash : list Z := map (fun p => w32 (Z.sqrt (Z.shiftl p 64))) (take 8 primes_64).

(** The message schedule, the last word first. *)
Fixpoint schedule (n : nat) (ws : list Z) : list Z :=
  match n with
  | O => rev ws
  | S n' =>
      let word i := nth i ws 0 in
      schedule n' (w32 (sum3 rotr (word 1%nat) 17 19 10 Z.shiftr + word 6%nat
                        + sum3 rotr (word 14%nat) 7 18 3 Z.shiftr + word 15%nat) :: ws)
  end.

Definition round (v : list Z) (kw : Z * Z) : list Z :=
  match v with
  | [a; b; c; d; e; f; g; h] =>
      let choice := Z.lxor (Z.land e f) (Z.land (Z.lxor e 4294967295) g) in
      let majority := Z.lxor (Z.lxor (Z.land a b) (Z.land a c)) (Z.land b c) in
      let t1 := h + sum3 rotr e 6 11 25 rotr + choice + fst kw + snd kw in
      let t2 := sum3 rotr a 2 13 22 rotr + majority in
      [w32 (t1 + t2); a; b; c; w32 (d + t1); e; f; g]
  | _ => v
  end.

Definition compress (constants hash : list Z) (block : bytes) : list Z :=
  let ws := schedule 48 (rev (map be_val (groups 16 4 block))) in
  map (fun p => w32 (fst p + snd p)) (combine hash (fold_left round (combine constants ws) hash)).

Definition sha_pad (msg : bytes) : bytes :=
  let zeros := Z.to_nat ((55 - Z.of_nat (length msg)) mod 64) in
  msg ++ x80 :: repeat x00 zeros ++ be_enc 8 (8 * Z.of_nat (length msg)).

Definition sha256_bytes (msg : bytes) : bytes :=
  let padded := sha_pad msg in
  let hash := fold_left (compress round_constants)
                (groups (length padded / 64)%nat 64%nat padded) initial_hash in
  List.flat_map (be_enc 4) hash.

(** ** HMAC, for keys of at most one block *)

Definition xor_pad (k : bytes) (z : Z) : bytes :=
  map (fun b => byte_of_Z (Z.lxor (Z_of_byte b) z)) (pad_to 64 k).
Definition hmac_bytes (k msg : bytes) : bytes :=
  sha256_bytes (xor_pad k 92 ++ sha256_bytes (xor_pad k 54 ++ msg)).

(** ** Base58 *)

Definition base58_alphabet : string :=
  "123456789ABCDEFGHJKLMNPQRSTUVWXYZabcdefghijkmnopqrstuvwxyz".

Fixpoint index_of (c : ascii) (s : string) : option Z :=
  match s with
  | EmptyString => None
  | String c' s' => if Ascii.eqb c c' then Some 0 else option_map (Z.add 1) (index_of c s')
  end.

Fixpoint base58_val (v : Z) (s : string) : option Z :=
  match s with
  | EmptyString => Some v
  | String c s' => i ← index_of c base58_alphabet; base58_val (58 * v + i) s'
  end.

(** The leading ones of a text, each a zero byte. *)
Fixpoint leading_ones (s : string) : nat :=
  match s with String "1" s' => S (leading_ones s') | _ => O end.

(** A key: the leading ones, and the shortest number, fill its 32 bytes. *)
Definition base58_key (s : string) : option Pubkey :=
  v ← base58_val 0 s;
  let size := Z.to_nat (if v =? 0 then 0 else Z.log2 v / 8 + 1) in
  to_bytesN 32 (repeat x00 (leading_ones s) ++ be_enc size v).

Fixpoint base58_digits (fuel : nat) (v : Z) (s : string) : string :=
  match fuel with
  | O => s
  | S f => if v =? 0 then s else
      base58_digits f (v / 58)
        (String (default "1"%char (String.get (Z.to_nat (v mod 58)) base58_alphabet)) s)
  end.

Fixpoint leading_zeros (l : bytes) : nat :=
  match l with x00 :: l' => S (leading_zeros l') | _ => O end.

Definition base58_text (k : Pubkey) : string :=
  let l := bn_bytes k in
  String.concat "" (repeat "1"%string (leading_zeros l)) +:+ base58_digits 64 (be_val l) "".

(** ** Program addresses

    The first bump, from 255 down, whose hash is not the y-coordinate of a point
    of edwards25519: [(y ^ 2 - 1) / (d y ^ 2 + 1)] has no square root modulo
    [2 ^ 255 - 19]. *)

Definition p25519 : Z := 2 ^ 255 - 19.
Definition d25519 : Z :=
  37095705934669439343138083508754565189542113879843219016388785533085940283555.

(** The Jacobi symbol of [a] over an odd [n], by halving and subtracting; the
    sum of the bit lengths, at most 510, decreases with every two steps. *)
Fixpoint jacobi (fuel : nat) (sign a n : Z) : Z :=
  match fuel with
  | O => 0
  | S f =>
      if a =? 0 then (if n =? 1 then sign else 0)
      else if Z.even a then
        let r := Z.land n 7 in
        jacobi f (if (r =? 3) || (r =? 5) then - sign else sign) (Z.div2 a) n
      else if a <? n then
        jacobi f (if (Z.land a 3 =? 3) && (Z.land n 3 =? 3) then - sign else sign) (n - a) a
      else jacobi f sign (a - n) n
  end.

Definition on_curve (l : bytes) : bool :=
  let y := Z.land (le_val l) (2 ^ 255 - 1) mod p25519 in
  let yy := y * y mod p25519 in
  let u := (yy - 1) mod p25519 in
  let v := (d25519 * yy + 1) mod p25519 in
  (u =? 0) || (jacobi 2000 1 (u * v mod p25519) p25519 =? 1).

Definition address_hash (seeds : list bytes) (bump : byte) (program : Pubkey) : bytes :=
  sha256_bytes (mjoin seeds ++ [bump] ++ bn_bytes program ++ as_bytes "ProgramDerivedAddress").

Fixpoint find_address (bump : nat) (seeds : list bytes) (program : Pubkey) : Pubkey * byte :=
  let b := byte_of_Z (Z.of_nat bump) in
  let hash := address_hash seeds b program in
  if on_curve hash then
    match bump with O => (padded 32 [], x00) | S bump' => find_address bump' seeds program end
  else (padded 32 hash, b).

(** ** JSON texts

    Recursive descent; every call consumes a character or goes down one level,
    so twice the length of the text is enough fuel.  Numbers are integers, and
    the only escapes are the one-letter ones. *)

Definition is_space (c : ascii) : bool :=
  let n := nat_of_ascii c in ((n =? 32) || (n =? 9) || (n =? 10) || (n =? 13))%nat.

Fixpoint skip (s : string) : string :=
  match s with
  | String c s' => if is_space c then skip s' else s
  | EmptyString => s
  end.

Definition quote : ascii := ascii_of_nat 34.
Definition backslash : ascii := ascii_of_nat 92.

Definition unescape (c : ascii) : option ascii :=
  if Ascii.eqb c quote || Ascii.eqb c backslash || Ascii.eqb c "/" then Some c
  else if Ascii.eqb c "n" then Some (ascii_of_nat 10)
  else if Ascii.eqb c "t" then Some (ascii_of_nat 9)
  else if Ascii.eqb c "r" then Some (ascii_of_nat 13)
  else None.

(** The characters up to the closing quote, and the text after it. *)
Fixpoint read_chars (s : string) : option (string * string) :=
  match s with
  | EmptyString => None
  | String c s' =>
      if Ascii.eqb c quote then Some (EmptyString, s')
      else if Ascii.eqb c backslash then
        match s' with
        | String e s'' => x ← unescape e; '(t, r) ← read_chars s''; Some (String x t, r)
        | EmptyString => None
        end
      else if (nat_of_ascii c <? 32)%nat then None
      else '(t, r) ← read_chars s'; Some (String c t, r)
  end.

Fixpoint read_digits (s : string) : string * string :=
  match s with
  | String c s' =>
      if is_ascii_digit c then let '(t, r) := read_digits s' in (String c t, r) else (EmptyString, s)
  | EmptyString => (EmptyString, s)
  end.

Definition read_number (s : string) : option (json * string) :=
  let '(sign, s) := match s with String "-" s' => (-1, s') | _ => (1, s) end in
  let '(t, r) := read_digits s in
  match t, N_of_dec t with
  | EmptyString, _ | _, None => None
  | _, Some n => Some (JNum (sign * Z.of_N n), r)
  end.

(** [read_elements closing]: the elements after an opening bracket; an object
    is the list of its elements, each with its name. *)
Fixpoint read_json (fuel : nat) (s : string) : option (json * string) :=
  match fuel with
  | O => None
  | S f =>
      match skip s with
      | EmptyString => None
      | String c s' as text =>
          if Ascii.eqb c quote then '(t, r) ← read_chars s'; Some (JStr t, r)
          else if Ascii.eqb c "[" then
            match skip s' with
            | String "]" r => Some (JArr [], r)
            | _ => '(l, r) ← read_elements f false s'; Some (JArr (map snd l), r)
            end
          else if Ascii.eqb c "{" then
            match skip s' with
            | String "}" r => Some (JObj [], r)
            | _ => '(l, r) ← read_elements f true s'; Some (JObj l, r)
            end
          else match strip_prefix "null" text, strip_prefix "true" text, strip_prefix "false" text with
               | Some r, _, _ => Some (JNull, r)
               | _, Some r, _ => Some (JBool true, r)
               | _, _, Some r => Some (JBool false, r)
               | _, _, _ => read_number text
               end
      end
  end
with read_elements (fuel : nat) (named : bool) (s : string)
    : option (list (string * json) * string) :=
  match fuel with
  | O => None
  | S f =>
      '(name, s1) ← (if named then
        match skip s with
        | String c s' => if Ascii.eqb c quote then
            '(t, r) ← read_chars s';
            match skip r with String ":" r' => Some (t, r') | _ => None end else None
        | EmptyString => None
        end else Some (EmptyString, s));
      '(v, r) ← read_json f s1;
      match skip r with
      | String c r' =>
          if Ascii.eqb c "," then '(l, r'') ← read_elements f named r'; Some ((name, v) :: l, r'')
          else if Ascii.eqb c (if named then "}" else "]") then Some ([(name, v)], r')
          else None
      | EmptyString => None
      end
  end.

(** A whole text. *)
Definition json_of_text (s : string) : option json :=
  '(j, r) ← read_json (2 * String.length s) s;
  match skip r with EmptyString => Some j | _ => None end.

(** ** The instance

    The reference functions, and the ones of [ext_demo] for what the
    tests do not depend on. *)

Definition byte_of_json (j : json) : option byte :=
  match j with JNum z => if (0 <=? z) && (z <? 256) then Some (byte_of_Z z) else None | _ => None end.
Definition u8_array_of_text (s : string) : result string bytes :=
  match json_of_text s with
  | Some (JArr l) => ok_or (mapM byte_of_json l) "invalid element"%string
  | _ => Err "invalid JSON"%string
  end.

Definition ext_ref : Ext := {|
  ext_borsh := borsh_demo;
  pubkey_from_str := base58_key;
  pubkey_to_string := base58_text;
  uuid_to_string := @uuid_to_string ext_demo;
  uuid_parse := @uuid_parse ext_demo;
  hex_encode := hex_demo;
  hex_decode := unhex_demo;
  sha256 := fun l => padded 32 (sha256_bytes l);
  hmac_sha256 := fun k l => hmac_bytes (bn_bytes k) l;
  aes256gcm_encrypt := gcm_encrypt;
  aes256gcm_decrypt := gcm_decrypt;
  base64_decode := @base64_decode ext_demo;
  jsonb_text := @jsonb_text ext_demo;
  find_program_address := find_address 255;
  get_associated_token_address := @get_associated_token_address ext_demo;
  spl_transfer := @spl_transfer ext_demo;
  json_from_str := json_of_text;
  signature_from_str := @signature_from_str ext_demo;
  tx_encode := @tx_encode ext_demo;
  tx_decode := @tx_decode ext_demo;
  json_value := json_of_text;
  json_to_vec := @json_to_vec ext_demo;
  signature_verify := @signature_verify ext_demo;
  jwt_encode := @jwt_encode ext_demo;
  jwt_decode := @jwt_decode ext_demo;
  url_parses := @url_parses ext_demo;
  authorize_url := @authorize_url ext_demo;
  f64_parse := @f64_parse ext_demo;
  json_u8_array := u8_array_of_text;
  status_text := @status_text ext_demo;
  keypair_from_bytes := @keypair_from_bytes ext_demo;
|}.

(** The law that the theorems on stored contacts suppose of the cipher. *)
Lemma aes_correct_ref : @aes_correct ext_ref.
Proof. exact gcm_roundtrip. Qed.
