(* ===== verification/UnitTests.v ===== *)
(** * UnitTests: the unit tests of the services, on the model

    A test of the sources is a [bool] with its name, in a Module for its file:
    the conjunction of its assertions, evaluated on the definitions that model
    what it calls.  [ext_ref] stands for the crates, [env_demo] for the
    environment where a test has one; a value a test generates ([Uuid::new_v4],
    [Keypair::new]) is a fixed one, a panic is an error value.  Every test holds
    ([.._tests_pass]): the model answers what the authors of the code expect of
    it.  EndpointTests.v has the tests of the endpoints and of the start.

    Left out are the tests of the type checker (a value is cloned or shared
    between threads), of code of the HTTP and signature libraries (layers,
    redirect addresses, signatures), of JSON texts, of the interval of a worker,
    and of a job without an agreement, which the table excludes. *)

From Stdlib Require Import ZArith Lia.
From Stdlib Require Import Strings.Byte Strings.Ascii Strings.String.
From Stdlib Require Import Floats.SpecFloat.
From stdpp Require Import base tactics decidable option list strings gmap.
From S2P Require Import Prelude Text Errors Borsh SolanaTypes Health World Concrete Aes Crypto Jwt.
From S2P Require Import Notification Storage Startup Solana Amounts Payments EventListener LogStream.
From S2P Require Import Expiry Keeper Reference.

Open Scope string_scope.
Open Scope list_scope.
Open Scope Z_scope.

(** ** Assertions *)

(** [assert_eq!(a, b)] and [assert_ne!(a, b)] *)
Definition assert_eq {A} `{EqDecision A} (a b : A) : bool := bool_decide (a = b).
Definition assert_ne {A} `{EqDecision A} (a b : A) : bool := negb (assert_eq a b).

(** [assert!(o.is_some())], [assert!(o.is_none())] *)
Definition is_some {A} (o : option A) : bool := match o with Some _ => true | None => false end.
Definition is_none {A} (o : option A) : bool := negb (is_some o).

(** The assertions after [let x = r.unwrap()] *)
Definition unwrapped {E A} (r : result E A) (f : A -> bool) : bool :=
  match r with Ok a => f a | Err _ => false end.
Definition some_and {A} (o : option A) (f : A -> bool) : bool :=
  match o with Some a => f a | None => false end.

Definition all_hold (tests : list bool) : bool := forallb (fun b => b) tests.

(** [haystack.contains(needle)] *)
Definition contains (needle haystack : string) : bool := is_some (find_split needle haystack).

(** A JSON text, its quotation marks written as apostrophes. *)
Definition quoted (s : string) : string :=
  string_map (fun c => if Ascii.eqb c "'" then quote else c) s.

#[local] Existing Instance ext_ref.
#[local] Existing Instance PH.ProcessHealth_eq_dec.

#[local] Instance InstructionType_eq_dec : EqDecision InstructionType.
Proof. solve_decision. Defined.
#[local] Instance BootstrapFailureAction_eq_dec : EqDecision BootstrapFailureAction.
Proof. solve_decision. Defined.
#[local] Instance DegradationReason_eq_dec : EqDecision DegradationReason.
Proof. solve_decision. Defined.
#[local] Instance WorkerLifecycle_eq_dec : EqDecision WorkerLifecycle.
Proof. solve_decision. Defined.
#[local] Instance AccountMeta_eq_dec : EqDecision AccountMeta.
Proof. solve_decision. Defined.

(** ** src/src/error.rs *)

(** [err.into_response().status()] *)
Definition answers (err : AppError) (status : nat) : bool :=
  assert_eq (resp_status (into_response err)) status.

Module ErrorTests.
Definition test_invalid_or_expired_nonce_returns_401 : bool := answers InvalidOrExpiredNonce 401.
Definition test_invalid_refresh_token_returns_401 : bool := answers InvalidRefreshToken 401.
Definition test_unauthorized_returns_401 : bool := answers Unauthorized 401.
Definition test_wallet_required_returns_403 : bool :=
  answers (WalletRequired "Link a wallet" "/auth/link/wallet") 403.
Definition test_wallet_required_includes_structured_fields : bool :=
  answers (WalletRequired "Link a wallet" "/auth/link/wallet") 403.
Definition test_email_already_registered_returns_409 : bool := answers EmailAlreadyRegistered 409.
Definition test_missing_content_type_returns_422 : bool := answers MissingContentType 422.
Definition test_invalid_file_type_returns_422 : bool := answers InvalidFileType 422.
Definition test_file_too_large_returns_422 : bool := answers FileTooLarge 422.
Definition test_upload_failed_returns_422 : bool := answers UploadFailed 422.
Definition test_draft_not_ready_returns_422 : bool := answers DraftNotReady 422.
Definition test_payment_required_returns_422 : bool :=
  answers (PaymentRequired "draft-123" "/payment/initiate/draft-123") 422.
Definition test_payment_required_includes_structured_fields : bool :=
  answers (PaymentRequired "draft-123" "/payment/initiate/draft-123") 422.
Definition test_email_required_returns_422 : bool :=
  answers (EmailRequired "Add email" "/user/contacts") 422.
Definition test_invalid_hash_returns_422 : bool := answers InvalidHash 422.
Definition test_hash_mismatch_returns_400 : bool := answers HashMismatch 400.
Definition test_encryption_failed_returns_422 : bool := answers EncryptionFailed 422.
Definition test_decryption_failed_returns_422 : bool := answers DecryptionFailed 422.
Definition test_keypair_load_failed_returns_422 : bool :=
  answers (KeypairLoadFailed "file not found") 422.
Definition test_payment_method_unsupported_returns_422 : bool :=
  answers PaymentMethodUnsupported 422.
Definition test_treasury_ata_mismatch_returns_422 : bool := answers TreasuryAtaMismatch 422.
Definition test_no_refund_amount_set_returns_422 : bool := answers NoRefundAmountSet 422.
Definition test_vault_deposit_exceeds_maximum_returns_422 : bool :=
  answers VaultDepositExceedsMaximum 422.
Definition test_invite_window_exceeds_signing_window_returns_422 : bool :=
  answers InviteWindowExceedsSigningWindow 422.
Definition test_display_name_too_long_returns_422 : bool := answers DisplayNameTooLong 422.
Definition test_invalid_display_name_returns_422 : bool := answers InvalidDisplayName 422.
Definition test_not_found_returns_404 : bool := answers NotFound 404.
Definition test_rate_limited_returns_429 : bool := answers RateLimited 429.
Definition test_pinata_auth_error_returns_401 : bool := answers (PinataAuthError "Invalid JWT") 401.
Definition test_pinata_rate_limit_error_returns_429 : bool := answers (PinataRateLimitError 60) 429.
Definition test_pinata_upload_error_returns_422 : bool :=
  answers (PinataUploadError "File too large") 422.
Definition test_pinata_network_error_returns_503 : bool :=
  answers (PinataNetworkError "Connection timeout") 503.
Definition test_internal_error_returns_500 : bool := answers InternalError 500.

Definition tests : list bool :=
  [ test_invalid_or_expired_nonce_returns_401; test_invalid_refresh_token_returns_401;
    test_unauthorized_returns_401; test_wallet_required_returns_403;
    test_wallet_required_includes_structured_fields; test_email_already_registered_returns_409;
    test_missing_content_type_returns_422; test_invalid_file_type_returns_422;
    test_file_too_large_returns_422; test_upload_failed_returns_422;
    test_draft_not_ready_returns_422; test_payment_required_returns_422;
    test_payment_required_includes_structured_fields; test_email_required_returns_422;
    test_invalid_hash_returns_422; test_hash_mismatch_returns_400;
    test_encryption_failed_returns_422; test_decryption_failed_returns_422;
    test_keypair_load_failed_returns_422; test_payment_method_unsupported_returns_422;
    test_treasury_ata_mismatch_returns_422; test_no_refund_amount_set_returns_422;
    test_vault_deposit_exceeds_maximum_returns_422;
    test_invite_window_exceeds_signing_window_returns_422;
    test_display_name_too_long_returns_422; test_invalid_display_name_returns_422;
    test_not_found_returns_404; test_rate_limited_returns_429;
    test_pinata_auth_error_returns_401; test_pinata_rate_limit_error_returns_429;
    test_pinata_upload_error_returns_422; test_pinata_network_error_returns_503;
    test_internal_error_returns_500 ].
End ErrorTests.

(** Every test of this module holds; so below. *)
Lemma error_tests_pass : all_hold ErrorTests.tests = true.
Proof. vm_compute. reflexivity. Qed.

(** ** src/src/state.rs *)

Module StateTests.
Definition protected : Pubkey := key x01.

Definition test_protected_keypair_debug_redaction : bool :=
  let debug_str := protected_keypair_debug protected in
  assert_eq debug_str "ProtectedKeypair([REDACTED])" && negb (contains "secret" debug_str).

Definition test_protected_keypair_display_redaction : bool :=
  assert_eq (protected_keypair_display protected) "[REDACTED]".

Definition mark_degraded_does_not_override_runtime_failed : bool :=
  let state := PH.new PH.RuntimeFailed in
  assert_eq (PH.current (PH.mark_degraded state)) PH.RuntimeFailed.

Definition mark_degraded_does_not_override_startup_failed : bool :=
  let state := PH.new PH.StartupFailed in
  assert_eq (PH.current (PH.mark_degraded state)) PH.StartupFailed.

Definition tests : list bool :=
  [ test_protected_keypair_debug_redaction; test_protected_keypair_display_redaction;
    mark_degraded_does_not_override_runtime_failed;
    mark_degraded_does_not_override_startup_failed ].
End StateTests.

Lemma state_tests_pass : all_hold StateTests.tests = true.
Proof. vm_compute. reflexivity. Qed.

(** ** src/src/workers/policy.rs *)

Module PolicyTests.
Definition critical_workers_fail_fast_on_bootstrap_failure : bool :=
  assert_eq (on_bootstrap_failure Critical) FailFast.

Definition non_critical_workers_disable_on_bootstrap_failure : bool :=
  assert_eq (on_bootstrap_failure NonCritical) DisableAndContinue.

Definition runtime_failure_disables_worker_for_both_criticalities : bool :=
  assert_eq (on_runtime_failure Critical) Disabled
  && assert_eq (on_runtime_failure NonCritical) Disabled.

Definition degraded_reasons_map_to_degraded_status : bool :=
  assert_eq (suggested_status RpcUnavailable) Degraded
  && assert_eq (suggested_status RetryBackoff) Degraded.

Definition disabling_reasons_map_to_disabled_status : bool :=
  assert_eq (suggested_status CircuitBreakerTripped) Disabled
  && assert_eq (suggested_status PanicRecovered) Disabled.

Definition tests : list bool :=
  [ critical_workers_fail_fast_on_bootstrap_failure;
    non_critical_workers_disable_on_bootstrap_failure;
    runtime_failure_disables_worker_for_both_criticalities;
    degraded_reasons_map_to_degraded_status; disabling_reasons_map_to_disabled_status ].
End PolicyTests.

Lemma policy_tests_pass : all_hold PolicyTests.tests = true.
Proof. vm_compute. reflexivity. Qed.

(** ** src/src/workers/supervisor.rs

    The schedule of each test is the sequence of its steps: a task that is
    awaited has run to its end. *)

Module SupervisorTests.
(** [spawn], the task's first poll, and its end with [o]. *)
Definition run_to_end (worker : string) (c : WorkerCriticality) (o : JoinOutcome)
    (s : Supervisor) : Supervisor :=
  let s := task_started worker (spawn worker c s) in
  task_finished worker c o (with_tasks s (filter (fun t => fst (fst t) <> worker) (sv_tasks s))).

Definition is_finished (worker : string) (s : Supervisor) : bool :=
  negb (existsb (fun t => String.eqb worker (fst (fst t))) (sv_tasks s)).

Definition supervisor_new : Supervisor := mkSupervisor ∅ (PH.new PH.Healthy) [].

Definition worker_supervisor_observes_panic_and_keeps_sibling_running : bool :=
  let s := task_started "healthy_worker" (spawn "healthy_worker" NonCritical supervisor_new) in
  let s := run_to_end "panicking_worker" NonCritical JoinPanic s in
  assert_eq (lifecycle_of "panicking_worker" s) (Some Panicked)
  && assert_eq (PH.current (sv_health s)) PH.Degraded
  && negb (is_finished "healthy_worker" s).

Definition worker_supervisor_marks_critical_failure_as_runtime_failed : bool :=
  let s := run_to_end "critical_worker" Critical JoinOk supervisor_new in
  assert_eq (lifecycle_of "critical_worker" s) (Some Exited)
  && assert_eq (PH.current (sv_health s)) PH.RuntimeFailed.

Definition tests : list bool :=
  [ worker_supervisor_observes_panic_and_keeps_sibling_running;
    worker_supervisor_marks_critical_failure_as_runtime_failed ].
End SupervisorTests.

Lemma supervisor_tests_pass : all_hold SupervisorTests.tests = true.
Proof. vm_compute. reflexivity. Qed.

(** ** src/src/services/program_log.rs *)

Module ProgramLogTests.
Definition test_parse_create_agreement : bool :=
  let logs :=
    [ "Program DF1cHTN9EE8Qonda1esTeYvFjmbYcoc52vDTjTMKvS1P invoke [1]";
      "Program log: Instruction: CreateAgreement";
      quoted ("Program log: {'agreement_pda': 'ABC123', 'creator': 'CreatorPubkey1111111111111111111111111111111', " +:+
        "'parties': ['Party1Pubkey1111111111111111111111111111111', 'Party2Pubkey1111111111111111111111111111111']}");
      "Program DF1cHTN9EE8Qonda1esTeYvFjmbYcoc52vDTjTMKvS1P success" ] in
  some_and (parse_logs "txsig123" logs) (fun event =>
    assert_eq (pe_instruction event) CreateAgreement
    && assert_eq (pe_agreement_pda event) "ABC123"
    && assert_eq (pe_creator event) (Some "CreatorPubkey1111111111111111111111111111111")
    && assert_eq (length (pe_parties event)) 2%nat).

Definition test_parse_sign_agreement : bool :=
  let logs :=
    [ "Program log: Instruction: SignAgreement";
      quoted "Program log: {'agreement_pda': 'ABC123', 'signer': 'SignerPubkey11111111111111111111111111111111'}" ] in
  some_and (parse_logs "txsig456" logs) (fun event =>
    assert_eq (pe_instruction event) SignAgreement
    && assert_eq (pe_agreement_pda event) "ABC123"
    && assert_eq (pe_signer event) (Some "SignerPubkey11111111111111111111111111111111")).

Definition test_parse_cancel_agreement : bool :=
  let logs := [ "Program log: Instruction: CancelAgreement"; "Program log: agreement_pda=XYZ789" ] in
  some_and (parse_logs "txsig789" logs) (fun event =>
    assert_eq (pe_instruction event) CancelAgreement && assert_eq (pe_agreement_pda event) "XYZ789").

Definition test_parse_expire_agreement : bool :=
  let logs := [ "Program log: Instruction: ExpireAgreement"; "Program log: agreement_pda=EXPIRED1" ] in
  some_and (parse_logs "txsig000" logs) (fun event =>
    assert_eq (pe_instruction event) ExpireAgreement
    && assert_eq (pe_agreement_pda event) "EXPIRED1").

Definition test_parse_vote_revoke : bool :=
  let logs :=
    [ "Program log: Instruction: VoteRevoke";
      quoted "Program log: {'agreement_pda': 'REVOKE1', 'signer': 'VoterPubkey11111111111111111111111111111111'}" ] in
  some_and (parse_logs "txsig111" logs) (fun event =>
    assert_eq (pe_instruction event) VoteRevoke && assert_eq (pe_agreement_pda event) "REVOKE1").

Definition test_parse_unknown_instruction : bool :=
  is_none (parse_logs "txsig222" ["Program log: Instruction: UnknownInstruction"]).

Definition test_parse_no_instruction : bool :=
  is_none (parse_logs "txsig333" ["Program log: Some random log"]).

Definition test_instruction_type_from_str : bool :=
  assert_eq (instruction_from_str "CreateAgreement") (Some CreateAgreement)
  && assert_eq (instruction_from_str "SignAgreement") (Some SignAgreement)
  && assert_eq (instruction_from_str "CancelAgreement") (Some CancelAgreement)
  && assert_eq (instruction_from_str "ExpireAgreement") (Some ExpireAgreement)
  && assert_eq (instruction_from_str "VoteRevoke") (Some VoteRevoke)
  && assert_eq (instruction_from_str "Unknown") None.

Definition tests : list bool :=
  [ test_parse_create_agreement; test_parse_sign_agreement; test_parse_cancel_agreement;
    test_parse_expire_agreement; test_parse_vote_revoke; test_parse_unknown_instruction;
    test_parse_no_instruction; test_instruction_type_from_str ].
End ProgramLogTests.

Lemma program_log_tests_pass : all_hold ProgramLogTests.tests = true.
Proof. vm_compute. reflexivity. Qed.

(** ** src/src/services/solana_logs.rs *)

Module SolanaLogsTests.
Definition PROGRAM_ID : string := "DF1cHTN9EE8Qonda1esTeYvFjmbYcoc52vDTjTMKvS1P".

Definition test_new_with_valid_program_id : bool :=
  is_ok (logs_service_new (fun e => e) "wss://api.devnet.solana.com" PROGRAM_ID).

Definition test_new_with_invalid_program_id : bool :=
  negb (is_ok (logs_service_new (fun e => e) "wss://api.devnet.solana.com" "invalid-pubkey")).

(** The server of the tests, and a subscription whose world is never used. *)
Definition handle_pubsub_socket : list NodeEvent :=
  [ Accepts;
    Notifies (mkLogsResponse 42 "4vJ9JU1bJJE96FWSJ4Pz7fCXuP8fQmCRvFfLqf1M4q7h" None
                ["Program log: test"]) ].
Definition subscribed : Subscription :=
  subscribe_logs (mkWorld db_empty 0 (PH.new PH.Healthy) [] ∅ []).
Definition run (events : list StreamEvent) : option Subscription :=
  let _ := env_demo in stream_run events subscribed.

(** The receiver is dropped before, between or after what the server does, and
    the task returns from its next send. *)
Definition subscription_stops_when_receiver_drops : bool :=
  let server := map Node handle_pubsub_socket in
  forallb (fun n =>
    some_and (run (take n server ++ [Drop] ++ drop n server ++ [Send])) (fun s =>
      match sb_streamer s with Returned (Ok _) => true | _ => false end)) (seq 0 3).

Definition subscription_error_returns_terminally : bool :=
  some_and (run [Node (Refuses "Connection refused (os error 111)")]) (fun s =>
    match sb_streamer s with Returned (Err (ConnectionFailed _)) => true | _ => false end).

Definition tests : list bool :=
  [ test_new_with_valid_program_id; test_new_with_invalid_program_id;
    subscription_stops_when_receiver_drops; subscription_error_returns_terminally ].
End SolanaLogsTests.

Lemma solana_logs_tests_pass : all_hold SolanaLogsTests.tests = true.
Proof. vm_compute. reflexivity. Qed.

(** ** The environment of the tests

    [env_demo] with the given files, every RPC call failing when [rpc] is
    false, and the given texts as the answers of an OAuth provider. *)

Definition env_test (files : string -> result string bytes) (rpc : bool) (token profile : string)
    : Env := {|
  db_fault := @db_fault env_demo;
  db_now := @db_now env_demo;
  app_now := @app_now env_demo;
  fresh_uuid := @fresh_uuid env_demo;
  random_bytes := @random_bytes env_demo;
  fresh_keypair := @fresh_keypair env_demo;
  rpc_account := fun n k => if rpc then @rpc_account env_demo n k else None;
  rpc_account_exists := fun n k => if rpc then @rpc_account_exists env_demo n k else None;
  rpc_rent_exempt := fun n s => if rpc then @rpc_rent_exempt env_demo n s else None;
  rpc_balance := fun n k => if rpc then @rpc_balance env_demo n k else None;
  rpc_token_balance := fun n k => if rpc then @rpc_token_balance env_demo n k else None;
  rpc_blockhash := fun n => if rpc then @rpc_blockhash env_demo n else None;
  rpc_send := fun n t => if rpc then @rpc_send env_demo n t else (false, None);
  resend := @resend env_demo;
  fresh_csrf := @fresh_csrf env_demo;
  http_post_form := fun _ _ _ => Some (200, token);
  http_get_bearer := fun _ _ _ => Some (200, profile);
  http_post_ipfs := @http_post_ipfs env_demo;
  http_post_arweave := @http_post_arweave env_demo;
  read_file := fun _ path => files path;
|}.

Definition no_files (path : string) : result string bytes :=
  Err "No such file or directory (os error 2)".
(** A directory with one file. *)
Definition one_file (name : string) (contents : bytes) (path : string) : result string bytes :=
  if String.eqb path name then Ok contents else no_files path.

Definition empty_world : World := world_demo db_empty.

(** The result of a computation that starts in an empty world. *)
Definition outcome {E A} (m : M World E A) : result E A := fst (m empty_world).

(** The doubles 0.5, 0.1 and 1.0. *)
Definition f64_half : spec_float := S754_finite false 4503599627370496 (-53).
Definition f64_tenth : spec_float := S754_finite false 7205759403792794 (-56).
Definition f64_one : spec_float := S754_finite false 4503599627370496 (-52).

(** ** src/src/services/refund.rs *)

Module RefundTests.
Definition test_calculate_refund_full : bool :=
  assert_eq (calculate_refund_amount 1990000 0 199) 1990000.
Definition test_calculate_refund_partial : bool :=
  assert_eq (calculate_refund_amount 1990000 10 199) 1890000.
Definition test_calculate_refund_zero_paid : bool :=
  assert_eq (calculate_refund_amount 0 10 199) 0.
Definition test_calculate_refund_zero_total_fee : bool :=
  assert_eq (calculate_refund_amount 1990000 0 0) 0.
Definition test_calculate_refund_nonrefundable_exceeds_total : bool :=
  assert_eq (calculate_refund_amount 1990000 300 199) 0.
Definition test_calculate_refund_exact_half : bool :=
  assert_eq (calculate_refund_amount 2000000 100 200) 1000000.

Definition execute_refund_returns_solana_rpc_error_when_rpc_is_unavailable : bool :=
  let _ := env_test no_files false "" "" in
  let treasury := mkAppState (app_config (app_demo "k" "i" f64_tenth 0)) (key x01) (key x02) in
  let result := outcome (execute_refund treasury "11111111111111111111111111111111"
                  "So11111111111111111111111111111111111111112" 1) in
  match result with Err SolanaRpcError => true | _ => false end.

Definition tests : list bool :=
  [ test_calculate_refund_full; test_calculate_refund_partial; test_calculate_refund_zero_paid;
    test_calculate_refund_zero_total_fee; test_calculate_refund_nonrefundable_exceeds_total;
    test_calculate_refund_exact_half;
    execute_refund_returns_solana_rpc_error_when_rpc_is_unavailable ].
End RefundTests.

Lemma refund_tests_pass : all_hold RefundTests.tests = true.
Proof. vm_compute. reflexivity. Qed.

(** ** src/src/services/solana_pay.rs *)

Module SolanaPayTests.
Definition resolve_supports_all_configured_methods : bool :=
  let registry := mkRegistry (mkStablecoin "usdc" "mint-usdc" "ata-usdc" 6)
    (mkStablecoin "usdt" "mint-usdt" "ata-usdt" 6)
    (mkStablecoin "pyusd" "mint-pyusd" "ata-pyusd" 6) in
  assert_eq (option_map sc_symbol (resolve registry "usdc")) (Some "usdc")
  && assert_eq (option_map sc_symbol (resolve registry "usdt")) (Some "usdt")
  && assert_eq (option_map sc_symbol (resolve registry "pyusd")) (Some "pyusd")
  && is_none (resolve registry "unknown").

Definition build_solana_pay_url_formats_amount_and_encodes_fields : bool :=
  let url := build_solana_pay_url "PlatformUsdcAta" 1990000
    "EPjFWdd5AufqSSqeM2qN1xzybapC8G4wEGGkZwyTDt1v" "UniqueReferencePubkey" "Pactum Pro"
    "draft-uuid/1" in
  assert_eq url ("solana:PlatformUsdcAta?amount=1.99&spl-token=EPjFWdd5AufqSSqeM2qN1xzybapC8G4wEGGkZwyTDt1v" +:+
    "&reference=UniqueReferencePubkey&label=Pactum%20Pro&memo=draft-uuid%2F1").

Definition poll_payment_confirmation_placeholder_returns_none : bool :=
  is_none (poll_payment_confirmation (key x01)).

Definition tests : list bool :=
  [ resolve_supports_all_configured_methods;
    build_solana_pay_url_formats_amount_and_encodes_fields;
    poll_payment_confirmation_placeholder_returns_none ].
End SolanaPayTests.

Lemma solana_pay_tests_pass : all_hold SolanaPayTests.tests = true.
Proof. vm_compute. reflexivity. Qed.

(** ** src/src/solana_types.rs *)

Module SolanaTypesTests.
Definition test_agreement_status_discriminators : bool :=
  assert_eq (status_discriminant Draft) x00
  && assert_eq (status_discriminant PendingSignatures) x01
  && assert_eq (status_discriminant Completed) x02
  && assert_eq (status_discriminant Cancelled) x03
  && assert_eq (status_discriminant Expired) x04
  && assert_eq (status_discriminant Revoked) x05.

Definition test_storage_backend_discriminators : bool :=
  assert_eq (backend_discriminant Ipfs) x00 && assert_eq (backend_discriminant Arweave) x01.

Definition test_create_agreement_args_borsh_roundtrip : bool :=
  let args := mkCreateArgs
    (padded 16 [x55; x0e; x84; x00; xe2; x9b; x41; xd4; xa7; x16; x44; x66; x55; x44; x00; x00])
    "Partnership Agreement"
    (padded 32 [x00; x01; x02; x03; x04; x05; x06; x07; x08; x09; x0a; x0b; x0c; x0d; x0e; x0f;
                x10; x11; x12; x13; x14; x15; x16; x17; x18; x19; x1a; x1b; x1c; x1d; x1e; x1f])
    "ipfs://QmZTR5bc9Bg7XA3a6h5oJZp8cCcMqVuEYz7MqeZVL7aMy" Ipfs [fill 32 x00; fill 32 x01] 2592000 in
  let encoded := enc c_create_args args in
  some_and (try_from_slice c_create_args encoded) (fun decoded =>
    assert_eq (ca_agreement_id args) (ca_agreement_id decoded)
    && assert_eq (ca_title args) (ca_title decoded)
    && assert_eq (ca_content_hash args) (ca_content_hash decoded)
    && assert_eq (ca_storage_uri args) (ca_storage_uri decoded)
    && assert_eq (ca_storage_backend args) (ca_storage_backend decoded)
    && assert_eq (ca_parties args) (ca_parties decoded)
    && assert_eq (ca_expires_in_secs args) (ca_expires_in_secs decoded)).

Definition test_sign_agreement_args_borsh_roundtrip : bool :=
  let args_with_metadata := mkSignArgs (Some "ipfs://QmExample") in
  let encoded := enc c_sign_args args_with_metadata in
  some_and (try_from_slice c_sign_args encoded) (fun decoded =>
    assert_eq (sa_metadata_uri args_with_metadata) (sa_metadata_uri decoded)).

Definition test_sign_agreement_args_none_metadata : bool :=
  let args_no_metadata := mkSignArgs None in
  let encoded := enc c_sign_args args_no_metadata in
  some_and (try_from_slice c_sign_args encoded) (fun decoded =>
    assert_eq (sa_metadata_uri args_no_metadata) (sa_metadata_uri decoded)
    && is_none (sa_metadata_uri decoded)).

Definition test_constants_values : bool :=
  assert_eq MAX_PARTIES 10 && assert_eq MAX_EXPIRY_SECONDS 7776000 && assert_eq MAX_URI_LEN 128
  && assert_eq MAX_TITLE_LEN 64 && assert_eq VAULT_BUFFER 10000000
  && assert_eq PROGRAM_ID "DF1cHTN9EE8Qonda1esTeYvFjmbYcoc52vDTjTMKvS1P".

Definition test_max_expiry_is_90_days : bool :=
  let SECONDS_PER_DAY := 86400 in
  assert_eq (MAX_EXPIRY_SECONDS / SECONDS_PER_DAY) 90.

Definition test_program_id_is_valid_pubkey : bool :=
  some_and (pubkey_from_str PROGRAM_ID) (fun pubkey =>
    assert_eq (pubkey_to_string pubkey) PROGRAM_ID).

Definition test_program_id_matches_expected : bool :=
  assert_eq PROGRAM_ID "DF1cHTN9EE8Qonda1esTeYvFjmbYcoc52vDTjTMKvS1P".

Definition tests : list bool :=
  [ test_agreement_status_discriminators; test_storage_backend_discriminators;
    test_create_agreement_args_borsh_roundtrip; test_sign_agreement_args_borsh_roundtrip;
    test_sign_agreement_args_none_metadata; test_constants_values; test_max_expiry_is_90_days;
    test_program_id_is_valid_pubkey; test_program_id_matches_expected ].
End SolanaTypesTests.

Lemma solana_types_tests_pass : all_hold SolanaTypesTests.tests = true.
Proof. vm_compute. reflexivity. Qed.

(** ** src/src/services/solana.rs *)

Module SolanaTests.
(** [Pubkey::from_str(s).expect(..)]; the texts of the tests are keys. *)
Definition parsed (s : string) : Pubkey := default (fill 32 xff) (pubkey_from_str s).
Definition default_pubkey : Pubkey := fill 32 x00.

Definition test_derive_agreement_pda_known_inputs_matches_expected_address : bool :=
  let creator := parsed "11111111111111111111111111111111" in
  let agreement_id := padded 16
    [x00; x11; x22; x33; x44; x55; x66; x77; x88; x99; xaa; xbb; xcc; xdd; xee; xff] in
  let agreement_pda := fst (derive_agreement_pda creator agreement_id) in
  assert_eq (pubkey_to_string agreement_pda) "7o9qRddPDf63hvEnCG1ARvcnLYGkRcKs8AZuU99p1Lbn".

Definition test_derive_collection_state_pda_matches_expected : bool :=
  let creator := parsed "11111111111111111111111111111111" in
  assert_ne (fst (derive_collection_state_pda creator)) default_pubkey.

Definition test_derive_pda_authority_includes_vault_funder : bool :=
  let vault_funder := parsed "11111111111111111111111111111111" in
  let authority1 := fst (derive_pda_authority vault_funder) in
  let authority2 := fst (derive_pda_authority (key x01)) in
  assert_ne authority1 authority2 && assert_ne authority1 default_pubkey.

Definition test_all_pda_derivations_complete_without_panicking : bool :=
  let creator := key x01 in
  let agreement_id := fill 16 x07 in
  let vault_funder := key x02 in
  assert_ne (fst (derive_agreement_pda creator agreement_id)) default_pubkey
  && assert_ne (fst (derive_collection_state_pda creator)) default_pubkey
  && assert_ne (fst (derive_pda_authority vault_funder)) default_pubkey.

Definition test_compute_discriminator_create_agreement_matches_expected_bytes : bool :=
  assert_eq (compute_discriminator "create_agreement") [xdc; x9c; x41; xac; xfc; x44; x4a; xe9].

Definition test_discriminator_constants_are_eight_bytes_each : bool :=
  assert_eq (length CREATE_AGREEMENT_DISCRIMINATOR) 8%nat
  && assert_eq (length SIGN_AGREEMENT_DISCRIMINATOR) 8%nat
  && assert_eq (length CANCEL_AGREEMENT_DISCRIMINATOR) 8%nat
  && assert_eq (length EXPIRE_AGREEMENT_DISCRIMINATOR) 8%nat
  && assert_eq (length VOTE_REVOKE_DISCRIMINATOR) 8%nat
  && assert_eq (length RETRACT_REVOKE_VOTE_DISCRIMINATOR) 8%nat
  && assert_eq (length INITIALIZE_COLLECTION_DISCRIMINATOR) 8%nat.

Definition test_discriminator_constants_match_computed_values : bool :=
  assert_eq CREATE_AGREEMENT_DISCRIMINATOR (compute_discriminator "create_agreement")
  && assert_eq SIGN_AGREEMENT_DISCRIMINATOR (compute_discriminator "sign_agreement")
  && assert_eq CANCEL_AGREEMENT_DISCRIMINATOR (compute_discriminator "cancel_agreement")
  && assert_eq EXPIRE_AGREEMENT_DISCRIMINATOR (compute_discriminator "expire_agreement")
  && assert_eq VOTE_REVOKE_DISCRIMINATOR (compute_discriminator "vote_revoke")
  && assert_eq RETRACT_REVOKE_VOTE_DISCRIMINATOR (compute_discriminator "retract_revoke_vote")
  && assert_eq INITIALIZE_COLLECTION_DISCRIMINATOR (compute_discriminator "initialize_collection").

Definition test_build_anchor_instruction_builds_expected_payload : bool :=
  let program_id := key x01 in
  let discriminator := CREATE_AGREEMENT_DISCRIMINATOR in
  let accounts := [meta_new (key x02) true; meta_new_readonly (key x03) false] in
  let args_data := [x09; x08; x07; x06] in
  let ix := build_anchor_instruction program_id discriminator accounts args_data in
  assert_eq (ix_program_id ix) program_id
  && assert_eq (ix_accounts ix) accounts
  && assert_eq (length (ix_data ix)) (length discriminator + length args_data)%nat
  && assert_eq (take 8 (ix_data ix)) discriminator
  && assert_eq (drop 8 (ix_data ix)) args_data.

Definition test_program_id_constant_parses : bool :=
  assert_eq (pubkey_to_string pactum_program_pubkey) PROGRAM_ID.

Definition test_mpl_core_program_id_matches_idl : bool :=
  assert_eq MPL_CORE_PROGRAM_ID (parsed "CoREENxT6tW1HoK8ypY1SxRMZTcVPm7R94rH4PZNhX7d").

Definition tests : list bool :=
  [ test_derive_agreement_pda_known_inputs_matches_expected_address;
    test_derive_collection_state_pda_matches_expected;
    test_derive_pda_authority_includes_vault_funder;
    test_all_pda_derivations_complete_without_panicking;
    test_compute_discriminator_create_agreement_matches_expected_bytes;
    test_discriminator_constants_are_eight_bytes_each;
    test_discriminator_constants_match_computed_values;
    test_build_anchor_instruction_builds_expected_payload; test_program_id_constant_parses;
    test_mpl_core_program_id_matches_idl ].
End SolanaTests.

Lemma solana_tests_pass : all_hold SolanaTests.tests = true.
Proof. vm_compute. reflexivity. Qed.

(** ** src/src/services/hash.rs *)

Module HashTests.
Definition test_compute_sha256_empty_string : bool :=
  let expected :=
    [xe3; xb0; xc4; x42; x98; xfc; x1c; x14; x9a; xfb; xf4; xc8; x99; x6f; xb9; x24;
     x27; xae; x41; xe4; x64; x9b; x93; x4c; xa4; x95; x99; x1b; x78; x52; xb8; x55] in
  assert_eq (bn_bytes (compute_sha256 [])) expected.

Definition test_verify_client_hash_correct : bool :=
  let client_hash_hex := "916f0027a575074ce72a331777c3478d6513f786a591bd892da1a577bf2335f9" in
  unwrapped (verify_client_hash (as_bytes "test data") client_hash_hex) (fun hash =>
    negb (Nat.eqb (length (bn_bytes hash)) 0)).

Definition test_verify_client_hash_mismatch : bool :=
  let wrong_hash_hex := "0000000000000000000000000000000000000000000000000000000000000000" in
  match verify_client_hash (as_bytes "test data") wrong_hash_hex with
  | Err HashMismatch => true | _ => false end.

Definition test_verify_client_hash_invalid_hex : bool :=
  match verify_client_hash (as_bytes "test data") "not_a_valid_hex_string" with
  | Err InvalidHash => true | _ => false end.

Definition tests : list bool :=
  [ test_compute_sha256_empty_string; test_verify_client_hash_correct;
    test_verify_client_hash_mismatch; test_verify_client_hash_invalid_hex ].
End HashTests.

Lemma hash_tests_pass : all_hold HashTests.tests = true.
Proof. vm_compute. reflexivity. Qed.

(** ** src/src/services/crypto.rs *)

Module CryptoTests.
(** The assertions on the two results of an encryption at tick [n]. *)
Definition encrypted (n : nat) (plaintext : string) (key : bytesN 32)
    (check : bytes -> bytesN 12 -> bool) : bool :=
  let _ := env_demo in
  unwrapped (fst (encrypt plaintext key (mkWorld db_empty n (PH.new PH.Healthy) [] ∅ [])))
    (fun r => some_and (to_bytesN 12 (snd r)) (check (fst r))).

Definition test_encrypt_decrypt_roundtrip : bool :=
  let plaintext := "test@example.com" in
  let key := fill 32 x2a in
  encrypted 0 plaintext key (fun ciphertext nonce =>
    unwrapped (decrypt ciphertext nonce key) (fun decrypted => assert_eq decrypted plaintext)).

Definition test_random_nonce_produces_different_ciphertexts : bool :=
  let plaintext := "test@example.com" in
  let key := fill 32 x2a in
  encrypted 0 plaintext key (fun ciphertext1 nonce1 =>
    encrypted 1 plaintext key (fun ciphertext2 nonce2 =>
      assert_ne (bn_bytes nonce1) (bn_bytes nonce2) && assert_ne ciphertext1 ciphertext2)).

Definition test_decrypt_with_wrong_key_fails : bool :=
  let plaintext := "test@example.com" in
  let correct_key := fill 32 x2a in
  let wrong_key := fill 32 x63 in
  encrypted 0 plaintext correct_key (fun ciphertext nonce =>
    match decrypt ciphertext nonce wrong_key with Err DecryptionFailed => true | _ => false end).

Definition test_decrypt_invalid_utf8_fails : bool :=
  let key := fill 32 x2a in
  let plaintext := "test" in
  encrypted 0 plaintext key (fun ciphertext nonce =>
    let ciphertext := match ciphertext with c :: cs => xor_byte c xff :: cs | [] => [] end in
    negb (is_ok (decrypt ciphertext nonce key))).

Definition test_hmac_index_is_deterministic : bool :=
  let value := "test@example.com" in
  let key := fill 32 x2a in
  let hash1 := hmac_index value key in
  let hash2 := hmac_index value key in
  assert_eq hash1 hash2.

Definition test_hmac_index_different_values_produce_different_hashes : bool :=
  let key := fill 32 x2a in
  let hash1 := hmac_index "test1@example.com" key in
  let hash2 := hmac_index "test2@example.com" key in
  assert_ne hash1 hash2.

Definition test_hmac_index_same_value_different_key_produces_different_hash : bool :=
  let value := "test@example.com" in
  let hash1 := hmac_index value (fill 32 x2a) in
  let hash2 := hmac_index value (fill 32 x63) in
  assert_ne hash1 hash2.

Definition tests : list bool :=
  [ test_encrypt_decrypt_roundtrip; test_random_nonce_produces_different_ciphertexts;
    test_decrypt_with_wrong_key_fails; test_decrypt_invalid_utf8_fails;
    test_hmac_index_is_deterministic;
    test_hmac_index_different_values_produce_different_hashes;
    test_hmac_index_same_value_different_key_produces_different_hash ].
End CryptoTests.

Lemma crypto_tests_pass : all_hold CryptoTests.tests = true.
Proof. vm_compute. reflexivity. Qed.

(** ** src/src/services/jwt.rs

    Tokens are the ones of Concrete.v, and the clock stands still between the
    issue and the decoding. *)

Module JwtTests.
Definition create_test_config : Config :=
  mkConfig
    "postgres://localhost/test" "http://localhost:8899" "ws://localhost:8900"
    "11111111111111111111111111111111" "test_secret_that_is_long_enough_for_jwt" 900 604800
    "test_encryption_key_long_enough_for_aes" "test_index_key" "test" "test"
    "http://localhost/callback" "test" "test" "http://localhost/callback" "common" "test"
    "test@example.com" "http://localhost" 604800 259200 199 3 10 "test" "/tmp/test" "test"
    "/tmp/test" f64_half f64_tenth 50 20000000 50000000 "test"
    (mkRegistry
      (mkStablecoin "usdc" "EPjFWdd5AufqSSqeM2qN1xzybapC8G4wEGGkZwyTDt1v" "test" 6)
      (mkStablecoin "usdt" "Es9vMFrzaCERmJfrF4H2FYD4KCoNkY11McCe8BenwNYB" "test" 6)
      (mkStablecoin "pyusd" "2b1kV6DkPAnxd5ixfnxCpjxmKwqjjaYmCZfHsFu24GXo" "test" 6))
    "test" "gateway.pinata.cloud" "/tmp/test" 8080 "localhost".

Definition user_id : Uuid := uid x01.

(** A token is issued with [pubkey], decoded, and its claims are checked. *)
Definition issue_and_decode (config : Config) (pubkey : option string)
    (check : string -> Claims -> bool) : bool :=
  let _ := env_demo in
  unwrapped (outcome (
    let* token := issue_access_token config user_id pubkey in
    let* claims := decode_access_token config token in
    ret (check token claims))) (fun b => b).

Definition test_sha256_hex_produces_correct_hash : bool :=
  let input := "test_refresh_token_value" in
  let hash := sha256_hex input in
  let hash2 := sha256_hex input in
  let hash3 := sha256_hex "different_input" in
  assert_eq (String.length hash) 64%nat && string_forallb is_ascii_hexdigit hash
  && assert_eq hash hash2 && assert_ne hash hash3.

Definition test_issue_and_decode_access_token_roundtrip : bool :=
  let config := create_test_config in
  let pubkey := Some "5HpHagT65TZzG1PH3CSu63k8DbpvD8s5ip6w3MubKHk" in
  issue_and_decode config pubkey (fun token claims =>
    negb (String.eqb token "")
    && assert_eq (cl_sub claims) user_id && assert_eq (cl_pubkey claims) pubkey
    && (cl_iat claims <? cl_exp claims)
    && assert_eq (cl_exp claims - cl_iat claims) (cfg_jwt_access_expiry_seconds config)).

Definition test_issue_access_token_without_pubkey : bool :=
  issue_and_decode create_test_config None (fun _ claims =>
    assert_eq (cl_sub claims) user_id && assert_eq (cl_pubkey claims) None).

Definition test_decode_expired_token_returns_unauthorized : bool :=
  let _ := env_demo in
  let config := create_test_config in
  let now := app_now 0 in
  let expired_claims := mkClaims user_id None (now - 1) (now - 100) (uid x02) in
  some_and (jwt_encode (cfg_jwt_secret config) expired_claims) (fun token =>
    match outcome (decode_access_token config token) with Err Unauthorized => true | _ => false end).

(** [config] with another secret, and with another life time of tokens. *)
Definition with_secret (config : Config) (secret : string) : Config :=
  let '(mkConfig a b c d _ f g h i j k l m n o p q r s t u v w x y z a1 b1 c1 d1 e1 f1 g1 h1 i1 j1 k1
          l1 m1 n1) := config in
  mkConfig a b c d secret f g h i j k l m n o p q r s t u v w x y z a1 b1 c1 d1 e1 f1 g1 h1 i1 j1 k1
    l1 m1 n1.
Definition with_access_expiry (config : Config) (seconds : Z) : Config :=
  let '(mkConfig a b c d e _ g h i j k l m n o p q r s t u v w x y z a1 b1 c1 d1 e1 f1 g1 h1 i1 j1 k1
          l1 m1 n1) := config in
  mkConfig a b c d e seconds g h i j k l m n o p q r s t u v w x y z a1 b1 c1 d1 e1 f1 g1 h1 i1 j1 k1
    l1 m1 n1.

Definition test_decode_token_with_wrong_secret_returns_unauthorized : bool :=
  let _ := env_demo in
  let config := create_test_config in
  let wrong_config := with_secret config "wrong_secret_that_is_long_enough" in
  unwrapped (outcome (issue_access_token config user_id None)) (fun token =>
    match outcome (decode_access_token wrong_config token) with
    | Err Unauthorized => true | _ => false end).

Definition test_issue_access_token_contains_unique_jti : bool :=
  let _ := env_demo in
  let config := create_test_config in
  unwrapped (outcome (
    let* token1 := issue_access_token config user_id None in
    let* token2 := issue_access_token config user_id None in
    let* claims1 := decode_access_token config token1 in
    let* claims2 := decode_access_token config token2 in
    ret (assert_ne (cl_jti claims1) (cl_jti claims2)))) (fun b => b).

Definition test_sha256_hex_known_values : bool :=
  assert_eq (sha256_hex "") "e3b0c44298fc1c149afbf4c8996fb92427ae41e4649b934ca495991b7852b855"
  && assert_eq (sha256_hex "test") "9f86d081884c7d659a2feaa0c55ad015a3bf4f1b2b0b822cd15d6c15b0f00a08".

Definition test_issue_access_token_respects_config_expiry : bool :=
  let config := with_access_expiry create_test_config 1800 in
  issue_and_decode config None (fun _ claims =>
    assert_eq (cl_exp claims - cl_iat claims) 1800).

Definition tests : list bool :=
  [ test_sha256_hex_produces_correct_hash; test_issue_and_decode_access_token_roundtrip;
    test_issue_access_token_without_pubkey; test_decode_expired_token_returns_unauthorized;
    test_decode_token_with_wrong_secret_returns_unauthorized;
    test_issue_access_token_contains_unique_jti; test_sha256_hex_known_values;
    test_issue_access_token_respects_config_expiry ].
End JwtTests.

Lemma jwt_tests_pass : all_hold JwtTests.tests = true.
Proof. vm_compute. reflexivity. Qed.

(** ** src/src/services/metadata.rs *)

Module MetadataTests.
Definition create_test_agreement : AgreementStateWire :=
  mkAgreementState (fill 32 x00)
    (padded 16 [x01; x02; x03; x04; x05; x06; x07; x08; x00; x00; x00; x00; x00; x00; x00; x00])
    (fill 32 x00) "Test Agreement" "ar://test_content_tx_id" Arweave
    [fill 32 x01; fill 32 x02] [fill 32 x01] [1000] PendingSignatures 1000 2000 None None None
    (fill 32 x00) (fill 32 x00) [] [] x00.

(** [metadata.get(key).unwrap().as_str().unwrap()] *)
Definition text_of (k : string) (j : json) : option string := json_get k j ≫= json_as_str.
Definition metadata (pda : string) : json := build_metadata_json create_test_agreement pda.
(** The attribute with the given trait. *)
Definition find_trait (name : string) : option json :=
  List.find (fun a => assert_eq (text_of "trait_type" a) (Some name))
    (build_attributes create_test_agreement).

Definition test_build_metadata_json_contains_required_fields : bool :=
  let m := metadata "test_pda_address" in
  is_some (json_get "name" m) && is_some (json_get "description" m)
  && is_some (json_get "image" m) && is_some (json_get "animation_url" m)
  && is_some (json_get "external_url" m) && is_some (json_get "attributes" m).

Definition test_build_metadata_json_name_includes_id_and_title : bool :=
  some_and (text_of "name" (metadata "test_pda_address")) (fun name =>
    starts_with "Pactum #" name && contains "Test Agreement" name).

Definition test_build_metadata_json_image_contains_seal_tx_id : bool :=
  some_and (text_of "image" (metadata "test_pda_address")) (fun image =>
    assert_eq image ("ar://" +:+ PACTUM_SEAL_TX_ID)).

Definition test_build_metadata_json_animation_url_uses_storage_uri : bool :=
  some_and (text_of "animation_url" (metadata "test_pda_address")) (fun animation_url =>
    contains "ar://test_content_tx_id" animation_url).

Definition test_build_metadata_json_external_url_includes_pda : bool :=
  some_and (text_of "external_url" (metadata "my_pda_address")) (fun external_url =>
    contains "my_pda_address" external_url
    && starts_with "https://pactum.app/agreement/" external_url).

Definition test_build_attributes_contains_status : bool :=
  some_and (find_trait "Status") (fun a => is_some (json_get "value" a)).

Definition test_build_attributes_contains_parties_count : bool :=
  some_and (find_trait "Parties" ≫= text_of "value") (fun value => assert_eq value "2").

Definition test_build_attributes_contains_storage_backend : bool :=
  is_some (find_trait "Storage Backend").

Definition tests : list bool :=
  [ test_build_metadata_json_contains_required_fields;
    test_build_metadata_json_name_includes_id_and_title;
    test_build_metadata_json_image_contains_seal_tx_id;
    test_build_metadata_json_animation_url_uses_storage_uri;
    test_build_metadata_json_external_url_includes_pda; test_build_attributes_contains_status;
    test_build_attributes_contains_parties_count;
    test_build_attributes_contains_storage_backend ].
End MetadataTests.

Lemma metadata_tests_pass : all_hold MetadataTests.tests = true.
Proof. vm_compute. reflexivity. Qed.

(** ** src/src/services/storage.rs

    The mock answers its calls with the given responses in turn; what the calls
    counted is in the effects of the world.  A response too few is an error. *)

Module StorageTests.
Definition is_ipfs_call (e : Effect) : bool :=
  match e with EIpfsPosted _ => true | _ => false end.
Definition is_arweave_call (e : Effect) : bool :=
  match e with EArweavePosted _ _ => true | _ => false end.
Definition ipfs_call_count (w : World) : nat :=
  length (List.filter is_ipfs_call (w_effects w)).
Definition arweave_call_count (w : World) : nat :=
  length (List.filter is_arweave_call (w_effects w)).
Definition arweave_wallet_sizes (w : World) : list nat :=
  List.flat_map (fun e => match e with EArweavePosted wallet _ => [length wallet] | _ => [] end)
    (w_effects w).
Definition latest_arweave_wallet_size (w : World) : option nat := last (arweave_wallet_sizes w).

Definition respond (responses : list (result AppError json)) (n : nat) : result AppError json :=
  nth n responses (Err InternalError).

Definition MockStorageHttpClient (ipfs_responses arweave_responses : list (result AppError json))
    : StorageHttpClient := {|
  post_ipfs := fun _ _ data w =>
    (respond ipfs_responses (ipfs_call_count w), with_effect (EIpfsPosted data) w);
  post_arweave := fun _ wallet_json data w =>
    (respond arweave_responses (arweave_call_count w),
     with_effect (EArweavePosted wallet_json data) w);
|}.

Definition test_config (arweave_wallet_path : string) : Config :=
  mkConfig
    "postgres://localhost/test" "https://api.devnet.solana.com" "wss://api.devnet.solana.com"
    "DF1cHTN9EE8Qonda1esTeYvFjmbYcoc52vDTjTMKvS1P" "secret" 900 604800 "encryption_key"
    "encryption_index_key" "google_client_id" "google_client_secret"
    "https://api.pactum.app/auth/oauth/google/callback" "microsoft_client_id"
    "microsoft_client_secret" "https://api.pactum.app/auth/oauth/microsoft/callback" "common"
    "resend_api_key" "noreply@pactum.app" "https://app.pactum.app/invite" 604800 259200 199 3 10
    "vault_pubkey" "/tmp/vault.json" "treasury_pubkey" "/tmp/treasury.json" f64_half f64_tenth 50
    20000000 50000000 "sweep_dest"
    (mkRegistry
      (mkStablecoin "usdc" "usdc_mint" "usdc_ata" 6)
      (mkStablecoin "usdt" "usdt_mint" "usdt_ata" 6)
      (mkStablecoin "pyusd" "pyusd_mint" "pyusd_ata" 6))
    "pinata_jwt" "gateway.pinata.cloud" arweave_wallet_path 8080 "0.0.0.0".

(** A call with the wallet file at the configured path. *)
Definition wallet_path : string := "/tmp/pactum-storage-wallet-1.json".
Definition with_wallet (wallet : string)
    (call : Env -> Config -> M World AppError string) : result AppError string * World :=
  call (env_test (one_file wallet_path (as_bytes (quoted wallet))) true "" "")
    (test_config wallet_path) empty_world.

Definition test_upload_document_dispatches_to_ipfs : bool :=
  let mock := MockStorageHttpClient
    [Ok (JObj [("data", JObj [("cid", JStr "bafy123"); ("id", JStr "test-file-id"); ("size", JNum 5)])])]
    [] in
  let '(result, w) := with_wallet "{'kty':'RSA'}" (fun _ config =>
    upload_document_with_client "ipfs" (as_bytes "hello") config) in
  unwrapped result (fun uri => assert_eq uri "ipfs://bafy123")
  && assert_eq (ipfs_call_count w) 1%nat && assert_eq (arweave_call_count w) 0%nat.

Definition test_upload_document_dispatches_to_arweave : bool :=
  let wallet_content := "{'kty':'RSA','n':'abc'}" in
  let mock := MockStorageHttpClient [] [Ok (JObj [("id", JStr "ar_tx_123")])] in
  let '(result, w) := with_wallet wallet_content (fun _ config =>
    upload_document_with_client "arweave" (as_bytes "hello") config) in
  unwrapped result (fun uri => assert_eq uri "ar://ar_tx_123")
  && assert_eq (ipfs_call_count w) 0%nat && assert_eq (arweave_call_count w) 1%nat
  && assert_eq (latest_arweave_wallet_size w) (Some (String.length wallet_content)).

Definition test_upload_document_unknown_backend_returns_error : bool :=
  let mock := MockStorageHttpClient [] [] in
  let '(result, _) := with_wallet "{'kty':'RSA'}" (fun _ config =>
    upload_document_with_client "unknown" (as_bytes "hello") config) in
  match result with Err PaymentMethodUnsupported => true | _ => false end.

Definition test_upload_to_ipfs_http_error_returns_upload_failed : bool :=
  let mock := MockStorageHttpClient [Err UploadFailed] [] in
  let '(result, w) := with_wallet "{'kty':'RSA'}" (fun _ config =>
    upload_to_ipfs_with_client (as_bytes "hello") config) in
  match result with Err UploadFailed => true | _ => false end
  && assert_eq (ipfs_call_count w) 1%nat.

Definition test_upload_to_arweave_http_error_returns_upload_failed : bool :=
  let mock := MockStorageHttpClient [] [Err UploadFailed] in
  let '(result, w) := with_wallet "{'kty':'RSA'}" (fun _ config =>
    upload_to_arweave_with_client (as_bytes "hello") config) in
  match result with Err UploadFailed => true | _ => false end
  && assert_eq (arweave_call_count w) 1%nat.

Definition test_upload_to_arweave_wallet_read_error_returns_internal_error : bool :=
  let _ := env_test no_files true "" "" in
  let config := test_config "/tmp/pactum-storage-wallet-missing.json" in
  let mock := MockStorageHttpClient [] [] in
  let '(result, w) := upload_to_arweave_with_client (as_bytes "hello") config empty_world in
  match result with Err InternalError => true | _ => false end
  && assert_eq (arweave_call_count w) 0%nat.

Definition test_get_ipfs_gateway_url : bool :=
  let config := test_config wallet_path in
  assert_eq (get_ipfs_gateway_url "bafy123" config) "https://gateway.pinata.cloud/ipfs/bafy123"
  && assert_eq (get_ipfs_gateway_url "ipfs://bafy456" config)
       "https://gateway.pinata.cloud/ipfs/bafy456".

Definition tests : list bool :=
  [ test_upload_document_dispatches_to_ipfs; test_upload_document_dispatches_to_arweave;
    test_upload_document_unknown_backend_returns_error;
    test_upload_to_ipfs_http_error_returns_upload_failed;
    test_upload_to_arweave_http_error_returns_upload_failed;
    test_upload_to_arweave_wallet_read_error_returns_internal_error;
    test_get_ipfs_gateway_url ].
End StorageTests.

Lemma storage_tests_pass : all_hold StorageTests.tests = true.
Proof. vm_compute. reflexivity. Qed.

(** ** src/src/services/keypair_security.rs

    The file of a test is in the environment. *)

Module KeypairTests.
(** The bytes of a keypair as a JSON array, and the loading of a file with
    the given text. *)
Definition keypair_bytes : bytesN 64 := padded 64 (map byte_of_Z (map Z.of_nat (seq 1 64))).
Definition json_array (l : bytes) : string :=
  "[" +:+ String.concat "," (map (fun b => dec_of_Z (Z_of_byte b)) l) +:+ "]".
Definition load_file (content : string) : result AppError Pubkey :=
  let path := "/tmp/test_keypair.json" in
  let _ := env_test (one_file path (as_bytes content)) true "" "" in
  outcome (load_keypair path).
Definition load_failed (result : result AppError Pubkey) : bool :=
  match result with Err (KeypairLoadFailed _) => true | _ => false end.

Definition test_load_valid_keypair : bool :=
  unwrapped (load_file (json_array (bn_bytes keypair_bytes))) (fun loaded =>
    unwrapped (keypair_from_bytes keypair_bytes) (fun test_keypair =>
      assert_eq (pubkey_to_string loaded) (pubkey_to_string test_keypair))).

Definition test_load_invalid_json : bool := load_failed (load_file "invalid json content").

Definition test_load_file_not_found : bool :=
  let _ := env_test no_files true "" "" in
  load_failed (outcome (load_keypair "/nonexistent/path/to/keypair.json")).

Definition test_load_invalid_keypair_bytes : bool :=
  load_failed (load_file (json_array (repeat x00 32))).

Definition tests : list bool :=
  [ test_load_valid_keypair; test_load_invalid_json; test_load_file_not_found;
    test_load_invalid_keypair_bytes ].
End KeypairTests.

Lemma keypair_tests_pass : all_hold KeypairTests.tests = true.
Proof. vm_compute. reflexivity. Qed.

(** ** src/src/services/notification.rs *)

Module NotificationTests.
Definition test_notification_event_enum_has_all_13_types : bool :=
  let events :=
    [ NE.AgreementCreated; NE.Signed; NE.Completed; NE.Cancelled; NE.Expired; NE.RevokeVote;
      NE.Revoked; NE.DraftReadyToSubmit; NE.InvitationExpired; NE.InvitationReminder;
      NE.PaymentConfirmed; NE.RefundInitiated; NE.RefundCompleted ] in
  assert_eq (length events) 13%nat.

Definition test_notification_event_as_str : bool :=
  assert_eq (NE.as_str NE.AgreementCreated) "AgreementCreated"
  && assert_eq (NE.as_str NE.Completed) "Completed"
  && assert_eq (NE.as_str NE.RefundCompleted) "RefundCompleted".

Definition test_notification_event_subject : bool :=
  assert_eq (NE.subject NE.AgreementCreated) "You've been invited to sign an agreement"
  && assert_eq (NE.subject NE.Completed) "Agreement fully signed — credential minted".

(** The job of the tests, with the given type and subject. *)
Definition job (event_type agreement_pda : string) : NotificationRow :=
  mkNotification (uid x01) event_type agreement_pda "test_pubkey" "pending" 0 0 0.

Definition test_build_ws_event_agreement_created : bool :=
  match build_ws_event (job "AgreementCreated" "test_pda") with
  | WsAgreementCreated agreement_pda => assert_eq agreement_pda "test_pda" | _ => false end.

Definition test_build_ws_event_revoke_vote : bool :=
  match build_ws_event (job "RevokeVote" "vote_pda") with
  | WsAgreementRevokeVote agreement_pda => assert_eq agreement_pda "vote_pda" | _ => false end.

Definition test_build_ws_event_invitation_expired : bool :=
  match build_ws_event (job "InvitationExpired" "draft_123") with
  | WsDraftInvitationExpired draft_id => assert_eq draft_id "draft_123" | _ => false end.

Definition tests : list bool :=
  [ test_notification_event_enum_has_all_13_types; test_notification_event_as_str;
    test_notification_event_subject; test_build_ws_event_agreement_created;
    test_build_ws_event_revoke_vote; test_build_ws_event_invitation_expired ].
End NotificationTests.

Lemma notification_tests_pass : all_hold NotificationTests.tests = true.
Proof. vm_compute. reflexivity. Qed.

(** ** src/src/workers/notification_worker.rs *)

Module NotificationWorkerTests.
Definition transition_to_degraded_marks_shared_process_health : bool :=
  let process_health := PH.new PH.Healthy in
  let '(status, process_health) := transition_to_degraded Healthy process_health in
  assert_eq status Degraded && assert_eq (PH.current process_health) PH.Degraded.

Definition transition_to_healthy_restores_worker_status_after_recovery : bool :=
  assert_eq (transition_to_healthy Degraded) Healthy.

Definition tests : list bool :=
  [ transition_to_degraded_marks_shared_process_health;
    transition_to_healthy_restores_worker_status_after_recovery ].
End NotificationWorkerTests.

Lemma notification_worker_tests_pass : all_hold NotificationWorkerTests.tests = true.
Proof. vm_compute. reflexivity. Qed.

(** ** src/src/workers/event_listener.rs *)

Module ListenerTests.
(** The loops of the tests: a run that ends and one that fails degrade the
    worker alike; the second loop recovers first, and records each status. *)
Fixpoint drive (status : WorkerStatus) (process_health : PH.ProcessHealthState)
    (scripted_results : list (result string unit)) : WorkerStatus * PH.ProcessHealthState * list Z :=
  match scripted_results with
  | [] => (status, process_health, [])
  | _ :: rest =>
      let '(status, process_health) := transition_to_degraded status process_health in
      let '(final, backoffs) := drive status process_health rest in
      (final, 5 :: backoffs)
  end.

Definition drive_reconnect_loop (scripted_results : list (result string unit))
    : WorkerStatus * PH.ProcessHealth * list Z :=
  let '(status, process_health, backoffs) := drive Healthy (PH.new PH.Healthy) scripted_results in
  (status, PH.current process_health, backoffs).

Fixpoint drive_recovering (status : WorkerStatus) (process_health : PH.ProcessHealthState)
    (scripted_results : list (result string unit))
    : list WorkerStatus * WorkerStatus * PH.ProcessHealthState * list Z :=
  match scripted_results with
  | [] => ([], status, process_health, [])
  | _ :: rest =>
      let healthy := transition_to_healthy status in
      let '(degraded, process_health) := transition_to_degraded healthy process_health in
      let '(timeline, final, process_health, backoffs) :=
        drive_recovering degraded process_health rest in
      (healthy :: degraded :: timeline, final, process_health, 5 :: backoffs)
  end.

Definition drive_reconnect_loop_with_recovery (starting_status : WorkerStatus)
    (scripted_results : list (result string unit))
    : list WorkerStatus * WorkerStatus * PH.ProcessHealth * list Z :=
  let '(timeline, status, process_health, backoffs) :=
    drive_recovering starting_status (PH.new PH.Healthy) scripted_results in
  (timeline, status, PH.current process_health, backoffs).

Definition transition_to_degraded_marks_shared_process_health : bool :=
  let process_health := PH.new PH.Healthy in
  let '(status, process_health) := transition_to_degraded Healthy process_health in
  assert_eq status Degraded && assert_eq (PH.current process_health) PH.Degraded.

Definition transition_to_healthy_restores_worker_status_after_reconnect : bool :=
  assert_eq (transition_to_healthy Degraded) Healthy.

Definition listener_retries_after_subscription_ends : bool :=
  let '(final_status, process_health, backoffs) :=
    drive_reconnect_loop [Ok tt; Err "rpc unavailable"] in
  assert_eq (length backoffs) 2%nat && forallb (Z.eqb 5) backoffs
  && assert_eq final_status Degraded && assert_eq process_health PH.Degraded.

Definition subscription_termination_returns_control_to_reconnect_owner : bool :=
  let '(_, final_status, process_health, backoffs) :=
    drive_reconnect_loop_with_recovery Healthy [Ok tt; Ok tt] in
  assert_eq (length backoffs) 2%nat
  && assert_eq final_status Degraded && assert_eq process_health PH.Degraded.

Definition reconnect_preserves_healthy_degraded_healthy_transition_model : bool :=
  let '(status_timeline, _, process_health, _) :=
    drive_reconnect_loop_with_recovery Degraded [Err "rpc unavailable"; Ok tt] in
  assert_eq status_timeline [Healthy; Degraded; Healthy; Degraded]
  && assert_eq process_health PH.Degraded.

Definition reconnect_backoff_remains_five_seconds_for_each_attempt : bool :=
  let '(_, _, _, backoffs) := drive_reconnect_loop_with_recovery Degraded
    [Ok tt; Err "rpc unavailable"; Ok tt; Err "rpc unavailable"] in
  assert_eq backoffs [5; 5; 5; 5].

Definition tests : list bool :=
  [ transition_to_degraded_marks_shared_process_health;
    transition_to_healthy_restores_worker_status_after_reconnect;
    listener_retries_after_subscription_ends;
    subscription_termination_returns_control_to_reconnect_owner;
    reconnect_preserves_healthy_degraded_healthy_transition_model;
    reconnect_backoff_remains_five_seconds_for_each_attempt ].
End ListenerTests.

Lemma listener_tests_pass : all_hold ListenerTests.tests = true.
Proof. vm_compute. reflexivity. Qed.

(** ** src/src/workers/expiry_worker.rs *)

Module ExpiryTests.
Definition submit_transaction_rpc_returns_solana_rpc_error_on_invalid_rpc_url : bool :=
  let _ := env_test no_files false "" "" in
  let transaction := mkTransaction [] (fill 32 x00) [] (fill 32 x00) in
  match outcome (submit_transaction_rpc transaction) with Err SolanaRpcError => true | _ => false end.

Definition sql_and_rpc_failures_map_to_degraded_status : bool :=
  assert_eq (suggested_status RpcUnavailable) Degraded
  && assert_eq (suggested_status RetryBackoff) Degraded.

Definition degraded_status_marks_process_health_for_expiry_worker_failures : bool :=
  let '(status, process_health) := status_for_reason (PH.new PH.Healthy) RetryBackoff in
  assert_eq status Degraded && assert_eq (PH.current process_health) PH.Degraded.

Definition tests : list bool :=
  [ submit_transaction_rpc_returns_solana_rpc_error_on_invalid_rpc_url;
    sql_and_rpc_failures_map_to_degraded_status;
    degraded_status_marks_process_health_for_expiry_worker_failures ].
End ExpiryTests.

Lemma expiry_tests_pass : all_hold ExpiryTests.tests = true.
Proof. vm_compute. reflexivity. Qed.

(** ** src/src/workers/refund_worker.rs *)

Module RefundWorkerTests.
Definition sql_query_failure_reason_surfaces_degraded_status : bool :=
  assert_eq (suggested_status RpcUnavailable) Degraded.
Definition rpc_retry_failure_reason_surfaces_degraded_status : bool :=
  assert_eq (suggested_status RetryBackoff) Degraded.
Definition degraded_status_marks_process_health_for_refund_worker_failures : bool :=
  let '(status, process_health) := status_for_reason (PH.new PH.Healthy) RpcUnavailable in
  assert_eq status Degraded && assert_eq (PH.current process_health) PH.Degraded.

Definition tests : list bool :=
  [ sql_query_failure_reason_surfaces_degraded_status;
    rpc_retry_failure_reason_surfaces_degraded_status;
    degraded_status_marks_process_health_for_refund_worker_failures ].
End RefundWorkerTests.

Lemma refund_worker_tests_pass : all_hold RefundWorkerTests.tests = true.
Proof. vm_compute. reflexivity. Qed.

(** ** src/src/workers/keeper.rs *)

Module KeeperTests.
Definition circuit_breaker_status_disables_keeper_when_vault_sol_too_low : bool :=
  assert_eq (circuit_breaker_status f64_tenth f64_half) (Some (Disabled, CircuitBreakerTripped)).

Definition circuit_breaker_status_keeps_keeper_healthy_when_balance_is_sufficient : bool :=
  assert_eq (circuit_breaker_status f64_one f64_half) None.

Definition circuit_breaker_path_marks_process_health_degraded_without_process_exit : bool :=
  let '(maybe_status, process_health) :=
    match circuit_breaker_status f64_tenth f64_half with
    | Some (status, _) => (Some status, PH.mark_degraded (PH.new PH.Healthy))
    | None => (None, PH.new PH.Healthy)
    end in
  assert_eq maybe_status (Some Disabled) && assert_eq (PH.current process_health) PH.Degraded.

Definition sweep_config_query_error_path_skips_sweep_without_panic : bool :=
  assert_eq (should_sweep_from_query_result (Err "RowNotFound")) None.

Definition tests : list bool :=
  [ circuit_breaker_status_disables_keeper_when_vault_sol_too_low;
    circuit_breaker_status_keeps_keeper_healthy_when_balance_is_sufficient;
    circuit_breaker_path_marks_process_health_degraded_without_process_exit;
    sweep_config_query_error_path_skips_sweep_without_panic ].
End KeeperTests.

Lemma keeper_tests_pass : all_hold KeeperTests.tests = true.
Proof. vm_compute. reflexivity. Qed.
